(* ===== verification/_CoqProject ===== *)
-Q . S2P
Prelude.v
Buffer.v
Threshold.v
PixelSort.v
Glitch.v
Blend.v
Chroma.v
Draw.v
Pipeline.v
Storage.v
Render.v
Loop.v
Params.v
Auth.v
Profile.v
Editor.v
Camera.v
Timeline.v
Publish.v
Randomize.v
