(* ===== verification/Prelude.v ===== *)
(** * A verification development for the SCREEN glitch/stylisation pipeline

    The program (src/) is a browser app that pushes every video or image
    frame through a chain of stages over one canvas and shows the
    result.  The parts and how they interact:

    - the pixel buffer: a [Uint8ClampedArray] from [getImageData], four
      bytes per pixel (R, G, B, A), row-major; the pixel stages read and
      write it in place and hand it back with [putImageData];
    - src/utils/glitchAlgorithms.ts: [applyThreshold] (the silhouette
      pass), [processImage] with its four passes in a fixed order
      ([applyPixelSort], [applyBlockShift], [applyRGBShift],
      [applyScanlines]), [renderBlend] (four modes combining the buffer
      with a second source), and the type declarations of the app;
    - src/utils/chromaKeyAlgorithms.ts: [applyChromaKey] with [hexToRgb],
      and the drawing stages [renderAscii] and [renderHalftone], which
      sample the canvas and issue canvas calls;
    - src/utils/textRenderer.ts: [renderText], canvas calls only;
    - src/App.tsx [renderCanvas]: the orchestrator: source choice and
      readiness, the 2048 px cap, the base layer (filters, scale, mirror,
      jitter), then Threshold, Blend, Text, Glitch, Halftone, ASCII, each
      behind its flag;
    - src/utils/storage.ts: the [localStorage] service of users, session
      and posts, used by the social screens.

    Files (in the order of _CoqProject) and what they model:
    - [Prelude] (this file): JavaScript numbers, the store conversion of a
      [Uint8ClampedArray], the random tape of [Math.random] with its
      monad [RandM], evaluation-checked ranges ([all_range]), the integer
      operators of JavaScript, the hint databases [px] and [px_rw];
    - [Buffer]: typed-array loads and stores with their out-of-range
      behaviour, [set] with its [RangeError], the [i += 4] loop
      ([loop_from]), the per-pixel view, and [loop_map_px]: a loop whose
      body touches only its own pixel is a map over the pixels;
    - [Threshold]: [applyThreshold];
    - [PixelSort]: [applyPixelSort], with [Array.prototype.sort] as a
      stable insertion sort proved to be the unique stable sorted
      permutation (Section [StableSort]);
    - [Glitch]: Modules [RGBShift], [BlockShift], [Scanlines];
    - [Blend]: [renderBlend] and its four loops;
    - [Chroma]: [hexToRgb] and [applyChromaKey];
    - [Draw]: the canvas calls as data ([Cmd]), the context state they
      set with [save]/[restore] ([exec]), and Modules [TextStage],
      [AsciiStage], [HalftoneStage];
    - [Pipeline]: [processImage];
    - [Storage]: the service as operations of a state-and-error monad on
      a [gmap] store, with a step relation ([reachable]) over them;
    - [Render]: Module [Orchestrator]: the app types, the defaults, and
      [renderCanvas] over the canvas bytes;
    - [Loop]: Module [RenderLoop]: the effects of App.tsx that schedule
      [renderCanvas] (the loop effect, the static-image trigger, the
      camera cleanup, lines 223-234 and 381-411) as a step system on the
      component state and the [requestAnimationFrame] queue: a commit
      runs the cleanups and then the bodies of the effects whose
      dependencies changed (React's order), a frame runs the callbacks
      queued before it;
    - [Params]: Module [ParamStore]: the Controls panel of Timeline.tsx
      (every slider, button and toggle with its visibility and range)
      and the update functions of App.tsx, as events on the parameter
      state;
    - [Auth]: Module [AuthScreen]: the sign-in form of Profile.tsx
      ([handleSubmit], the toggle) and the App's [appMode] and
      [currentUser] (sign-in, sign-up, logout, profile, posting), run
      against the storage service of [Storage];
    - [Profile]: Module [ProfilePage]: the profile page of Profile.tsx
      (the archive and feed loaded by its effect, the lightbox, the
      download name with [getExtension]) as the App shows it;
    - [Editor]: Module [Editor]: the editor's handlers of App.tsx
      ([handleFileUpload], [handleFileUpload2], [handleCaptureLoop],
      [handlePrintLayer], [handleDownload], [toggleRecording], the
      state part of [handleAIGenerate]), the placeholder-image effect,
      [registerUrl], the AI panel's prompt and every button of the
      landing page and of the editor, as a step system ([step],
      [reachable]) whose state holds the App's state, the element refs
      and the callbacks the browser has still to run ([tasks]); running
      one of them is a step, so every interleaving is a sequence;
    - [Camera]: Module [CameraEffect]: the "Camera Setup" effect of
      App.tsx (its body, cleanup and the continuations of
      [getUserMedia]) with the running tracks and the element's
      [srcObject], composed with the editor: a system step is an editor
      step followed by the commit of its state, or the settling of a
      pending request;
    - [Timeline]: Module [TimelinePlayer]: the Timeline player of
      Timeline.tsx, [formatTime] on doubles (rounded division and
      product, exact [%], [Math.floor] and [toString] on exact values)
      and the component's view;
    - [Publish]: Module [PublishFlow]: [handlePostToProfile] in full,
      with its asynchronous video branch (recorder, timer, [onstop],
      [blobToBase64]) and the export modal, run on the session and the
      store of [Auth] and [Storage];
    - [Randomize]: Module [RandomButton]: [handleRandomize] of App.tsx
      on the tape, its draws turned into doubles by [of_dyadic], written
      into the [AppState] of [Render] whose ranges [Params] specifies.

    Modelling choices.
    - A JavaScript number is a primitive [float] (binary64) and the
      arithmetic is its rounded arithmetic.  Comparisons, [Math.floor],
      [Math.min]/[Math.max] and the [Uint8ClampedArray] store act on the
      exact value of a double ([xv]: a rational, an infinity or NaN), as
      IEEE 754 and ECMA-262 define them.  Integers of the code (indexes,
      sums of bytes, integer sliders) are [Z] where every value is an
      exact double; [zf] converts, and [zf_exact] checks exactness on
      [-4096, 4096) by evaluation.
    - A store applies ToUint8Clamp; a load out of range is [undefined]
      ([None]), whose arithmetic is NaN and stores 0; a store out of range
      is ignored.
    - [Math.random()] is a tape of draws ([rng]): the draw number to a
      rational in [0, 1).  Theorems quantify over every tape whose draws
      lie in [0, 1).  Products of a draw and an integer
      ([randomInt]) and the jitter are computed exactly on the rational:
      this idealises the last bit of the double product.  The Random
      button ([Randomize]) takes each draw down to a multiple of 2^-53,
      a double, and computes on doubles as the code does; no general
      bound on its rounded products is proved (that needs the
      monotonicity of rounding, which the primitive floats do not
      provide here).
    - [Math.sin], [Math.cos] (left to the engine by ECMA-262) and the
      browser (rasterising calls, drawing an image at a size) are section
      variables; the drawing stages are the exact lists of calls they
      issue.  A thrown exception is a value ([None], [Throw], [Thrown]);
      the halftone's double loops run on fuel, and [Diverge] is running
      out of it.
    - [localStorage] is a [gmap string Item]; [JSON.stringify]/[parse]
      round-trips these records unchanged; the quota is a predicate.

    Theorems, by group: the buffer invariant (length [W*H*4], bytes in
    0..255) preserved by every pixel stage and by [processImage] and
    [renderBlend] for every tape; the per-pixel behaviour of the
    threshold, scanlines, hard-mix, difference, interlace and chroma
    key; the threshold's antitonicity in its slider; the pixel sort as a permutation and a stable sort; bounds of
    the RGB-shift and displacement indexes; [hexToRgb] round trip; the
    canvas state left by the drawing stages; the halftone lattice, its
    sampling at 90 degrees and its divergence at radius 0; the frame
    cap, the end-to-end white frame and the exception on an empty
    frame; the storage invariant over every reachable store, login,
    registration and the 15-post cap; for the render loop, exactly one
    pending loop callback in every reachable state (by rule induction),
    a draw at every frame while the state loops, the next frame drawing
    every change, one draw then an empty queue for a still image, and
    that the AI request stops the loop for good (a finding);
    that the Random button is the only control of the panel that leaves
    the ranges of the specification (every other control keeps them,
    hue rotation 360 apart; Random leaves them from every state); for the sign-in screen, that
    a submission always ends with a user or a message, the
    register-then-login round trip, the account left by a registration
    whose session write the quota refuses, and that in every reachable
    session the App's [currentUser] is the user a reload restores; and
    that a post opens the profile with the new post first, or leaves the
    session and the store as they were; for the editor, that every
    object URL is registered for the unmount cleanup in every reachable
    state, that at most one loop capture runs, what a finished capture
    leaves, and four orderings the handlers get wrong (findings): the
    placeholder replacing a landing-page upload, a stale [FileReader]
    replacing a later video, a landing-page video that never reaches
    its element, and recordings sharing their chunk buffer; for the
    camera, that a session whose request settles before the user leaves
    stops its stream and a refusal returns to the landing page, but a
    request settling after the user left keeps the camera on for good
    (an invariant of every later step), an out-of-order settling after a
    quick switch shows the old camera, and a late refusal throws the
    user out of the image editor; for publishing, at most one video post
    in flight, a failed encoding changing nothing, the caption captured
    at the click, and a video post that outlives a logout; for the
    Timeline player, the seconds field as [floor(t) mod 60] and the
    hundredths field one hundredth short for some times; for the Random
    button, the records it keeps and the ones it rewrites.

    Bounds.  Facts on rounded arithmetic are checked by [vm_compute] on
    finite ranges that cover the code's inputs: bytes 0..255, sums of
    three bytes 0..765, integers of [-4096, 4096) (sides and slider
    values; frames are at most 2048 px a side), and the slider ranges of
    the UI; for [formatTime], the first hour of whole seconds and the
    first half minute of hundredths (3600 and 3000 evaluations).  A
    theorem that needs such a range states it as a hypothesis.

    The render loop has no fuel: a frame is one step, and its liveness
    theorems quantify over every number of frames.  The halftone's
    double loops run on fuel: its theorems hold for every fuel (the
    [save]/[restore] bracket, whenever it returns) or show that no fuel
    suffices (radius 0).

    The editor's callbacks are queued, not run at once: a theorem about
    an ordering names the steps that run them, and the invariants hold
    after every sequence of steps (rule induction on [reachable]).

    Not modelled: the markup and styling of the React components; the
    exponent form of [Number.prototype.toString]; the contents of
    files, blobs, camera frames and canvas exports (opaque data and
    ids), and the AI request itself (its result is an input of the
    step); and the
    rasterisation of glyphs and paths by the browser. *)

From stdpp Require Export base list.
From Stdlib Require Export ZArith QArith Qround Lia Lqa Floats.

Declare Scope rand_scope.
Delimit Scope rand_scope with rand.

Create HintDb px discriminated.
Create Rewrite HintDb px_rw.

(** ** Bytes *)

Definition is_byte (z : Z) : Prop := (0 <= z <= 255)%Z.

#[export] Instance is_byte_dec z : Decision (is_byte z).
Proof. unfold is_byte. apply _. Defined.

Definition bytes_ok (d : list Z) : Prop := Forall is_byte d.

(** ** JavaScript numbers stored into a Uint8ClampedArray *)

(** ToUint8Clamp of ECMA-262 (7.1.11) on a finite number; [None] stands
    for NaN (arithmetic on [undefined]). *)
Definition to_uint8_clamp (q : Q) : Z :=
  if Qle_bool q 0 then 0%Z
  else if Qle_bool 255 q then 255%Z
  else
    let f := Qfloor q in
    if Qlt_le_dec (inject_Z f + (1 # 2)) q then (f + 1)%Z
    else if Qlt_le_dec q (inject_Z f + (1 # 2)) then f
    else if Z.even f then f else (f + 1)%Z.

Definition clamp_store (v : option Q) : Z :=
  match v with
  | Some q => to_uint8_clamp q
  | None => 0%Z
  end.

(** ** JavaScript numbers: IEEE doubles

    A JavaScript number is a [float] (binary64).  Arithmetic uses the
    primitive rounded operations.  Comparisons, [Math.floor],
    [Math.min]/[Math.max] and the store into a [Uint8ClampedArray] act on
    the exact value a double represents ([xv]), which is how IEEE 754 and
    ECMA-262 define them. *)

Inductive xval := XFin (q : Q) | XInf (neg : bool) | XNaN.

Definition sf_val (s : spec_float) : xval :=
  match s with
  | S754_zero _ => XFin 0
  | S754_infinity b => XInf b
  | S754_nan => XNaN
  | S754_finite b m e =>
      let q := if (0 <=? e)%Z then inject_Z (Zpos m * 2 ^ e) else Qmake (Zpos m) (Z.to_pos (2 ^ (- e))) in
      XFin (if b then - q else q)
  end.

(** The exact value of a double. *)
Definition xv (f : float) : xval := sf_val (Prim2SF f).

(** [a <= b] and [a < b]: false when either side is NaN. *)
Definition xle (a b : xval) : bool :=
  match a, b with
  | XNaN, _ | _, XNaN => false
  | XInf true, _ | _, XInf false => true
  | XInf false, _ | _, XInf true => false
  | XFin x, XFin y => Qle_bool x y
  end.

Definition xlt (a b : xval) : bool :=
  match a, b with
  | XNaN, _ | _, XNaN => false
  | XInf true, XInf true | XInf false, XInf false => false
  | XInf true, _ | _, XInf false => true
  | XInf false, _ | _, XInf true => false
  | XFin x, XFin y => negb (Qle_bool y x)
  end.

Definition jsle (a b : float) : bool := xle (xv a) (xv b).
Definition jslt (a b : float) : bool := xlt (xv a) (xv b).

(** A small integer as a double (exact below 2^53). *)
Definition zf (z : Z) : float :=
  if (0 <=? z)%Z then PrimFloat.of_uint63 (Uint63.of_Z z)
  else (- PrimFloat.of_uint63 (Uint63.of_Z (- z)))%float.

(** [Math.floor(x)] used as an integer: [None] when [x] is NaN or
    infinite. *)
Definition js_floor (f : float) : option Z :=
  match xv f with XFin q => Some (Qfloor q) | _ => None end.

(** A dyadic rational as the double equal to it, and [NaN] for any other
    rational: every double is dyadic, so an exact result that is a
    double (a remainder of doubles, a draw of [Math.random]) comes back
    without rounding. *)
Definition of_dyadic (q : Q) : float :=
  let q := Qred q in
  let k := Z.log2 (Zpos (Qden q)) in
  if (2 ^ k =? Zpos (Qden q))%Z then SF2Prim (binary_normalize 53 1024 (Qnum q) (- k) false)
  else PrimFloat.nan.

Definition xval_float (v : xval) : float :=
  match v with
  | XFin q => of_dyadic q
  | XInf false => PrimFloat.infinity
  | XInf true => PrimFloat.neg_infinity
  | XNaN => PrimFloat.nan
  end.

(** Checks a boolean property on every integer of [lo, lo + n): used to
    establish facts about rounded arithmetic by evaluation. *)
Fixpoint all_range (P : Z -> bool) (lo : Z) (n : nat) : bool :=
  match n with
  | O => true
  | S n' => P lo && all_range P (lo + 1) n'
  end.

(** The store of a double into a [Uint8ClampedArray]. *)
Definition clamp_f (f : float) : Z :=
  match xv f with
  | XFin q => to_uint8_clamp q
  | XInf neg => if neg then 0%Z else 255%Z
  | XNaN => 0%Z
  end.

(** ** The random tape standing for [Math.random] *)

Record rng := mk_rng { rng_draw : nat -> Q; rng_pos : nat }.

Definition rng_valid (r : rng) : Prop :=
  forall n, 0 <= rng_draw r n /\ rng_draw r n < 1.

Definition RandM (A : Type) : Type := rng -> A * rng.

Definition rret {A} (x : A) : RandM A := fun r => (x, r).
Definition rbind {A B} (m : RandM A) (k : A -> RandM B) : RandM B :=
  fun r => let '(x, r') := m r in k x r'.

Notation "x <- m ;; k" := (rbind m (fun x => k))
  (at level 100, m at next level, right associativity) : rand_scope.

(** [Math.random()]: the next draw of the tape. *)
Definition random : RandM Q :=
  fun r => (rng_draw r (rng_pos r), mk_rng (rng_draw r) (S (rng_pos r))).

(** [randomInt(min, max) = Math.floor(Math.random() * (max - min + 1)) + min]
    (glitchAlgorithms.ts, lines 4-6). *)
Definition randomInt (lo hi : Z) : RandM Z :=
  (q <- random ;; rret (Qfloor (q * inject_Z (hi - lo + 1)) + lo)%Z)%rand.

(** ** Generic lemmas *)

Lemma to_uint8_clamp_byte q : is_byte (to_uint8_clamp q).
Proof.
  unfold to_uint8_clamp, is_byte.
  destruct (Qle_bool q 0) eqn:E0; [lia|].
  destruct (Qle_bool 255 q) eqn:E1; [lia|].
  apply Bool.not_true_iff_false in E0, E1.
  rewrite Qle_bool_iff in E0, E1.
  apply Qnot_le_lt in E0, E1.
  pose proof (Qfloor_le q) as Hf. pose proof (Qlt_floor q) as Hc.
  assert (0 < Qfloor q + 1)%Z.
  { rewrite Zlt_Qlt. eapply Qlt_trans; [exact E0 | exact Hc]. }
  assert (Qfloor q < 255)%Z.
  { rewrite Zlt_Qlt. eapply Qle_lt_trans; [exact Hf | exact E1]. }
  repeat destruct (Qlt_le_dec _ _); try destruct (Z.even _); lia.
Qed.
#[export] Hint Resolve to_uint8_clamp_byte : px.

Lemma clamp_store_byte v : is_byte (clamp_store v).
Proof. destruct v; simpl; [apply to_uint8_clamp_byte | unfold is_byte; lia]. Qed.
#[export] Hint Resolve clamp_store_byte : px.

(** Storing an integer that already is a byte stores it unchanged. *)
Lemma to_uint8_clamp_Z z : is_byte z -> to_uint8_clamp (inject_Z z) = z.
Proof.
  unfold is_byte, to_uint8_clamp. intros Hz.
  destruct (Qle_bool (inject_Z z) 0) eqn:E0.
  { apply Qle_bool_iff in E0. change (inject_Z z <= inject_Z 0) in E0.
    rewrite <- Zle_Qle in E0. lia. }
  destruct (Qle_bool 255 (inject_Z z)) eqn:E1.
  { apply Qle_bool_iff in E1. change (inject_Z 255 <= inject_Z z) in E1.
    rewrite <- Zle_Qle in E1. lia. }
  rewrite Qfloor_Z.
  destruct (Qlt_le_dec (inject_Z z + (1 # 2)) (inject_Z z)) as [H|_].
  { exfalso. apply (Qlt_irrefl (inject_Z z)).
    eapply Qle_lt_trans; [|exact H].
    rewrite <- (Qplus_0_r (inject_Z z)) at 1. apply Qplus_le_compat;
      [apply Qle_refl | discriminate]. }
  destruct (Qlt_le_dec (inject_Z z) (inject_Z z + (1 # 2))) as [_|H]; [reflexivity|].
  exfalso. apply (Qlt_irrefl (inject_Z z)). eapply Qlt_le_trans; [|exact H].
  rewrite <- (Qplus_0_r (inject_Z z)) at 1. apply Qplus_lt_r. reflexivity.
Qed.

Lemma Forall_insert_byte (d : list Z) i v :
  bytes_ok d -> is_byte v -> bytes_ok (<[i:=v]> d).
Proof. intros. by apply Forall_insert. Qed.
#[export] Hint Resolve Forall_insert_byte : px.

Ltac byte_solver := unfold is_byte in *; lia.

(** [lia] after turning [/] and [mod] into their Euclidean equations. *)
Ltac zdiv := Z.to_euclidean_division_equations; lia.

(** [lra] on rationals after exposing the constant divisions [x / k]. *)
Ltac qlra := unfold Qdiv in *; change (/ 3) with (1 # 3) in *; lra.

Lemma inject_Z_le_iff (x y : Z) : inject_Z x <= inject_Z y <-> (x <= y)%Z.
Proof. by rewrite Zle_Qle. Qed.

Lemma all_range_spec P lo n :
  all_range P lo n = true -> forall z, (lo <= z < lo + Z.of_nat n)%Z -> P z = true.
Proof.
  revert lo. induction n as [|n IH]; intros lo H z Hz; [lia|].
  simpl in H. apply andb_prop in H as [H1 H2].
  destruct (Z.eq_dec z lo) as [->|Hne]; [exact H1|]. apply (IH (lo + 1)%Z); [exact H2|lia].
Qed.

Lemma clamp_f_byte f : is_byte (clamp_f f).
Proof.
  unfold clamp_f. destruct (xv f) as [q|[]|]; auto using to_uint8_clamp_byte; byte_solver.
Qed.
#[export] Hint Resolve clamp_f_byte : px.

Lemma xle_trans a b c : xle a b = true -> xle b c = true -> xle a c = true.
Proof.
  destruct a as [x|[]|], b as [y|[]|], c as [z|[]|]; simpl; try easy.
  rewrite !Qle_bool_iff. apply Qle_trans.
Qed.

Lemma all_range_Z P lo n :
  all_range P lo (Z.to_nat n) = true -> forall z, (lo <= z < lo + n)%Z -> P z = true.
Proof.
  intros H z Hz. apply (all_range_spec P lo (Z.to_nat n) H). lia.
Qed.

(** The same check on a rectangle of pairs. *)
Lemma all_range2 (P : Z -> Z -> bool) a n b m :
  all_range (fun x => all_range (P x) b (Z.to_nat m)) a (Z.to_nat n) = true ->
  forall x y, (a <= x < a + n)%Z -> (b <= y < b + m)%Z -> P x y = true.
Proof.
  intros H x y Hx Hy. apply (all_range_Z (P x) b m); [|exact Hy].
  exact (all_range_Z _ a n H x Hx).
Qed.

(** The exact value of a double is [XFin q] with [q] equal to the integer [z]. *)
Definition xv_eqZ (f : float) (z : Z) : bool :=
  match xv f with XFin q => Qeq_bool q (inject_Z z) | _ => false end.

Lemma xv_eqZ_spec f z : xv_eqZ f z = true -> exists q, xv f = XFin q /\ q == inject_Z z.
Proof.
  unfold xv_eqZ. destruct (xv f) as [q| |]; try discriminate.
  intros H. exists q. split; [reflexivity | by apply Qeq_bool_iff].
Qed.

(** Integers of [-4096, 4096) are exact doubles (checked by evaluation). *)
Lemma zf_exact z : (-4096 <= z < 4096)%Z -> exists q, xv (zf z) = XFin q /\ q == inject_Z z.
Proof.
  intros Hz. apply xv_eqZ_spec.
  apply (all_range_Z (fun z => xv_eqZ (zf z) z) (-4096) 8192); [vm_compute; reflexivity | lia].
Qed.

(** [t <= x] for an integer [t] and a finite [x] is [t <= floor x]. *)
Lemma Qle_int_floor (t : Z) (x : Q) : Qle_bool (inject_Z t) x = (t <=? Qfloor x)%Z.
Proof.
  destruct (Qle_bool (inject_Z t) x) eqn:E; symmetry.
  - apply Qle_bool_iff in E. apply Z.leb_le.
    rewrite <- (Qfloor_Z t). by apply Qfloor_resp_le.
  - apply Z.leb_gt. apply Bool.not_true_iff_false in E. rewrite Qle_bool_iff in E.
    apply Qnot_le_lt in E. pose proof (Qfloor_le x).
    rewrite Zlt_Qlt. eapply Qle_lt_trans; [exact H|exact E].
Qed.

Lemma Qle_bool_eq_l q q' x : q == q' -> Qle_bool q x = Qle_bool q' x.
Proof.
  intros H. apply Bool.eq_iff_eq_true. rewrite !Qle_bool_iff.
  split; intros; [rewrite <- H | rewrite H]; assumption.
Qed.

Lemma xle_zf_fin (t : Z) (x : Q) :
  (-4096 <= t < 4096)%Z -> xle (xv (zf t)) (XFin x) = (t <=? Qfloor x)%Z.
Proof.
  intros Ht. destruct (zf_exact t Ht) as (q & -> & Hq). simpl.
  rewrite (Qle_bool_eq_l _ _ _ Hq). apply Qle_int_floor.
Qed.

(** On small integers the double comparisons are the integer ones. *)
Lemma jsle_zf (a b : Z) :
  (-4096 <= a < 4096)%Z -> (-4096 <= b < 4096)%Z -> jsle (zf a) (zf b) = (a <=? b)%Z.
Proof.
  intros Ha Hb. unfold jsle. destruct (zf_exact b Hb) as (q & -> & Hq).
  rewrite xle_zf_fin by exact Ha. by rewrite Hq, Qfloor_Z.
Qed.

Lemma jslt_zf (a b : Z) :
  (-4096 <= a < 4096)%Z -> (-4096 <= b < 4096)%Z -> jslt (zf a) (zf b) = (a <? b)%Z.
Proof.
  intros Ha Hb. unfold jslt.
  destruct (zf_exact a Ha) as (qa & -> & Ea), (zf_exact b Hb) as (qb & -> & Eb). simpl.
  rewrite Z.ltb_antisym. f_equal. unfold jsle.
  rewrite (Qle_bool_eq_l _ _ _ Eb), Qle_int_floor, Ea, Qfloor_Z. reflexivity.
Qed.

#[export] Hint Rewrite jsle_zf jslt_zf using lia : px_rw.

(** ** JavaScript integer operators *)

(** ToInt32 and ToUint32 of an integral number. *)
Definition to_int32 (z : Z) : Z := ((z + 2 ^ 31) mod 2 ^ 32 - 2 ^ 31)%Z.
Definition to_uint32 (z : Z) : Z := (z mod 2 ^ 32)%Z.

(** [a << s]: the shift of ToInt32(a), read back as a signed 32-bit integer. *)
Definition js_shl (a s : Z) : Z := to_int32 (Z.shiftl (to_int32 a) (Z.land s 31)).

(** [a >>> s]: the shift of ToUint32(a). *)
Definition js_ushr (a s : Z) : Z := Z.shiftr (to_uint32 a) (Z.land s 31).

(** [a % b] on integers: the remainder truncated toward zero; NaN
    ([None]) when [b] is 0. *)
Definition js_rem (a b : Z) : option Z := if (b =? 0)%Z then None else Some (Z.rem a b).

(** [a >> s]: the arithmetic shift of ToInt32(a). *)
Definition js_sar (a s : Z) : Z := Z.shiftr (to_int32 a) (Z.land s 31).

(** [Math.min] and [Math.max] of two doubles: NaN when either is NaN. *)
Definition js_min (a b : float) : float :=
  if PrimFloat.is_nan a || PrimFloat.is_nan b then PrimFloat.nan
  else if PrimFloat.ltb b a then b else a.

Definition js_max (a b : float) : float :=
  if PrimFloat.is_nan a || PrimFloat.is_nan b then PrimFloat.nan
  else if PrimFloat.ltb a b then b else a.

Lemma js_shl_2 k : (0 <= k < 2 ^ 29)%Z -> js_shl k 2 = (4 * k)%Z.
Proof.
  intros Hk. unfold js_shl, to_int32. change (Z.land 2 31) with 2%Z.
  rewrite Z.shiftl_mul_pow2 by lia.
  rewrite (Z.mod_small (k + 2 ^ 31)) by lia.
  replace (k + 2 ^ 31 - 2 ^ 31)%Z with k by lia.
  rewrite Z.mod_small by lia. lia.
Qed.

Lemma js_ushr_4 k : (0 <= k < 2 ^ 30)%Z -> js_ushr (4 * k) 2 = k.
Proof.
  intros Hk. unfold js_ushr, to_uint32. change (Z.land 2 31) with 2%Z.
  rewrite Z.mod_small by lia. rewrite Z.shiftr_div_pow2 by lia.
  change (2 ^ 2)%Z with 4%Z. rewrite Z.mul_comm. apply Z.div_mul. lia.
Qed.

Lemma js_rem_pos a b : (0 <= a)%Z -> (0 < b)%Z -> js_rem a b = Some (a mod b)%Z.
Proof.
  intros Ha Hb. unfold js_rem. rewrite (proj2 (Z.eqb_neq b 0)) by lia.
  by rewrite Z.rem_mod_nonneg by lia.
Qed.

Lemma js_sar_1 x : (0 <= x < 2 ^ 31)%Z -> js_sar x 1 = (x / 2)%Z.
Proof.
  intros Hx. unfold js_sar, to_int32. change (Z.land 1 31) with 1%Z.
  rewrite Z.shiftr_div_pow2 by lia. f_equal.
  rewrite Z.mod_small by lia. lia.
Qed.

(** ** The random tape: validity and the range of [randomInt] *)

Lemma random_valid r : rng_valid r -> rng_valid (snd (random r)).
Proof. intros H n. apply H. Qed.

Lemma random_draw_range r : rng_valid r -> 0 <= fst (random r) < 1.
Proof. intros H. apply H. Qed.

(** [Math.floor(q * n)] for a draw [q] in [0, 1): in [0, n - 1] when
    [n > 0], in [n, 0] otherwise. *)
Lemma floor_draw_range (q : Q) (n : Z) :
  0 <= q < 1 ->
  ((0 < n)%Z -> (0 <= Qfloor (q * inject_Z n) <= n - 1)%Z) /\
  ((n <= 0)%Z -> (n <= Qfloor (q * inject_Z n) <= 0)%Z).
Proof.
  intros [Hq0 Hq1].
  pose proof (Qfloor_le (q * inject_Z n)) as Hf. pose proof (Qlt_floor (q * inject_Z n)) as Hc.
  set (f := Qfloor (q * inject_Z n)) in *. rewrite inject_Z_plus in Hc.
  change (inject_Z 1) with 1 in Hc.
  split; intros Hn.
  - assert (Hn' : 0 < inject_Z n) by (change 0 with (inject_Z 0); rewrite <- Zlt_Qlt; lia).
    assert (0 <= q * inject_Z n) by (apply Qmult_le_0_compat; lra).
    assert (q * inject_Z n < inject_Z n).
    { rewrite <- (Qmult_1_l (inject_Z n)) at 2. apply Qmult_lt_compat_r; assumption. }
    split.
    + assert (Hlt : (-1 # 1) < inject_Z f) by lra.
      change (-1 # 1) with (inject_Z (-1)) in Hlt. rewrite <- Zlt_Qlt in Hlt. lia.
    + assert (Hlt : inject_Z f < inject_Z n) by lra. rewrite <- Zlt_Qlt in Hlt. lia.
  - assert (Hn' : inject_Z n <= 0) by (change 0 with (inject_Z 0); rewrite <- Zle_Qle; lia).
    assert (q * inject_Z n <= 0) by nra.
    assert (inject_Z n <= q * inject_Z n) by nra.
    split.
    + assert (Hlt : inject_Z (n - 1) < inject_Z f)
        by (unfold Z.sub; rewrite inject_Z_plus, inject_Z_opp; change (inject_Z 1) with 1; lra).
      rewrite <- Zlt_Qlt in Hlt. lia.
    + assert (Hle : inject_Z f <= inject_Z 0) by (change (inject_Z 0) with 0; lra).
      rewrite <- Zle_Qle in Hle. lia.
Qed.

(** The value of [randomInt(lo, hi)]: in [lo, hi] when [lo <= hi], and in
    [hi + 1, lo] otherwise (the code does not guard an empty range). *)
Lemma randomInt_range lo hi r :
  rng_valid r ->
  ((lo <= hi)%Z -> (lo <= fst (randomInt lo hi r) <= hi)%Z) /\
  ((hi < lo)%Z -> (hi + 1 <= fst (randomInt lo hi r) <= lo)%Z).
Proof.
  intros Hr. cbn [fst randomInt rbind rret random].
  destruct (floor_draw_range (rng_draw r (rng_pos r)) (hi - lo + 1) (Hr _)) as [H1 H2].
  split; intros; [specialize (H1 ltac:(lia)) | specialize (H2 ltac:(lia))]; lia.
Qed.

Lemma randomInt_valid lo hi r : rng_valid r -> rng_valid (snd (randomInt lo hi r)).
Proof. intros H n. apply H. Qed.

(** A tape whose every draw is 0. *)
Definition zero_tape : rng := mk_rng (fun _ => 0%Q) 0.

Lemma zero_tape_valid : rng_valid zero_tape.
Proof. intros n. simpl. split; [apply Qle_refl | reflexivity]. Qed.

(** Names the next draw [randomInt lo hi] of a valid tape in the goal,
    with the range of its value and the validity of the rest of the tape. *)
Ltac rand_draw :=
  match goal with
  | Hr : rng_valid ?r |- context [randomInt ?lo ?hi ?r] =>
      let Hrange := fresh "Hrange" in let Hval := fresh "Hval" in
      let x := fresh "x" in let r' := fresh "r" in let E := fresh "E" in
      pose proof (randomInt_range lo hi r Hr) as Hrange;
      pose proof (randomInt_valid lo hi r Hr) as Hval;
      destruct (randomInt lo hi r) as [x r'] eqn:E;
      rewrite ?E in Hrange, Hval; simpl in Hrange, Hval; clear Hr
  end.

(** ** Loops that draw from the tape *)

(** [for (let i = start; ...; i += step)] with [n] iterations whose body
    may call [Math.random]. *)
Fixpoint rloop {S : Type} (n : nat) (i step : Z) (body : Z -> S -> RandM S) (s : S) : RandM S :=
  match n with
  | O => rret s
  | S n' => (s' <- body i s ;; rloop n' (i + step) step body s')%rand
  end.

(** An invariant of the loop state, established by every iteration [k]. *)
Lemma rloop_inv {S : Type} (P : S -> Prop) n i step (body : Z -> S -> RandM S) s r :
  rng_valid r -> P s ->
  (forall k s r, (k < n)%nat -> rng_valid r -> P s ->
     P (fst (body (i + Z.of_nat k * step)%Z s r)) /\ rng_valid (snd (body (i + Z.of_nat k * step)%Z s r))) ->
  P (fst (rloop n i step body s r)) /\ rng_valid (snd (rloop n i step body s r)).
Proof.
  revert i s r. induction n as [|n IH]; intros i s r Hr Hs Hb; simpl; [auto|].
  unfold rbind. specialize (Hb 0%nat s r ltac:(lia) Hr Hs) as Hb0.
  rewrite Z.add_0_r in Hb0. destruct (body i s r) as [s' r'] eqn:E. simpl in Hb0.
  destruct Hb0 as [Hs' Hr']. apply IH; [exact Hr' | exact Hs' |].
  intros k s0 r0 Hk Hr0 Hs0.
  replace (i + step + Z.of_nat k * step)%Z with (i + Z.of_nat (Datatypes.S k) * step)%Z by lia.
  apply Hb; [lia | exact Hr0 | exact Hs0].
Qed.
