(* ===== verification/Buffer.v ===== *)
(** * The pixel buffer: a [Uint8ClampedArray] of RGBA bytes

    The buffer is a list of bytes ([list Z]).  This file models the
    typed-array operations the stages use (indexed read and write,
    [subarray], [set]), the [for (let i = 0; i < len; i += 4)] loop, the
    per-pixel view of the buffer ([pixels]), and proves that a loop whose
    body only reads and writes its own four bytes equals a map over the
    pixels ([loop_map_px]). *)

From S2P Require Import Prelude.

Open Scope Z_scope.

(** ** Indexed access *)

(** [data[i]]: [undefined] (here [None]) out of range. *)
Definition ld (d : list Z) (i : Z) : option Z :=
  if i <? 0 then None else d !! Z.to_nat i.

(** [data[i] = v] for a byte [v] already converted by ToUint8Clamp:
    ignored out of range. *)
Definition st (d : list Z) (i : Z) (v : Z) : list Z :=
  if i <? 0 then d else <[Z.to_nat i := v]> d.

(** [dst[j] = src[i]] between typed arrays: the byte read is stored
    through ToUint8Clamp, and an [undefined] read (NaN) stores 0. *)
Definition mv (v : option Z) : Z :=
  match v with Some z => to_uint8_clamp (inject_Z z) | None => 0 end.

(** Relative index of [subarray] (ECMA-262 23.2.3.30): negative values
    count from the end, then the result is clamped to [0, len]. *)
Definition rel_index (len k : Z) : Z :=
  if k <? 0 then Z.max (len + k) 0 else Z.min k len.

(** [data.subarray(b, e)]: a view of the bytes [b .. e-1] (clamped). *)
Definition subarray (d : list Z) (b e : Z) : list Z :=
  let len := Z.of_nat (length d) in
  let b' := rel_index len b in
  let e' := rel_index len e in
  take (Z.to_nat (e' - b')) (drop (Z.to_nat b') d).

(** [data.set(src, off)]: copies [src] (cloned first when it shares the
    buffer) to [off ..]; [None] is the RangeError thrown when the source
    does not fit or the offset is negative. *)
Definition ta_set (d : list Z) (src : list Z) (off : Z) : option (list Z) :=
  if (off <? 0) || (Z.of_nat (length d) <? off + Z.of_nat (length src)) then None
  else Some (take (Z.to_nat off) d ++ src ++ drop (Z.to_nat off + length src) d).

(** ** The buffer record and its invariant *)

Record PixelBuffer := mk_buf { width : Z; height : Z; data : list Z }.

Definition buf_ok (b : PixelBuffer) : Prop :=
  0 <= width b /\ 0 <= height b /\
  Z.of_nat (length (data b)) = width b * height b * 4 /\ bytes_ok (data b).

(** ** The [for (let i = start; ...; i += step)] loop, [n] iterations *)

Fixpoint loop_from {S : Type} (n : nat) (i step : Z) (body : Z -> S -> S) (s : S) : S :=
  match n with
  | O => s
  | S n' => loop_from n' (i + step) step body (body i s)
  end.

(** Number of iterations of [for (i = 0; i < len; i += 4)]. *)
Definition px_iters (len : Z) : nat := Z.to_nat ((len + 3) / 4).

(** ** The per-pixel view *)

Fixpoint pixels (d : list Z) : list (list Z) :=
  match d with
  | a :: b :: c :: e :: rest => [a; b; c; e] :: pixels rest
  | _ => []
  end.

(** The pure per-pixel map: [f] gets the byte offset of the pixel and its
    four bytes. *)
Fixpoint map_px (f : Z -> list Z -> list Z) (i : Z) (d : list Z) : list Z :=
  match d with
  | a :: b :: c :: e :: rest => f i [a; b; c; e] ++ map_px f (i + 4) rest
  | _ => d
  end.

(** A loop body is pixel-local with per-pixel function [f] when, run at
    the offset of a pixel, it replaces that pixel's four bytes by [f] of
    them and leaves every other byte alone. *)
Definition px_local (body : Z -> list Z -> list Z) (f : Z -> list Z -> list Z) : Prop :=
  forall pre c post, length c = 4%nat ->
    body (Z.of_nat (length pre)) (pre ++ c ++ post) = pre ++ f (Z.of_nat (length pre)) c ++ post.

Definition px_shape (f : Z -> list Z -> list Z) : Prop :=
  forall i c, length c = 4%nat -> length (f i c) = 4%nat.

(** ** Lemmas on indexed access *)

Lemma ld_mid pre c post k :
  (k < length c)%nat ->
  ld (pre ++ c ++ post) (Z.of_nat (length pre) + Z.of_nat k) = c !! k.
Proof.
  intros Hk. unfold ld. rewrite (proj2 (Z.ltb_ge _ _)) by lia.
  replace (Z.to_nat _) with (length pre + k)%nat by lia.
  rewrite lookup_app_r by lia. rewrite Nat.add_comm, Nat.add_sub.
  by apply lookup_app_l.
Qed.

Lemma st_mid pre c post k v :
  (k < length c)%nat ->
  st (pre ++ c ++ post) (Z.of_nat (length pre) + Z.of_nat k) v = pre ++ <[k:=v]> c ++ post.
Proof.
  intros Hk. unfold st. rewrite (proj2 (Z.ltb_ge _ _)) by lia.
  replace (Z.to_nat _) with (length pre + k)%nat by lia.
  rewrite insert_app_r. f_equal. by apply insert_app_l.
Qed.

Lemma ld_Some_byte d i v : bytes_ok d -> ld d i = Some v -> is_byte v.
Proof.
  unfold ld. destruct (i <? 0); [discriminate|].
  intros Hd Hl. eapply Forall_lookup_1; eauto.
Qed.

Lemma length_st d i v : length (st d i v) = length d.
Proof. unfold st. destruct (i <? 0); [done | apply length_insert]. Qed.

Lemma bytes_ok_st d i v : bytes_ok d -> is_byte v -> bytes_ok (st d i v).
Proof. unfold st. destruct (i <? 0); auto with px. Qed.

#[export] Hint Resolve bytes_ok_st ld_Some_byte : px.
#[export] Hint Rewrite length_st : px_rw.

(** ** Loops over pixels *)

Lemma map_px_length f i d :
  px_shape f -> length (map_px f i d) = length d.
Proof.
  intros Hf. revert i. induction d as [d IH] using (induction_ltof1 _ (@length Z));
    unfold ltof in IH. intros i.
  destruct d as [|a [|b [|c [|e rest]]]]; try reflexivity.
  simpl map_px. rewrite length_app, Hf by reflexivity.
  rewrite IH by (simpl; lia). reflexivity.
Qed.

Lemma pixels_map_px f i d :
  px_shape f ->
  pixels (map_px f i d) = imap (fun p c => f (i + 4 * Z.of_nat p) c) (pixels d).
Proof.
  intros Hf. revert i. induction d as [d IH] using (induction_ltof1 _ (@length Z));
    unfold ltof in IH. intros i.
  destruct d as [|a [|b [|c [|e rest]]]]; try reflexivity.
  simpl map_px. specialize (Hf i [a; b; c; e] eq_refl).
  destruct (f i [a; b; c; e]) as [|a' [|b' [|c' [|e' [|? ?]]]]] eqn:Hfi;
    try discriminate.
  simpl. rewrite IH by (simpl; lia). rewrite Z.add_0_r, Hfi. f_equal.
  apply imap_ext. intros p x _. simpl. f_equal. lia.
Qed.

Lemma bytes_ok_map_px f i d :
  (forall j c, Forall is_byte c -> Forall is_byte (f j c)) ->
  bytes_ok d -> bytes_ok (map_px f i d).
Proof.
  unfold bytes_ok. intros Hf. revert i.
  induction d as [d IH] using (induction_ltof1 _ (@length Z)); unfold ltof in IH.
  intros i Hd. destruct d as [|a [|b [|c [|e rest]]]]; try assumption.
  simpl map_px. apply Forall_app. repeat apply Forall_cons in Hd as [? Hd].
  split; [apply Hf; repeat (constructor; [assumption|]); constructor | apply IH; [simpl; lia | assumption]].
Qed.

(** The in-place index loop equals the pure per-pixel map, on a buffer of
    whole pixels. *)
Theorem loop_map_px body f n pre d :
  px_local body f -> px_shape f -> length d = (4 * n)%nat ->
  loop_from n (Z.of_nat (length pre)) 4 body (pre ++ d) =
  pre ++ map_px f (Z.of_nat (length pre)) d.
Proof.
  intros Hb Hf. revert pre d. induction n as [|n IH]; intros pre d Hd.
  { destruct d; [reflexivity | simpl in Hd; lia]. }
  destruct d as [|a [|b [|c [|e rest]]]]; simpl in Hd; try lia.
  simpl loop_from. change (a :: b :: c :: e :: rest) with ([a; b; c; e] ++ rest).
  rewrite Hb by reflexivity. rewrite app_assoc.
  replace (Z.of_nat (length pre) + 4) with (Z.of_nat (length (pre ++ f (Z.of_nat (length pre)) [a; b; c; e])))
    by (rewrite length_app, Hf by reflexivity; lia).
  rewrite IH by lia. rewrite <- app_assoc. simpl map_px. f_equal. f_equal.
  f_equal. rewrite length_app, Hf by reflexivity. lia.
Qed.

Corollary loop_map_px_all body f d :
  px_local body f -> px_shape f -> (length d mod 4 = 0)%nat ->
  loop_from (px_iters (Z.of_nat (length d))) 0 4 body d = map_px f 0 d.
Proof.
  intros Hb Hf Hm.
  pose proof (Nat.div_mod (length d) 4 ltac:(lia)) as Hdm.
  rewrite Hm, Nat.add_0_r in Hdm. remember (length d / 4)%nat as n.
  assert (Hn : px_iters (Z.of_nat (length d)) = n).
  { unfold px_iters. rewrite Hdm, Nat2Z.inj_mul.
    replace ((Z.of_nat 4 * Z.of_nat n + 3) / 4) with (Z.of_nat n) by (simpl Z.of_nat; zdiv).
    apply Nat2Z.id. }
  rewrite Hn. exact (loop_map_px body f n [] d Hb Hf Hdm).
Qed.

(** ** Reads and writes inside one pixel, in the shape [simpl] leaves *)

Section PixelAccess.
  Context (pre post : list Z) (x0 x1 x2 x3 v : Z).
Let i := Z.of_nat (length pre).

Lemma ld_px0 : ld (pre ++ x0 :: x1 :: x2 :: x3 :: post) i = Some x0.
Proof. rewrite <- (Z.add_0_r i). exact (ld_mid pre [x0; x1; x2; x3] post 0 ltac:(simpl; lia)). Qed.
Lemma ld_px1 : ld (pre ++ x0 :: x1 :: x2 :: x3 :: post) (i + 1) = Some x1.
Proof. exact (ld_mid pre [x0; x1; x2; x3] post 1 ltac:(simpl; lia)). Qed.
Lemma ld_px2 : ld (pre ++ x0 :: x1 :: x2 :: x3 :: post) (i + 2) = Some x2.
Proof. exact (ld_mid pre [x0; x1; x2; x3] post 2 ltac:(simpl; lia)). Qed.
Lemma ld_px3 : ld (pre ++ x0 :: x1 :: x2 :: x3 :: post) (i + 3) = Some x3.
Proof. exact (ld_mid pre [x0; x1; x2; x3] post 3 ltac:(simpl; lia)). Qed.

Lemma st_px0 : st (pre ++ x0 :: x1 :: x2 :: x3 :: post) i v = pre ++ v :: x1 :: x2 :: x3 :: post.
Proof. rewrite <- (Z.add_0_r i). exact (st_mid pre [x0; x1; x2; x3] post 0 v ltac:(simpl; lia)). Qed.
Lemma st_px1 : st (pre ++ x0 :: x1 :: x2 :: x3 :: post) (i + 1) v = pre ++ x0 :: v :: x2 :: x3 :: post.
Proof. exact (st_mid pre [x0; x1; x2; x3] post 1 v ltac:(simpl; lia)). Qed.
Lemma st_px2 : st (pre ++ x0 :: x1 :: x2 :: x3 :: post) (i + 2) v = pre ++ x0 :: x1 :: v :: x3 :: post.
Proof. exact (st_mid pre [x0; x1; x2; x3] post 2 v ltac:(simpl; lia)). Qed.
Lemma st_px3 : st (pre ++ x0 :: x1 :: x2 :: x3 :: post) (i + 3) v = pre ++ x0 :: x1 :: x2 :: v :: post.
Proof. exact (st_mid pre [x0; x1; x2; x3] post 3 v ltac:(simpl; lia)). Qed.
End PixelAccess.

#[export] Hint Rewrite ld_px0 ld_px1 ld_px2 ld_px3 st_px0 st_px1 st_px2 st_px3 : px_rw.

(** Proves [px_local body f] for a body written with [ld] and [st] at
    offsets [i .. i+3]. *)
Ltac px_local_tac :=
  intros ?pre ?c ?post ?Hc;
  do 4 (destruct c as [|? c]; [discriminate|]); destruct c; [|discriminate];
  simpl; autorewrite with px_rw; first [reflexivity | repeat case_match; reflexivity].

(** ** Algebra of per-pixel maps *)

Lemma pixels_map_px_lookup f i d p c :
  px_shape f -> pixels d !! p = Some c ->
  pixels (map_px f i d) !! p = Some (f (i + 4 * Z.of_nat p) c).
Proof. intros Hf Hp. rewrite pixels_map_px by exact Hf. by rewrite list_lookup_imap, Hp. Qed.

Lemma map_px_compose f g i d :
  px_shape f -> map_px g i (map_px f i d) = map_px (fun j c => g j (f j c)) i d.
Proof.
  intros Hf. revert i. induction d as [d IH] using (induction_ltof1 _ (@length Z));
    unfold ltof in IH. intros i.
  destruct d as [|a [|b [|c [|e rest]]]]; try reflexivity.
  simpl map_px. specialize (Hf i [a; b; c; e] eq_refl).
  destruct (f i [a; b; c; e]) as [|a' [|b' [|c' [|e' [|? ?]]]]] eqn:Hfi;
    try discriminate.
  simpl. rewrite IH by (simpl; lia). reflexivity.
Qed.

Lemma map_px_ext_bytes f g i d :
  (forall j c, length c = 4%nat -> Forall is_byte c -> f j c = g j c) ->
  bytes_ok d -> map_px f i d = map_px g i d.
Proof.
  unfold bytes_ok. intros Hfg. revert i.
  induction d as [d IH] using (induction_ltof1 _ (@length Z)); unfold ltof in IH.
  intros i Hd. destruct d as [|a [|b [|c [|e rest]]]]; try reflexivity.
  simpl map_px. repeat apply Forall_cons in Hd as [? Hd].
  rewrite Hfg; [| reflexivity | repeat (constructor; [assumption|]); constructor].
  rewrite IH; [reflexivity | simpl; lia | assumption].
Qed.

(** Two per-pixel maps related pixel by pixel by a reflexive relation
    give buffers related byte by byte. *)
Lemma map_px_forall2 (R : Z -> Z -> Prop) f g i d :
  (forall z, R z z) ->
  (forall j c, length c = 4%nat -> Forall is_byte c -> Forall2 R (f j c) (g j c)) ->
  bytes_ok d -> Forall2 R (map_px f i d) (map_px g i d).
Proof.
  unfold bytes_ok. intros HR Hfg. revert i.
  induction d as [d IH] using (induction_ltof1 _ (@length Z)); unfold ltof in IH.
  intros i Hd. destruct d as [|a [|b [|c [|e rest]]]]; try by repeat constructor.
  simpl map_px. repeat apply Forall_cons in Hd as [? Hd]. apply Forall2_app.
  - apply Hfg; [reflexivity | repeat (constructor; [assumption|]); constructor].
  - apply IH; [simpl; lia | assumption].
Qed.

Lemma map_px_mod4 f i d :
  px_shape f -> (length d mod 4 = 0)%nat -> (length (map_px f i d) mod 4 = 0)%nat.
Proof. intros Hf Hm. by rewrite map_px_length. Qed.

Lemma buf_ok_mod4 b : buf_ok b -> (length (data b) mod 4 = 0)%nat.
Proof.
  intros (Hw & Hh & Hl & _). apply Nat2Z.inj. rewrite Nat2Z.inj_mod, Hl.
  change (Z.of_nat 4) with 4. change (Z.of_nat 0) with 0. zdiv.
Qed.

(** A per-pixel map that keeps pixels of four bytes made of bytes keeps
    the buffer invariant. *)
Lemma buf_ok_map_px b f :
  px_shape f -> (forall j c, Forall is_byte c -> Forall is_byte (f j c)) ->
  buf_ok b -> buf_ok (mk_buf (width b) (height b) (map_px f 0 (data b))).
Proof.
  intros Hs Hf Hb. pose proof Hb as (Hw & Hh & Hl & Hd).
  split_and!; simpl; [lia | lia | | by apply bytes_ok_map_px].
  by rewrite map_px_length.
Qed.

Lemma pixels_lookup_bytes d p c : bytes_ok d -> pixels d !! p = Some c -> Forall is_byte c.
Proof.
  unfold bytes_ok. revert p. induction d as [d IH] using (induction_ltof1 _ (@length Z));
    unfold ltof in IH. intros p Hd Hp.
  destruct d as [|a [|b [|x [|e rest]]]]; try discriminate.
  repeat apply Forall_cons in Hd as [? Hd]. destruct p as [|p]; simpl in Hp.
  - injection Hp as <-. repeat (constructor; [assumption|]). constructor.
  - apply (IH rest ltac:(simpl; lia) p Hd Hp).
Qed.

Lemma mv_byte v : is_byte (mv v).
Proof. destruct v; simpl; [apply to_uint8_clamp_byte | byte_solver]. Qed.
#[export] Hint Resolve mv_byte : px.

Lemma mv_Some z : is_byte z -> mv (Some z) = z.
Proof. apply to_uint8_clamp_Z. Qed.

(** Reading the bytes of pixel [p] through the flat index [4p + k]. *)
Lemma pixels_lookup_ld d p r g b a :
  pixels d !! p = Some [r; g; b; a] ->
  ld d (4 * Z.of_nat p) = Some r /\ ld d (4 * Z.of_nat p + 1) = Some g /\
  ld d (4 * Z.of_nat p + 2) = Some b /\ ld d (4 * Z.of_nat p + 3) = Some a.
Proof.
  revert p. induction d as [d IH] using (induction_ltof1 _ (@length Z)); unfold ltof in IH.
  intros p Hp. destruct d as [|x0 [|x1 [|x2 [|x3 rest]]]]; try discriminate.
  destruct p as [|p]; simpl in Hp.
  - injection Hp as <- <- <- <-. unfold ld. simpl. auto.
  - destruct (IH rest ltac:(simpl; lia) p Hp) as (H0 & H1 & H2 & H3).
    unfold ld in *. rewrite !(proj2 (Z.ltb_ge _ _)) in * by lia.
    replace (Z.to_nat (4 * Z.of_nat (S p))) with (4 + Z.to_nat (4 * Z.of_nat p))%nat by lia.
    replace (Z.to_nat (4 * Z.of_nat (S p) + 1)) with (4 + Z.to_nat (4 * Z.of_nat p + 1))%nat by lia.
    replace (Z.to_nat (4 * Z.of_nat (S p) + 2)) with (4 + Z.to_nat (4 * Z.of_nat p + 2))%nat by lia.
    replace (Z.to_nat (4 * Z.of_nat (S p) + 3)) with (4 + Z.to_nat (4 * Z.of_nat p + 3))%nat by lia.
    simpl. auto.
Qed.

Lemma pixels_length d : length (pixels d) = (length d / 4)%nat.
Proof.
  induction d as [d IH] using (induction_ltof1 _ (@length Z)); unfold ltof in IH.
  destruct d as [|x0 [|x1 [|x2 [|x3 rest]]]]; try reflexivity.
  cbn [pixels length]. rewrite IH by (simpl; lia).
  replace (S (S (S (S (length rest))))) with (length rest + 1 * 4)%nat by lia.
  rewrite Nat.div_add by lia. lia.
Qed.

(** A per-pixel map that fixes every pixel fixes the buffer. *)
Lemma map_px_id f i d :
  (forall j c, length c = 4%nat -> Forall is_byte c -> f j c = c) -> bytes_ok d -> map_px f i d = d.
Proof.
  unfold bytes_ok. intros Hf. revert i.
  induction d as [d IH] using (induction_ltof1 _ (@length Z)); unfold ltof in IH.
  intros i Hd. destruct d as [|a [|b [|c [|e rest]]]]; try reflexivity.
  simpl map_px. repeat apply Forall_cons in Hd as [? Hd].
  rewrite Hf; [| reflexivity | repeat (constructor; [assumption|]); constructor].
  rewrite IH; [reflexivity | simpl; lia | assumption].
Qed.

Lemma pixels_shape d p c : pixels d !! p = Some c -> exists r g b a, c = [r; g; b; a].
Proof.
  revert p. induction d as [d IH] using (induction_ltof1 _ (@length Z)); unfold ltof in IH.
  intros p Hp. destruct d as [|x0 [|x1 [|x2 [|x3 rest]]]]; try discriminate.
  destruct p as [|p]; simpl in Hp.
  - injection Hp as <-. eauto.
  - exact (IH rest ltac:(simpl; lia) p Hp).
Qed.

Lemma concat_pixels d : (length d mod 4 = 0)%nat -> concat (pixels d) = d.
Proof.
  induction d as [d IH] using (induction_ltof1 _ (@length Z)); unfold ltof in IH.
  intros Hm. destruct d as [|x0 [|x1 [|x2 [|x3 rest]]]]; try reflexivity; try discriminate.
  simpl. rewrite IH; [reflexivity | simpl; lia |].
  cbn [length] in Hm. replace (S (S (S (S (length rest))))) with (length rest + 1 * 4)%nat in Hm by lia.
  by rewrite Nat.Div0.mod_add in Hm.
Qed.

(** Two buffers of whole pixels with the same pixels are equal. *)
Lemma pixels_ext d1 d2 :
  (length d1 mod 4 = 0)%nat -> (length d2 mod 4 = 0)%nat ->
  (forall p, pixels d1 !! p = pixels d2 !! p) -> d1 = d2.
Proof.
  intros H1 H2 Hp. rewrite <- (concat_pixels d1 H1), <- (concat_pixels d2 H2).
  f_equal. by apply list_eq.
Qed.

(** ** Loops that keep an invariant *)

Lemma loop_from_inv {S : Type} (P : S -> Prop) n i step body s :
  P s -> (forall j s, P s -> P (body j s)) -> P (loop_from n i step body s).
Proof. revert i s. induction n as [|n IH]; intros i s Hs Hb; simpl; auto. Qed.

(** ** [subarray] and [set] inside the buffer *)

Lemma subarray_in d s len :
  0 <= s -> 0 <= len -> s + len <= Z.of_nat (length d) ->
  subarray d s (s + len) = take (Z.to_nat len) (drop (Z.to_nat s) d).
Proof.
  intros Hs Hl Hn. unfold subarray, rel_index.
  rewrite (proj2 (Z.ltb_ge s 0)), (proj2 (Z.ltb_ge (s + len) 0)) by lia.
  rewrite Z.min_l, Z.min_l by lia. f_equal. lia.
Qed.

(** [set] of [len] bytes of the buffer at an offset where they fit: no
    RangeError, the length is kept, and every byte of the result is a byte
    of the buffer. *)
Lemma ta_set_in d s dst len :
  0 <= s -> 0 <= len -> s + len <= Z.of_nat (length d) ->
  0 <= dst -> dst + len <= Z.of_nat (length d) ->
  exists d', ta_set d (subarray d s (s + len)) dst = Some d' /\
             length d' = length d /\ d' ⊆ d.
Proof.
  intros Hs Hl Hn Hd Hdn. rewrite subarray_in by lia.
  assert (Hlen : length (take (Z.to_nat len) (drop (Z.to_nat s) d)) = Z.to_nat len).
  { rewrite length_take, length_drop. lia. }
  unfold ta_set. rewrite Hlen.
  rewrite (proj2 (Z.ltb_ge dst 0)), (proj2 (Z.ltb_ge _ _)) by lia. simpl.
  eexists. split; [reflexivity|]. split.
  - rewrite !length_app, length_take, length_drop, Hlen. lia.
  - apply list_subseteq_app_iff_l. split; [apply subseteq_take|].
    apply list_subseteq_app_iff_l. split; [|apply subseteq_drop].
    etrans; [apply subseteq_take | apply subseteq_drop].
Qed.

Lemma loop_from_S_r {S : Type} n i step (body : Z -> S -> S) s :
  loop_from (Datatypes.S n) i step body s = body (i + Z.of_nat n * step) (loop_from n i step body s).
Proof.
  revert i s. induction n as [|n IH]; intros i s.
  - simpl. by rewrite Z.add_0_r.
  - change (loop_from (Datatypes.S (Datatypes.S n)) i step body s)
      with (loop_from (Datatypes.S n) (i + step) step body (body i s)).
    rewrite IH. simpl. f_equal. lia.
Qed.

(** Reading inside a slice [take n (drop s d)] reads the buffer at [s + j]. *)
Lemma ld_take_drop d s n j :
  0 <= s -> 0 <= j < Z.of_nat n -> ld (take n (drop (Z.to_nat s) d)) j = ld d (s + j).
Proof.
  intros Hs Hj. unfold ld.
  rewrite (proj2 (Z.ltb_ge j 0)), (proj2 (Z.ltb_ge (s + j) 0)) by lia.
  rewrite lookup_take, decide_True by lia. rewrite lookup_drop. f_equal. lia.
Qed.

(** [set] of a source that fits. *)
Lemma ta_set_fit d src off :
  0 <= off -> off + Z.of_nat (length src) <= Z.of_nat (length d) ->
  ta_set d src off = Some (take (Z.to_nat off) d ++ src ++ drop (Z.to_nat off + length src) d).
Proof.
  intros Ho Hf. unfold ta_set.
  rewrite (proj2 (Z.ltb_ge off 0)), (proj2 (Z.ltb_ge _ _)) by lia. reflexivity.
Qed.

(** ** Frames: buffers that agree outside a set of indices *)

Definition agree_except (X : Z -> Prop) (d1 d2 : list Z) : Prop :=
  length d1 = length d2 /\ forall j : nat, ~ X (Z.of_nat j) -> d1 !! j = d2 !! j.

Lemma agree_refl X d : agree_except X d d.
Proof. by split. Qed.

Lemma agree_trans X d1 d2 d3 : agree_except X d1 d2 -> agree_except X d2 d3 -> agree_except X d1 d3.
Proof.
  intros [H1 H2] [H3 H4]. split; [congruence|]. intros j Hj. rewrite H2, H4 by exact Hj. reflexivity.
Qed.

Lemma agree_weaken (X Y : Z -> Prop) d1 d2 :
  (forall j, X j -> Y j) -> agree_except X d1 d2 -> agree_except Y d1 d2.
Proof. intros HXY [H1 H2]. split; [exact H1|]. intros j Hj. apply H2. intros HX. by apply Hj, HXY. Qed.

(** A write changes only its own index. *)
Lemma agree_st d i v : agree_except (fun j => j = i) (st d i v) d.
Proof.
  split; [apply length_st|]. intros j Hj. unfold st. destruct (Z.ltb_spec i 0); [reflexivity|].
  apply list_lookup_insert_ne. lia.
Qed.

Lemma agree_st_in (X : Z -> Prop) d1 d2 i v :
  X i -> agree_except X d1 d2 -> agree_except X (st d1 i v) d2.
Proof.
  intros Hi H. eapply agree_trans; [|exact H].
  eapply agree_weaken; [|apply agree_st]. intros j ->. exact Hi.
Qed.

(** ** A buffer of [n] bytes, kept by stores of bytes *)

Definition frame_ok (n : nat) (d : list Z) : Prop := length d = n /\ bytes_ok d.

Lemma frame_ok_st n d i v : frame_ok n d -> is_byte v -> frame_ok n (st d i v).
Proof. intros [Hl Hb] Hv. split; [by rewrite length_st | by apply bytes_ok_st]. Qed.

(** A loop of random iterations, each of which computes a function of
    the state alone from a valid tape, is the deterministic loop. *)
Lemma rloop_det {S : Type} n i step (body : Z -> S -> RandM S) (g : Z -> S -> S) s r :
  rng_valid r ->
  (forall k s r, (k < n)%nat -> rng_valid r ->
     fst (body (i + Z.of_nat k * step) s r) = g (i + Z.of_nat k * step) s /\
     rng_valid (snd (body (i + Z.of_nat k * step) s r))) ->
  fst (rloop n i step body s r) = loop_from n i step g s.
Proof.
  revert i s r. induction n as [|n IH]; intros i s r Hr Hb; simpl; [reflexivity|].
  unfold rbind. specialize (Hb 0%nat s r ltac:(lia) Hr) as Hb0. rewrite Z.add_0_r in Hb0.
  destruct (body i s r) as [s' r'] eqn:E. simpl in Hb0. destruct Hb0 as [-> Hr'].
  apply IH; [exact Hr'|]. intros k s0 r0 Hk Hr0.
  replace (i + step + Z.of_nat k * step) with (i + Z.of_nat (Datatypes.S k) * step) by lia.
  apply Hb; [lia | exact Hr0].
Qed.

(** [for (let j = s; j < s + n; j++) data[j] = v(j)]. *)
Lemma copy_loop_length (v : Z -> Z) n s d :
  length (loop_from n s 1 (fun j d => st d j (v j)) d) = length d.
Proof.
  apply (loop_from_inv (fun d' => length d' = length d)); [reflexivity|].
  intros j d' <-. apply length_st.
Qed.

Lemma copy_loop_out (v : Z -> Z) n s d (j : nat) :
  ~ (s <= Z.of_nat j < s + Z.of_nat n) ->
  loop_from n s 1 (fun j d => st d j (v j)) d !! j = d !! j.
Proof.
  induction n as [|n IH]; intros Hj; [reflexivity|].
  rewrite loop_from_S_r. unfold st. case_match; [apply IH; lia|].
  rewrite list_lookup_insert_ne by lia. apply IH. lia.
Qed.

Lemma copy_loop_in (v : Z -> Z) n s d (j : nat) :
  s <= Z.of_nat j < s + Z.of_nat n -> (j < length d)%nat ->
  loop_from n s 1 (fun j d => st d j (v j)) d !! j = Some (v (Z.of_nat j)).
Proof.
  induction n as [|n IH]; intros Hj Hl; [lia|].
  rewrite loop_from_S_r. pose proof (copy_loop_length v n s d) as Hn.
  destruct (Z.eq_dec (Z.of_nat j) (s + Z.of_nat n * 1)) as [E|E].
  - unfold st in *. rewrite (proj2 (Z.ltb_ge _ _)) by lia.
    replace (Z.to_nat (s + Z.of_nat n * 1)) with j by lia.
    rewrite list_lookup_insert_eq by lia. by rewrite E.
  - unfold st. case_match; [apply IH; lia|].
    rewrite list_lookup_insert_ne by lia. apply IH; lia.
Qed.

(** [for (let i = 0; i < n; i++)] reading pixel [i] at byte [i * 4] is
    the byte loop of step 4. *)
Lemma loop_from_scale {S : Type} n i (f : Z -> S -> S) s :
  loop_from n i 1 (fun k => f (k * 4)) s = loop_from n (i * 4) 4 f s.
Proof.
  revert i s. induction n as [|n IH]; intros i s; [reflexivity|]. simpl.
  rewrite IH. f_equal. lia.
Qed.
