(* ===== verification/Threshold.v ===== *)
(** * The silhouette pass: [applyThreshold]

    src/utils/glitchAlgorithms.ts, lines 9-28.  The orchestrator runs it
    on the freshly drawn base frame when [globalParams.threshold > 0]
    (App.tsx, lines 341-345).  Every pixel's R, G and B become 255 when
    its mean (r+g+b)/3 reaches the threshold and 0 otherwise; alpha is
    kept. *)

From S2P Require Import Prelude Buffer.

Open Scope Z_scope.

(** ** The code *)

(** [(r + g + b) / 3] as a double; NaN ([None]) when a channel is
    [undefined].  The sum of three bytes is an exact double, so it is
    computed on integers and converted once. *)
Definition brightness_avg (r g b : option Z) : option float :=
  match r, g, b with
  | Some r, Some g, Some b => Some (zf (r + g + b) / zf 3)%float
  | _, _, _ => None
  end.

(** [brightness >= threshold ? 255 : 0]; a comparison with NaN is false. *)
Definition threshold_val (threshold : float) (br : option float) : Z :=
  match br with
  | Some q => if jsle threshold q then 255 else 0
  | None => 0
  end.

(** The loop body at byte offset [i] (lines 14-26). *)
Definition threshold_body (threshold : float) (i : Z) (data : list Z) : list Z :=
  let r := ld data i in
  let g := ld data (i + 1) in
  let b := ld data (i + 2) in
  let val := threshold_val threshold (brightness_avg r g b) in
  let data := st data i val in
  let data := st data (i + 1) val in
  st data (i + 2) val.

Definition applyThreshold (data : list Z) (threshold : float) : list Z :=
  if jsle threshold (zf 0) then data
  else loop_from (px_iters (Z.of_nat (length data))) 0 4 (threshold_body threshold) data.

(** ** The per-pixel function *)

Definition threshold_px (threshold : float) (_ : Z) (c : list Z) : list Z :=
  match c with
  | [r; g; b; a] =>
      let val := threshold_val threshold (brightness_avg (Some r) (Some g) (Some b)) in
      [val; val; val; a]
  | _ => c
  end.

Lemma threshold_local t : px_local (threshold_body t) (threshold_px t).
Proof. unfold threshold_body. px_local_tac. Qed.

Lemma threshold_shape t : px_shape (threshold_px t).
Proof. intros i c Hc. do 4 (destruct c as [|? c]; [discriminate|]). by destruct c. Qed.

Lemma applyThreshold_map d t :
  (length d mod 4 = 0)%nat -> jsle t (zf 0) = false ->
  applyThreshold d t = map_px (threshold_px t) 0 d.
Proof.
  intros Hm Ht. unfold applyThreshold. rewrite Ht.
  apply loop_map_px_all; auto using threshold_local, threshold_shape.
Qed.

(** Rounding [s / 3] to a double keeps its floor, for every sum of three
    bytes (checked by evaluation). *)
Lemma avg_floor s :
  0 <= s <= 765 -> exists q, xv (zf s / zf 3)%float = XFin q /\ Qfloor q = s / 3.
Proof.
  intros Hs.
  pose proof (all_range_Z (fun s => match xv (zf s / zf 3)%float with
                        | XFin q => Z.eqb (Qfloor q) (s / 3) | _ => false end) 0 766
                ltac:(vm_compute; reflexivity) s ltac:(lia)) as H.
  cbv beta in H. destruct (xv _) as [q| |]; try discriminate.
  exists q. split; [reflexivity | by apply Z.eqb_eq].
Qed.

(** The rounded mean of three bytes never exceeds 255, the mean of
    three 255s (checked by evaluation). *)
Lemma avg_le_max s :
  0 <= s <= 765 -> xle (xv (zf s / zf 3)%float) (xv (zf 765 / zf 3)%float) = true.
Proof.
  intros Hs. apply (all_range_Z (fun s => xle (xv (zf s / zf 3)%float) (xv (zf 765 / zf 3)%float)) 0 766);
    [vm_compute; reflexivity | lia].
Qed.

(** On an integer threshold the comparison of the code is the integer
    comparison [3 * t <= r + g + b]. *)
Lemma threshold_val_int (t s : Z) :
  -4096 <= t < 4096 -> 0 <= s <= 765 ->
  threshold_val (zf t) (Some (zf s / zf 3)%float) = if 3 * t <=? s then 255 else 0.
Proof.
  intros Ht Hs. unfold threshold_val, jsle. destruct (avg_floor s Hs) as (q & -> & Hq).
  rewrite xle_zf_fin, Hq by exact Ht.
  destruct (Z.leb_spec t (s / 3)), (Z.leb_spec (3 * t) s); try reflexivity; zdiv.
Qed.

(** ** Theorems *)

(** C1: on a byte buffer of whole pixels and a positive integer
    threshold, pixel [p] of the result is [v, v, v, a] where [a] is the
    pixel's alpha and [v] is 255 when [r + g + b >= 3 * threshold] and 0
    otherwise: R, G and B become binary and alpha is kept. *)
Theorem applyThreshold_pixel (d : list Z) (t : Z) p r g b a :
  bytes_ok d -> (length d mod 4 = 0)%nat -> 0 < t < 4096 ->
  pixels d !! p = Some [r; g; b; a] ->
  let v := if 3 * t <=? r + g + b then 255 else 0 in
  pixels (applyThreshold d (zf t)) !! p = Some [v; v; v; a].
Proof.
  intros Hd Hm Ht Hp v.
  pose proof (pixels_lookup_bytes d p _ Hd Hp) as Hc.
  repeat apply Forall_cons in Hc as [? Hc].
  rewrite applyThreshold_map.
  - rewrite (pixels_map_px_lookup _ _ _ _ _ (threshold_shape _) Hp).
    unfold threshold_px, brightness_avg. rewrite threshold_val_int by byte_solver. reflexivity.
  - exact Hm.
  - unfold jsle. destruct (zf_exact 0) as (q & -> & Hq); [lia|].
    rewrite xle_zf_fin by lia. apply Z.leb_gt. rewrite Hq, Qfloor_Z. lia.
Qed.

Lemma threshold_px_idem t j c :
  jsle t (zf 0) = false -> Forall is_byte c ->
  threshold_px t j (threshold_px t j c) = threshold_px t j c.
Proof.
  intros Ht Hc.
  destruct c as [|r [|g [|b [|a [|? ?]]]]]; try reflexivity.
  repeat apply Forall_cons in Hc as [? Hc].
  unfold threshold_px, brightness_avg, threshold_val.
  destruct (jsle t (zf (r + g + b) / zf 3)) eqn:E.
  - change (zf (255 + 255 + 255)) with (zf 765).
    assert (E2 : jsle t (zf 765 / zf 3) = true)
      by exact (xle_trans _ _ _ E (avg_le_max (r + g + b) ltac:(byte_solver))).
    by rewrite E2.
  - change (zf (0 + 0 + 0) / zf 3)%float with (zf 0 / zf 3)%float.
    replace (zf 0 / zf 3)%float with (zf 0) by (vm_compute; reflexivity).
    by rewrite Ht.
Qed.

(** C2: the silhouette pass is idempotent: applied twice with the same
    threshold (any double) to a byte buffer of whole pixels, it gives the
    result of one application. *)
Theorem applyThreshold_idempotent (d : list Z) (t : float) :
  bytes_ok d -> (length d mod 4 = 0)%nat ->
  applyThreshold (applyThreshold d t) t = applyThreshold d t.
Proof.
  intros Hd Hm. destruct (jsle t (zf 0)) eqn:Ht.
  { unfold applyThreshold. by rewrite !Ht. }
  rewrite (applyThreshold_map d) by assumption.
  rewrite applyThreshold_map by (auto using map_px_mod4, threshold_shape).
  rewrite map_px_compose by apply threshold_shape.
  apply map_px_ext_bytes; [|exact Hd].
  intros j c _ Hc. by apply threshold_px_idem.
Qed.

(** A higher threshold keeps a pixel's value or darkens it. *)
Lemma threshold_px_antitone t1 t2 j c :
  jsle t1 t2 = true -> Forall2 Z.le (threshold_px t2 j c) (threshold_px t1 j c).
Proof.
  intros Ht. assert (Hv : forall br, threshold_val t2 br <= threshold_val t1 br).
  { intros [q|]; cbn; [|lia]. unfold jsle in *. destruct (xle (xv t2) (xv q)) eqn:E2.
    - rewrite (xle_trans _ _ _ Ht E2). lia.
    - destruct (xle (xv t1) (xv q)); lia. }
  destruct c as [|r [|g [|b [|a [|? ?]]]]]; unfold threshold_px;
    try (apply Forall_Forall2_diag, Forall_forall; intros; lia).
  cbv zeta.
  do 3 (constructor; [apply Hv|]). constructor; [lia | constructor].
Qed.

(** C3: the silhouette pass is antitone in the threshold slider: with
    two positive thresholds [t1 <= t2] (any doubles), every byte of the
    result for [t2] is at most the same byte for [t1], so raising the
    threshold never turns a black pixel white and alpha is untouched. *)
Theorem applyThreshold_antitone (d : list Z) (t1 t2 : float) :
  bytes_ok d -> (length d mod 4 = 0)%nat -> jsle t1 (zf 0) = false -> jsle t1 t2 = true ->
  Forall2 Z.le (applyThreshold d t2) (applyThreshold d t1).
Proof.
  intros Hd Hm H1 H12.
  assert (H2 : jsle t2 (zf 0) = false).
  { unfold jsle in *. destruct (xle (xv t2) (xv (zf 0))) eqn:E; [|reflexivity].
    by rewrite (xle_trans _ _ _ H12 E) in H1. }
  rewrite !applyThreshold_map by assumption.
  apply map_px_forall2; [reflexivity | | exact Hd].
  intros j c _ _. by apply threshold_px_antitone.
Qed.

Lemma threshold_px_bytes t j c : Forall is_byte c -> Forall is_byte (threshold_px t j c).
Proof.
  intros Hc. destruct c as [|r [|g [|b [|a [|? ?]]]]]; try exact Hc.
  repeat apply Forall_cons in Hc as [? Hc]. unfold threshold_px, threshold_val.
  destruct (brightness_avg _ _ _) as [q|]; [destruct (jsle t q)|];
    repeat constructor; byte_solver.
Qed.

(** The silhouette pass keeps the buffer invariant: the length stays
    [width * height * 4] and every byte stays in [0, 255]. *)
Lemma applyThreshold_ok (b : PixelBuffer) (t : float) :
  buf_ok b -> buf_ok (mk_buf (width b) (height b) (applyThreshold (data b) t)).
Proof.
  intros Hb. destruct (jsle t (zf 0)) eqn:Ht.
  { unfold applyThreshold. rewrite Ht. by destruct b. }
  rewrite applyThreshold_map by (apply buf_ok_mod4 in Hb; congruence).
  apply buf_ok_map_px; auto using threshold_shape, threshold_px_bytes.
Qed.

(** ** Witnesses *)

Lemma applyThreshold_pixel_witness :
  pixels (applyThreshold [10; 20; 30; 255; 200; 200; 200; 128] (zf 100)) !! 1%nat
  = Some [255; 255; 255; 128].
Proof.
  exact (applyThreshold_pixel [10; 20; 30; 255; 200; 200; 200; 128] 100 1 200 200 200 128
           ltac:(repeat constructor; byte_solver) eq_refl ltac:(lia) eq_refl).
Defined.

Lemma applyThreshold_idempotent_witness :
  applyThreshold (applyThreshold [10; 20; 30; 255; 200; 200; 200; 128] (zf 100)) (zf 100)
  = applyThreshold [10; 20; 30; 255; 200; 200; 200; 128] (zf 100).
Proof.
  apply applyThreshold_idempotent; [repeat constructor; byte_solver | reflexivity].
Defined.

Lemma applyThreshold_antitone_witness :
  Forall2 Z.le (applyThreshold [10; 20; 30; 255; 200; 200; 200; 128] (zf 250))
               (applyThreshold [10; 20; 30; 255; 200; 200; 200; 128] (zf 100)).
Proof.
  apply applyThreshold_antitone;
    [repeat constructor; byte_solver | reflexivity | vm_compute; reflexivity | vm_compute; reflexivity].
Defined.
