(* ===== verification/PixelSort.v ===== *)
(** * The pixel-sort pass: [applyPixelSort]

    src/utils/glitchAlgorithms.ts, lines 118-164.  [floor(height *
    threshold / 100)] times, a random row is chosen, the column indices of
    the row are sorted by brightness (r + g + b) with
    [Array.prototype.sort], and the row is rebuilt in that order in a
    temporary array that is [set] back into the buffer.

    [Array.prototype.sort] is stable (ECMA-262 since 2019) and its result
    is fixed when the comparator is consistent; [Section StableSort]
    models it by a stable insertion sort and proves that the result is the
    only stable, sorted permutation of the input. *)

From S2P Require Import Prelude Buffer.
From Stdlib Require Import Sorted Permutation.

Open Scope Z_scope.

(** ** A stable sort by a comparator *)

(** [l.sort(cmp)]: a stable insertion sort; [a] stays before a later
    [b] when [cmp(a, b) <= 0]. *)
Fixpoint insert_cmp {A : Type} (cmp : A -> A -> Z) (x : A) (l : list A) : list A :=
  match l with
  | [] => [x]
  | y :: ys => if cmp x y <=? 0 then x :: y :: ys else y :: insert_cmp cmp x ys
  end.

Fixpoint sort_cmp {A : Type} (cmp : A -> A -> Z) (l : list A) : list A :=
  match l with
  | [] => []
  | x :: xs => insert_cmp cmp x (sort_cmp cmp xs)
  end.

Lemma insert_cmp_perm {A} (cmp : A -> A -> Z) x l : Permutation (insert_cmp cmp x l) (x :: l).
Proof.
  induction l as [|y ys IH]; simpl; [reflexivity|].
  destruct (cmp x y <=? 0); [reflexivity|].
  etrans; [apply perm_skip, IH | apply perm_swap].
Qed.

Lemma sort_cmp_perm {A} (cmp : A -> A -> Z) l : Permutation (sort_cmp cmp l) l.
Proof.
  induction l as [|x xs IH]; simpl; [reflexivity|].
  etrans; [apply insert_cmp_perm | by apply perm_skip].
Qed.

(** The sort only consults the comparator on elements of the list. *)
Lemma sort_cmp_ext {A} (c1 c2 : A -> A -> Z) l :
  (forall a b, a ∈ l -> b ∈ l -> c1 a b = c2 a b) -> sort_cmp c1 l = sort_cmp c2 l.
Proof.
  induction l as [|x xs IH]; intros Hc; simpl; [reflexivity|].
  rewrite IH by (intros a b Ha Hb; apply Hc; by right).
  assert (Ht : forall y, y ∈ sort_cmp c2 xs -> c1 x y = c2 x y).
  { intros y Hy. apply Hc; [left|right]. apply (elem_of_Permutation_proper _ _ _ (sort_cmp_perm c2 xs)) in Hy.
    exact Hy. }
  revert Ht. generalize (sort_cmp c2 xs) as t. intros t Ht.
  induction t as [|y ys IHt]; simpl; [reflexivity|].
  rewrite Ht by left. destruct (c2 x y <=? 0); [reflexivity|].
  rewrite IHt; [reflexivity|]. intros z Hz. apply Ht. by right.
Qed.

Lemma perm_concat {A} (l1 l2 : list (list A)) : Permutation l1 l2 -> Permutation (concat l1) (concat l2).
Proof.
  induction 1 as [|x l1 l2 _ IH|x y l|l1 l2 l3 _ IH1 _ IH2]; simpl.
  - reflexivity.
  - by apply Permutation_app_head.
  - rewrite !app_assoc. apply Permutation_app_tail, Permutation_app_comm.
  - by etrans.
Qed.

Section StableSort.
Context {A : Type} (key : A -> Z).

(** The comparator [(a, b) => key(a) - key(b)]. *)
Definition key_cmp (a b : A) : Z := key a - key b.

Abbreviation insert_by := (insert_cmp key_cmp).
Abbreviation sort_by := (sort_cmp key_cmp).

Definition key_le (a b : A) : Prop := key a <= key b.

(** Elements of key [k], in order. *)
Definition with_key (k : Z) (l : list A) : list A := filter (fun x => key x = k) l.

Lemma insert_by_perm x l : Permutation (insert_by x l) (x :: l).
Proof.
  induction l as [|y ys IH]; simpl; [reflexivity|].
  destruct (key_cmp x y <=? 0); [reflexivity|].
  etrans; [apply perm_skip, IH | apply perm_swap].
Qed.

Lemma sort_by_perm l : Permutation (sort_by l) l.
Proof.
  induction l as [|x xs IH]; simpl; [reflexivity|].
  etrans; [apply insert_by_perm | by apply perm_skip].
Qed.

Lemma insert_by_sorted x l : Sorted key_le l -> Sorted key_le (insert_by x l).
Proof.
  induction 1 as [|y ys Hs IH Hhd]; simpl; [repeat constructor|].
  destruct (Z.leb_spec (key_cmp x y) 0); unfold key_cmp at 1 in H.
  - constructor; [by constructor | constructor; unfold key_le; lia].
  - constructor; [exact IH|].
    destruct ys as [|z zs]; simpl; [constructor; unfold key_le; lia|].
    inversion Hhd as [|? ? Hyz]; subst. unfold key_le in Hyz.
    destruct (key_cmp x z <=? 0); constructor; unfold key_le; lia.
Qed.

Lemma sort_by_sorted l : Sorted key_le (sort_by l).
Proof. induction l; simpl; [constructor | by apply insert_by_sorted]. Qed.

Lemma with_key_insert_by x l k :
  Sorted key_le l ->
  with_key k (insert_by x l) = with_key k (x :: l).
Proof.
  intros Hs. induction Hs as [|y ys Hs IH Hhd]; simpl; [reflexivity|].
  destruct (Z.leb_spec (key_cmp x y) 0) as [Hle|Hgt]; [reflexivity|]. unfold key_cmp in Hgt.
  unfold with_key in *. rewrite !filter_cons, IH, !filter_cons.
  (* [x] moves past [y] only when [key y < key x]: at most one of them has key [k] *)
  repeat case_decide; try reflexivity; lia.
Qed.

(** Stability: the elements of each key keep their relative order. *)
Lemma sort_by_stable l k : with_key k (sort_by l) = with_key k l.
Proof.
  induction l as [|x xs IH]; simpl; [reflexivity|].
  rewrite with_key_insert_by by apply sort_by_sorted.
  unfold with_key in *. rewrite !filter_cons. by rewrite IH.
Qed.

(** Two sorted lists with the same elements of each key, in the same
    order, are equal. *)
Lemma sorted_with_key_unique l1 l2 :
  Sorted key_le l1 -> Sorted key_le l2 ->
  (forall k, with_key k l1 = with_key k l2) -> l1 = l2.
Proof.
  intros H1. revert l2. induction H1 as [|x t1 Ht1 IH Hhd1]; intros l2 H2 Hk.
  - destruct l2 as [|y t2]; [reflexivity|].
    specialize (Hk (key y)). unfold with_key in Hk. rewrite filter_cons in Hk.
    rewrite decide_True in Hk by reflexivity. discriminate.
  - destruct l2 as [|y t2].
    { specialize (Hk (key x)). unfold with_key in Hk. rewrite filter_cons in Hk.
      rewrite decide_True in Hk by reflexivity. discriminate. }
    assert (H1 : Sorted key_le (x :: t1)) by (constructor; assumption).
    apply Sorted_StronglySorted in H1; [|intros ? ? ?; unfold key_le; lia].
    apply Sorted_StronglySorted in H2 as H2s; [|intros ? ? ?; unfold key_le; lia].
    apply StronglySorted_inv in H1 as [_ Hx]. apply StronglySorted_inv in H2s as [_ Hy].
    (* both heads carry the least key *)
    assert (Hin : forall a l, a ∈ l -> a ∈ with_key (key a) l).
    { intros a l Ha. unfold with_key. apply list_elem_of_filter. split; [reflexivity | exact Ha]. }
    assert (Hxy : key x = key y).
    { assert (y ∈ x :: t1) as Hy1.
      { pose proof (Hin y (y :: t2) ltac:(left)) as Hy'. rewrite <- Hk in Hy'.
        unfold with_key in Hy'. apply list_elem_of_filter in Hy' as [_ Hy']. exact Hy'. }
      assert (x ∈ y :: t2) as Hx1.
      { pose proof (Hin x (x :: t1) ltac:(left)) as Hx'. rewrite Hk in Hx'.
        unfold with_key in Hx'. apply list_elem_of_filter in Hx' as [_ Hx']. exact Hx'. }
      apply elem_of_cons in Hy1 as [->|Hy1]; [reflexivity|].
      apply elem_of_cons in Hx1 as [->|Hx1]; [reflexivity|].
      rewrite Forall_forall in Hx, Hy.
      specialize (Hx _ Hy1). specialize (Hy _ Hx1). unfold key_le in *. lia. }
    assert (x = y).
    { specialize (Hk (key x)). unfold with_key in Hk. rewrite !filter_cons in Hk.
      rewrite !decide_True in Hk by (done || lia). by injection Hk. }
    subst y. f_equal. apply IH; [by apply Sorted_inv in H2 as [? _]|].
    intros k. specialize (Hk k). unfold with_key in *. rewrite !filter_cons in Hk.
    case_decide; [by injection Hk | exact Hk].
Qed.

(** [sort_by] is the only stable sort: any sorted permutation that keeps
    the order of equal keys is [sort_by l]. *)
Theorem stable_sort_unique l l' :
  Sorted key_le l' -> (forall k, with_key k l' = with_key k l) -> l' = sort_cmp key_cmp l.
Proof.
  intros Hs Hk. apply sorted_with_key_unique; [exact Hs | apply sort_by_sorted |].
  intros k. by rewrite Hk, sort_by_stable.
Qed.
(** Sorting indices by the key of what they point to, then reading
    them, is sorting what they point to. *)
Lemma sort_map {B : Type} (f : B -> A) (l : list B) :
  map f (sort_cmp (fun a b => key (f a) - key (f b)) l) = sort_by (map f l).
Proof.
  induction l as [|x xs IH]; simpl; [reflexivity|]. rewrite <- IH.
  generalize (sort_cmp (fun a b => key (f a) - key (f b)) xs) as t. intros t.
  induction t as [|y ys IHt]; simpl; [reflexivity|]. unfold key_cmp at 1.
  destruct (key (f x) - key (f y) <=? 0); simpl; [reflexivity | by rewrite IHt].
Qed.
End StableSort.

(** ** The pass *)

Module PixelSortPass.

(** [data[idx] + data[idx+1] + data[idx+2]] (lines 142-146); NaN when a
    read is [undefined]. *)
Definition brightness_at (data : list Z) (idx : Z) : option Z :=
  match ld data idx, ld data (idx + 1), ld data (idx + 2) with
  | Some r, Some g, Some b => Some (r + g + b)
  | _, _, _ => None
  end.

(** The comparator of lines 141-148, [brA - brB]; a NaN result is taken
    as 0 by [Array.prototype.sort]. *)
Definition row_cmp (data : list Z) (rowStart : Z) (a b : nat) : Z :=
  match brightness_at data (rowStart + Z.of_nat a * 4), brightness_at data (rowStart + Z.of_nat b * 4) with
  | Some brA, Some brB => brA - brB
  | _, _ => 0
  end.

(** One iteration of lines 152-159: pixel [i] of [tempRow] is pixel
    [rowIndices[i]] of the row. *)
Definition temp_body (data : list Z) (rowStart : Z) (rowIndices : list nat) (i : Z) (tempRow : list Z)
  : list Z :=
  let originalIdx := option_map (fun k => rowStart + Z.of_nat k * 4) (rowIndices !! Z.to_nat i) in
  let rd k := match originalIdx with Some o => mv (ld data (o + k)) | None => 0 end in
  let targetIdx := i * 4 in
  let tempRow := st tempRow targetIdx (rd 0) in
  let tempRow := st tempRow (targetIdx + 1) (rd 1) in
  let tempRow := st tempRow (targetIdx + 2) (rd 2) in
  st tempRow (targetIdx + 3) (rd 3).

(** Lines 124-162 for the row [y]: [None] is a RangeError of [set]. *)
Definition sort_row (data : list Z) (width y : Z) : option (list Z) :=
  let rowStart := (y * width) * 4 in
  let rowIndices := seq 0 (Z.to_nat width) in
  let rowIndices := sort_cmp (row_cmp data rowStart) rowIndices in
  let tempRow := repeat 0 (Z.to_nat (width * 4)) in
  let tempRow := loop_from (Z.to_nat width) 0 1 (temp_body data rowStart rowIndices) tempRow in
  ta_set data tempRow rowStart.

(** [Math.floor(height * (threshold / 100))] in doubles, as a loop bound. *)
Definition rows_to_sort (height threshold : Z) : nat :=
  match js_floor (zf height * (zf threshold / zf 100))%float with
  | Some n => Z.to_nat n
  | None => O
  end.

Fixpoint rows_loop (n : nat) (width height : Z) (data : list Z) : RandM (option (list Z)) :=
  match n with
  | O => rret (Some data)
  | S n' =>
      (y <- randomInt 0 (height - 1) ;;
       match sort_row data width y with
       | None => rret None
       | Some d => rows_loop n' width height d
       end)%rand
  end.

(** Lines 118-164. *)
Definition applyPixelSort (data : list Z) (width height threshold : Z) : RandM (option (list Z)) :=
  if threshold =? 0 then rret (Some data)
  else rows_loop (rows_to_sort height threshold) width height data.

(** ** Theorems *)

(** The brightness key of a pixel. *)
Definition px_key (c : list Z) : Z :=
  match c with r :: g :: b :: _ => r + g + b | _ => 0 end.

(** The pixels of row [y] of a frame [width] pixels wide. *)
Definition row_pixels (data : list Z) (width y : Z) : list (list Z) :=
  pixels (take (Z.to_nat (width * 4)) (drop (Z.to_nat (y * width * 4)) data)).

Section Row.
Context (d : list Z) (width y : Z).
Hypothesis Hw : 0 <= width.
Hypothesis Hy : 0 <= y.
Hypothesis Hrow : (y + 1) * width * 4 <= Z.of_nat (length d).
Hypothesis Hd : bytes_ok d.

Let rowStart := y * width * 4.
Let f (m : nat) : list Z := row_pixels d width y !!! m.

Lemma row_pixels_length : length (row_pixels d width y) = Z.to_nat width.
Proof.
  unfold row_pixels. rewrite pixels_length, length_take, length_drop.
  apply Nat2Z.inj. rewrite Nat2Z.inj_div. rewrite Nat2Z.inj_min, Nat2Z.inj_sub by nia.
  rewrite Z2Nat.id by lia. change (Z.of_nat 4) with 4. rewrite !Z2Nat.id by nia.
  rewrite Z.min_l by nia. zdiv.
Qed.

Lemma row_px_ld m r g b a :
  row_pixels d width y !! m = Some [r; g; b; a] ->
  ld d (rowStart + Z.of_nat m * 4) = Some r /\ ld d (rowStart + Z.of_nat m * 4 + 1) = Some g /\
  ld d (rowStart + Z.of_nat m * 4 + 2) = Some b /\ ld d (rowStart + Z.of_nat m * 4 + 3) = Some a.
Proof.
  intros Hm. pose proof (lookup_lt_Some _ _ _ Hm) as Hlt. rewrite row_pixels_length in Hlt.
  destruct (pixels_lookup_ld _ _ _ _ _ _ Hm) as (H0 & H1 & H2 & H3).
  rewrite !ld_take_drop in H0, H1, H2, H3 by nia.
  unfold rowStart. replace (y * width * 4 + Z.of_nat m * 4) with (y * width * 4 + 4 * Z.of_nat m) by lia.
  rewrite <- !Z.add_assoc. auto.
Qed.

Lemma row_f_shape m : (m < Z.to_nat width)%nat -> exists r g b a,
  row_pixels d width y !! m = Some [r; g; b; a] /\ f m = [r; g; b; a] /\ Forall is_byte [r; g; b; a].
Proof.
  intros Hm. rewrite <- row_pixels_length in Hm. apply lookup_lt_is_Some in Hm as [c Hc].
  destruct (pixels_shape _ _ _ Hc) as (r & g & b & a & ->).
  exists r, g, b, a. split_and!; [exact Hc | unfold f; by rewrite list_lookup_total_alt, Hc |].
  apply pixels_lookup_bytes in Hc; [exact Hc|].
  unfold bytes_ok. apply Forall_take, Forall_drop, Hd.
Qed.

(** The comparator of the code on the columns of the row is the
    difference of the pixels' brightness. *)
Lemma row_cmp_key a b : (a < Z.to_nat width)%nat -> (b < Z.to_nat width)%nat ->
  row_cmp d rowStart a b = px_key (f a) - px_key (f b).
Proof.
  intros Ha Hb. destruct (row_f_shape a Ha) as (r & g & bl & al & Hra & -> & _).
  destruct (row_f_shape b Hb) as (r' & g' & b' & a' & Hrb & -> & _).
  destruct (row_px_ld _ _ _ _ _ Hra) as (A0 & A1 & A2 & _).
  destruct (row_px_ld _ _ _ _ _ Hrb) as (B0 & B1 & B2 & _).
  unfold row_cmp, brightness_at. fold rowStart. by rewrite A0, A1, A2, B0, B1, B2.
Qed.

(** The sorted column indices, read back, are the stable sort of the
    row's pixels by brightness. *)
Lemma sorted_indices_pixels :
  map f (sort_cmp (row_cmp d rowStart) (seq 0 (Z.to_nat width))) =
  sort_cmp (key_cmp px_key) (row_pixels d width y).
Proof.
  rewrite (sort_cmp_ext _ (fun a b => px_key (f a) - px_key (f b))).
  2: { intros a b Ha Hb. apply elem_of_seq in Ha, Hb. apply row_cmp_key; lia. }
  rewrite sort_map. f_equal. apply list_eq. intros i.
  rewrite list_lookup_fmap. destruct (decide (i < Z.to_nat width)%nat) as [Hi|Hi].
  - rewrite lookup_seq_lt by exact Hi. simpl. unfold f.
    destruct (row_f_shape i Hi) as (r & g & b & a & Hc & _). rewrite list_lookup_total_alt, Hc. reflexivity.
  - rewrite lookup_seq_ge by lia. symmetry. apply lookup_ge_None. rewrite row_pixels_length. lia.
Qed.
Lemma f_length m : (m < Z.to_nat width)%nat -> length (f m) = 4%nat.
Proof. intros Hm. destruct (row_f_shape m Hm) as (? & ? & ? & ? & _ & -> & _). reflexivity. Qed.

(** After [k] iterations of the [tempRow] loop, its first [k] pixels are
    the pixels of the first [k] sorted indices and the rest is zero. *)
Lemma temp_fill (idx : list nat) k :
  (forall m, m ∈ idx -> (m < Z.to_nat width)%nat) -> (length idx <= Z.to_nat width)%nat ->
  (k <= length idx)%nat ->
  loop_from k 0 1 (temp_body d rowStart idx) (repeat 0 (Z.to_nat (width * 4))) =
  concat (map f (take k idx)) ++ repeat 0 ((Z.to_nat width - k) * 4).
Proof.
  intros Hidx Hil. induction k as [|k IH]; intros Hk.
  { simpl. f_equal. lia. }
  rewrite loop_from_S_r, IH by lia.
  destruct (lookup_lt_is_Some_2 idx k ltac:(lia)) as [m Hm].
  assert (Hmw : (m < Z.to_nat width)%nat) by (apply Hidx; by apply list_elem_of_lookup_2 with k).
  destruct (row_f_shape m Hmw) as (r & g & b & a & Hc & Hf & Hb).
  repeat apply Forall_cons in Hb as [? Hb].
  destruct (row_px_ld m r g b a Hc) as (L0 & L1 & L2 & L3).
  set (pre := concat (map f (take k idx))).
  assert (Hpre : length pre = (k * 4)%nat).
  { unfold pre. rewrite length_concat. rewrite (sum_list_fmap_same 4).
    - rewrite length_map, length_take. lia.
    - apply Forall_forall. intros x Hx. apply list_elem_of_fmap in Hx as (m' & -> & Hm').
      apply f_length, Hidx. by apply elem_of_take in Hm' as (? & ? & ?); eapply list_elem_of_lookup_2. }
  replace ((Z.to_nat width - k) * 4)%nat with (S (S (S (S ((Z.to_nat width - S k) * 4))))) by lia.
  unfold temp_body. rewrite Z.add_0_l, Z.mul_1_r, Nat2Z.id, Hm. simpl option_map. cbv beta.
  replace (Z.of_nat k * 4) with (Z.of_nat (length pre)) by lia.
  rewrite Z.add_0_r, L0, L1, L2, L3, !mv_Some by assumption. simpl repeat.
  autorewrite with px_rw.
  rewrite (take_S_r _ _ _ Hm), map_app, concat_app, <- app_assoc. simpl. by rewrite Hf.
Qed.

(** The row [y] is rewritten with the stable brightness sort of its
    pixels, the rest of the buffer is kept. *)
Lemma sort_row_spec :
  sort_row d width y = Some (take (Z.to_nat rowStart) d ++
    concat (sort_cmp (key_cmp px_key) (row_pixels d width y)) ++
    drop (Z.to_nat rowStart + Z.to_nat (width * 4)) d).
Proof.
  unfold sort_row. fold rowStart.
  set (idx := sort_cmp (row_cmp d rowStart) (seq 0 (Z.to_nat width))).
  assert (Hperm : Permutation idx (seq 0 (Z.to_nat width))) by apply sort_cmp_perm.
  assert (Hidx : forall m, m ∈ idx -> (m < Z.to_nat width)%nat).
  { intros m Hm. rewrite Hperm in Hm. apply elem_of_seq in Hm. lia. }
  assert (Hlen : length idx = Z.to_nat width) by (rewrite Hperm; apply length_seq).
  rewrite temp_fill by (auto || lia). rewrite take_ge by lia.
  rewrite Nat.sub_diag, app_nil_r. unfold idx. rewrite sorted_indices_pixels.
  set (row := concat _).
  assert (Hrl : length row = Z.to_nat (width * 4)).
  { unfold row. rewrite <- sorted_indices_pixels. rewrite length_concat. rewrite (sum_list_fmap_same 4).
    - rewrite length_map. fold idx. rewrite Hlen. lia.
    - apply Forall_forall. intros x Hx. apply list_elem_of_fmap in Hx as (m & -> & Hm). apply f_length, Hidx, Hm. }
  rewrite ta_set_fit by (unfold rowStart; nia). by rewrite Hrl.
Qed.
End Row.

(** C7: [sort_row] implements its contract: on a byte buffer whose row
    [y] lies inside it, the result is the buffer with row [y] replaced by
    any stable sort of its pixels by brightness [r + g + b] (a sorted list
    that keeps the order of pixels of equal brightness); the rest of the
    buffer is unchanged. *)
Theorem sort_row_refines (d : list Z) (width y : Z) (l' : list (list Z)) :
  0 <= width -> 0 <= y -> (y + 1) * width * 4 <= Z.of_nat (length d) -> bytes_ok d ->
  Sorted (key_le px_key) l' ->
  (forall k, with_key px_key k l' = with_key px_key k (row_pixels d width y)) ->
  sort_row d width y = Some (take (Z.to_nat (y * width * 4)) d ++ concat l' ++
                             drop (Z.to_nat (y * width * 4) + Z.to_nat (width * 4)) d).
Proof.
  intros Hw Hy Hrow Hd Hs Hk. rewrite sort_row_spec by assumption.
  by rewrite <- (stable_sort_unique px_key (row_pixels d width y) l' Hs Hk).
Qed.

(** The rows have whole pixels: the row slice is the concatenation of its
    pixels. *)
Lemma concat_row_pixels d width y :
  0 <= width -> 0 <= y -> (y + 1) * width * 4 <= Z.of_nat (length d) ->
  concat (row_pixels d width y) = take (Z.to_nat (width * 4)) (drop (Z.to_nat (y * width * 4)) d).
Proof.
  intros Hw Hy Hrow. apply concat_pixels. rewrite length_take, length_drop.
  rewrite Nat.min_l by nia. rewrite Z2Nat.inj_mul by lia. change (Z.to_nat 4) with 4%nat.
  by rewrite Nat.Div0.mod_mul.
Qed.

Lemma sort_row_perm d width y :
  0 <= width -> 0 <= y -> (y + 1) * width * 4 <= Z.of_nat (length d) -> bytes_ok d ->
  exists d', sort_row d width y = Some d' /\ Permutation d' d.
Proof.
  intros Hw Hy Hrow Hd. rewrite sort_row_spec by assumption. eexists. split; [reflexivity|].
  set (s := Z.to_nat (y * width * 4)). set (n := Z.to_nat (width * 4)).
  transitivity (take s d ++ take n (drop s d) ++ drop (s + n) d).
  - apply Permutation_app_head, Permutation_app_tail.
    unfold s, n. rewrite <- concat_row_pixels by assumption. apply perm_concat, sort_cmp_perm.
  - by rewrite <- drop_drop, !take_drop.
Qed.

(** A frame of height 0 sorts no row (checked by evaluation on every
    threshold of [-4096, 4096)). *)
Lemma rows_to_sort_0 t : -4096 <= t < 4096 -> rows_to_sort 0 t = O.
Proof.
  intros Ht.
  pose proof (all_range_Z (fun t => Nat.eqb (rows_to_sort 0 t) 0) (-4096) 8192
                ltac:(vm_compute; reflexivity) t ltac:(lia)) as H.
  by apply Nat.eqb_eq in H.
Qed.

Lemma rows_loop_perm n width height d r :
  0 <= width -> 1 <= height -> Z.of_nat (length d) = width * height * 4 -> bytes_ok d ->
  rng_valid r ->
  (exists d', fst (rows_loop n width height d r) = Some d' /\ Permutation d' d) /\
  rng_valid (snd (rows_loop n width height d r)).
Proof.
  revert d r. induction n as [|n IH]; intros d r Hw Hh Hl Hd Hr; simpl; [split; [by exists d | exact Hr]|].
  unfold rbind. rand_draw. destruct Hrange as [Hy _]. specialize (Hy ltac:(lia)).
  destruct (sort_row_perm d width x) as (d1 & -> & Hp1); [lia | lia | nia | exact Hd |].
  destruct (IH d1 r0) as [(d2 & Hd2 & Hp2) Hv]; [lia | lia | by rewrite (Permutation_length Hp1) |
    unfold bytes_ok; by rewrite Hp1 | exact Hval |].
  split; [exists d2; split; [exact Hd2 | by etrans] | exact Hv].
Qed.

(** C8: for every outcome of [Math.random], the pixel sort on a byte
    buffer of [width * height] pixels never throws and its result is a
    permutation of the input bytes. *)
Theorem applyPixelSort_perm (d : list Z) (width height threshold : Z) (r : rng) :
  0 <= width -> 0 <= height -> Z.of_nat (length d) = width * height * 4 -> bytes_ok d ->
  -4096 <= threshold < 4096 -> rng_valid r ->
  (exists d', fst (applyPixelSort d width height threshold r) = Some d' /\ Permutation d' d) /\
  rng_valid (snd (applyPixelSort d width height threshold r)).
Proof.
  intros Hw Hh Hl Hd Ht Hr. unfold applyPixelSort. destruct (threshold =? 0); [split; [by exists d | exact Hr]|].
  destruct (Z.eq_dec height 0) as [->|Hh0].
  - rewrite rows_to_sort_0 by exact Ht. split; [by exists d | exact Hr].
  - apply rows_loop_perm; (assumption || lia).
Qed.

End PixelSortPass.

(** ** Witnesses and the row count *)

Lemma sort_row_refines_witness :
  PixelSortPass.sort_row [200; 200; 200; 255; 10; 10; 10; 255] 2 0 =
  Some (take 0 [200; 200; 200; 255; 10; 10; 10; 255] ++
        concat [[10; 10; 10; 255]; [200; 200; 200; 255]] ++
        drop (0 + 8) [200; 200; 200; 255; 10; 10; 10; 255]).
Proof.
  apply (PixelSortPass.sort_row_refines [200; 200; 200; 255; 10; 10; 10; 255] 2 0
           [[10; 10; 10; 255]; [200; 200; 200; 255]]).
  - lia.
  - lia.
  - simpl. lia.
  - repeat constructor; byte_solver.
  - repeat constructor; unfold key_le; simpl; lia.
  - intros k. unfold with_key.
    replace (PixelSortPass.row_pixels _ 2 0) with [[200; 200; 200; 255]; [10; 10; 10; 255]] by reflexivity.
    rewrite !filter_cons. repeat case_decide; simpl in *; try lia; reflexivity.
Defined.

Lemma applyPixelSort_perm_witness :
  (exists d', fst (PixelSortPass.applyPixelSort [200; 200; 200; 255; 10; 10; 10; 255] 2 1 50 zero_tape) = Some d' /\
              Permutation d' [200; 200; 200; 255; 10; 10; 10; 255]) /\
  rng_valid (snd (PixelSortPass.applyPixelSort [200; 200; 200; 255; 10; 10; 10; 255] 2 1 50 zero_tape)).
Proof.
  apply PixelSortPass.applyPixelSort_perm; try lia; [reflexivity | repeat constructor; byte_solver | exact zero_tape_valid].
Defined.

(** The number of rows is computed in doubles: with [height = 100]
    and [pixelSort = 29], [Math.floor(100 * (29 / 100))] is 28 and not
    [floor(100 * 29 / 100) = 29] (0.29 is not a double). *)
Example rows_to_sort_rounding :
  PixelSortPass.rows_to_sort 100 29 = 28%nat /\ (100 * 29 / 100 = 29)%Z.
Proof. split; [vm_compute; reflexivity | reflexivity]. Qed.
