(* ===== verification/Glitch.v ===== *)
(** * Three glitch passes of [processImage]

    src/utils/glitchAlgorithms.ts, lines 31-116: the RGB shift (Module
    [RGBShift]), the block shift ([BlockShift]) and the scanlines
    ([Scanlines]), each a function of the buffer and, where the code
    calls [Math.random], of the random tape.  Pipeline.v composes them
    with the pixel sort of PixelSort.v in the order of [processImage]. *)

From S2P Require Import Prelude Buffer.

Open Scope Z_scope.

(** ** [applyRGBShift] (lines 31-51) *)

Module RGBShift.

(** The index [newIndex] the loop body at byte offset [i] reads from:
    [x = pixelIndex % width], [y = (pixelIndex - x) / width] (an exact
    division), [newX = (x + offset) % width],
    [newIndex = (y * width + newX) << 2].  A NaN operand of [<<] (when
    [width] is 0) is converted to 0. *)
Definition src_index (width offset i : Z) : Z :=
  let pixelIndex := js_ushr i 2 in
  match js_rem pixelIndex width with
  | None => 0
  | Some x =>
      let y := (pixelIndex - x) / width in
      match js_rem (x + offset) width with
      | None => 0
      | Some newX => js_shl (y * width + newX) 2
      end
  end.

(** The loop body (lines 40-49): [buffer] is the copy taken before the
    loop. *)
Definition body (buffer : list Z) (width offset len : Z) (i : Z) (data : list Z) : list Z :=
  let newIndex := src_index width offset i in
  if newIndex <? len then st data i (mv (ld buffer newIndex)) else data.

Definition applyRGBShift (data : list Z) (width height offset : Z) : list Z :=
  if offset =? 0 then data
  else
    let buffer := data in
    let len := Z.of_nat (length data) in
    loop_from (px_iters len) 0 4 (body buffer width offset len) data.

(** The per-pixel function: only the red byte is written. *)
Definition shift_px (buffer : list Z) (width offset len : Z) (i : Z) (c : list Z) : list Z :=
  match c with
  | [r; g; b; a] =>
      let newIndex := src_index width offset i in
      if newIndex <? len then [mv (ld buffer newIndex); g; b; a] else c
  | _ => c
  end.

Lemma shift_local buffer width offset len :
  px_local (body buffer width offset len) (shift_px buffer width offset len).
Proof. unfold body. px_local_tac. Qed.

Lemma shift_shape buffer width offset len : px_shape (shift_px buffer width offset len).
Proof.
  intros i c Hc. do 4 (destruct c as [|? c]; [discriminate|]). destruct c; [|discriminate].
  simpl. by case_match.
Qed.

(** The index arithmetic of the code, on every pixel of a buffer below
    2^31 bytes: [newIndex] is 4 times the pixel at column
    [(x + offset) mod width] of the same row. *)
Lemma src_index_pixel width offset p :
  0 < width -> 0 <= offset -> 0 <= p ->
  4 * (p + width + offset) < 2 ^ 31 ->
  src_index width offset (4 * p) = 4 * (p / width * width + (p mod width + offset) mod width).
Proof.
  intros Hw Ho Hp Hb. unfold src_index.
  rewrite js_ushr_4 by lia. rewrite js_rem_pos by lia.
  assert (Hx : 0 <= p mod width < width) by (apply Z.mod_pos_bound; lia).
  rewrite js_rem_pos by lia.
  assert (Hy : (p - p mod width) / width = p / width).
  { rewrite (Z.div_mod p width) at 1 by lia.
    replace (width * (p / width) + p mod width - p mod width) with (p / width * width) by lia.
    apply Z.div_mul. lia. }
  rewrite Hy. apply js_shl_2.
  assert (0 <= (p mod width + offset) mod width < width) by (apply Z.mod_pos_bound; lia).
  pose proof (Z.mul_div_le p width ltac:(lia)). pose proof (Z.div_pos p width ltac:(lia) ltac:(lia)).
  nia.
Qed.

(** Pixel [y * width + x] seen as coordinates. *)
Lemma coords_div_mod width x y : 0 <= x < width -> (y * width + x) / width = y /\ (y * width + x) mod width = x.
Proof.
  intros Hx. split.
  - rewrite Z.div_add_l by lia. rewrite Z.div_small by lia. lia.
  - rewrite Z.add_comm, Z.mod_add by lia. apply Z.mod_small. lia.
Qed.

(** C4: on a byte buffer of [width * height] pixels (below 2^31 bytes)
    and a non-negative offset, pixel [(x, y)] of the result has the red
    byte of pixel [((x + offset) mod width, y)] of the input and keeps
    its own green, blue and alpha bytes. *)
Theorem applyRGBShift_pixel (d : list Z) (width height offset x y : Z) r g b a r' g' b' a' :
  0 < width -> 0 <= height -> 0 <= offset ->
  Z.of_nat (length d) = width * height * 4 -> 4 * (width * height + width + offset) < 2 ^ 31 ->
  bytes_ok d -> 0 <= x < width -> 0 <= y < height ->
  pixels d !! Z.to_nat (y * width + x) = Some [r; g; b; a] ->
  pixels d !! Z.to_nat (y * width + (x + offset) mod width) = Some [r'; g'; b'; a'] ->
  pixels (applyRGBShift d width height offset) !! Z.to_nat (y * width + x) = Some [r'; g; b; a].
Proof.
  intros Hw Hh Ho Hl Hb Hd Hx Hy Hp Hq.
  assert (Hxo : 0 <= (x + offset) mod width < width) by (apply Z.mod_pos_bound; lia).
  unfold applyRGBShift. destruct (Z.eqb_spec offset 0) as [->|Hne].
  { rewrite Z.add_0_r, Z.mod_small in Hq by lia. rewrite Hp in Hq. congruence. }
  rewrite (loop_map_px_all _ (shift_px d width offset (Z.of_nat (length d))));
    [| apply shift_local | apply shift_shape
     | apply Nat2Z.inj; rewrite Nat2Z.inj_mod, Hl; simpl; zdiv].
  rewrite (pixels_map_px_lookup _ _ _ _ _ (shift_shape _ _ _ _) Hp).
  cbn [shift_px]. rewrite Z2Nat.id by nia. rewrite Z.add_0_l.
  rewrite src_index_pixel by nia.
  destruct (coords_div_mod width x y Hx) as [-> ->].
  destruct (pixels_lookup_ld _ _ _ _ _ _ Hq) as [Hr _].
  rewrite Z2Nat.id in Hr by nia. rewrite Hr.
  rewrite (proj2 (Z.ltb_lt _ _)) by nia.
  pose proof (pixels_lookup_bytes d _ _ Hd Hq) as Hc. apply Forall_cons in Hc as [Hr' _].
  by rewrite mv_Some.
Qed.

Lemma applyRGBShift_length d width height offset :
  (length d mod 4 = 0)%nat -> length (applyRGBShift d width height offset) = length d.
Proof.
  intros Hm. unfold applyRGBShift. destruct (offset =? 0); [reflexivity|].
  rewrite (loop_map_px_all _ (shift_px d width offset (Z.of_nat (length d))));
    auto using shift_local, shift_shape, map_px_length.
Qed.

(** The shift stores only values read back through the typed-array copy. *)
Lemma applyRGBShift_bytes d width height offset :
  bytes_ok d -> bytes_ok (applyRGBShift d width height offset).
Proof.
  intros Hd. unfold applyRGBShift. destruct (offset =? 0); [exact Hd|].
  apply loop_from_inv; [exact Hd|]. intros j s Hs. unfold body.
  case_match; [apply bytes_ok_st; auto using mv_byte | exact Hs].
Qed.

End RGBShift.

(** ** Witnesses and a negative offset *)

Lemma applyRGBShift_pixel_witness :
  pixels (RGBShift.applyRGBShift [10; 20; 30; 255; 40; 50; 60; 255] 2 1 1) !! 0%nat
  = Some [40; 20; 30; 255].
Proof.
  exact (RGBShift.applyRGBShift_pixel [10; 20; 30; 255; 40; 50; 60; 255] 2 1 1 0 0
           10 20 30 255 40 50 60 255 ltac:(lia) ltac:(lia) ltac:(lia) eq_refl ltac:(lia)
           ltac:(repeat constructor; byte_solver) ltac:(lia) ltac:(lia) eq_refl eq_refl).
Defined.

(** With a negative offset the truncated [%] of the code does not wrap:
    pixel 0 reads [buffer[-4]], which is [undefined], and its red byte
    becomes 0 instead of the red byte of the last pixel of the row. *)
Example applyRGBShift_negative_offset :
  RGBShift.applyRGBShift [10; 20; 30; 255; 40; 50; 60; 255] 2 1 (-1) = [0; 20; 30; 255; 10; 50; 60; 255].
Proof. vm_compute. reflexivity. Qed.

(** ** [applyBlockShift] (lines 53-87) *)

Module BlockShift.

Record block := mk_block { blockW : Z; blockH : Z; srcX : Z; srcY : Z; destX : Z; destY : Z }.

(** Lines 60-70: the six draws of one block and its clamped destination. *)
Definition draw_block (width height maxBlockSize : Z) : RandM block :=
  (blockW <- randomInt 10 maxBlockSize ;;
   blockH <- randomInt 2 50 ;;
   srcX <- randomInt 0 (width - blockW) ;;
   srcY <- randomInt 0 (height - blockH) ;;
   shiftX <- randomInt (-50) 50 ;;
   shiftY <- randomInt (-10) 10 ;;
   let destX := Z.min (width - blockW) (Z.max 0 (srcX + shiftX)) in
   let destY := Z.min (height - blockH) (Z.max 0 (srcY + shiftY)) in
   rret (mk_block blockW blockH srcX srcY destX destY))%rand.

(** Lines 74-84: row [y] of the block, copied with [subarray]/[set] when
    the bounds check passes; [None] is a RangeError thrown by [set]. *)
Definition copy_row (width : Z) (k : block) (y : Z) (data : list Z) : option (list Z) :=
  let srcStart := ((srcY k + y) * width + srcX k) * 4 in
  let destStart := ((destY k + y) * width + destX k) * 4 in
  let len := blockW k * 4 in
  let n := Z.of_nat (length data) in
  if (srcStart + len <? n) && (destStart + len <? n) && (0 <=? srcStart) && (0 <=? destStart)
  then ta_set data (subarray data srcStart (srcStart + len)) destStart
  else Some data.

(** Lines 73-85: [for (let y = 0; y < blockH; y++)]. *)
Definition copy_block (width : Z) (k : block) (data : list Z) : option (list Z) :=
  loop_from (Z.to_nat (blockH k)) 0 1 (fun y o => o ≫= copy_row width k y) (Some data).

(** Lines 59-86: [numBlocks] blocks, each drawn then copied; a RangeError
    ends the pass. *)
Fixpoint blocks_loop (n : nat) (width height maxBlockSize : Z) (data : list Z)
  : RandM (option (list Z)) :=
  match n with
  | O => rret (Some data)
  | S n' =>
      (k <- draw_block width height maxBlockSize ;;
       match copy_block width k data with
       | None => rret None
       | Some d => blocks_loop n' width height maxBlockSize d
       end)%rand
  end.

(** [Math.floor((intensity / 100) * 30)] in doubles, as a loop bound. *)
Definition num_blocks (intensity : Z) : nat :=
  match js_floor (zf intensity / zf 100 * zf 30)%float with
  | Some n => Z.to_nat n
  | None => O
  end.

(** Lines 53-87.  The [seed] parameter is not read. *)
Definition applyBlockShift (data : list Z) (width height intensity : Z) (seed : float)
  : RandM (option (list Z)) :=
  if intensity =? 0 then rret (Some data)
  else blocks_loop (num_blocks intensity) width height (width / 4) data.

(** ** Theorems *)

(** The draws of one block: their ranges, and the clamped destination
    inside the frame whenever the block fits. *)
Lemma draw_block_spec width height m r :
  rng_valid r ->
  let '(k, r') := draw_block width height m r in
  rng_valid r' /\
  ((10 <= m -> 10 <= blockW k <= m) /\ (m < 10 -> m + 1 <= blockW k <= 10)) /\
  2 <= blockH k <= 50 /\
  (blockW k <= width -> 0 <= srcX k <= width - blockW k /\ 0 <= destX k <= width - blockW k) /\
  (blockH k <= height -> 0 <= srcY k <= height - blockH k /\ 0 <= destY k <= height - blockH k).
Proof.
  intros Hr. unfold draw_block, rbind, rret.
  do 6 rand_draw. simpl. split; [assumption|]. split_and!; intros; lia.
Qed.

Lemma copy_row_ok width k y d :
  0 <= blockW k ->
  exists d', copy_row width k y d = Some d' /\ length d' = length d /\ d' ⊆ d.
Proof.
  intros Hw. unfold copy_row.
  destruct (_ && _ && _ && _) eqn:G; [|exists d; done].
  repeat apply andb_prop in G as [G ?]. rewrite Z.ltb_lt in *. rewrite Z.leb_le in *.
  apply ta_set_in; lia.
Qed.

Lemma copy_block_ok width k d :
  0 <= blockW k ->
  exists d', copy_block width k d = Some d' /\ length d' = length d /\ d' ⊆ d.
Proof.
  intros Hw. unfold copy_block.
  apply (loop_from_inv (fun o => exists d', o = Some d' /\ length d' = length d /\ d' ⊆ d)).
  - by exists d.
  - intros j o (d1 & -> & Hl1 & Hs1). simpl.
    destruct (copy_row_ok width k j d1 Hw) as (d2 & -> & Hl2 & Hs2).
    exists d2. split_and!; [done | lia | by etrans].
Qed.

(** C5: on a frame of non-negative width, the block shift never throws
    (the bounds check keeps every [set] inside the buffer), keeps the
    buffer's length, and every byte of the result is a byte of the input:
    it only copies pixels around, for every outcome of [Math.random]. *)
Theorem applyBlockShift_safe (data : list Z) (width height intensity : Z) (seed : float) (r : rng) :
  0 <= width -> rng_valid r ->
  (exists d', fst (applyBlockShift data width height intensity seed r) = Some d' /\
             length d' = length data /\ d' ⊆ data) /\
  rng_valid (snd (applyBlockShift data width height intensity seed r)).
Proof.
  intros Hw Hr. unfold applyBlockShift. destruct (intensity =? 0); [split; [by exists data | exact Hr]|].
  generalize (num_blocks intensity) as n. intros n. revert data r Hr.
  induction n as [|n IH]; intros data r Hr; simpl; [split; [by exists data | exact Hr]|].
  unfold rbind. pose proof (draw_block_spec width height (width / 4) r Hr) as Hk.
  destruct (draw_block width height (width / 4) r) as [k r'].
  destruct Hk as (Hr' & [HW1 HW2] & _).
  assert (0 <= blockW k) by (destruct (Z_lt_le_dec (width / 4) 10); [specialize (HW2 l) | specialize (HW1 l)]; zdiv).
  destruct (copy_block_ok width k data ltac:(lia)) as (d1 & -> & Hl1 & Hs1).
  destruct (IH d1 r' Hr') as [(d2 & Hd2 & Hl2 & Hs2) Hv].
  split; [exists d2; split_and!; [exact Hd2 | lia | by etrans] | exact Hv].
Qed.

(** when the frame is at least 40 pixels wide and 50 high, every
    block's source and clamped destination rectangles lie inside the
    frame, whatever the draws. *)
Theorem draw_block_in_frame (width height : Z) (r : rng) :
  40 <= width -> 50 <= height -> rng_valid r ->
  let k := fst (draw_block width height (width / 4) r) in
  0 <= srcX k /\ srcX k + blockW k <= width /\ 0 <= srcY k /\ srcY k + blockH k <= height /\
  0 <= destX k /\ destX k + blockW k <= width /\ 0 <= destY k /\ destY k + blockH k <= height.
Proof.
  intros Hw Hh Hr k. pose proof (draw_block_spec width height (width / 4) r Hr) as Hk.
  unfold k. destruct (draw_block width height (width / 4) r) as [b r']. simpl.
  destruct Hk as (_ & [HW1 _] & HH & HX & HY).
  assert (10 <= width / 4) by zdiv. specialize (HW1 H).
  assert (blockW b <= width) by zdiv.
  specialize (HX H0). specialize (HY ltac:(lia)). lia.
Qed.

(** C6: the block count the code computes in doubles,
    [Math.floor((intensity / 100) * 30)], is [intensity * 30 / 100]
    rounded down for every slider value 0..100 (checked by evaluation). *)
Theorem num_blocks_exact (intensity : Z) :
  0 <= intensity <= 100 -> num_blocks intensity = Z.to_nat (intensity * 30 / 100).
Proof.
  intros Hi.
  pose proof (all_range_Z (fun i => Nat.eqb (num_blocks i) (Z.to_nat (i * 30 / 100))) 0 101
                ltac:(vm_compute; reflexivity) intensity ltac:(lia)) as H.
  by apply Nat.eqb_eq in H.
Qed.

End BlockShift.

Lemma num_blocks_exact_witness : BlockShift.num_blocks 70 = 21%nat.
Proof. exact (BlockShift.num_blocks_exact 70 ltac:(lia)). Defined.

Lemma applyBlockShift_safe_witness :
  (exists d', fst (BlockShift.applyBlockShift (repeat 7 (40 * 50 * 4)) 40 50 10 (zf 0) zero_tape) = Some d' /\
             length d' = length (repeat 7 (40 * 50 * 4)) /\ d' ⊆ repeat 7 (40 * 50 * 4)) /\
  rng_valid (snd (BlockShift.applyBlockShift (repeat 7 (40 * 50 * 4)) 40 50 10 (zf 0) zero_tape)).
Proof. apply BlockShift.applyBlockShift_safe; [lia | exact zero_tape_valid]. Defined.

Lemma draw_block_in_frame_witness :
  let k := fst (BlockShift.draw_block 40 50 (40 / 4) zero_tape) in
  0 <= BlockShift.srcX k /\ BlockShift.srcX k + BlockShift.blockW k <= 40 /\
  0 <= BlockShift.srcY k /\ BlockShift.srcY k + BlockShift.blockH k <= 50 /\
  0 <= BlockShift.destX k /\ BlockShift.destX k + BlockShift.blockW k <= 40 /\
  0 <= BlockShift.destY k /\ BlockShift.destY k + BlockShift.blockH k <= 50.
Proof. apply BlockShift.draw_block_in_frame; [lia | lia | exact zero_tape_valid]. Defined.

(** On a frame narrower than 40 pixels a block can be wider than the
    frame ([randomInt(10, 2)] gives 10 on an 8-pixel frame); the clamp
    [Math.min(width - blockW, ...)] then gives a negative [destX], and the
    second row of the block is written from column 6 of the row above:
    byte 24 (pixel 6 of row 0) receives byte 32 (pixel 0 of row 1). *)
Example block_shift_narrow_frame :
  let k := fst (BlockShift.draw_block 8 60 (8 / 4) zero_tape) in
  BlockShift.blockW k = 10 /\ BlockShift.destX k = -2 /\
  option_map (fun d => d !! 24%nat) (BlockShift.copy_block 8 k (seqZ 0 (8 * 60 * 4))) = Some (Some 32).
Proof. vm_compute. repeat split; reflexivity. Qed.

(** ** [applyScanlines] (lines 89-116) *)

Module Scanlines.

#[local] Set Warnings "-inexact-float".

(** [data[i] * factor] stored: NaN (an [undefined] read) stores 0. *)
Definition mul_store (v : option Z) (factor : float) : Z :=
  match v with Some z => clamp_f (zf z * factor)%float | None => 0 end.

(** [data[i] += noise] stored. *)
Definition add_store (v : option Z) (noise : Q) : Z :=
  match v with Some z => to_uint8_clamp (inject_Z z + noise) | None => 0 end.

(** [factor = 0.5 + ((10 - intensity) / 20)] (line 93). *)
Definition factor (intensity : Z) : float := (0.5 + zf (10 - intensity) / zf 20)%float.

(** [noiseChance = intensity * 0.01] (line 94). *)
Definition noise_chance (intensity : Z) : float := (zf intensity * 0.01)%float.

(** [lineSkip = 2 + Math.floor((10 - intensity) / 2)] (line 92): the
    quotient is a half-integer, exact in doubles. *)
Definition line_skip (intensity : Z) : Z := 2 + (10 - intensity) / 2.

(** The body of the pixel loop (lines 103-112).  The noise
    [(Math.random() - 0.5) * 50] is computed on the exact draw. *)
Definition px_body (factor noiseChance : float) (i : Z) (data : list Z) : RandM (list Z) :=
  let data := st data i (mul_store (ld data i) factor) in
  let data := st data (i + 1) (mul_store (ld data (i + 1)) factor) in
  let data := st data (i + 2) (mul_store (ld data (i + 2)) factor) in
  (c <- random ;;
   if xlt (XFin c) (xv noiseChance) then
     (n <- random ;;
      let noise := ((n - (1 # 2)) * 50)%Q in
      let data := st data i (add_store (ld data i) noise) in
      let data := st data (i + 1) (add_store (ld data (i + 1)) noise) in
      rret (st data (i + 2) (add_store (ld data (i + 2)) noise)))
   else rret data)%rand.

(** The row loop (lines 97-115): rows with [y % lineSkip === 0] are
    darkened; a NaN remainder ([lineSkip] = 0) selects no row. *)
Definition row_selected (lineSkip y : Z) : bool :=
  match js_rem y lineSkip with Some 0 => true | _ => false end.

Definition row_body (width lineSkip : Z) (factor noiseChance : float) (y : Z) (data : list Z)
  : RandM (list Z) :=
  if row_selected lineSkip y then
    let rowStart := y * width * 4 in
    rloop (px_iters (width * 4)) rowStart 4 (px_body factor noiseChance) data
  else rret data.

Definition applyScanlines (data : list Z) (width height intensity : Z) : RandM (list Z) :=
  if intensity =? 0 then rret data
  else
    let lineSkip := line_skip intensity in
    rloop (Z.to_nat height) 0 1 (row_body width lineSkip (factor intensity) (noise_chance intensity)) data.

(** Every store of the pass is a clamped byte. *)
Lemma mul_store_byte v f : is_byte (mul_store v f).
Proof. destruct v; simpl; [apply clamp_f_byte | byte_solver]. Qed.

Lemma add_store_byte v q : is_byte (add_store v q).
Proof. destruct v; simpl; [apply to_uint8_clamp_byte | byte_solver]. Qed.

#[local] Hint Resolve mul_store_byte add_store_byte : px.

Lemma px_body_bytes f nc i data r :
  bytes_ok data -> bytes_ok (fst (px_body f nc i data r)).
Proof.
  intros Hd. unfold px_body, rbind, random, rret. simpl.
  case_match; simpl; repeat (apply bytes_ok_st; [|auto with px]); exact Hd.
Qed.

(** One pixel iteration writes only the R, G and B bytes of its pixel. *)
Lemma px_body_frame f nc i data r :
  rng_valid r ->
  agree_except (fun j => i <= j <= i + 2) (fst (px_body f nc i data r)) data /\
  rng_valid (snd (px_body f nc i data r)).
Proof.
  intros Hr. unfold px_body, rbind, random, rret. simpl.
  case_match; simpl; (split; [|intros n; apply Hr]);
    repeat (apply agree_st_in; [lia|]); apply agree_refl.
Qed.

(** A property of the buffer that every pixel iteration keeps holds of
    the result of the pass. *)
Lemma applyScanlines_inv (P : list Z -> Prop) d width height intensity r :
  (forall f nc i data r, rng_valid r -> P data -> P (fst (px_body f nc i data r))) ->
  P d -> rng_valid r ->
  P (fst (applyScanlines d width height intensity r)) /\
  rng_valid (snd (applyScanlines d width height intensity r)).
Proof.
  intros HP Hd Hr. unfold applyScanlines. destruct (intensity =? 0); [by split|].
  apply (rloop_inv P); [exact Hr | exact Hd |]. intros k data r1 _ Hr1 Hdata.
  unfold row_body. case_match; [|by split].
  apply (rloop_inv P); [exact Hr1 | exact Hdata |]. intros m data2 r2 _ Hr2 Hdata2.
  split; [by apply HP | exact (proj2 (px_body_frame _ _ _ _ _ Hr2))].
Qed.

(** The pass keeps a byte buffer a byte buffer, of the same length. *)
Lemma applyScanlines_bytes d width height intensity r :
  bytes_ok d -> rng_valid r -> bytes_ok (fst (applyScanlines d width height intensity r)).
Proof.
  intros Hd Hr. apply (applyScanlines_inv bytes_ok); [|exact Hd | exact Hr].
  intros; by apply px_body_bytes.
Qed.

Lemma applyScanlines_length d width height intensity r :
  rng_valid r -> length (fst (applyScanlines d width height intensity r)) = length d.
Proof.
  intros Hr. apply (applyScanlines_inv (fun l => length l = length d)); [|reflexivity | exact Hr].
  intros f nc i data r1 Hr1 <-. exact (proj1 (proj1 (px_body_frame f nc i data r1 Hr1))).
Qed.

(** ** Theorems *)

(** The bytes a selected row may change: R, G and B of the rows [y] with
    [y % lineSkip === 0]. *)
Definition darkened (width lineSkip : Z) (j : Z) : Prop :=
  j mod 4 <> 3 /\ row_selected lineSkip (j / (width * 4)) = true.

(** for every outcome of [Math.random], the scanline pass keeps the
    buffer's length, never touches an alpha byte, and leaves every row [y]
    with [y % lineSkip !== 0] unchanged. *)
Theorem applyScanlines_frame (d : list Z) (width height intensity : Z) (r : rng) :
  0 < width -> rng_valid r ->
  agree_except (darkened width (line_skip intensity)) (fst (applyScanlines d width height intensity r)) d.
Proof.
  intros Hw Hr. unfold applyScanlines. destruct (intensity =? 0); [apply agree_refl|].
  set (ls := line_skip intensity).
  apply (rloop_inv (fun data => agree_except (darkened width ls) data d)); [exact Hr | apply agree_refl |].
  intros k data r1 _ Hr1 Hdata. rewrite Z.add_0_l, Z.mul_1_r. unfold row_body.
  destruct (row_selected ls (Z.of_nat k)) eqn:Hsel; [|by split].
  apply (rloop_inv (fun data => agree_except (darkened width ls) data d)); [exact Hr1 | exact Hdata |].
  intros m data2 r2 Hm Hr2 Hdata2.
  assert (Hmw : (m < Z.to_nat width)%nat).
  { unfold px_iters in Hm. replace ((width * 4 + 3) / 4) with width in Hm by zdiv. exact Hm. }
  destruct (px_body_frame (factor intensity) (noise_chance intensity)
              (Z.of_nat k * width * 4 + Z.of_nat m * 4) data2 r2 Hr2) as [Hf Hv].
  split; [|exact Hv]. eapply agree_trans; [|exact Hdata2].
  eapply agree_weaken; [|exact Hf]. intros j Hj. cbv beta in Hj. split.
  - rewrite (Z.mul_comm (Z.of_nat k * width)) in Hj. zdiv.
  - replace (j / (width * 4)) with (Z.of_nat k); [exact Hsel|].
    apply (Z.div_unique_pos _ _ _ (j - Z.of_nat k * width * 4)); [|ring].
    assert (Z.of_nat m < width) by lia. lia.
Qed.

(** The darkening factor, computed and applied in doubles, never
    brightens a byte: for every slider value 1..10 and every byte [v],
    the stored [v * factor] lies in [0, v] (checked by evaluation). *)
Theorem mul_store_darkens (intensity v : Z) :
  1 <= intensity <= 10 -> is_byte v -> 0 <= mul_store (Some v) (factor intensity) <= v.
Proof.
  intros Hi Hv. unfold is_byte in Hv.
  pose proof (all_range_Z (fun s => all_range (fun v => Z.leb (mul_store (Some v) (factor s)) v) 0 256) 1 10
                ltac:(vm_compute; reflexivity) intensity ltac:(lia)) as H.
  cbv beta in H. pose proof (all_range_Z _ 0 256 H v ltac:(lia)) as H'. cbv beta in H'.
  apply Z.leb_le in H'. split; [apply clamp_f_byte | exact H'].
Qed.

End Scanlines.

Lemma applyScanlines_frame_witness :
  0 < 2 /\ rng_valid zero_tape /\
  agree_except (Scanlines.darkened 2 (Scanlines.line_skip 5))
    (fst (Scanlines.applyScanlines [200; 100; 50; 255; 10; 20; 30; 128] 2 1 5 zero_tape))
    [200; 100; 50; 255; 10; 20; 30; 128].
Proof.
  split; [lia|]. split; [apply zero_tape_valid|].
  apply Scanlines.applyScanlines_frame; [lia | apply zero_tape_valid].
Defined.

Lemma mul_store_darkens_witness :
  1 <= 10 <= 10 /\ is_byte 200 /\ 0 <= Scanlines.mul_store (Some 200) (Scanlines.factor 10) <= 200.
Proof.
  split; [lia|]. split; [byte_solver|].
  apply Scanlines.mul_store_darkens; [lia | byte_solver].
Defined.
