(* ===== verification/Blend.v ===== *)
(** * The blend stage: [renderBlend]

    src/utils/glitchAlgorithms.ts, lines 184-298, with the parameter
    record [BlendParams] (lines 341-346).  The working buffer
    [targetData] is the image the parent drew on the canvas; the second
    source [img2] is [None] when the code returns early ([!img2]) and
    otherwise stands for the bytes [blendData] of [img2] drawn at the
    frame's size ([drawImage] and [getImageData] are canvas I/O).  The
    four modes are four loops over the buffer; [displacement] and
    [difference] draw [Math.random] once per pixel. *)

From S2P Require Import Prelude Buffer.

Open Scope Z_scope.
#[local] Set Warnings "-inexact-float".

Inductive BlendMode := Displacement | Difference | HardMix | Interlace.

Record BlendParams := mk_blend_params {
  mode : BlendMode;
  mix : Z;
  threshold : Z;
  scale : Z
}.

(** [mix = params.mix / 100] (line 216). *)
Definition mix_f (p : BlendParams) : float := (zf (mix p) / zf 100)%float.

(** [rowHeight = Math.max(1, Math.floor(params.scale / 10))] (line 222);
    the quotient of two integers is finite, so the floor is an integer. *)
Definition row_height (p : BlendParams) : Z :=
  match js_floor (zf (scale p) / zf 10)%float with Some q => Z.max 1 q | None => 1 end.

(** ** Displacement (lines 225-257) *)

(** [Math.floor(((v / 127.5) - 1) * displacementScale)]; NaN when the
    blend byte is [undefined]. *)
Definition shift_of (v : option Z) (ds : Z) : option Z :=
  match v with
  | Some br => js_floor (((zf br / 127.5) - 1) * zf ds)%float
  | None => None
  end.

(** The clamp of lines 246-247; a NaN coordinate fails both tests. *)
Definition clamp_coord (v : option Z) (n : Z) : option Z :=
  match v with
  | Some v => Some (if v <? 0 then 0 else if n <=? v then n - 1 else v)
  | None => None
  end.

(** [srcIdx] of line 249; a NaN coordinate makes [(...) << 2] zero. *)
Definition disp_src (blend : list Z) (width height ds i : Z) : Z :=
  let pixelIndex := js_ushr i 2 in
  match js_rem pixelIndex width with
  | None => 0
  | Some x =>
      let y := (pixelIndex - x) / width in
      let srcX := clamp_coord (option_map (Z.add x) (shift_of (ld blend i) ds)) width in
      let srcY := clamp_coord (option_map (Z.add y) (shift_of (ld blend (i + 1)) ds)) height in
      match srcX, srcY with
      | Some sx, Some sy => js_shl (sy * width + sx) 2
      | _, _ => 0
      end
  end.

(** The three stores of lines 252-254, from the snapshot [buffer]. *)
Definition disp_write (buffer : list Z) (srcIdx i : Z) (data : list Z) : list Z :=
  let data := st data i (mv (ld buffer srcIdx)) in
  let data := st data (i + 1) (mv (ld buffer (srcIdx + 1))) in
  st data (i + 2) (mv (ld buffer (srcIdx + 2))).

(** The loop body: [Math.random() > (1 - mix)] decides the copy. *)
Definition disp_body (buffer blend : list Z) (width height ds : Z) (m : float) (i : Z)
    (data : list Z) : RandM (list Z) :=
  let srcIdx := disp_src blend width height ds i in
  (c <- random ;;
   rret (if xlt (xv (1 - m)%float) (XFin c) then disp_write buffer srcIdx i data else data))%rand.

(** ** Difference (lines 258-269) *)

(** [Math.abs(a - b)] stored in the clamped array; NaN when either byte
    is [undefined]. *)
Definition abs_store (t b : option Z) : Z :=
  match t, b with
  | Some t, Some b => to_uint8_clamp (inject_Z (Z.abs (t - b)))
  | _, _ => 0
  end.

(** The three stores of lines 263-265. *)
Definition diff_write (blend : list Z) (i : Z) (data : list Z) : list Z :=
  let data := st data i (abs_store (ld data i) (ld blend i)) in
  let data := st data (i + 1) (abs_store (ld data (i + 1)) (ld blend (i + 1))) in
  st data (i + 2) (abs_store (ld data (i + 2)) (ld blend (i + 2))).

(** The loop body: [Math.random() < mix] decides the write. *)
Definition diff_body (blend : list Z) (m : float) (i : Z) (data : list Z) : RandM (list Z) :=
  (c <- random ;; rret (if xlt (XFin c) (xv m) then diff_write blend i data else data))%rand.

(** ** Hard mix (lines 270-280) *)

(** [(a + b) >> 1]; [undefined] makes the sum NaN, and [NaN >> 1] is 0. *)
Definition hm_avg (t b : option Z) : Z :=
  match t, b with
  | Some t, Some b => js_sar (t + b) 1
  | _, _ => 0
  end.

(** [r > thresh ? Math.min(255, r + mix255) : Math.max(0, r - mix255)],
    stored in the clamped array. *)
Definition hm_val (r thresh : Z) (m255 : float) : Z :=
  if thresh <? r then clamp_f (js_min (zf 255) (zf r + m255))
  else clamp_f (js_max (zf 0) (zf r - m255)).

Definition hm_body (blend : list Z) (thresh : Z) (m255 : float) (i : Z) (data : list Z) : list Z :=
  let r := hm_avg (ld data i) (ld blend i) in
  let g := hm_avg (ld data (i + 1)) (ld blend (i + 1)) in
  let b := hm_avg (ld data (i + 2)) (ld blend (i + 2)) in
  let data := st data i (hm_val r thresh m255) in
  let data := st data (i + 1) (hm_val g thresh m255) in
  st data (i + 2) (hm_val b thresh m255).

(** ** Interlace (lines 281-295) *)

(** [Math.floor(y / rowHeight) % 2 === 0]. *)
Definition use_img2 (rowHeight y : Z) : bool :=
  match js_floor (zf y / zf rowHeight)%float with
  | Some q => match js_rem q 2 with Some 0 => true | _ => false end
  | None => false
  end.

Definition interlace_row (blend : list Z) (width rowHeight : Z) (m : float) (y : Z) (data : list Z)
  : list Z :=
  if use_img2 rowHeight y && jslt 0.1 m then
    let rowStart := y * width * 4 in
    loop_from (Z.to_nat (width * 4)) rowStart 1 (fun j data => st data j (mv (ld blend j))) data
  else data.

(** ** [renderBlend] *)

Definition renderBlend (targetData : list Z) (img2 : option (list Z)) (width height : Z)
    (params : BlendParams) : RandM (list Z) :=
  match img2 with
  | None => rret targetData
  | Some blendData =>
      let len := Z.of_nat (length targetData) in
      let m := mix_f params in
      let ds := scale params * 2 in
      let thresh := threshold params in
      let m255 := (m * zf 255)%float in
      let rowHeight := row_height params in
      match mode params with
      | Displacement =>
          let buffer := targetData in
          rloop (px_iters len) 0 4 (disp_body buffer blendData width height ds m) targetData
      | Difference =>
          if jslt (zf 0) m then rloop (px_iters len) 0 4 (diff_body blendData m) targetData
          else rret targetData
      | HardMix => rret (loop_from (px_iters len) 0 4 (hm_body blendData thresh m255) targetData)
      | Interlace =>
          rret (loop_from (Z.to_nat height) 0 1 (interlace_row blendData width rowHeight m) targetData)
      end
  end.

(** ** Theorems *)

Lemma abs_store_byte t b : is_byte (abs_store t b).
Proof. destruct t, b; simpl; first [apply to_uint8_clamp_byte | byte_solver]. Qed.

Lemma hm_val_byte r t m : is_byte (hm_val r t m).
Proof. unfold hm_val. case_match; apply clamp_f_byte. Qed.

#[local] Hint Resolve abs_store_byte hm_val_byte mv_byte frame_ok_st : px.

Ltac frame_st := repeat (apply frame_ok_st; [|auto with px]).

(** A loop body that draws once and then either writes or not keeps the
    buffer's size and bytes and the tape valid. *)
Lemma draw_write_ok (test : Q -> bool) (w : list Z -> list Z) n data r :
  (forall d, frame_ok n d -> frame_ok n (w d)) -> rng_valid r -> frame_ok n data ->
  frame_ok n (fst ((c <- random ;; rret (if test c then w data else data))%rand r)) /\
  rng_valid (snd ((c <- random ;; rret (if test c then w data else data))%rand r)).
Proof.
  intros Hw Hr Hd. unfold rbind, random, rret. simpl.
  split; [case_match; auto | intros k; apply Hr].
Qed.

Lemma renderBlend_frame d img2 width height p r n :
  frame_ok n d -> rng_valid r ->
  frame_ok n (fst (renderBlend d img2 width height p r)) /\
  rng_valid (snd (renderBlend d img2 width height p r)).
Proof.
  intros Hd Hr. unfold renderBlend. destruct img2 as [bl|]; [|by split].
  destruct (mode p); cbv zeta.
  - apply (rloop_inv (frame_ok n)); [exact Hr | exact Hd |]. intros k s r1 _ Hr1 Hs.
    apply draw_write_ok; [|exact Hr1 | exact Hs]. intros d' Hd'. unfold disp_write. by frame_st.
  - case_match; [|by split]. apply (rloop_inv (frame_ok n)); [exact Hr | exact Hd |].
    intros k s r1 _ Hr1 Hs.
    apply draw_write_ok; [|exact Hr1 | exact Hs]. intros d' Hd'. unfold diff_write. by frame_st.
  - split; [|exact Hr]. apply loop_from_inv; [exact Hd|]. intros j s Hs. unfold hm_body. by frame_st.
  - split; [|exact Hr]. apply loop_from_inv; [exact Hd|]. intros y s Hs. unfold interlace_row.
    case_match; [|exact Hs]. apply loop_from_inv; [exact Hs|]. intros j s' Hs'. by frame_st.
Qed.

(** Whatever the mode, the parameters and the second source,
    [renderBlend] keeps the buffer invariant (length [width * height * 4],
    every byte in [0, 255]) for every outcome of [Math.random]. *)
Theorem renderBlend_ok (b : PixelBuffer) (img2 : option (list Z)) (params : BlendParams) (r : rng) :
  buf_ok b -> rng_valid r ->
  buf_ok (mk_buf (width b) (height b) (fst (renderBlend (data b) img2 (width b) (height b) params r))).
Proof.
  intros (Hw & Hh & Hl & Hd) Hr.
  destruct (renderBlend_frame (data b) img2 (width b) (height b) params r (length (data b)))
    as [[Hl' Hd'] _]; [by split | exact Hr |].
  split_and!; simpl; try assumption. by rewrite Hl'.
Qed.

(** *** Hard mix *)

(** The hard-mix pass as a function of one pixel at byte offset [i]. *)
Definition hm_px (blend : list Z) (thresh : Z) (m255 : float) (i : Z) (c : list Z) : list Z :=
  match c with
  | [r; g; b; a] =>
      [hm_val (hm_avg (Some r) (ld blend i)) thresh m255;
       hm_val (hm_avg (Some g) (ld blend (i + 1))) thresh m255;
       hm_val (hm_avg (Some b) (ld blend (i + 2))) thresh m255; a]
  | _ => c
  end.

Lemma hm_local blend thresh m255 : px_local (hm_body blend thresh m255) (hm_px blend thresh m255).
Proof. unfold hm_body. px_local_tac. Qed.

Lemma hm_shape blend thresh m255 : px_shape (hm_px blend thresh m255).
Proof. intros i c Hc. do 4 (destruct c as [|? c]; [discriminate|]). by destruct c. Qed.

(** The push of the specification: towards white (or black) by
    [mix * 2.55], rounded and clamped by the byte store. *)
Definition hard_mix_spec (mix thresh x : Z) : Z :=
  if thresh <? x then to_uint8_clamp (inject_Z x + (mix * 51 # 20))
  else to_uint8_clamp (inject_Z x - (mix * 51 # 20)).

(** The double computation [Math.min(255, r + mix255)] (and its
    counterpart) stores the exactly rounded push, for every slider value
    and byte (checked by evaluation). *)
Lemma hm_val_exact (mx thresh x : Z) :
  0 <= mx <= 100 -> 0 <= x <= 255 ->
  hm_val x thresh (zf mx / zf 100 * zf 255)%float = hard_mix_spec mx thresh x.
Proof.
  intros Hm Hx. unfold hm_val, hard_mix_spec. destruct (thresh <? x); apply Z.eqb_eq.
  - exact (all_range2 (fun mx x => clamp_f (js_min (zf 255) (zf x + zf mx / zf 100 * zf 255)%float)
             =? to_uint8_clamp (inject_Z x + (mx * 51 # 20))) 0 101 0 256
             ltac:(vm_compute; reflexivity) mx x ltac:(lia) ltac:(lia)).
  - exact (all_range2 (fun mx x => clamp_f (js_max (zf 0) (zf x - zf mx / zf 100 * zf 255)%float)
             =? to_uint8_clamp (inject_Z x - (mx * 51 # 20))) 0 101 0 256
             ltac:(vm_compute; reflexivity) mx x ltac:(lia) ltac:(lia)).
Qed.

(** C32: in hard-mix mode, on byte buffers of whole pixels and a mix
    slider in [0, 100], pixel [k] of the result has, for each of R, G and
    B, the average [(a + b) >> 1] of the two sources pushed by
    [mix * 2.55] towards white when it exceeds the threshold and towards
    black otherwise (rounded and clamped to [0, 255]); alpha is kept. *)
Theorem renderBlend_hardmix_pixel (d bl : list Z) (width height : Z) (p : BlendParams) (r : rng)
    (k : nat) r0 g0 b0 a0 r1 g1 b1 a1 :
  bytes_ok d -> bytes_ok bl -> (length d mod 4 = 0)%nat ->
  mode p = HardMix -> 0 <= mix p <= 100 ->
  pixels d !! k = Some [r0; g0; b0; a0] -> pixels bl !! k = Some [r1; g1; b1; a1] ->
  pixels (fst (renderBlend d (Some bl) width height p r)) !! k =
  Some [hard_mix_spec (mix p) (threshold p) ((r0 + r1) / 2);
        hard_mix_spec (mix p) (threshold p) ((g0 + g1) / 2);
        hard_mix_spec (mix p) (threshold p) ((b0 + b1) / 2); a0].
Proof.
  intros Hd Hbl Hm Hmode Hmix Hk0 Hk1.
  pose proof (pixels_lookup_bytes d k _ Hd Hk0) as Hc0.
  pose proof (pixels_lookup_bytes bl k _ Hbl Hk1) as Hc1.
  repeat apply Forall_cons in Hc0 as [? Hc0]. repeat apply Forall_cons in Hc1 as [? Hc1].
  destruct (pixels_lookup_ld _ _ _ _ _ _ Hk1) as (L0 & L1 & L2 & _).
  unfold renderBlend. rewrite Hmode. simpl fst.
  rewrite (loop_map_px_all _ _ _ (hm_local _ _ _) (hm_shape _ _ _) Hm).
  rewrite (pixels_map_px_lookup _ _ _ _ _ (hm_shape _ _ _) Hk0).
  cbn [hm_px]. rewrite Z.add_0_l, L0, L1, L2. unfold hm_avg, mix_f.
  rewrite !js_sar_1 by byte_solver. rewrite !hm_val_exact by (unfold is_byte in *; first [lia | zdiv]).
  reflexivity.
Qed.

(** *** Difference *)

Definition diff_px (blend : list Z) (i : Z) (c : list Z) : list Z :=
  match c with
  | [r; g; b; a] =>
      [abs_store (Some r) (ld blend i); abs_store (Some g) (ld blend (i + 1));
       abs_store (Some b) (ld blend (i + 2)); a]
  | _ => c
  end.

Lemma diff_local blend : px_local (diff_write blend) (diff_px blend).
Proof. unfold diff_write. px_local_tac. Qed.

Lemma diff_shape blend : px_shape (diff_px blend).
Proof. intros i c Hc. do 4 (destruct c as [|? c]; [discriminate|]). by destruct c. Qed.

(** A draw in [0, 1) is below a mix of at least 1: the write happens. *)
Lemma diff_body_all blend m i data r :
  xle (XFin 1) (xv m) = true -> rng_valid r ->
  fst (diff_body blend m i data r) = diff_write blend i data /\ rng_valid (snd (diff_body blend m i data r)).
Proof.
  intros Hm Hr. pose proof (random_draw_range r Hr) as Hc. simpl in Hc.
  unfold diff_body, rbind, rret, random. simpl.
  split; [|intros k; apply Hr]. destruct (xv m) as [q|[]|]; try discriminate; [|reflexivity].
  simpl in Hm |- *. apply Qle_bool_iff in Hm.
  destruct (Qle_bool q (rng_draw r (rng_pos r))) eqn:E; [|reflexivity].
  apply Qle_bool_iff in E. exfalso. lra.
Qed.

(** in difference mode with the mix slider at 100, every pixel is
    written, whatever [Math.random] returns: on byte buffers of whole
    pixels, pixel [k] of the result is [|r - r'|, |g - g'|, |b - b'|]
    of the two sources with the working buffer's alpha. *)
Theorem renderBlend_difference_full (d bl : list Z) (width height : Z) (p : BlendParams) (r : rng)
    (k : nat) r0 g0 b0 a0 r1 g1 b1 a1 :
  bytes_ok d -> bytes_ok bl -> (length d mod 4 = 0)%nat ->
  mode p = Difference -> mix p = 100 -> rng_valid r ->
  pixels d !! k = Some [r0; g0; b0; a0] -> pixels bl !! k = Some [r1; g1; b1; a1] ->
  pixels (fst (renderBlend d (Some bl) width height p r)) !! k =
  Some [Z.abs (r0 - r1); Z.abs (g0 - g1); Z.abs (b0 - b1); a0].
Proof.
  intros Hd Hbl Hm Hmode Hmix Hr Hk0 Hk1.
  pose proof (pixels_lookup_bytes d k _ Hd Hk0) as Hc0.
  pose proof (pixels_lookup_bytes bl k _ Hbl Hk1) as Hc1.
  repeat apply Forall_cons in Hc0 as [? Hc0]. repeat apply Forall_cons in Hc1 as [? Hc1].
  destruct (pixels_lookup_ld _ _ _ _ _ _ Hk1) as (L0 & L1 & L2 & _).
  unfold renderBlend, mix_f. rewrite Hmode, Hmix. cbv zeta.
  replace (jslt (zf 0) (zf 100 / zf 100)%float) with true by (vm_compute; reflexivity).
  rewrite (rloop_det _ _ _ _ (diff_write bl) _ _ Hr).
  2: { intros j s r1' _ Hr1. apply diff_body_all; [vm_compute; reflexivity | exact Hr1]. }
  rewrite (loop_map_px_all _ _ _ (diff_local _) (diff_shape _) Hm).
  rewrite (pixels_map_px_lookup _ _ _ _ _ (diff_shape _) Hk0).
  cbn [diff_px]. rewrite Z.add_0_l, L0, L1, L2. cbn [abs_store].
  rewrite !to_uint8_clamp_Z by byte_solver. reflexivity.
Qed.

(** *** Interlace *)

Lemma interlace_rows_length bl width rh m k d :
  length (loop_from k 0 1 (interlace_row bl width rh m) d) = length d.
Proof.
  apply (loop_from_inv (fun d' => length d' = length d)); [reflexivity|].
  intros y d' <-. unfold interlace_row. case_match; [apply copy_loop_length | reflexivity].
Qed.

(** Byte [j] lies in row [j / (width * 4)]. *)
Lemma row_of_byte width (j y : Z) :
  0 < width -> 0 <= j -> (y = j / (width * 4) <-> y * width * 4 <= j < y * width * 4 + width * 4).
Proof.
  intros Hw Hj. split.
  - intros ->. pose proof (Z.mul_div_le j (width * 4) ltac:(lia)).
    pose proof (Z.mul_succ_div_gt j (width * 4) ltac:(lia)). nia.
  - intros Hy. apply (Z.div_unique_pos _ _ _ (j - y * width * 4)); lia.
Qed.

(** After the first [k] rows of the interlace loop, byte [j] holds the
    second source's byte when its row is below [k] and selected. *)
Lemma interlace_rows_lookup bl width rh m k d (j : nat) :
  0 < width -> (j < length d)%nat ->
  loop_from k 0 1 (interlace_row bl width rh m) d !! j =
  let y := Z.of_nat j / (width * 4) in
  if (y <? Z.of_nat k) && (use_img2 rh y && jslt 0.1 m) then Some (mv (ld bl (Z.of_nat j)))
  else d !! j.
Proof.
  intros Hw Hj. cbv zeta. set (y := Z.of_nat j / (width * 4)).
  assert (Hy0 : 0 <= y) by (apply Z.div_pos; lia).
  induction k as [|k IH].
  - simpl. by rewrite (proj2 (Z.ltb_ge _ _)) by lia.
  - rewrite loop_from_S_r, Z.add_0_l, Z.mul_1_r. unfold interlace_row at 1; cbv zeta.
    pose proof (interlace_rows_length bl width rh m k d) as Hl.
    destruct (Z.eq_dec y (Z.of_nat k)) as [Ey|Ney].
    + rewrite <- Ey, (proj2 (Z.ltb_lt y (Z.of_nat (S k)))) by lia.
      destruct (use_img2 rh y && jslt 0.1 m) eqn:Sel.
      * apply (copy_loop_in (fun j => mv (ld bl j))); [|lia]. rewrite Z2Nat.id by lia.
        apply (row_of_byte width); [lia | lia | reflexivity].
      * rewrite IH, (proj2 (Z.ltb_ge y (Z.of_nat k))) by lia. reflexivity.
    + assert (Hout : ~ (Z.of_nat k * width * 4 <= Z.of_nat j < Z.of_nat k * width * 4 + Z.of_nat (Z.to_nat (width * 4)))).
      { intros Hin. rewrite Z2Nat.id in Hin by lia. apply Ney. symmetry.
        apply (row_of_byte width); [lia | lia | exact Hin]. }
      replace (y <? Z.of_nat (S k)) with (y <? Z.of_nat k)
        by (destruct (Z.ltb_spec y (Z.of_nat k)), (Z.ltb_spec y (Z.of_nat (S k))); lia).
      destruct (use_img2 rh (Z.of_nat k) && jslt 0.1 m); [rewrite (copy_loop_out (fun j => mv (ld bl j))) by exact Hout|]; exact IH.
Qed.

(** [mix > 0.1] on the slider's integer values is [params.mix > 10]
    (checked by evaluation: [10 / 100] rounds to the double [0.1]). *)
Lemma mix_gt_tenth p : 0 <= mix p <= 100 -> jslt 0.1 (mix_f p) = (10 <? mix p).
Proof.
  intros Hm. unfold mix_f. generalize (mix p) Hm. intros mx Hmx. apply Bool.eqb_prop.
  exact (all_range_Z (fun mx => Bool.eqb (jslt 0.1 (zf mx / zf 100)) (10 <? mx)) 0 101
           ltac:(vm_compute; reflexivity) mx ltac:(lia)).
Qed.

(** [Math.max(1, Math.floor(scale / 10))] for the slider's values. *)
Lemma row_height_int p : 0 <= scale p < 100 -> row_height p = Z.max 1 (scale p / 10).
Proof.
  intros Hs. unfold row_height. generalize (scale p) Hs. intros s Hs'. apply Z.eqb_eq.
  exact (all_range_Z (fun s => match js_floor (zf s / zf 10)%float with
                               | Some q => Z.max 1 q | None => 1 end =? Z.max 1 (s / 10)) 0 100
           ltac:(vm_compute; reflexivity) s ltac:(lia)).
Qed.

(** [Math.floor(y / rowHeight) % 2 === 0] is the parity of the band
    [y / rowHeight], for rows below 4096 and bands of 1 to 9 rows. *)
Lemma use_img2_int rh y : 1 <= rh <= 9 -> 0 <= y < 4096 -> use_img2 rh y = ((y / rh) mod 2 =? 0).
Proof.
  intros Hrh Hy. apply Bool.eqb_prop.
  exact (all_range2 (fun rh y => Bool.eqb (use_img2 rh y) ((y / rh) mod 2 =? 0)) 1 9 0 4096
           ltac:(vm_compute; reflexivity) rh y ltac:(lia) ltac:(lia)).
Qed.

(** interlace mode, on a frame below 4096 rows and the sliders'
    ranges ([mix] in [0, 100], [scale] in [0, 100)): byte [j] of the
    result is the second source's byte when [mix > 10] and the row of
    [j] lies in an even band of [max(1, floor(scale / 10))] rows, and the
    working buffer's byte otherwise. *)
Theorem renderBlend_interlace (d bl : list Z) (width height : Z) (p : BlendParams) (r : rng) (j : nat) :
  0 < width -> height <= 4096 -> Z.of_nat (length d) = width * height * 4 ->
  length bl = length d -> bytes_ok bl ->
  mode p = Interlace -> 0 <= mix p <= 100 -> 0 <= scale p < 100 -> (j < length d)%nat ->
  fst (renderBlend d (Some bl) width height p r) !! j =
  if (10 <? mix p) && (((Z.of_nat j / (width * 4)) / Z.max 1 (scale p / 10)) mod 2 =? 0)
  then bl !! j else d !! j.
Proof.
  intros Hw Hh Hl Hbl Hb Hmode Hmix Hs Hj.
  unfold renderBlend. rewrite Hmode. simpl fst.
  rewrite interlace_rows_lookup by assumption. cbv zeta.
  set (y := Z.of_nat j / (width * 4)).
  assert (Hy : 0 <= y < height).
  { split; [apply Z.div_pos; lia|]. apply Z.div_lt_upper_bound; lia. }
  rewrite (proj2 (Z.ltb_lt y _)) by lia. rewrite mix_gt_tenth, row_height_int, use_img2_int by (zdiv || lia).
  rewrite andb_true_l, andb_comm.
  destruct (lookup_lt_is_Some_2 bl j ltac:(lia)) as [z Hz].
  case_match; [|reflexivity]. unfold ld. rewrite (proj2 (Z.ltb_ge _ _)) by lia.
  rewrite Nat2Z.id, Hz. rewrite mv_Some; [reflexivity|].
  exact (proj1 (Forall_lookup _ _) Hb j z Hz).
Qed.

(** *** Displacement *)

Lemma clamp_coord_in v n c : 0 < n -> clamp_coord v n = Some c -> 0 <= c < n.
Proof.
  intros Hn. destruct v as [v|]; [|discriminate]. simpl. intros [= <-].
  destruct (Z.ltb_spec v 0); [lia|]. destruct (Z.leb_spec n v); lia.
Qed.

(** the displacement never samples outside the frame: for every
    pixel [p] of a [width * height] frame (below 2^31 bytes) and every
    second source, the index [srcIdx] it copies from is the first byte
    of a pixel of the frame, whatever the displacement read from the
    second source (the clamp of lines 246-247; a NaN coordinate gives
    pixel 0). *)
Theorem disp_src_in_frame (bl : list Z) (width height ds p : Z) :
  0 < width -> 0 < height -> 0 <= p < width * height -> 4 * (width * height) < 2 ^ 31 ->
  exists q, 0 <= q < width * height /\ disp_src bl width height ds (4 * p) = 4 * q.
Proof.
  intros Hw Hh Hp Hb. unfold disp_src.
  rewrite js_ushr_4 by lia. rewrite js_rem_pos by lia.
  destruct (clamp_coord _ width) as [sx|] eqn:Ex; [|exists 0; split; [nia | reflexivity]].
  destruct (clamp_coord _ height) as [sy|] eqn:Ey; [|exists 0; split; [nia | reflexivity]].
  apply clamp_coord_in in Ex, Ey; [|lia | lia].
  exists (sy * width + sx). split; [nia|]. apply js_shl_2. nia.
Qed.

(** ** Witnesses *)

Lemma renderBlend_ok_witness :
  buf_ok (mk_buf 2 1 (fst (renderBlend [200; 100; 50; 255; 10; 20; 30; 128]
                            (Some [10; 20; 30; 255; 250; 240; 230; 255]) 2 1
                            (mk_blend_params Displacement 50 128 20) zero_tape))).
Proof.
  apply (renderBlend_ok (mk_buf 2 1 [200; 100; 50; 255; 10; 20; 30; 128])); [|exact zero_tape_valid].
  split_and!; simpl; [lia | lia | reflexivity | repeat constructor; byte_solver].
Defined.

Lemma renderBlend_hardmix_pixel_witness :
  pixels (fst (renderBlend [200; 100; 50; 255; 10; 20; 30; 128] (Some [10; 20; 30; 255; 250; 240; 230; 255])
                 2 1 (mk_blend_params HardMix 50 100 0) zero_tape)) !! 0%nat =
  Some [hard_mix_spec 50 100 ((200 + 10) / 2); hard_mix_spec 50 100 ((100 + 20) / 2);
        hard_mix_spec 50 100 ((50 + 30) / 2); 255].
Proof.
  apply (renderBlend_hardmix_pixel _ _ _ _ (mk_blend_params HardMix 50 100 0) _ 0 200 100 50 255 10 20 30 255);
    try reflexivity; try (simpl; lia); repeat constructor; byte_solver.
Defined.

Lemma renderBlend_difference_full_witness :
  pixels (fst (renderBlend [200; 100; 50; 255; 10; 20; 30; 128] (Some [10; 20; 30; 255; 250; 240; 230; 255])
                 2 1 (mk_blend_params Difference 100 0 0) zero_tape)) !! 1%nat =
  Some [240; 220; 200; 128].
Proof.
  apply (renderBlend_difference_full _ _ _ _ (mk_blend_params Difference 100 0 0) _ 1 10 20 30 128 250 240 230 255);
    try reflexivity; try exact zero_tape_valid; repeat constructor; byte_solver.
Defined.

Lemma renderBlend_interlace_witness :
  fst (renderBlend [200; 100; 50; 255; 10; 20; 30; 128] (Some [10; 20; 30; 255; 250; 240; 230; 255])
         1 2 (mk_blend_params Interlace 50 0 0) zero_tape) !! 5%nat = Some 20.
Proof.
  rewrite (renderBlend_interlace _ _ 1 2 (mk_blend_params Interlace 50 0 0));
    [reflexivity | lia | lia | reflexivity | reflexivity | | reflexivity | simpl; lia | simpl; lia | simpl; lia].
  repeat constructor; byte_solver.
Defined.

Lemma disp_src_in_frame_witness :
  exists q, 0 <= q < 2 * 1 /\ disp_src [10; 20; 30; 255; 250; 240; 230; 255] 2 1 40 (4 * 1) = 4 * q.
Proof. apply disp_src_in_frame; lia. Defined.
