(* ===== verification/Chroma.v ===== *)
(** * The chroma key: [applyChromaKey] and [hexToRgb]

    src/utils/chromaKeyAlgorithms.ts, lines 1-73, with the parameter
    record [ChromaParams] (src/utils/glitchAlgorithms.ts, lines 358-364).
    The key colour string is parsed by the regular expression of
    [hexToRgb]; the loop turns every pixel whose RGB distance to the key
    is below the threshold transparent, and ramps the alpha (with an
    optional spill suppression) in a band past it.  All the arithmetic on
    [similarity], [smoothness] and [spill] is in doubles; the squared
    distance of two byte triples is an integer, exact as a double. *)

From Stdlib Require Import Ascii String.
From stdpp Require Import strings.
From S2P Require Import Prelude Buffer.

Open Scope Z_scope.
#[local] Set Warnings "-inexact-float".

Record ChromaParams := mk_chroma_params {
  enabled : bool;
  keyColor : string;
  similarity : float;
  smoothness : float;
  spill : float
}.

(** The object [{ r, g, b }] that [hexToRgb] returns. *)
Record RGB := mk_rgb { red : Z; green : Z; blue : Z }.

(** ** [hexToRgb] (lines 4-11) *)

(** One character of the class [[a-f\d]] under the [i] flag, with its
    value for [parseInt(_, 16)]. *)
Definition hex_val (c : ascii) : option Z :=
  let n := Z.of_nat (nat_of_ascii c) in
  if (48 <=? n) && (n <=? 57) then Some (n - 48)
  else if (97 <=? n) && (n <=? 102) then Some (n - 87)
  else if (65 <=? n) && (n <=? 70) then Some (n - 55)
  else None.

(** The three groups [([a-f\d]{2})] up to the end [$] of the string. *)
Definition parse_hex6 (l : list ascii) : option RGB :=
  match l with
  | [a; b; c; d; e; f] =>
      match hex_val a, hex_val b, hex_val c, hex_val d, hex_val e, hex_val f with
      | Some a, Some b, Some c, Some d, Some e, Some f =>
          Some (mk_rgb (16 * a + b) (16 * c + d) (16 * e + f))
      | _, _, _, _, _, _ => None
      end
  | _ => None
  end.

(** [/^#?(..)(..)(..)$/i]: a leading [#] is consumed when present (the
    match without it fails, [#] not being a hex digit); no match gives
    the default key [{ r: 0, g: 255, b: 0 }]. *)
Definition hexToRgb (hex : string) : RGB :=
  let l := list_ascii_of_string hex in
  let m := match l with
           | "#"%char :: t => parse_hex6 t
           | _ => parse_hex6 l
           end in
  match m with Some c => c | None => mk_rgb 0 255 0 end.

(** ** The loop body (lines 33-70), at byte offset [j = i * 4] *)

(** [(r * 0.299 + g * 0.587 + b * 0.114)] *)
Definition gray_of (r g b : Z) : float := (zf r * 0.299 + zf g * 0.587 + zf b * 0.114)%float.

(** [c * (1 - spill) + gray * spill], stored in the clamped array. *)
Definition spill_store (c : Z) (gray spill : float) : Z := clamp_f (zf c * (1 - spill) + gray * spill)%float.

Definition chroma_body (target : RGB) (dts sR spill : float) (j : Z) (data : list Z) : list Z :=
  match ld data j, ld data (j + 1), ld data (j + 2) with
  | Some r, Some g, Some b =>
      let distSq := (r - red target) * (r - red target) + (g - green target) * (g - green target)
                    + (b - blue target) * (b - blue target) in
      if jslt (zf distSq) dts then st data (j + 3) 0
      else if jslt (zf 0) sR && jslt (zf distSq) (dts + sR * sR)%float then
        let dist := PrimFloat.sqrt (zf distSq) in
        let base := PrimFloat.sqrt dts in
        let alpha := ((dist - base) / sR)%float in
        let data :=
          if jslt (zf 0) spill then
            let gray := gray_of r g b in
            let data := st data j (spill_store r gray spill) in
            let data := st data (j + 1) (spill_store g gray spill) in
            st data (j + 2) (spill_store b gray spill)
          else data in
        st data (j + 3) (clamp_f (alpha * zf 255)%float)
      else data
  | _, _, _ => data
  end.

(** Lines 13-73: the pixel loop [for (let i = 0; i < l; i++)] with
    [l = data.length / 4], i.e. [ceil(l)] iterations. *)
Definition applyChromaKey (data : list Z) (params : ChromaParams) : list Z :=
  if negb (enabled params) then data
  else
    let target := hexToRgb (keyColor params) in
    let distThreshold := (similarity params * zf 442)%float in
    let distThresholdSq := (distThreshold * distThreshold)%float in
    let smoothRange := (smoothness params * zf 100)%float in
    loop_from (px_iters (Z.of_nat (length data))) 0 1
      (fun i => chroma_body target distThresholdSq smoothRange (spill params) (i * 4)) data.

(** ** Theorems *)

(** *** [hexToRgb] *)

(** The lower-case hex digit of [0 <= k < 16], as [<input type="color">]
    writes it. *)
Definition hex_digit (k : Z) : ascii := ascii_of_nat (Z.to_nat (if k <? 10 then 48 + k else 87 + k)).

(** The string [#rrggbb] of a colour. *)
Definition rgb_to_hex (c : RGB) : string :=
  string_of_list_ascii
    ["#"%char; hex_digit (red c / 16); hex_digit (red c mod 16); hex_digit (green c / 16);
     hex_digit (green c mod 16); hex_digit (blue c / 16); hex_digit (blue c mod 16)].

Lemma hex_val_digit k : 0 <= k < 16 -> hex_val (hex_digit k) = Some k.
Proof.
  intros Hk.
  pose proof (all_range_Z (fun k => match hex_val (hex_digit k) with Some v => v =? k | None => false end)
                0 16 ltac:(vm_compute; reflexivity) k Hk) as H.
  cbv beta in H. destruct (hex_val (hex_digit k)); [|discriminate]. apply Z.eqb_eq in H. by subst.
Qed.

Lemma hex_pair n : 0 <= n <= 255 -> 16 * (n / 16) + n mod 16 = n.
Proof. intros. zdiv. Qed.

(** C34: [hexToRgb] reads back every colour written as [#rrggbb]. *)
Theorem hexToRgb_roundtrip (c : RGB) :
  is_byte (red c) -> is_byte (green c) -> is_byte (blue c) -> hexToRgb (rgb_to_hex c) = c.
Proof.
  destruct c as [r g b]. unfold is_byte; simpl. intros Hr Hg Hb.
  unfold hexToRgb, rgb_to_hex. rewrite list_ascii_of_string_of_list_ascii. simpl.
  rewrite !hex_val_digit by zdiv. rewrite !hex_pair by lia. reflexivity.
Qed.

(** *** The pixel loop *)

(** The chroma key as a function of one pixel. *)
Definition chroma_px (target : RGB) (dts sR sp : float) (_ : Z) (c : list Z) : list Z :=
  match c with
  | [r; g; b; a] =>
      let distSq := (r - red target) * (r - red target) + (g - green target) * (g - green target)
                    + (b - blue target) * (b - blue target) in
      if jslt (zf distSq) dts then [r; g; b; 0]
      else if jslt (zf 0) sR && jslt (zf distSq) (dts + sR * sR)%float then
        let alpha := ((PrimFloat.sqrt (zf distSq) - PrimFloat.sqrt dts) / sR)%float in
        let a' := clamp_f (alpha * zf 255)%float in
        if jslt (zf 0) sp then
          [spill_store r (gray_of r g b) sp; spill_store g (gray_of r g b) sp;
           spill_store b (gray_of r g b) sp; a']
        else [r; g; b; a']
      else c
  | _ => c
  end.

Lemma chroma_local target dts sR sp : px_local (chroma_body target dts sR sp) (chroma_px target dts sR sp).
Proof.
  unfold chroma_body. intros pre c post Hc. do 4 (destruct c as [|? c]; [discriminate|]).
  destruct c; [|discriminate]. simpl. autorewrite with px_rw.
  repeat case_match; autorewrite with px_rw; reflexivity.
Qed.

Lemma chroma_shape target dts sR sp : px_shape (chroma_px target dts sR sp).
Proof.
  intros i c Hc. do 4 (destruct c as [|? c]; [discriminate|]). destruct c; [|discriminate].
  simpl. by repeat case_match.
Qed.

(** The enabled pass is the per-pixel map. *)
Lemma applyChromaKey_map d params :
  enabled params = true -> (length d mod 4 = 0)%nat ->
  applyChromaKey d params =
  map_px (chroma_px (hexToRgb (keyColor params))
            ((similarity params * zf 442) * (similarity params * zf 442))%float
            (smoothness params * zf 100)%float (spill params)) 0 d.
Proof.
  intros He Hm. unfold applyChromaKey. rewrite He. simpl negb. cbv zeta.
  rewrite loop_from_scale. apply loop_map_px_all; [apply chroma_local | apply chroma_shape | exact Hm].
Qed.

Lemma chroma_px_bytes target dts sR sp j c :
  Forall is_byte c -> Forall is_byte (chroma_px target dts sR sp j c).
Proof.
  intros Hc. destruct c as [|r [|g [|b [|a [|? ?]]]]]; try exact Hc.
  repeat apply Forall_cons in Hc as [? Hc]. unfold chroma_px, spill_store.
  repeat case_match;
    repeat (apply Forall_cons_2; [first [assumption | apply clamp_f_byte | byte_solver]|]);
    apply Forall_nil_2.
Qed.

(** whatever the parameters and the key string, the chroma key keeps
    the buffer invariant: length [width * height * 4], bytes in [0, 255]. *)
Theorem applyChromaKey_ok (b : PixelBuffer) (params : ChromaParams) :
  buf_ok b -> buf_ok (mk_buf (width b) (height b) (applyChromaKey (data b) params)).
Proof.
  intros Hb. destruct (enabled params) eqn:He.
  - rewrite applyChromaKey_map by (exact He || (apply buf_ok_mod4 in Hb; congruence)).
    apply buf_ok_map_px; auto using chroma_shape, chroma_px_bytes.
  - unfold applyChromaKey. rewrite He. by destruct b.
Qed.

(** without spill suppression ([spill <= 0]) the chroma key changes
    only alpha: every pixel keeps its R, G and B bytes. *)
Theorem applyChromaKey_keeps_rgb (d : list Z) (params : ChromaParams) (k : nat) r g b a :
  jslt (zf 0) (spill params) = false -> (length d mod 4 = 0)%nat ->
  pixels d !! k = Some [r; g; b; a] ->
  exists a', pixels (applyChromaKey d params) !! k = Some [r; g; b; a'].
Proof.
  intros Hs Hm Hk. destruct (enabled params) eqn:He.
  - rewrite applyChromaKey_map by assumption.
    rewrite (pixels_map_px_lookup _ _ _ _ _ (chroma_shape _ _ _ _) Hk). unfold chroma_px. rewrite Hs.
    repeat case_match; eauto.
  - exists a. unfold applyChromaKey. by rewrite He.
Qed.

(** The branch taken by a pixel equal to the key, for the sliders'
    percentages [similarity = ks / 100] and [smoothness = kt / 100]
    (checked by evaluation): a positive similarity gives a positive
    squared threshold; at similarity 0 a positive smoothness opens the
    ramp, whose alpha at distance 0 is 0. *)
Definition key_sim_positive (ks : Z) : bool :=
  jslt (zf 0) ((zf ks / zf 100 * zf 442) * (zf ks / zf 100 * zf 442))%float.

Definition key_ramp_zero (kt : Z) : bool :=
  let dts := ((zf 0 / zf 100 * zf 442) * (zf 0 / zf 100 * zf 442))%float in
  let sR := (zf kt / zf 100 * zf 100)%float in
  negb (jslt (zf 0) dts) && jslt (zf 0) sR && jslt (zf 0) (dts + sR * sR)%float &&
  (clamp_f (((PrimFloat.sqrt (zf 0) - PrimFloat.sqrt dts) / sR) * zf 255)%float =? 0).

Lemma key_sim_positive_all ks : 1 <= ks <= 100 -> key_sim_positive ks = true.
Proof. intros. apply (all_range_Z key_sim_positive 1 100); [vm_compute; reflexivity | lia]. Qed.

Lemma key_ramp_zero_all kt : 1 <= kt <= 100 -> key_ramp_zero kt = true.
Proof. intros. apply (all_range_Z key_ramp_zero 1 100); [vm_compute; reflexivity | lia]. Qed.

(** C33: with the similarity and smoothness sliders at [ks %] and [kt %]
    (each in 0..100, not both 0), a pixel equal to the key colour
    becomes fully transparent. *)
Theorem applyChromaKey_key_transparent (d : list Z) (params : ChromaParams) (ks kt : Z) (k : nat) a :
  enabled params = true -> (length d mod 4 = 0)%nat ->
  similarity params = (zf ks / zf 100)%float -> smoothness params = (zf kt / zf 100)%float ->
  0 <= ks <= 100 -> 0 <= kt <= 100 -> (1 <= ks \/ 1 <= kt) ->
  let key := hexToRgb (keyColor params) in
  pixels d !! k = Some [red key; green key; blue key; a] ->
  exists r g b, pixels (applyChromaKey d params) !! k = Some [r; g; b; 0].
Proof.
  intros He Hm Hs Ht Hks Hkt Hk key Hp.
  rewrite applyChromaKey_map by assumption.
  rewrite (pixels_map_px_lookup _ _ _ _ _ (chroma_shape _ _ _ _) Hp). unfold chroma_px.
  rewrite !Z.sub_diag. change (zf (0 * 0 + 0 * 0 + 0 * 0)) with (zf 0). rewrite Hs, Ht.
  destruct (Z.le_gt_cases 1 ks) as [H1|H1].
  - pose proof (key_sim_positive_all ks ltac:(lia)) as E. unfold key_sim_positive in E. rewrite E. eauto.
  - assert (ks = 0) as -> by lia. pose proof (key_ramp_zero_all kt ltac:(lia)) as E.
    unfold key_ramp_zero in E. apply andb_prop in E as [E E4]. apply andb_prop in E as [E E3].
    apply andb_prop in E as [E1 E2]. apply negb_true_iff in E1.
    rewrite E1, E2, E3. simpl andb. apply Z.eqb_eq in E4. rewrite E4.
    case_match; eauto.
Qed.

(** At similarity 0 and smoothness 0 a pixel equal to the key colour
    stays opaque: [0 < 0] is false and the ramp is closed. *)
Example applyChromaKey_key_opaque_at_zero :
  applyChromaKey [0; 255; 0; 255] (mk_chroma_params true "#00ff00" 0 0 0) = [0; 255; 0; 255] /\
  hexToRgb "#00ff00" = mk_rgb 0 255 0.
Proof. split; vm_compute; reflexivity. Qed.

(** ** Witnesses *)

Lemma hexToRgb_roundtrip_witness : hexToRgb (rgb_to_hex (mk_rgb 255 128 0)) = mk_rgb 255 128 0.
Proof. apply hexToRgb_roundtrip; simpl; byte_solver. Defined.

Lemma applyChromaKey_ok_witness :
  buf_ok (mk_buf 1 1 (applyChromaKey [0; 250; 10; 255]
                        (mk_chroma_params true "#00ff00" (zf 40 / zf 100) (zf 10 / zf 100) (zf 50 / zf 100)))).
Proof.
  apply (applyChromaKey_ok (mk_buf 1 1 [0; 250; 10; 255])).
  split_and!; simpl; [lia | lia | reflexivity | repeat constructor; byte_solver].
Defined.

Lemma applyChromaKey_keeps_rgb_witness :
  exists a', pixels (applyChromaKey [0; 250; 10; 255]
                       (mk_chroma_params true "#00ff00" (zf 40 / zf 100) (zf 10 / zf 100) 0)) !! 0%nat
             = Some [0; 250; 10; a'].
Proof. apply (applyChromaKey_keeps_rgb _ _ 0 0 250 10 255); reflexivity. Defined.

Lemma applyChromaKey_key_transparent_witness :
  exists r g b, pixels (applyChromaKey [0; 255; 0; 255]
                          (mk_chroma_params true "#00ff00" (zf 0 / zf 100) (zf 20 / zf 100) (zf 50 / zf 100))) !! 0%nat
                = Some [r; g; b; 0].
Proof. apply (applyChromaKey_key_transparent _ _ 0 20 0 255); try reflexivity; lia. Defined.
