(* ===== verification/Draw.v ===== *)
(** * The drawing stages: [renderText], [renderAscii], [renderHalftone]

    src/utils/textRenderer.ts (lines 1-35) and the ASCII and halftone
    renderers of src/utils/chromaKeyAlgorithms.ts (lines 74-164 and
    165-249), with their parameter records (src/utils/glitchAlgorithms.ts,
    lines 321-356).  These stages do not write bytes: they issue calls on
    the canvas context, which the browser rasterizes.  Each is modelled
    as the exact sequence of context calls it makes ([Cmd]), computed
    from the bytes it samples (the image drawn at the grid's size, an
    input of the model) with the double arithmetic of the code; a small
    state machine ([exec]) gives the context's state (fill style, font,
    text anchoring, transform and the [save]/[restore] stack) after a
    sequence of calls.  [Math.sin] and [Math.cos] are not specified to
    the bit by ECMAScript: the halftone takes them as parameters.  The
    halftone's loops advance a double by [radius * 1.5] and are modelled
    with fuel: [None] when the fuel runs out. *)

From Stdlib Require Import Ascii String.
From stdpp Require Import strings.
From S2P Require Import Prelude Buffer.

Open Scope Z_scope.
#[local] Set Warnings "-inexact-float".

(** ** The context calls *)

(** A fill style: a colour string, or the template [rgb(${r},${g},${b})]
    of three sampled values ([None] prints [undefined]). *)
Inductive Style := SColor (s : string) | SRgb (r g b : option Z).

(** The text argument of [fillText]: a string, one UTF-16 code unit of a
    glyph ramp, or [undefined]. *)
Inductive TextArg := TString (s : string) | TCode (u : Z) | TUndefined.

(** One function of a [filter] list (the value is printed by the
    template; the model keeps the number). *)
Inductive Filter := FBlur (px : float) | FBrightness (v : float) | FHueRotate (deg : float) | FSaturate (v : float).

Inductive Cmd :=
  | CSave
  | CRestore
  | CFillStyle (s : Style)
  | CFont (weight : string) (px : float) (family : string)
  | CTextBaseline (b : string)
  | CTextAlign (a : string)
  | CFilter (f : list Filter)
  | CTranslate (x y : float)
  | CRotate (a : float)
  | CScale (x y : float)
  | CClearRect (x y w h : float)
  | CFillRect (x y w h : float)
  | CFillText (t : TextArg) (x y : float)
  | CDrawImage (x y w h : float) (jx jy : Q)
    (* the frame source at [(x + jx, y + jy)], scaled to [w x h]; the
       jitter is kept exact, as the model's [Math.random] draws are *)
  | CBeginPath
  | CArc (x y r a0 a1 : float)
  | CMoveTo (x y : float)
  | CLineTo (x y : float)
  | CRect (x y w h : float)
  | CFill.

(** The part of the context's state that [save] and [restore] keep
    ([st_filter = []] is the filter ['none']). *)
Record DrawState := mk_draw_state {
  st_fill : Style;
  st_font : option (string * float * string);
  st_baseline : string;
  st_align : string;
  st_filter : list Filter;
  st_transform : list Cmd
}.

Record Ctx := mk_ctx { ctx_state : DrawState; ctx_stack : list DrawState; ctx_ink : list Cmd }.

(** One call: state setters update the state, [save] pushes it,
    [restore] pops it (nothing to pop: no effect), and the drawing calls
    are recorded, in order, as the ink the browser rasterizes. *)
Definition exec1 (c : Ctx) (k : Cmd) : Ctx :=
  let s := ctx_state c in
  let set s' := mk_ctx s' (ctx_stack c) (ctx_ink c) in
  match k with
  | CSave => mk_ctx s (s :: ctx_stack c) (ctx_ink c)
  | CRestore =>
      match ctx_stack c with
      | s' :: st => mk_ctx s' st (ctx_ink c)
      | [] => c
      end
  | CFillStyle f => set (mk_draw_state f (st_font s) (st_baseline s) (st_align s) (st_filter s) (st_transform s))
  | CFont w px fam => set (mk_draw_state (st_fill s) (Some (w, px, fam)) (st_baseline s) (st_align s) (st_filter s) (st_transform s))
  | CTextBaseline b => set (mk_draw_state (st_fill s) (st_font s) b (st_align s) (st_filter s) (st_transform s))
  | CTextAlign a => set (mk_draw_state (st_fill s) (st_font s) (st_baseline s) a (st_filter s) (st_transform s))
  | CFilter f => set (mk_draw_state (st_fill s) (st_font s) (st_baseline s) (st_align s) f (st_transform s))
  | CTranslate _ _ | CRotate _ | CScale _ _ =>
      set (mk_draw_state (st_fill s) (st_font s) (st_baseline s) (st_align s) (st_filter s) (st_transform s ++ [k]))
  | _ => mk_ctx s (ctx_stack c) (ctx_ink c ++ [k])
  end.

Definition exec (c : Ctx) (l : list Cmd) : Ctx := fold_left exec1 l c.

(** [Math.floor] of a double, classified: an integer, an infinity or NaN. *)
Inductive JNum := JInt (z : Z) | JNegInf | JPosInf | JNaN.

Definition js_floor_num (f : float) : JNum :=
  match xv f with
  | XFin q => JInt (Qfloor q)
  | XInf true => JNegInf
  | XInf false => JPosInf
  | XNaN => JNaN
  end.

(** [n <= 0] on such a number. *)
Definition le0 (n : JNum) : bool :=
  match n with JInt z => z <=? 0 | JNegInf => true | _ => false end.

(** The double-quote character, for the font stacks. *)
Definition dq : string := String (ascii_of_nat 34) EmptyString.

(** The outcome of a stage that may throw or, with fuel, not finish. *)
Inductive Run (A : Type) := Ret (a : A) | Thrown (e : string) | Diverge.
Arguments Ret {A} a.
Arguments Thrown {A} e.
Arguments Diverge {A}.

(** [0, n) as a list of integers. *)
Definition seqZ (n : Z) : list Z := map Z.of_nat (seq 0 (Z.to_nat n)).

(** ** [renderText] (src/utils/textRenderer.ts) *)

Module TextStage.

Record TextParams := mk_text_params {
  content : string;
  font : string;
  size : float;
  x : float;
  y : float;
  color : string;
  isBold : bool
}.

(** The font stack of lines 14-17. *)
Definition fontStack (f : string) : string :=
  let fs := "sans-serif" in
  let fs := if bool_decide (f = "Helvetica")
            then dq +:+ "Helvetica Neue" +:+ dq +:+ ", Helvetica, Arial, sans-serif" else fs in
  let fs := if bool_decide (f = "Comic Sans MS")
            then dq +:+ "Comic Sans MS" +:+ dq +:+ ", " +:+ dq +:+ "Comic Sans" +:+ dq +:+ ", cursive" else fs in
  if bool_decide (f = "Arial") then "Arial, sans-serif" else fs.

(** [(params.size / 100) * (height * 0.5)] (line 19). *)
Definition fontSize (p : TextParams) (height : Z) : float := ((size p / zf 100) * (zf height * 0.5))%float.

(** Lines 3-35: nothing for an empty content; otherwise the calls
    between [save] and [restore], the text centred on
    [(x% * width, y% * height)]. *)
Definition renderText (width height : Z) (p : TextParams) : list Cmd :=
  if bool_decide (content p = EmptyString) then []
  else
    [CSave;
     CFont (if isBold p then "bold" else "normal") (js_max (zf 10) (fontSize p height)) (fontStack (font p));
     CFillStyle (SColor (color p));
     CTextBaseline "middle";
     CTextAlign "center";
     CFillText (TString (content p)) ((x p / zf 100) * zf width)%float ((y p / zf 100) * zf height)%float;
     CRestore].

End TextStage.

(** ** The luminance and contrast curve shared by the ASCII and halftone
    renderers *)

(** [(r * 0.299 + g * 0.587 + b * 0.114) / 255], then
    [(brightness - 0.5) * contrast + 0.5] clamped by
    [Math.max(0, Math.min(1, _))]; an [undefined] byte makes it NaN. *)
Definition cell_brightness (r g b : option Z) (contrast : float) : float :=
  match r, g, b with
  | Some r, Some g, Some b =>
      let br := ((zf r * 0.299 + zf g * 0.587 + zf b * 0.114) / zf 255)%float in
      let br := ((br - 0.5) * contrast + 0.5)%float in
      js_max (zf 0) (js_min (zf 1) br)
  | _, _, _ => PrimFloat.nan
  end.

(** ** [renderAscii] (lines 74-164) *)

Module AsciiStage.

Record AsciiParams := mk_ascii_params {
  scale : float;
  contrast : float;
  colorMode : bool;
  inverted : bool;
  chars : string;
  backgroundColor : string;
  textColor : string
}.

(** [CHAR_SETS] (lines 76-80), as UTF-16 code units. *)
Definition simple : list Z := [32; 46; 58; 45; 61; 43; 42; 35; 37; 64].
Definition complex : list Z :=
  [32; 46; 39; 96; 94; 34; 44; 58; 59; 73; 108; 33; 105; 126; 43; 95; 45; 63; 93; 91; 125; 123; 49;
   41; 40; 124; 92; 47; 116; 102; 106; 114; 120; 110; 117; 118; 99; 122; 88; 89; 85; 74; 67; 76;
   81; 48; 79; 90; 109; 119; 113; 112; 100; 98; 107; 104; 97; 111; 42; 35; 77; 87; 38; 56; 37; 66;
   64; 36].
Definition blocks : list Z := [32; 9617; 9618; 9619; 9608].

(** [CHAR_SETS[params.chars] || CHAR_SETS.simple] (line 131). *)
Definition charSet (key : string) : list Z :=
  if bool_decide (key = "complex") then complex
  else if bool_decide (key = "blocks") then blocks
  else simple.

(** [chars[Math.floor((1 - brightness) * (charLen - 1))]] (lines 152-153):
    [undefined] outside the ramp. *)
Definition glyph (ramp : list Z) (br : float) : TextArg :=
  match js_floor (((1 - br) * zf (Z.of_nat (length ramp) - 1)))%float with
  | Some k => if k <? 0 then TUndefined else match ramp !! Z.to_nat k with Some u => TCode u | None => TUndefined end
  | None => TUndefined
  end.

(** [cols] and [rows] (lines 100-104). *)
Definition cols_of (width : Z) (p : AsciiParams) : JNum := js_floor_num (zf width / scale p)%float.
Definition rows_of (height : Z) (p : AsciiParams) : JNum := js_floor_num (zf height / (scale p * 1.6))%float.

(** The two calls of the cell [(x, y)] (lines 136-161). *)
Definition cell_cmds (data : list Z) (cols : Z) (p : AsciiParams) (txt : string) (x y : Z) : list Cmd :=
  let i := (y * cols + x) * 4 in
  let r := ld data i in
  let g := ld data (i + 1) in
  let b := ld data (i + 2) in
  let ch := glyph (charSet (chars p)) (cell_brightness r g b (contrast p)) in
  [CFillStyle (if colorMode p then SRgb r g b else SColor txt);
   CFillText ch (zf x * scale p)%float (zf y * (scale p * 1.6))%float].

(** The colours of lines 113-119: [||] replaces an empty string. *)
Definition colors (p : AsciiParams) : string * string :=
  let bg := if bool_decide (backgroundColor p = EmptyString) then "#ffffff" else backgroundColor p in
  let txt := if bool_decide (textColor p = EmptyString) then "#000000" else textColor p in
  if inverted p then (txt, bg) else (bg, txt).

(** Lines 82-164.  [sample cols rows] stands for the bytes of the image
    drawn at [cols x rows] on the helper canvas.  A grid with a side
    [<= 0] draws nothing; an infinite or NaN side reaches
    [getImageData], whose [EnforceRange] arguments throw a [TypeError]. *)
Definition renderAscii (sample : Z -> Z -> list Z) (width height : Z) (p : AsciiParams) : Run (list Cmd) :=
  let c := cols_of width p in
  let r := rows_of height p in
  if le0 c || le0 r then Ret []
  else
    match c, r with
    | JInt cols, JInt rows =>
        let data := sample cols rows in
        let '(bg, txt) := colors p in
        Ret ([CFillStyle (SColor bg); CFillRect (zf 0) (zf 0) (zf width) (zf height);
              CFont "bold" (scale p) (dq +:+ "Courier New" +:+ dq +:+ ", monospace"); CTextBaseline "top"] ++
             flat_map (fun y => flat_map (fun x => cell_cmds data cols p txt x y) (seqZ cols)) (seqZ rows))
    | _, _ => Thrown "TypeError"
    end.

End AsciiStage.

(** ** [renderHalftone] (lines 165-249) *)

Module HalftoneStage.

Record HalftoneParams := mk_halftone_params {
  radius : float;
  angle : float;
  contrast : float;
  shape : string;
  colorMode : bool;
  backgroundColor : string;
  color : string
}.

(** [Math.PI]. *)
Definition PI : float := 3.141592653589793.

Section Halftone.

(** [Math.sin] and [Math.cos] of the engine. *)
Variables (js_sin js_cos : float -> float).

(** The path of one dot of size [size] at [(x, y)] (lines 232-243). *)
Definition shape_cmds (p : HalftoneParams) (x y size : float) : list Cmd :=
  if bool_decide (shape p = "circle") then [CArc x y size (zf 0) (PI * zf 2)%float]
  else if bool_decide (shape p = "diamond") then
    [CMoveTo x (y - size)%float; CLineTo (x + size)%float y; CLineTo x (y + size)%float; CLineTo (x - size)%float y]
  else if bool_decide (shape p = "line") then
    [CRect (x - radius p / zf 2)%float (y - size)%float (radius p) (size * zf 2)%float]
  else [].

(** The body of the inner loop at the grid point [(x, y)] (lines 205-244):
    the point is turned back by the angle about the centre, the source
    pixel under it sampled, and a dot drawn when its size exceeds 0.5. *)
Definition dot_cmds (imgData : list Z) (width height : Z) (p : HalftoneParams) (sin cos : float)
    (x y : float) : list Cmd :=
  let cx := (zf width / zf 2)%float in
  let cy := (zf height / zf 2)%float in
  let dx := (x - cx)%float in
  let dy := (y - cy)%float in
  match js_floor_num (dx * cos + dy * sin + cx)%float, js_floor_num (dy * cos - dx * sin + cy)%float with
  | JInt srcX, JInt srcY =>
      if (0 <=? srcX) && (srcX <? width) && (0 <=? srcY) && (srcY <? height) then
        let i := (srcY * width + srcX) * 4 in
        let r := ld imgData i in
        let g := ld imgData (i + 1) in
        let b := ld imgData (i + 2) in
        let size := ((1 - cell_brightness r g b (contrast p)) * radius p)%float in
        if jslt 0.5 size then
          [CFillStyle (if colorMode p then SRgb r g b
                       else SColor (if bool_decide (color p = EmptyString) then "#000000" else color p));
           CBeginPath] ++ shape_cmds p x y size ++ [CFill]
        else []
      else []
  | _, _ => []
  end.

(** [for (let v = start; v < bound; v += step) body(v)], with fuel:
    [None] when the fuel runs out before the test fails. *)
Fixpoint float_loop (fuel : nat) (v bound step : float) (body : float -> option (list Cmd))
  : option (list Cmd) :=
  match fuel with
  | O => None
  | S f =>
      if jslt v bound then
        match body v, float_loop f (v + step)%float bound step body with
        | Some a, Some b => Some (a ++ b)
        | _, _ => None
        end
      else Some []
  end.

(** Lines 167-249.  [imgData] stands for the bytes of the image drawn at
    [width x height] on the helper canvas; [getImageData] of an empty
    rectangle throws an [IndexSizeError].  (When [img] is itself a
    canvas of that empty size, as in [renderCanvas], [drawImage] throws
    first, an [InvalidStateError]: the model keeps one name for the
    exception, which nothing catches.) *)
Definition renderHalftone (fuel : nat) (imgData : list Z) (width height : Z) (p : HalftoneParams)
  : Run (list Cmd) :=
  if (width =? 0) || (height =? 0) then Thrown "IndexSizeError" else
  let radian := ((angle p * PI) / zf 180)%float in
  let sin := js_sin radian in
  let cos := js_cos radian in
  let step := (radius p * 1.5)%float in
  let extra := zf (Z.max width height) in
  let rows :=
    float_loop fuel (- extra)%float (zf height + extra)%float step
      (fun y => float_loop fuel (- extra)%float (zf width + extra)%float step
                  (fun x => Some (dot_cmds imgData width height p sin cos x y))) in
  match rows with
  | Some dots =>
      Ret ([CFillStyle (SColor (if bool_decide (backgroundColor p = EmptyString) then "#ffffff" else backgroundColor p));
             CFillRect (zf 0) (zf 0) (zf width) (zf height);
             CSave; CTranslate (zf width / zf 2)%float (zf height / zf 2)%float; CRotate radian;
             CTranslate (- (zf width) / zf 2)%float (- (zf height) / zf 2)%float] ++ dots ++ [CRestore])
  | None => Diverge
  end.

End Halftone.

End HalftoneStage.

(** ** Theorems *)

(** *** The context state across [save] ... [restore] *)

(** Calls that neither save nor restore. *)
Definition no_stack (l : list Cmd) : Prop := Forall (fun k => k <> CSave /\ k <> CRestore) l.

Lemma exec_cons c k l : exec c (k :: l) = exec (exec1 c k) l.
Proof. reflexivity. Qed.

Lemma exec_app c l1 l2 : exec c (l1 ++ l2) = exec (exec c l1) l2.
Proof. unfold exec. apply fold_left_app. Qed.

Lemma exec_no_stack c l : no_stack l -> ctx_stack (exec c l) = ctx_stack c.
Proof.
  revert c. induction l as [|k l IH]; intros c Hl; [reflexivity|].
  apply Forall_cons in Hl as [[Hs Hr] Hl]. simpl. rewrite IH by exact Hl.
  destruct k; simpl; congruence.
Qed.

(** A block [save; l; restore] with [l] free of [save] and [restore]
    leaves the state and the stack as they were. *)
Lemma exec_bracket c l :
  no_stack l ->
  ctx_state (exec c (CSave :: l ++ [CRestore])) = ctx_state c /\
  ctx_stack (exec c (CSave :: l ++ [CRestore])) = ctx_stack c.
Proof.
  intros Hl. change (CSave :: l ++ [CRestore]) with ([CSave] ++ l ++ [CRestore]).
  rewrite !exec_app. set (c1 := exec c [CSave]).
  pose proof (exec_no_stack c1 l Hl) as Hs.
  destruct (exec c1 l) as [s st ink] eqn:E. simpl in Hs |- *. subst st. simpl. auto.
Qed.

Ltac no_stack_tac := repeat (apply Forall_cons; split; [split; discriminate|]); apply Forall_nil; exact I.

(** [renderText] leaves the context as it found it: its calls sit
    between [save] and [restore], so the fill style, the font, the text
    anchoring, the transform and the save stack after the call are those
    before it; it draws the content once, or nothing when it is empty. *)
Theorem renderText_restores (c : Ctx) (width height : Z) (p : TextStage.TextParams) :
  ctx_state (exec c (TextStage.renderText width height p)) = ctx_state c /\
  ctx_stack (exec c (TextStage.renderText width height p)) = ctx_stack c.
Proof.
  unfold TextStage.renderText. case_bool_decide; [by split|].
  match goal with |- context [exec c (CSave :: ?l)] =>
    change (CSave :: l) with (CSave :: removelast l ++ [CRestore]) end.
  apply exec_bracket. unfold no_stack; simpl. no_stack_tac.
Qed.

(** *** The ASCII grid *)

(** The anchor points of the [fillText] calls, in order. *)
Definition glyph_positions (l : list Cmd) : list (float * float) :=
  omap (fun k => match k with CFillText _ x y => Some (x, y) | _ => None end) l.

Lemma omap_flat_map {A B C} (f : B -> option C) (g : A -> list B) (l : list A) :
  omap f (flat_map g l) = flat_map (fun a => omap f (g a)) l.
Proof. induction l as [|a l IH]; [reflexivity|]. simpl. by rewrite omap_app, IH. Qed.

Lemma flat_map_singleton {A B} (f : A -> B) (l : list A) : flat_map (fun a => [f a]) l = map f l.
Proof. induction l as [|a l IH]; [reflexivity|]. simpl. by rewrite IH. Qed.

(** on a grid of [cols x rows] cells (both positive), [renderAscii]
    draws exactly one glyph per cell, row by row, each at the cell's
    top-left corner [(x * fontWidth, y * fontHeight)]. *)
Theorem renderAscii_cells (sample : Z -> Z -> list Z) (width height : Z) (p : AsciiStage.AsciiParams)
    (cols rows : Z) :
  AsciiStage.cols_of width p = JInt cols -> AsciiStage.rows_of height p = JInt rows ->
  0 < cols -> 0 < rows ->
  exists l, AsciiStage.renderAscii sample width height p = Ret l /\
    glyph_positions l =
    flat_map (fun y => map (fun x => (zf x * AsciiStage.scale p, zf y * (AsciiStage.scale p * 1.6))%float)
                           (seqZ cols)) (seqZ rows).
Proof.
  intros Hc Hr Hc0 Hr0. unfold AsciiStage.renderAscii. rewrite Hc, Hr. simpl le0.
  rewrite (proj2 (Z.leb_gt cols 0)), (proj2 (Z.leb_gt rows 0)) by lia. simpl orb.
  destruct (AsciiStage.colors p) as [bg txt]. eexists. split; [reflexivity|].
  unfold glyph_positions. rewrite omap_app, omap_flat_map. simpl.
  apply flat_map_ext. intros y. rewrite omap_flat_map, <- flat_map_singleton.
  apply flat_map_ext. reflexivity.
Qed.

(** The grid of the specification's example: a 640 x 480 frame at
    scale 8 has 80 columns and 37 rows ([480 / 12.8] is just below 37.5
    in doubles). *)
Example renderAscii_grid_640x480 :
  let p := AsciiStage.mk_ascii_params 8 1.2 false false "complex" "#ffffff" "#000000" in
  AsciiStage.cols_of 640 p = JInt 80 /\ AsciiStage.rows_of 480 p = JInt 37.
Proof. split; vm_compute; reflexivity. Qed.

(** *** The halftone *)

Lemma float_loop_no_stack fuel v bound step body l :
  (forall v a, body v = Some a -> no_stack a) ->
  HalftoneStage.float_loop fuel v bound step body = Some l -> no_stack l.
Proof.
  revert v l. induction fuel as [|f IH]; intros v l Hb H; [discriminate|]. simpl in H.
  destruct (jslt v bound); [|injection H as <-; apply Forall_nil; exact I].
  destruct (body v) as [a|] eqn:Ea; [|discriminate].
  destruct (HalftoneStage.float_loop f _ _ _ _) as [b|] eqn:Eb; [|discriminate]. injection H as <-.
  apply Forall_app; split; [exact (Hb v a Ea) | exact (IH _ _ Hb Eb)].
Qed.

Lemma dot_cmds_no_stack imgData width height p sin cos x y :
  no_stack (HalftoneStage.dot_cmds imgData width height p sin cos x y).
Proof.
  unfold HalftoneStage.dot_cmds, HalftoneStage.shape_cmds.
  repeat case_match; unfold no_stack; simpl; try no_stack_tac; apply Forall_nil; exact I.
Qed.

(** [renderHalftone] leaves the transform and the save stack as it
    found them: the rotation about the centre is undone by its final
    [restore]; the fill style it keeps is the background colour, set
    before the [save]. *)
Theorem renderHalftone_restores (c : Ctx) js_sin js_cos fuel imgData width height
    (p : HalftoneStage.HalftoneParams) (l : list Cmd) :
  HalftoneStage.renderHalftone js_sin js_cos fuel imgData width height p = Ret l ->
  st_transform (ctx_state (exec c l)) = st_transform (ctx_state c) /\
  ctx_stack (exec c l) = ctx_stack c.
Proof.
  unfold HalftoneStage.renderHalftone. case_match; [discriminate|].
  destruct (HalftoneStage.float_loop _ _ _ _ _) as [dots|] eqn:E; [|discriminate]. intros [= <-].
  cbn [app]. rewrite !(exec_cons c), exec_cons.
  match goal with |- context [exec ?c0 (CSave :: ?t1 :: ?r :: ?t2 :: ?d ++ [CRestore])] =>
    destruct (exec_bracket c0 (t1 :: r :: t2 :: d)) as [Hs Hst]; try cbn [app] in Hs, Hst end.
  - apply Forall_cons; split; [split; discriminate|]. apply Forall_cons; split; [split; discriminate|].
    apply Forall_cons; split; [split; discriminate|].
    eapply float_loop_no_stack; [|exact E]. intros y a Ha.
    eapply float_loop_no_stack; [|exact Ha]. intros x b [= <-]. apply dot_cmds_no_stack.
  - rewrite Hs, Hst. split; reflexivity.
Qed.

(** Adding [+0] to a finite non-zero double gives it back (IEEE 754
    addition, through the specification of the primitive [+]). *)
Lemma float_add_zero x : (exists s m e, Prim2SF x = S754_finite s m e) -> (x + zf 0)%float = x.
Proof. intros (s & m & e & H). apply Prim2SF_inj. rewrite add_spec, H. reflexivity. Qed.

(** A loop whose step is [+0] and whose first test passes never ends. *)
Lemma float_loop_stuck fuel v bound body :
  (exists s m e, Prim2SF v = S754_finite s m e) -> jslt v bound = true ->
  HalftoneStage.float_loop fuel v bound (zf 0) body = None.
Proof.
  intros Hv Hlt. induction fuel as [|f IH]; [reflexivity|]. simpl.
  rewrite Hlt, float_add_zero, IH by exact Hv. by destruct (body v).
Qed.

Definition finite_nonzero (f : float) : bool :=
  match Prim2SF f with S754_finite _ _ _ => true | _ => false end.

Lemma finite_nonzero_spec f : finite_nonzero f = true -> exists s m e, Prim2SF f = S754_finite s m e.
Proof. unfold finite_nonzero. destruct (Prim2SF f); try discriminate. eauto. Qed.

(** C38: a radius of 0 hangs the halftone: the grid step [radius * 1.5]
    is [+0], [y += step] leaves [y] unchanged, and the outer loop, once
    entered, never ends: no amount of fuel completes it. *)
Theorem renderHalftone_radius0_diverges js_sin js_cos imgData (width height : Z)
    (p : HalftoneStage.HalftoneParams) :
  HalftoneStage.radius p = zf 0 -> 1 <= width <= 4096 -> 1 <= height <= 4096 ->
  jslt (- zf (Z.max width height))%float (zf height + zf (Z.max width height))%float = true ->
  forall fuel, HalftoneStage.renderHalftone js_sin js_cos fuel imgData width height p = Diverge.
Proof.
  intros Hr Hw Hh Hlt fuel. unfold HalftoneStage.renderHalftone.
  rewrite (proj2 (Z.eqb_neq width 0)), (proj2 (Z.eqb_neq height 0)) by lia. simpl orb.
  rewrite Hr. replace (zf 0 * 1.5)%float with (zf 0) by (vm_compute; reflexivity).
  rewrite float_loop_stuck; [reflexivity | | exact Hlt].
  apply finite_nonzero_spec.
  exact (all_range_Z (fun e => finite_nonzero (- zf e)%float) 1 4096 ltac:(vm_compute; reflexivity)
           (Z.max width height) ltac:(lia)).
Qed.

(** The centres of the [arc] calls, in order. *)
Definition arc_centres (l : list Cmd) : list (float * float) :=
  omap (fun k => match k with CArc x y _ _ _ => Some (x, y) | _ => None end) l.

(** An all-black frame of [n] pixels. *)
Definition black_frame (n : Z) : list Z := flat_map (fun _ => [0; 0; 0; 255]) (seqZ n).

(** The specification's lattice: at radius 10 and angle 0
    ([Math.sin(0) = 0], [Math.cos(0) = 1]) on a black 40 x 40 frame, the
    dots are centred on the axis-aligned lattice of pitch 15 that starts
    at [-max(W, H)], at the lattice points whose sample falls in the
    frame. *)
Example renderHalftone_lattice_angle0 :
  match HalftoneStage.renderHalftone (fun _ => zf 0) (fun _ => zf 1) 100 (black_frame 1600) 40 40
          (HalftoneStage.mk_halftone_params 10 0 1 "circle" false "#ffffff" "#000000") with
  | Ret l => arc_centres l = [(5, 5); (20, 5); (35, 5); (5, 20); (20, 20); (35, 20); (5, 35); (20, 35); (35, 35)]%float
  | _ => False
  end.
Proof. vm_compute. reflexivity. Qed.

(** at angle 90 the engine's [Math.cos(Math.PI / 2)] is the double
    [6.123233995736766e-17], not 0: the grid point [(5, 5)] of a 40 x 40
    frame is turned back to [4.999...] and samples pixel [(4, 35)]
    instead of [(5, 35)].  With that pixel white and the others black,
    no dot is drawn there, where the exact rotation draws one. *)
Example renderHalftone_angle90_samples_left :
  let img := flat_map (fun j => if j =? 35 * 40 + 4 then [255; 255; 255; 255] else [0; 0; 0; 255]) (seqZ 1600) in
  let p := HalftoneStage.mk_halftone_params 10 90 1 "circle" false "#ffffff" "#000000" in
  ((90 * HalftoneStage.PI) / zf 180 = 1.5707963267948966)%float /\
  HalftoneStage.dot_cmds img 40 40 p 1 0x1.1a62633145c07p-54 5 5 = [] /\
  HalftoneStage.dot_cmds img 40 40 p 1 0 5 5 <> [].
Proof. vm_compute. split; [reflexivity|]. split; [reflexivity | discriminate]. Qed.

(** ** Witnesses *)

Lemma renderAscii_cells_witness :
  let p := AsciiStage.mk_ascii_params 8 1.2 false false "complex" "#ffffff" "#000000" in
  exists l, AsciiStage.renderAscii (fun c r => black_frame (c * r)) 16 13 p = Ret l /\
    glyph_positions l =
    flat_map (fun y => map (fun x => (zf x * AsciiStage.scale p, zf y * (AsciiStage.scale p * 1.6))%float)
                           (seqZ 2)) (seqZ 1).
Proof. intros p. apply (renderAscii_cells _ 16 13 p 2 1); [vm_compute; reflexivity | vm_compute; reflexivity | lia | lia]. Defined.

Lemma renderHalftone_restores_witness :
  let c := mk_ctx (mk_draw_state (SColor "#000000") None "alphabetic" "start" [] []) [] [] in
  exists l,
    HalftoneStage.renderHalftone (fun _ => zf 0) (fun _ => zf 1) 100 (black_frame 16) 4 4
      (HalftoneStage.mk_halftone_params 2 0 1 "line" false "#ffffff" "#000000") = Ret l /\
    st_transform (ctx_state (exec c l)) = st_transform (ctx_state c) /\ ctx_stack (exec c l) = ctx_stack c.
Proof.
  intros c. eexists. split; [reflexivity|].
  apply (renderHalftone_restores c (fun _ => zf 0) (fun _ => zf 1) 100 (black_frame 16) 4 4
           (HalftoneStage.mk_halftone_params 2 0 1 "line" false "#ffffff" "#000000")).
  reflexivity.
Defined.

Lemma renderHalftone_radius0_diverges_witness :
  HalftoneStage.renderHalftone (fun _ => zf 0) (fun _ => zf 1) 1000 (black_frame 4) 2 2
    (HalftoneStage.mk_halftone_params 0 0 1 "circle" false "#ffffff" "#000000") = Diverge.
Proof. apply renderHalftone_radius0_diverges; [reflexivity | lia | lia | vm_compute; reflexivity]. Defined.
