(* ===== verification/Pipeline.v ===== *)
(** * [processImage]: the four passes in the order of the code

    src/utils/glitchAlgorithms.ts, lines 166-182, with the parameter
    record [GlitchParams] of the type declarations (lines 310-319).
    [getImageData] and [putImageData] are the canvas I/O around the
    passes: the model starts from the buffer [getImageData] returns and
    ends with the buffer handed to [putImageData].  A pass that would
    throw (a [RangeError] of [TypedArray.prototype.set]) makes the whole
    call [None]. *)

From S2P Require Import Prelude Buffer PixelSort Glitch.

Open Scope Z_scope.

(** The slider values of the glitch panel (integers: every slider of the
    UI has an integer step). *)
Record GlitchParams := mk_glitch_params {
  amount : Z;
  seed : float;
  iterations : Z;
  quality : Z;
  rgbShift : Z;
  blockShift : Z;
  scanlines : Z;
  pixelSort : Z
}.

Definition processImage (data : list Z) (width height : Z) (params : GlitchParams)
  : RandM (option (list Z)) :=
  (o1 <- PixelSortPass.applyPixelSort data width height (pixelSort params) ;;
   match o1 with
   | None => rret None
   | Some d1 =>
       o2 <- BlockShift.applyBlockShift d1 width height (blockShift params) (seed params) ;;
       match o2 with
       | None => rret None
       | Some d2 =>
           let d3 := RGBShift.applyRGBShift d2 width height (rgbShift params) in
           d4 <- Scanlines.applyScanlines d3 width height (scanlines params) ;;
           rret (Some d4)
       end
   end)%rand.

(** ** Theorems *)

(** C9: on a well-formed image buffer and a pixel-sort value below 4096
    in magnitude, [processImage] never throws, whatever [Math.random]
    returns, and hands back a well-formed buffer of the same dimensions:
    the same length, every byte in 0..255. *)
Theorem processImage_ok (b : PixelBuffer) (params : GlitchParams) (r : rng) :
  buf_ok b -> -4096 <= pixelSort params < 4096 -> rng_valid r ->
  exists d', fst (processImage (data b) (width b) (height b) params r) = Some d' /\
             buf_ok (mk_buf (width b) (height b) d').
Proof.
  intros (Hw & Hh & Hl & Hd) Hp Hr. unfold processImage, rbind.
  destruct (PixelSortPass.applyPixelSort_perm (data b) (width b) (height b) (pixelSort params) r)
    as [(d1 & E1 & P1) V1]; try assumption.
  destruct (PixelSortPass.applyPixelSort _ _ _ _ r) as [o1 r1]. simpl in E1, V1. subst o1.
  assert (L1 : Z.of_nat (length d1) = width b * height b * 4) by by rewrite (Permutation_length P1).
  assert (B1 : bytes_ok d1) by (unfold bytes_ok; by rewrite P1).
  destruct (BlockShift.applyBlockShift_safe d1 (width b) (height b) (blockShift params) (seed params) r1)
    as [(d2 & E2 & L2 & S2) V2]; try assumption.
  destruct (BlockShift.applyBlockShift _ _ _ _ _ r1) as [o2 r2]. simpl in E2, V2. subst o2.
  assert (B2 : bytes_ok d2) by (unfold bytes_ok in *; rewrite Forall_forall in B1 |- *; auto).
  set (d3 := RGBShift.applyRGBShift d2 (width b) (height b) (rgbShift params)).
  assert (L3 : length d3 = length d2).
  { apply RGBShift.applyRGBShift_length. apply Nat2Z.inj. rewrite Nat2Z.inj_mod, L2, L1. simpl. zdiv. }
  pose proof (RGBShift.applyRGBShift_bytes d2 (width b) (height b) (rgbShift params) B2) as B3.
  pose proof (Scanlines.applyScanlines_bytes d3 (width b) (height b) (scanlines params) r2 B3 V2) as B4.
  pose proof (Scanlines.applyScanlines_length d3 (width b) (height b) (scanlines params) r2 V2) as L4.
  destruct (Scanlines.applyScanlines d3 _ _ _ r2) as [d4 r4]. simpl in B4, L4.
  exists d4. split; [reflexivity|]. unfold buf_ok; simpl. split_and!; try assumption. lia.
Qed.

Lemma processImage_ok_witness :
  buf_ok (mk_buf 2 1 [200; 100; 50; 255; 10; 20; 30; 128]) /\
  exists d', fst (processImage [200; 100; 50; 255; 10; 20; 30; 128] 2 1
                   (mk_glitch_params 50 (zf 7) 1 1 1 10 5 50) zero_tape) = Some d' /\
             buf_ok (mk_buf 2 1 d').
Proof.
  assert (Hb : buf_ok (mk_buf 2 1 [200; 100; 50; 255; 10; 20; 30; 128]))
    by (split_and!; simpl; try lia; repeat constructor; byte_solver).
  split; [exact Hb|].
  exact (processImage_ok (mk_buf 2 1 [200; 100; 50; 255; 10; 20; 30; 128])
           (mk_glitch_params 50 (zf 7) 1 1 1 10 5 50) zero_tape Hb ltac:(simpl; lia) zero_tape_valid).
Defined.
