(* ===== verification/Storage.v ===== *)
(** * The local storage service: users, session and posts

    src/utils/storage.ts (lines 1-126), with the records [User] and
    [Post] of the type declarations (src/utils/glitchAlgorithms.ts, lines
    390-405).  [localStorage] is a finite map from keys to stored items
    (stdpp's [gmap]); an item written by [setStorage] is read back by
    [getStorage] through [JSON.parse(JSON.stringify(v))], which is the
    identity on these records of strings and integers, so the map holds
    the value itself ([Storable] below), while [setItem] of the session
    key holds a raw string.  [setItem] fails when the browser's quota is
    exceeded: the quota is the predicate [fits] of the section, under
    which every theorem holds whatever it is.  The clock ([Date.now],
    [new Date().toISOString()]) and [Math.random] of the post id are
    inputs of the operations.  A thrown [Error] is a [Throw] result of the
    state-and-error monad [M]. *)

From Stdlib Require Import Ascii String.
From stdpp Require Import strings gmap.
From S2P Require Import Prelude.

Open Scope Z_scope.

Record User := mk_user { username : string; joinedAt : string; avatar : option string }.

Inductive PostType := PImage | PVideo.

(** [Post]; its [username] field is [author] here, [username] being the
    projection of [User]. *)
Record Post := mk_post {
  id : string;
  author : string;
  image : string;
  type : PostType;
  caption : string;
  timestamp : Z;
  likes : Z
}.

(** ** The store and the monad *)

Inductive Item := SRaw (s : string) | SUsers (l : list User) | SPosts (l : list Post).

Abbreviation store := (gmap string Item).

Inductive res (A : Type) := Ok (a : A) | Throw (msg : string).
Arguments Ok {A} a.
Arguments Throw {A} msg.

Definition M (A : Type) : Type := store -> res A * store.

#[export] Instance M_ret : MRet M := fun A a s => (Ok a, s).
#[export] Instance M_bind : MBind M := fun A B k m s =>
  match m s with
  | (Ok a, s') => k a s'
  | (Throw e, s') => (Throw e, s')
  end.

Definition throw {A} (msg : string) : M A := fun s => (Throw msg, s).

(** [try m catch (e) h]. *)
Definition catch {A} (m : M A) (h : string -> M A) : M A := fun s =>
  match m s with
  | (Throw e, s') => h e s'
  | r => r
  end.

Definition get_store : M store := fun s => (Ok s, s).

(** What [JSON.parse(JSON.stringify(_))] gives back for each stored type. *)
Class Storable (A : Type) := {
  to_item : A -> Item;
  of_item : Item -> option A;
  of_to_item a : of_item (to_item a) = Some a
}.

#[export] Program Instance storable_users : Storable (list User) :=
  {| to_item := SUsers; of_item i := match i with SUsers l => Some l | _ => None end |}.

#[export] Program Instance storable_posts : Storable (list Post) :=
  {| to_item := SPosts; of_item i := match i with SPosts l => Some l | _ => None end |}.

(** ** The service (lines 3-126) *)

Definition USERS : string := "screen_db_users".
Definition POSTS : string := "screen_db_posts".
Definition CURRENT_USER : string := "screen_session_user".

(** [String.prototype.toLowerCase] on ASCII. *)
Definition lower_ascii (c : ascii) : ascii :=
  let n := nat_of_ascii c in
  if (65 <=? n)%nat && (n <=? 90)%nat then ascii_of_nat (n + 32) else c.

Fixpoint toLowerCase (s : string) : string :=
  match s with
  | EmptyString => EmptyString
  | String c s' => String (lower_ascii c) (toLowerCase s')
  end.

(** The three keys are distinct. *)
Ltac keys := unfold USERS, POSTS, CURRENT_USER; discriminate.

(** Run the monad's plumbing. *)
Ltac mrun := unfold mbind, M_bind, mret, M_ret, get_store, throw, catch in *; simpl in *.

Section Service.

(** The browser's quota: [setItem] succeeds on the store it would leave
    exactly when [fits] holds of it. *)
Variable fits : store -> bool.

(** [getStorage] (lines 11-18): the stored value, or the default when the
    key is absent or its item does not parse as the expected type. *)
Definition getStorage {A} `{Storable A} (key : string) (defaultVal : A) (s : store) : A :=
  match s !! key with
  | Some item => default defaultVal (of_item item)
  | None => defaultVal
  end.

(** [localStorage.setItem]: the [QuotaExceededError] leaves the store as
    it was. *)
Definition setItem (key : string) (item : Item) : M unit := fun s =>
  let s' := <[key := item]> s in
  if fits s' then (Ok (), s') else (Throw "QuotaExceededError", s).

(** [setStorage] (lines 20-27): the quota error becomes
    [STORAGE_FULL_DELETE_OLD_POSTS]. *)
Definition setStorage {A} `{Storable A} (key : string) (value : A) : M unit :=
  catch (setItem key (to_item value)) (fun _ => throw "STORAGE_FULL_DELETE_OLD_POSTS").

Definition same_name (name : string) (u : User) : bool :=
  bool_decide (toLowerCase (username u) = toLowerCase name).

(** [loginUser] (lines 31-45). *)
Definition loginUser (name : string) : M User :=
  s ← get_store ;
  let users := getStorage USERS ([] : list User) s in
  match find (same_name name) users with
  | None => throw "User not found"
  | Some user => _ ← setItem CURRENT_USER (SRaw (username user)) ; mret user
  end.

(** [registerUser] (lines 47-64), [now] standing for
    [new Date().toISOString()]. *)
Definition registerUser (name now : string) : M User :=
  s ← get_store ;
  let users := getStorage USERS ([] : list User) s in
  match find (same_name name) users with
  | Some _ => throw "Username taken"
  | None =>
      let newUser := mk_user name now (Some ("https://api.dicebear.com/7.x/shapes/svg?seed=" +:+ name)) in
      _ ← setStorage USERS (users ++ [newUser]) ;
      _ ← setItem CURRENT_USER (SRaw name) ;
      mret newUser
  end.

(** [getCurrentUser] (lines 66-72): an empty or absent session is
    [null]. *)
Definition getCurrentUser (s : store) : option User :=
  match s !! CURRENT_USER with
  | Some (SRaw name) =>
      if bool_decide (name = EmptyString) then None
      else find (same_name name) (getStorage USERS ([] : list User) s)
  | _ => None
  end.

(** [logoutUser] (lines 74-76). *)
Definition logoutUser : M unit := fun s => (Ok (), delete CURRENT_USER s).

(** [createPost] (lines 80-117), [now] standing for [Date.now()] and
    [pid] for the id built from it and [Math.random]. *)
Definition createPost (user : User) (mediaData caption : string) (t : PostType) (now : Z) (pid : string)
  : M Post :=
  s ← get_store ;
  let posts := getStorage POSTS ([] : list Post) s in
  let newPost := mk_post pid (username user) mediaData t caption now 0 in
  let updatedPosts := take 15 (newPost :: posts) in
  _ ← catch (setStorage POSTS updatedPosts)
        (fun msg =>
           if bool_decide (msg = "STORAGE_FULL_DELETE_OLD_POSTS") then
             if (5 <? length updatedPosts)%nat then setStorage POSTS (take 5 updatedPosts)
             else throw "STORAGE FULL. DELETE POSTS."
           else throw msg) ;
  mret newPost.

(** [getPosts] and [getUserPosts] (lines 119-126). *)
Definition getPosts (s : store) : list Post := getStorage POSTS [] s.

Definition getUserPosts (name : string) (s : store) : list Post :=
  filter (fun p => author p = name) (getStorage POSTS [] s).


(** ** Every operation as a step of the store *)

Inductive op :=
  | OpLogin (name : string)
  | OpRegister (name now : string)
  | OpLogout
  | OpCreatePost (user : User) (mediaData caption : string) (t : PostType) (now : Z) (pid : string).

Definition run_op (o : op) : M unit :=
  match o with
  | OpLogin name => _ ← loginUser name ; mret ()
  | OpRegister name now => _ ← registerUser name now ; mret ()
  | OpLogout => logoutUser
  | OpCreatePost user media cap t now pid => _ ← createPost user media cap t now pid ; mret ()
  end.

(** The stores the service can leave, from an empty [localStorage],
    whether each operation returns or throws. *)
Inductive reachable : store -> Prop :=
  | reach_empty : reachable ∅
  | reach_op s o : reachable s -> reachable (snd (run_op o s)).

(** The invariant: user names are unique up to case, and at most 15
    posts are kept. *)
Definition store_ok (s : store) : Prop :=
  NoDup (map (fun u => toLowerCase (username u)) (getStorage USERS ([] : list User) s)) /\
  (length (getStorage POSTS ([] : list Post) s) <= 15)%nat.

(** ** Lemmas *)

Lemma getStorage_insert_ne {A} `{Storable A} k k' i d (s : store) :
  k <> k' -> getStorage k d (<[k' := i]> s) = getStorage k d s.
Proof. intros Hk. unfold getStorage. by rewrite lookup_insert_ne by congruence. Qed.

Lemma getStorage_delete_ne {A} `{Storable A} k k' d (s : store) :
  k <> k' -> getStorage k d (delete k' s) = getStorage k d s.
Proof. intros Hk. unfold getStorage. by rewrite lookup_delete_ne by congruence. Qed.

Lemma getStorage_insert {A} `{Storable A} k (v d : A) (s : store) :
  getStorage k d (<[k := to_item v]> s) = v.
Proof. unfold getStorage. by rewrite lookup_insert_eq, of_to_item. Qed.

(** A successful [setItem] or [setStorage] writes its key and no other. *)
Lemma setItem_spec k i (s : store) :
  setItem k i s = (Ok (), <[k := i]> s) /\ fits (<[k := i]> s) = true \/
  setItem k i s = (Throw "QuotaExceededError", s).
Proof. unfold setItem. destruct (fits _) eqn:E; [left | right]; auto. Qed.

Lemma setStorage_spec {A} `{Storable A} k (v : A) (s : store) :
  setStorage k v s = (Ok (), <[k := to_item v]> s) \/
  setStorage k v s = (Throw "STORAGE_FULL_DELETE_OLD_POSTS", s).
Proof.
  unfold setStorage, catch, setItem, throw. destruct (fits _); [left | right]; reflexivity.
Qed.

Lemma find_app_none {A} (f : A -> bool) l x :
  find f l = None -> f x = true -> find f (l ++ [x]) = Some x.
Proof. induction l as [|y l IH]; simpl; [by intros _ ->|]. destruct (f y); [discriminate | auto]. Qed.

Lemma find_none_forall {A} (f : A -> bool) l : find f l = None -> Forall (fun x => f x = false) l.
Proof.
  induction l as [|y l IH]; simpl; [constructor|]. destruct (f y) eqn:E; [discriminate|].
  intros H. constructor; auto.
Qed.

(** In a list whose keys are distinct, an element is found by its key. *)
Lemma find_unique {A} (key : A -> string) (l : list A) u k :
  NoDup (map key l) -> In u l -> key u = k ->
  find (fun v => bool_decide (key v = k)) l = Some u.
Proof.
  induction l as [|v l IH]; simpl; [done|]. intros Hnd [->|Hu] Hk.
  - by rewrite bool_decide_eq_true_2.
  - apply NoDup_cons in Hnd as [Hv Hnd]. rewrite bool_decide_eq_false_2; [by apply IH|].
    intros E. apply Hv. rewrite E, <- Hk. apply list_elem_of_In, in_map, Hu.
Qed.

(** A registration that returns has found no user of that name, built
    the new user, appended it to the users and opened its session. *)
Lemma registerUser_success name now (s s' : store) (u : User) :
  registerUser name now s = (Ok u, s') ->
  find (same_name name) (getStorage USERS [] s) = None /\
  u = mk_user name now (Some ("https://api.dicebear.com/7.x/shapes/svg?seed=" +:+ name)) /\
  s' = <[CURRENT_USER := SRaw name]> (<[USERS := SUsers (getStorage USERS [] s ++ [u])]> s).
Proof.
  intros Hr. unfold registerUser in Hr. mrun.
  destruct (find (same_name name) (getStorage USERS [] s)) eqn:F; [discriminate|].
  match type of Hr with context [setStorage USERS ?v s] =>
    destruct (setStorage_spec USERS v s) as [E|E]; rewrite E in Hr; [|discriminate] end.
  match type of Hr with context [setItem CURRENT_USER ?i ?s1] =>
    destruct (setItem_spec CURRENT_USER i s1) as [[E2 _]|E2]; rewrite E2 in Hr; [|discriminate] end.
  injection Hr as <- <-. auto.
Qed.

(** A login that returns has found its user and opened its session under
    the stored spelling; one that throws leaves the store as it was. *)
Lemma loginUser_success name (s s' : store) (u : User) :
  loginUser name s = (Ok u, s') ->
  find (same_name name) (getStorage USERS [] s) = Some u /\ s' = <[CURRENT_USER := SRaw (username u)]> s.
Proof.
  unfold loginUser. mrun. destruct (find _ _) as [v|]; [|discriminate].
  destruct (setItem_spec CURRENT_USER (SRaw (username v)) s) as [[E _]|E]; rewrite E; [|discriminate].
  intros [= <- <-]. auto.
Qed.

Lemma loginUser_fail name (s s' : store) (e : string) :
  loginUser name s = (Throw e, s') -> e <> EmptyString /\ s' = s.
Proof.
  unfold loginUser. mrun. destruct (find _ _) as [v|]; [|intros [= <- <-]; done].
  destruct (setItem_spec CURRENT_USER (SRaw (username v)) s) as [[E _]|E]; rewrite E; [discriminate|].
  intros [= <- <-]. done.
Qed.

(** A registration that throws has left the store as it was, or, when
    only the session write was refused, has stored the new user. *)
Lemma registerUser_fail name now (s s' : store) (e : string) :
  registerUser name now s = (Throw e, s') ->
  e <> EmptyString /\
  (s' = s \/ find (same_name name) (getStorage USERS [] s) = None /\
   s' = <[USERS := SUsers (getStorage USERS [] s ++
          [mk_user name now (Some ("https://api.dicebear.com/7.x/shapes/svg?seed=" +:+ name))])]> s).
Proof.
  unfold registerUser. mrun. destruct (find _ _) eqn:F; [intros [= <- <-]; auto|].
  match goal with |- context [setStorage USERS ?v s] =>
    destruct (setStorage_spec USERS v s) as [E|E]; rewrite E; [|intros [= <- <-]; auto] end.
  match goal with |- context [setItem CURRENT_USER ?i ?s1] =>
    destruct (setItem_spec CURRENT_USER i s1) as [[E2 _]|E2]; rewrite E2; [discriminate|] end.
  intros [= <- <-]. auto.
Qed.

(** [createPost] writes the posts key and no other. *)
Lemma createPost_store user media cap t now pid (s : store) :
  snd (createPost user media cap t now pid s) = s \/
  exists l, snd (createPost user media cap t now pid s) = <[POSTS := SPosts l]> s.
Proof.
  unfold createPost. mrun.
  match goal with |- context [setStorage POSTS ?v s] =>
    destruct (setStorage_spec POSTS v s) as [E|E]; rewrite E; simpl; [eauto|] end.
  try rewrite bool_decide_eq_true_2 by reflexivity. destruct (5 <? _)%nat; [|auto].
  match goal with |- context [setStorage POSTS ?v s] =>
    destruct (setStorage_spec POSTS v s) as [E'|E']; rewrite E'; simpl; eauto end.
Qed.

(** A [createPost] that throws leaves the store as it was. *)
Lemma createPost_fail user media cap t now pid (s s' : store) e :
  createPost user media cap t now pid s = (Throw e, s') -> s' = s.
Proof.
  unfold createPost. mrun.
  match goal with |- context [setStorage POSTS ?v s] =>
    destruct (setStorage_spec POSTS v s) as [E|E]; rewrite E; simpl; [discriminate|] end.
  try rewrite bool_decide_eq_true_2 by reflexivity. destruct (5 <? _)%nat; [|by intros [= _ <-]].
  match goal with |- context [setStorage POSTS ?v s] =>
    destruct (setStorage_spec POSTS v s) as [E'|E']; rewrite E'; simpl; [discriminate | by intros [= _ <-]] end.
Qed.

(** The session user of a store whose session key holds a non-empty name. *)
Lemma getCurrentUser_insert name (s : store) :
  name <> EmptyString ->
  getCurrentUser (<[CURRENT_USER := SRaw name]> s) = find (same_name name) (getStorage USERS [] s).
Proof.
  intros Hn. unfold getCurrentUser. rewrite lookup_insert_eq, bool_decide_eq_false_2 by exact Hn.
  by rewrite getStorage_insert_ne by keys.
Qed.

(** ** Theorems *)

(** A registration that returns opens the session of the new user:
    [getCurrentUser] then returns it (for a non-empty name). *)
Theorem registerUser_current (name now : string) (s s' : store) (u : User) :
  name <> EmptyString -> registerUser name now s = (Ok u, s') -> getCurrentUser s' = Some u.
Proof.
  intros Hn Hr. destruct (registerUser_success name now s s' u Hr) as (F & -> & ->).
  rewrite getCurrentUser_insert by exact Hn. unfold getStorage at 1. rewrite lookup_insert_eq. simpl.
  apply find_app_none; [exact F|]. by apply bool_decide_eq_true_2.
Qed.


Lemma bind_unit_store {A} (m : M A) (s : store) : snd ((_ ← m ; mret ()) s) = snd (m s).
Proof. mrun. by destruct (m s) as [[a|e] s']. Qed.

Lemma store_ok_current s i : store_ok s -> store_ok (<[CURRENT_USER := i]> s).
Proof. unfold store_ok. by rewrite !getStorage_insert_ne by keys. Qed.

Lemma store_ok_delete s : store_ok s -> store_ok (delete CURRENT_USER s).
Proof. unfold store_ok. by rewrite !getStorage_delete_ne by keys. Qed.

Lemma store_ok_users s l :
  store_ok s -> NoDup (map (fun u => toLowerCase (username u)) l) -> store_ok (<[USERS := SUsers l]> s).
Proof.
  intros [_ Hp] Hl. split; [unfold getStorage at 1; rewrite lookup_insert_eq; exact Hl|].
  by rewrite getStorage_insert_ne by keys.
Qed.

Lemma store_ok_posts s l :
  store_ok s -> (length l <= 15)%nat -> store_ok (<[POSTS := SPosts l]> s).
Proof.
  intros [Hu _] Hl. split; [by rewrite getStorage_insert_ne by keys|].
  unfold getStorage at 1. rewrite lookup_insert_eq. exact Hl.
Qed.

#[local] Hint Resolve store_ok_current store_ok_delete : core.

Lemma loginUser_ok name s : store_ok s -> store_ok (snd (loginUser name s)).
Proof.
  intros Hs. unfold loginUser. mrun. destruct (find _ _); [|exact Hs].
  destruct (setItem_spec CURRENT_USER (SRaw (username u)) s) as [[E _]|E]; rewrite E; simpl; auto.
Qed.

(** A name absent up to case keeps the names distinct up to case. *)
Lemma nodup_add_user users u :
  NoDup (map (fun u => toLowerCase (username u)) users) ->
  find (same_name (username u)) users = None ->
  NoDup (map (fun u => toLowerCase (username u)) (users ++ [u])).
Proof.
  intros Hnd F. rewrite map_app. apply NoDup_app. split_and!; [exact Hnd | | apply NoDup_singleton].
  intros x Hx Hy. apply list_elem_of_singleton in Hy as ->.
  apply list_elem_of_In, in_map_iff in Hx as (v & Hv & Hin).
  apply find_none_forall in F. rewrite Forall_forall in F. specialize (F v (proj2 (list_elem_of_In _ _) Hin)).
  unfold same_name in F. apply bool_decide_eq_false_1 in F. exact (F Hv).
Qed.

Lemma registerUser_ok name now s : store_ok s -> store_ok (snd (registerUser name now s)).
Proof.
  intros Hs. unfold registerUser. mrun. destruct (find _ _) eqn:F; [exact Hs|].
  match goal with |- context [setStorage USERS ?v s] =>
    destruct (setStorage_spec USERS v s) as [E|E]; rewrite E; [|exact Hs] end.
  assert (Hs1 : store_ok (<[USERS := SUsers (getStorage USERS [] s ++
                 [mk_user name now (Some ("https://api.dicebear.com/7.x/shapes/svg?seed=" +:+ name))])]> s)).
  { apply store_ok_users; [exact Hs|]. apply nodup_add_user; [apply Hs | exact F]. }
  match goal with |- context [setItem CURRENT_USER ?i ?s1] =>
    destruct (setItem_spec CURRENT_USER i s1) as [[E2 _]|E2]; rewrite E2; simpl; auto end.
Qed.

Lemma createPost_ok user media cap t now pid s :
  store_ok s -> store_ok (snd (createPost user media cap t now pid s)).
Proof.
  intros Hs. unfold createPost. mrun.
  match goal with |- context [setStorage POSTS ?v s] =>
    destruct (setStorage_spec POSTS v s) as [E|E]; rewrite E; simpl end.
  - apply store_ok_posts; [exact Hs|]. simpl length. rewrite ?length_take. lia.
  - try rewrite bool_decide_eq_true_2 by reflexivity. destruct (5 <? _)%nat; [|exact Hs].
    match goal with |- context [setStorage POSTS ?v s] =>
      destruct (setStorage_spec POSTS v s) as [E'|E']; rewrite E'; simpl; [|exact Hs] end.
    apply store_ok_posts; [exact Hs|]. simpl length. rewrite ?length_take. lia.
Qed.

Lemma run_op_ok o s : store_ok s -> store_ok (snd (run_op o s)).
Proof.
  intros Hs. destruct o; simpl run_op; rewrite ?bind_unit_store.
  - by apply loginUser_ok.
  - by apply registerUser_ok.
  - by apply store_ok_delete.
  - by apply createPost_ok.
Qed.

(** C35: in every store the service can reach, whatever operations ran
    and whichever of them threw, no two users share a name up to case and
    at most 15 posts are stored. *)
Theorem reachable_store_ok (s : store) : reachable s -> store_ok s.
Proof.
  induction 1 as [|s o _ IH].
  - split; [apply NoDup_nil_2 | unfold getStorage; rewrite lookup_empty; simpl; lia].
  - by apply run_op_ok.
Qed.


(** login is case-insensitive and opens the session under the stored
    spelling: in a store of the invariant, a name equal up to case to a
    registered user's logs that user in and stores its canonical name
    (when the session write fits the quota). *)
Theorem loginUser_case_insensitive (name : string) (s : store) (u : User) :
  store_ok s -> In u (getStorage USERS [] s) -> toLowerCase (username u) = toLowerCase name ->
  fits (<[CURRENT_USER := SRaw (username u)]> s) = true ->
  loginUser name s = (Ok u, <[CURRENT_USER := SRaw (username u)]> s).
Proof.
  intros [Hnd _] Hin Hk Hf. unfold loginUser. mrun.
  unfold same_name. rewrite (find_unique (fun v => toLowerCase (username v)) _ u _ Hnd Hin Hk).
  unfold setItem. rewrite Hf. reflexivity.
Qed.

(** A post that is created comes first in the stored list, followed
    by the posts that were stored before it, newest first (the list is
    cut to 15, or to 5 when the quota refused 15). *)
Theorem createPost_newest_first user media cap t now pid (s s' : store) (p : Post) :
  createPost user media cap t now pid s = (Ok p, s') ->
  p = mk_post pid (username user) media t cap now 0 /\
  exists n, (n = 15 \/ n = 5)%nat /\ getPosts s' = take n (p :: getPosts s).
Proof.
  intros Hc. unfold createPost in Hc. mrun.
  match type of Hc with context [setStorage POSTS ?v s] =>
    destruct (setStorage_spec POSTS v s) as [E|E]; rewrite E in Hc; simpl in Hc end.
  - injection Hc as <- <-. split; [reflexivity|]. exists 15%nat. split; [by left|].
    unfold getPosts, getStorage at 1. by rewrite lookup_insert_eq.
  - try rewrite bool_decide_eq_true_2 in Hc by reflexivity. destruct (5 <? _)%nat; [|discriminate].
    match type of Hc with context [setStorage POSTS ?v s] =>
      destruct (setStorage_spec POSTS v s) as [E'|E']; rewrite E' in Hc; simpl in Hc; [|discriminate] end.
    injection Hc as <- <-. split; [reflexivity|]. exists 5%nat. split; [by right|].
    unfold getPosts, getStorage at 1. rewrite lookup_insert_eq. simpl. by rewrite take_take.
Qed.

(** when the quota refuses the new list of posts, [createPost]
    throws and leaves the store as it was; the message is the friendly
    one only when fewer than 5 posts were stored: otherwise the cut to 5
    is tried and, refused too, surfaces the internal code
    [STORAGE_FULL_DELETE_OLD_POSTS]. *)
Theorem createPost_quota user media cap t now pid (s : store) :
  let newPost := mk_post pid (username user) media t cap now 0 in
  let updated := take 15 (newPost :: getPosts s) in
  fits (<[POSTS := SPosts updated]> s) = false ->
  fits (<[POSTS := SPosts (take 5 updated)]> s) = false ->
  createPost user media cap t now pid s =
  (Throw (if (length (getPosts s) <? 5)%nat then "STORAGE FULL. DELETE POSTS."
          else "STORAGE_FULL_DELETE_OLD_POSTS"), s).
Proof.
  intros newPost updated H15 H5. subst newPost updated. unfold createPost. mrun. unfold getPosts in *.
  unfold setStorage, catch, setItem, throw in *. simpl in *. rewrite H15. simpl.
  destruct (Nat.ltb_spec (length (getStorage POSTS [] s)) 5) as [Hl|Hl].
  - rewrite (proj2 (Nat.ltb_ge _ _)); [reflexivity|]. rewrite length_take. lia.
  - rewrite (proj2 (Nat.ltb_lt _ _)) by (rewrite length_take; lia). simpl. by rewrite H5.
Qed.

End Service.

(** ** Witnesses *)

(** An equation of closed terms checked by the virtual machine. *)
Ltac vm_refl := match goal with |- ?a = ?b => exact (@eq_refl _ a <: a = b) end.

Definition alice : User :=
  mk_user "Alice" "2026-01-01T00:00:00.000Z" (Some ("https://api.dicebear.com/7.x/shapes/svg?seed=" +:+ "Alice")).

Definition alice_store : store := snd (registerUser (fun _ => true) "Alice" "2026-01-01T00:00:00.000Z" ∅).

Lemma registerUser_current_witness : getCurrentUser alice_store = Some alice.
Proof.
  apply (registerUser_current (fun _ => true) "Alice" "2026-01-01T00:00:00.000Z" ∅); [discriminate|].
  vm_refl.
Defined.

Lemma alice_store_reachable : reachable (fun _ => true) alice_store.
Proof.
  exact (reach_op (fun _ => true) ∅ (OpRegister "Alice" "2026-01-01T00:00:00.000Z") (reach_empty _)).
Qed.

Lemma reachable_store_ok_witness : store_ok alice_store.
Proof. apply (reachable_store_ok (fun _ => true)). exact alice_store_reachable. Defined.

Lemma loginUser_case_insensitive_witness :
  loginUser (fun _ => true) "ALICE" alice_store = (Ok alice, <[CURRENT_USER := SRaw "Alice"]> alice_store).
Proof.
  apply (loginUser_case_insensitive (fun _ => true) "ALICE" alice_store alice).
  - split; vm_compute; [apply NoDup_singleton | lia].
  - vm_compute. left. reflexivity.
  - vm_compute. reflexivity.
  - reflexivity.
Defined.

Lemma createPost_newest_first_witness :
  let r := createPost (fun _ => true) alice "data:image/png;base64," "UNTITLED SIGNAL" PImage 1700000000000 "abc" alice_store in
  mk_post "abc" "Alice" "data:image/png;base64," PImage "UNTITLED SIGNAL" 1700000000000 0 =
    mk_post "abc" (username alice) "data:image/png;base64," PImage "UNTITLED SIGNAL" 1700000000000 0 /\
  exists n, (n = 15 \/ n = 5)%nat /\
    getPosts (snd r) = take n (mk_post "abc" "Alice" "data:image/png;base64," PImage "UNTITLED SIGNAL" 1700000000000 0
                               :: getPosts alice_store).
Proof.
  apply (createPost_newest_first (fun _ => true)). vm_refl.
Defined.

Lemma createPost_quota_witness :
  createPost (fun _ => false) alice "data:image/png;base64," "UNTITLED SIGNAL" PImage 1700000000000 "abc" ∅ =
  (Throw (if (length (getPosts ∅) <? 5)%nat then "STORAGE FULL. DELETE POSTS."
          else "STORAGE_FULL_DELETE_OLD_POSTS"), ∅).
Proof. apply createPost_quota; reflexivity. Defined.
