(* ===== verification/Render.v ===== *)
(** * [renderCanvas]: the sequential pipeline of one frame

    src/App.tsx, lines 237-379, with the application types of
    src/utils/glitchAlgorithms.ts (lines 299-308, 366-381, 406).  The
    callback picks the frame source, skips the frame when the source is
    missing or not ready or the AI tab is open, caps the frame at 2048
    px a side, draws the base layer through the canvas (filters, scale,
    mirror, jitter), and then runs the optional stages in their fixed
    order: threshold, blend, text, glitch, halftone, ASCII.

    The browser is a set of section variables: [paint] (what the canvas
    holds after the context runs a list of calls), [draw_src] (a source
    drawn at a given size on the helper canvas), [resample] (the canvas
    drawn at a given size on the helper canvas), and the engine's
    [Math.sin] and [Math.cos].  The pixel passes are the models of
    Threshold.v, Blend.v and Pipeline.v; the drawing stages are those of
    Draw.v.  An exception thrown anywhere ends the callback: the result
    is [Thrown]; a halftone that does not finish within the fuel is
    [Diverge]. *)

From Stdlib Require Import Ascii String.
From stdpp Require Import strings.
From S2P Require Import Prelude Buffer Threshold Blend Pipeline Draw.

Open Scope Z_scope.
#[local] Set Warnings "-inexact-float".

Module Orchestrator.

(** ** The application types *)

(** [enum Tab] (glitchAlgorithms.ts, lines 366-373). *)
Inductive Tab := MANUAL | TEXT | BLEND | ASCII | HALFTONE | AI.

(** [ActiveLayers] (lines 375-381). *)
Record ActiveLayers := mk_layers {
  layer_manual : bool;
  layer_text : bool;
  layer_blend : bool;
  layer_ascii : bool;
  layer_halftone : bool
}.

(** [AppMode] (line 406). *)
Inductive AppMode := LANDING | IMAGE | CAMERA | AUTH | PROFILE.

(** [GlobalParams] (lines 299-308). *)
Record GlobalParams := mk_global_params {
  brightness : float;
  blur : float;
  colormatrix : float;
  vibration : float;
  saturation : float;
  scaleX : float;
  scaleY : float;
  threshold : float
}.

(** ['image' | 'video'] and ['user' | 'environment'] of the component's
    state (App.tsx, lines 88, 91, 104). *)
Inductive MediaKind := KImage | KVideo.
Inductive Facing := FUser | FEnvironment.

(** A frame source, with the properties the callback reads: an
    [HTMLVideoElement] or an [HTMLImageElement]. *)
Inductive Source :=
  | VideoEl (readyState videoWidth videoHeight : Z)
  | ImageEl (complete : bool) (naturalWidth width height : Z).

(** The element refs ([null] is [None]). *)
Record Refs := mk_refs {
  videoRef : option Source;
  uploadedVideoRef : option Source;
  originalImgRef : option Source;
  blendVideoRef : option Source;
  blendImgRef : option Source
}.

(** The component state the callback reads (its dependency list, line
    379). *)
Record AppState := mk_app_state {
  appMode : AppMode;
  sourceType : MediaKind;
  activeTab : Tab;
  activeLayers : ActiveLayers;
  glitchParams : GlitchParams;
  asciiParams : AsciiStage.AsciiParams;
  halftoneParams : HalftoneStage.HalftoneParams;
  blendParams : BlendParams;
  textParams : TextStage.TextParams;
  blendType : option MediaKind;
  globalParams : GlobalParams;
  facingMode : Facing
}.

(** ** The defaults (App.tsx, lines 17-68) and the initial state *)

Definition DEFAULT_GLOBAL : GlobalParams := mk_global_params 1.0 (zf 0) (zf 0) (zf 0) 1.0 1.0 1.0 (zf 0).

Definition DEFAULT_GLITCH : GlitchParams := mk_glitch_params 50 (zf 12345) 1 90 5 10 2 0.

Definition DEFAULT_ASCII : AsciiStage.AsciiParams :=
  AsciiStage.mk_ascii_params (zf 8) 1.2 false false "complex" "#ffffff" "#000000".

Definition DEFAULT_HALFTONE : HalftoneStage.HalftoneParams :=
  HalftoneStage.mk_halftone_params (zf 6) (zf 45) 1.2 "circle" false "#ffffff" "#000000".

Definition DEFAULT_BLEND : BlendParams := mk_blend_params Displacement 50 128 20.

Definition DEFAULT_TEXT : TextStage.TextParams :=
  TextStage.mk_text_params "SCREEN_" "Helvetica" (zf 20) (zf 50) (zf 50) "#ff0000" true.

Definition DEFAULT_ACTIVE_LAYERS : ActiveLayers := mk_layers true false false false false.

(** The [useState] initial values of lines 80-104. *)
Definition initial_state : AppState :=
  mk_app_state LANDING KImage MANUAL DEFAULT_ACTIVE_LAYERS DEFAULT_GLITCH DEFAULT_ASCII DEFAULT_HALFTONE
    DEFAULT_BLEND DEFAULT_TEXT None DEFAULT_GLOBAL FUser.

(** ** The frame *)

(** The source of lines 247-253. *)
Definition source_of (st : AppState) (refs : Refs) : option Source :=
  match appMode st with
  | CAMERA => videoRef refs
  | IMAGE => match sourceType st with KVideo => uploadedVideoRef refs | KImage => originalImgRef refs end
  | _ => None
  end.

(** [isVideoReady || isImageReady] (lines 256-257). *)
Definition source_ready (s : Source) : bool :=
  match s with
  | VideoEl rs _ _ => 2 <=? rs
  | ImageEl c nw _ _ => c && (0 <? nw)
  end.

(** The sides read on lines 272-273. *)
Definition source_dims (s : Source) : Z * Z :=
  match s with
  | VideoEl _ w h => (w, h)
  | ImageEl _ _ w h => (w, h)
  end.

Definition MAX_DIM : float := 2048.

(** [Math.floor] of a side.  Sides computed from integer sides are
    finite, so the other cases do not arise. *)
Definition floor_dim (f : float) : Z := match js_floor_num f with JInt z => z | _ => 0 end.

(** Lines 276-285: the longer side capped at 2048, the other scaled by
    the aspect ratio, both floored. *)
Definition capped_dims (w h : Z) : Z * Z :=
  let fw := zf w in
  let fh := zf h in
  let '(fw, fh) :=
    if jslt MAX_DIM fw || jslt MAX_DIM fh then
      let ratio := (fw / fh)%float in
      if jslt fh fw then (MAX_DIM, (MAX_DIM / ratio)%float) else ((MAX_DIM * ratio)%float, MAX_DIM)
    else (fw, fh) in
  (floor_dim fw, floor_dim fh).

(** The filter list of lines 309-316 ([!==] on doubles: NaN differs from
    everything, [-0] equals [0]). *)
Definition filters (g : GlobalParams) : list Filter :=
  (if jslt (zf 0) (blur g) then [FBlur (blur g)] else []) ++
  (if PrimFloat.eqb (brightness g) (zf 1) then [] else [FBrightness (brightness g)]) ++
  (if PrimFloat.eqb (colormatrix g) (zf 0) then [] else [FHueRotate (colormatrix g)]) ++
  (if PrimFloat.eqb (saturation g) (zf 1) then [] else [FSaturate (saturation g)]).

(** The exact value of a finite double (the sliders give finite ones). *)
Definition fin_q (f : float) : Q := match xv f with XFin q => q | _ => 0%Q end.

(** Lines 302-307: [(Math.random() - 0.5) * vibration] twice when the
    vibration is positive, no draw otherwise. *)
Definition jitter (g : GlobalParams) : RandM (Q * Q) :=
  if jslt (zf 0) (vibration g) then
    (qx <- random ;; qy <- random ;;
     rret (((qx - (1#2)) * fin_q (vibration g))%Q, ((qy - (1#2)) * fin_q (vibration g))%Q))%rand
  else rret (0%Q, 0%Q).

(** The mirror of lines 328-330. *)
Definition mirror_of (st : AppState) : bool :=
  match appMode st, facingMode st with CAMERA, FUser => true | _, _ => false end.

(** The calls of the base layer (lines 296-338). *)
Definition base_cmds (w h : Z) (g : GlobalParams) (mirror : bool) (jit : Q * Q) : list Cmd :=
  [CClearRect (zf 0) (zf 0) (zf w) (zf h); CFilter []; CFilter (filters g); CSave;
   CTranslate (zf w / zf 2)%float (zf h / zf 2)%float; CScale (scaleX g) (scaleY g)] ++
  (if mirror then [CScale (zf (-1)) (zf 1)] else []) ++
  [CDrawImage (- zf w / zf 2)%float (- zf h / zf 2)%float (zf w) (zf h) (fst jit) (snd jit);
   CRestore; CFilter []].

(** ** An exception and a random tape threaded together *)

Definition RR (A : Type) : Type := RandM (Run A).

Definition rr_ret {A} (a : A) : RR A := rret (Ret a).
Definition rr_run {A} (x : Run A) : RR A := rret x.
Definition rr_lift {A} (m : RandM A) : RR A := fun r => let '(a, r') := m r in (Ret a, r').
Definition rr_bind {A B} (m : RR A) (k : A -> RR B) : RR B :=
  fun r =>
    match m r with
    | (Ret a, r') => k a r'
    | (Thrown e, r') => (Thrown e, r')
    | (Diverge, r') => (Diverge, r')
    end.

Declare Scope rr_scope.
Delimit Scope rr_scope with rr.
Notation "x <-- m ;; k" := (rr_bind m (fun x => k))
  (at level 100, m at next level, right associativity) : rr_scope.

(** [getImageData(0, 0, w, h)] of the canvas holding [d]: an empty
    rectangle throws an [IndexSizeError]. *)
Definition get_image_data (w h : Z) (d : list Z) : Run (list Z) :=
  if (w =? 0) || (h =? 0) then Thrown "IndexSizeError" else Ret d.

Section Browser.

(** [paint src w h d l]: the bytes of the [w x h] canvas holding [d]
    after the context runs the calls [l], [drawImage] drawing [src]. *)
Variable paint : option Source -> Z -> Z -> list Z -> list Cmd -> list Z.
(** [draw_src s w h]: the bytes of [s] drawn at [w x h] on the cleared
    helper canvas. *)
Variable draw_src : Source -> Z -> Z -> list Z.
(** [resample d w h c r]: the bytes of the [w x h] canvas holding [d]
    drawn at [c x r] on the cleared helper canvas. *)
Variable resample : list Z -> Z -> Z -> Z -> Z -> list Z.
(** [Math.sin] and [Math.cos]. *)
Variables js_sin js_cos : float -> float.

(** Lines 341-345. *)
Definition stage_threshold (g : GlobalParams) (w h : Z) (d : list Z) : Run (list Z) :=
  if jslt (zf 0) (threshold g) then
    match get_image_data w h d with
    | Ret t => Ret (applyThreshold t (threshold g))
    | e => e
    end
  else Ret d.

(** Lines 348-353 and the reads of [renderBlend] (glitchAlgorithms.ts,
    lines 199-215): with no second source it returns before
    [putImageData]. *)
Definition stage_blend (st : AppState) (refs : Refs) (w h : Z) (d : list Z) : RR (list Z) :=
  match get_image_data w h d with
  | Ret t =>
      let img2 := match blendType st with Some KVideo => blendVideoRef refs | _ => blendImgRef refs end in
      rr_lift (renderBlend t (option_map (fun s => draw_src s w h) img2) w h (blendParams st))
  | Thrown e => rr_run (Thrown e)
  | Diverge => rr_run Diverge
  end.

(** Lines 356-358. *)
Definition stage_text (st : AppState) (w h : Z) (d : list Z) : list Z :=
  paint None w h d (TextStage.renderText w h (textParams st)).

(** Lines 361-363 and [processImage] (glitchAlgorithms.ts, lines
    166-182): a pass that throws is a [RangeError]. *)
Definition stage_glitch (st : AppState) (w h : Z) (d : list Z) : RR (list Z) :=
  match get_image_data w h d with
  | Ret t =>
      fun r => let '(o, r') := processImage t w h (glitchParams st) r in
               (match o with Some d' => Ret d' | None => Thrown "RangeError" end, r')
  | Thrown e => rr_run (Thrown e)
  | Diverge => rr_run Diverge
  end.

(** The canvas after a drawing stage's calls. *)
Definition paint_run (w h : Z) (d : list Z) (x : Run (list Cmd)) : Run (list Z) :=
  match x with
  | Ret l => Ret (paint None w h d l)
  | Thrown e => Thrown e
  | Diverge => Diverge
  end.

(** Lines 366-370: the canvas itself is the halftone's image. *)
Definition stage_halftone (st : AppState) (fuel : nat) (w h : Z) (d : list Z) : Run (list Z) :=
  paint_run w h d (HalftoneStage.renderHalftone js_sin js_cos fuel (resample d w h w h) w h (halftoneParams st)).

(** Lines 373-377. *)
Definition stage_ascii (st : AppState) (w h : Z) (d : list Z) : Run (list Z) :=
  paint_run w h d (AsciiStage.renderAscii (resample d w h) w h (asciiParams st)).

(** Lines 287-378, from the frame's sides on: the base layer, then the
    optional stages in their fixed order. *)
Definition render_frame (fuel : nat) (st : AppState) (refs : Refs) (src : Source) (w h : Z)
  : RR (option (Z * Z * list Z)) :=
  let g := globalParams st in
  let L := activeLayers st in
  (jit <-- rr_lift (jitter g) ;;
   let d0 := paint (Some src) w h (repeat 0 (Z.to_nat (w * h * 4))) (base_cmds w h g (mirror_of st) jit) in
   d1 <-- rr_run (stage_threshold g w h d0) ;;
   d2 <-- (if layer_blend L then stage_blend st refs w h d1 else rr_ret d1) ;;
   let d3 := if layer_text L then stage_text st w h d2 else d2 in
   d4 <-- (if layer_manual L then stage_glitch st w h d3 else rr_ret d3) ;;
   d5 <-- rr_run (if layer_halftone L then stage_halftone st fuel w h d4 else Ret d4) ;;
   d6 <-- rr_run (if layer_ascii L then stage_ascii st w h d5 else Ret d5) ;;
   rr_ret (Some (w, h, d6)))%rr.

(** Lines 237-379: [None] when the frame is skipped, otherwise the
    sides and bytes of the canvas at the end of the callback. *)
Definition renderCanvas (fuel : nat) (st : AppState) (refs : Refs) : RR (option (Z * Z * list Z)) :=
  match source_of st refs with
  | None => rr_ret None
  | Some src =>
      if negb (source_ready src) then rr_ret None else
      match activeTab st with
      | AI => rr_ret None
      | _ => let '(w, h) := let '(w0, h0) := source_dims src in capped_dims w0 h0 in
             render_frame fuel st refs src w h
      end
  end.

End Browser.

(** ** Theorems *)

Lemma js_floor_num_zf z : -4096 <= z < 4096 -> js_floor_num (zf z) = JInt z.
Proof. intros Hz. unfold js_floor_num. destruct (zf_exact z Hz) as (q & -> & Hq). by rewrite Hq, Qfloor_Z. Qed.

(** A frame of at most 2048 px a side keeps its sides: the cap of
    lines 277-281 does not apply, and [Math.floor] of the double of an
    integer side gives the side back. *)
Theorem capped_dims_small (w h : Z) : 0 <= w <= 2048 -> 0 <= h <= 2048 -> capped_dims w h = (w, h).
Proof.
  intros Hw Hh. unfold capped_dims. change MAX_DIM with (zf 2048).
  rewrite !jslt_zf by lia. rewrite !(proj2 (Z.ltb_ge _ _)) by lia. simpl.
  unfold floor_dim. by rewrite !js_floor_num_zf by lia.
Qed.

(** A frame of [n] opaque white pixels. *)
Definition white_frame (n : nat) : list Z := concat (replicate n [255; 255; 255; 255]).

Lemma white_frame_length n : length (white_frame n) = (4 * n)%nat.
Proof. unfold white_frame. induction n as [|n IH]; [reflexivity|]. simpl. rewrite IH. lia. Qed.

Lemma map_px_white f i n :
  (forall j, f j [255; 255; 255; 255] = [255; 255; 255; 255]) -> map_px f i (white_frame n) = white_frame n.
Proof.
  intros Hf. revert i. induction n as [|n IH]; intros i; [reflexivity|].
  unfold white_frame in *. simpl. rewrite Hf. simpl. by rewrite IH.
Qed.

(** A white frame stays white under any threshold in [1, 255]. *)
Lemma applyThreshold_white (t : Z) n : 0 < t <= 255 -> applyThreshold (white_frame n) (zf t) = white_frame n.
Proof.
  intros Ht. rewrite applyThreshold_map.
  - apply map_px_white. intros j. unfold threshold_px, brightness_avg.
    rewrite threshold_val_int by lia. by rewrite (proj2 (Z.leb_le _ _)) by lia.
  - rewrite white_frame_length. by rewrite Nat.mul_comm, Nat.Div0.mod_mul.
  - rewrite jsle_zf by lia. apply Z.leb_gt. lia.
Qed.

Lemma get_image_data_empty w h d : w = 0 \/ h = 0 -> get_image_data w h d = Thrown "IndexSizeError".
Proof. intros [-> | ->]; unfold get_image_data; [reflexivity | by rewrite orb_true_r]. Qed.

Lemma get_image_data_ok w h d : w <> 0 -> h <> 0 -> get_image_data w h d = Ret d.
Proof. intros Hw Hh. unfold get_image_data. by rewrite (proj2 (Z.eqb_neq _ _) Hw), (proj2 (Z.eqb_neq _ _) Hh). Qed.

Section Theorems.

Context (paint : option Source -> Z -> Z -> list Z -> list Cmd -> list Z)
        (draw_src : Source -> Z -> Z -> list Z)
        (resample : list Z -> Z -> Z -> Z -> Z -> list Z)
        (js_sin js_cos : float -> float).

(** A frame that is not skipped is rendered at the capped sides of its
    source. *)
Lemma renderCanvas_frame fuel st refs src :
  source_of st refs = Some src -> source_ready src = true -> activeTab st <> AI ->
  renderCanvas paint draw_src resample js_sin js_cos fuel st refs =
  render_frame paint draw_src resample js_sin js_cos fuel st refs src
    (fst (capped_dims (fst (source_dims src)) (snd (source_dims src))))
    (snd (capped_dims (fst (source_dims src)) (snd (source_dims src)))).
Proof.
  intros Hs Hr Ht. unfold renderCanvas. rewrite Hs, Hr. simpl negb.
  destruct (source_dims src) as [w0 h0]. cbn [fst snd]. destruct (capped_dims w0 h0) as [w h].
  destruct (activeTab st); try reflexivity. contradiction.
Qed.

Lemma stage_blend_empty st refs w h d r :
  w = 0 \/ h = 0 -> stage_blend draw_src st refs w h d r = (Thrown "IndexSizeError", r).
Proof. intros Hz. unfold stage_blend. by rewrite get_image_data_empty. Qed.

Lemma stage_glitch_empty st w h d r :
  w = 0 \/ h = 0 -> stage_glitch st w h d r = (Thrown "IndexSizeError", r).
Proof. intros Hz. unfold stage_glitch. by rewrite get_image_data_empty. Qed.

Lemma stage_threshold_empty g w h d :
  w = 0 \/ h = 0 -> stage_threshold g w h d = Ret d \/ stage_threshold g w h d = Thrown "IndexSizeError".
Proof.
  intros Hz. unfold stage_threshold. rewrite get_image_data_empty by exact Hz.
  destruct (jslt _ _); [right | left]; reflexivity.
Qed.

Lemma render_frame_empty fuel st refs src w h r :
  w = 0 \/ h = 0 -> layer_manual (activeLayers st) = true ->
  fst (render_frame paint draw_src resample js_sin js_cos fuel st refs src w h r) = Thrown "IndexSizeError".
Proof.
  intros Hz Hm. unfold render_frame, rr_bind at 1, rr_lift.
  destruct (jitter (globalParams st) r) as [jit r1]. cbv iota beta zeta.
  unfold rr_bind at 1, rr_run at 1, rret at 1.
  destruct (stage_threshold_empty (globalParams st) w h
              (paint (Some src) w h (repeat 0 (Z.to_nat (w * h * 4))) (base_cmds w h (globalParams st) (mirror_of st) jit)) Hz)
    as [-> | ->]; [|reflexivity].
  unfold rr_bind at 1. destruct (layer_blend _); [by rewrite stage_blend_empty|].
  unfold rr_ret at 1, rret at 1, rr_bind at 1. rewrite Hm. by rewrite stage_glitch_empty.
Qed.

(** the specification says a degenerate frame is skipped before any
    stage runs, but the code only checks readiness: a source whose
    capped frame has an empty side (a 4000 x 1 image becomes 2048 x 0)
    reaches the glitch layer, on by default, whose [getImageData] throws
    an [IndexSizeError] out of the callback (the threshold and blend
    stages throw the same exception earlier when they are on). *)
Theorem renderCanvas_empty_frame_throws fuel st refs src r :
  source_of st refs = Some src -> source_ready src = true -> activeTab st <> AI ->
  fst (capped_dims (fst (source_dims src)) (snd (source_dims src))) = 0 \/
  snd (capped_dims (fst (source_dims src)) (snd (source_dims src))) = 0 ->
  layer_manual (activeLayers st) = true ->
  fst (renderCanvas paint draw_src resample js_sin js_cos fuel st refs r) = Thrown "IndexSizeError".
Proof.
  intros Hs Hr Ht Hz Hm. rewrite (renderCanvas_frame _ _ _ _ Hs Hr Ht).
  by apply render_frame_empty.
Qed.

Lemma stage_threshold_white g w h (t : Z) n :
  1 <= w -> 1 <= h -> threshold g = zf t -> 0 < t <= 255 ->
  stage_threshold g w h (white_frame n) = Ret (white_frame n).
Proof.
  intros Hw Hh Ht Ht0. unfold stage_threshold. rewrite Ht, jslt_zf, get_image_data_ok by lia.
  rewrite (proj2 (Z.ltb_lt _ _)) by lia. by rewrite applyThreshold_white.
Qed.

(** C10: the end-to-end example of the specification: a frame of at most
    2048 px a side whose base layer is all opaque white, a threshold in
    [1, 255], no jitter and every optional layer off, comes out of the
    callback all opaque white, at the source's own sides. *)
Theorem renderCanvas_white_threshold fuel st refs src r (w h t : Z) :
  source_of st refs = Some src -> source_ready src = true -> activeTab st <> AI ->
  source_dims src = (w, h) -> 1 <= w <= 2048 -> 1 <= h <= 2048 ->
  activeLayers st = mk_layers false false false false false ->
  threshold (globalParams st) = zf t -> 0 < t <= 255 ->
  jslt (zf 0) (vibration (globalParams st)) = false ->
  paint (Some src) w h (repeat 0 (Z.to_nat (w * h * 4)))
        (base_cmds w h (globalParams st) (mirror_of st) (0%Q, 0%Q)) = white_frame (Z.to_nat (w * h)) ->
  fst (renderCanvas paint draw_src resample js_sin js_cos fuel st refs r) =
  Ret (Some (w, h, white_frame (Z.to_nat (w * h)))).
Proof.
  intros Hs Hr Ht Hd Hw Hh HL Hth Ht0 Hv Hp.
  rewrite (renderCanvas_frame _ _ _ _ Hs Hr Ht), Hd. cbn [fst snd]. rewrite capped_dims_small by lia.
  cbn [fst snd]. unfold render_frame, rr_bind at 1, rr_lift, jitter. rewrite Hv.
  cbv iota beta zeta delta [rret]. rewrite Hp.
  unfold rr_bind at 1, rr_run at 1. rewrite (stage_threshold_white _ _ _ t) by (assumption || lia).
  rewrite HL. reflexivity.
Qed.

End Theorems.

(** ** Witnesses *)

(** An uploaded image of the given sides, loaded. *)
Definition loaded_image (w h : Z) : Refs := mk_refs None None (Some (ImageEl true w w h)) None None.

(** The initial state after an image upload ([appMode = 'IMAGE']). *)
Definition image_state : AppState :=
  mk_app_state IMAGE KImage MANUAL DEFAULT_ACTIVE_LAYERS DEFAULT_GLITCH DEFAULT_ASCII DEFAULT_HALFTONE
    DEFAULT_BLEND DEFAULT_TEXT None DEFAULT_GLOBAL FUser.

(** A browser whose base layer is opaque white. *)
Definition white_paint (_ : option Source) (w h : Z) (_ : list Z) (_ : list Cmd) : list Z := white_frame (Z.to_nat (w * h)).

Lemma capped_dims_small_witness : (0 <= 640 <= 2048 /\ 0 <= 480 <= 2048) /\ capped_dims 640 480 = (640, 480).
Proof. split; [lia | apply capped_dims_small; lia]. Defined.

Lemma renderCanvas_empty_frame_throws_witness :
  fst (renderCanvas white_paint (fun _ _ _ => []) (fun _ _ _ _ _ => []) (fun _ => zf 0) (fun _ => zf 1) 10
         image_state (loaded_image 4000 1) zero_tape) = Thrown "IndexSizeError".
Proof.
  apply (renderCanvas_empty_frame_throws _ _ _ _ _ _ _ _ (ImageEl true 4000 4000 1));
    [reflexivity | reflexivity | discriminate | right; vm_compute; reflexivity | reflexivity].
Defined.

Lemma renderCanvas_white_threshold_witness :
  let st := mk_app_state IMAGE KImage MANUAL (mk_layers false false false false false) DEFAULT_GLITCH
              DEFAULT_ASCII DEFAULT_HALFTONE DEFAULT_BLEND DEFAULT_TEXT None
              (mk_global_params 1.0 (zf 0) (zf 0) (zf 0) 1.0 1.0 1.0 (zf 128)) FUser in
  fst (renderCanvas white_paint (fun _ _ _ => []) (fun _ _ _ _ _ => []) (fun _ => zf 0) (fun _ => zf 1) 10
         st (loaded_image 100 100) zero_tape) = Ret (Some (100, 100, white_frame (Z.to_nat (100 * 100)))).
Proof.
  intros st. apply (renderCanvas_white_threshold _ _ _ _ _ _ _ _ (ImageEl true 100 100 100) _ 100 100 128);
    first [reflexivity | discriminate | lia | vm_compute; reflexivity].
Defined.

End Orchestrator.
