(* ===== verification/Loop.v ===== *)
(** * The render loop: when [renderCanvas] runs

    src/App.tsx, lines 381-411 (the loop effect and the static-image
    trigger), with the [cancelAnimationFrame] of the camera effect's
    cleanup (lines 223-234).  React commits a render of the component:
    an effect whose dependency list holds a new value (by [Object.is])
    has its cleanup run, then its body; [useCallback] (line 379) gives
    [renderCanvas] a new identity when one of its dependencies is new.
    The browser keeps a queue of [requestAnimationFrame] callbacks, each
    with an id; [cancelAnimationFrame] removes one; a frame runs the
    callbacks queued before it, in order.

    The scheduler state ([Sched]) is the committed component state, the
    callback queue, the next id, [animationFrameIdRef.current], and the
    log of the states [renderCanvas] was called with (a callback is a
    closure: it carries the state its [renderCanvas] reads).  A commit
    is [commit]; a frame is [frame]; [reachable] closes the mount under
    both.  The theorems: one animation loop at most, exactly while the
    state loops, and always drawing the current state; every frame draws
    the current state while looping (continuous re-invocation); a static
    frame is drawn once and then left alone (on-demand re-invocation);
    and every change is drawn at the next frame.  [handleAIGenerate]
    (lines 745-769) cancels the loop's callback and changes only state
    no effect depends on: the last theorem shows that nothing restarts
    the loop. *)

From Stdlib Require Import String.
From stdpp Require Import strings.
From S2P Require Import Prelude Draw Render.
Import Orchestrator.

Local Open Scope nat_scope.

Module RenderLoop.

(** ** The component state the effects read *)

(** [renderCanvas]'s dependencies (the fields of [AppState]) and
    [imageSrc] (line 87). *)
Record UiState := mk_ui { app : AppState; imageSrc : option string }.

(** The dependencies of the three effects. *)
Inductive Dep :=
  | DAppMode | DSourceType | DActiveTab | DActiveLayers | DGlitch | DAscii | DHalftone
  | DBlend | DText | DBlendType | DGlobal | DFacing | DImageSrc | DVibration.

(** Dependency [d] holds the same value in [u] and [u']. *)
Definition dep_same (u u' : UiState) (d : Dep) : Prop :=
  let a := app u in
  let a' := app u' in
  match d with
  | DAppMode => appMode a = appMode a'
  | DSourceType => sourceType a = sourceType a'
  | DActiveTab => activeTab a = activeTab a'
  | DActiveLayers => activeLayers a = activeLayers a'
  | DGlitch => glitchParams a = glitchParams a'
  | DAscii => asciiParams a = asciiParams a'
  | DHalftone => halftoneParams a = halftoneParams a'
  | DBlend => blendParams a = blendParams a'
  | DText => textParams a = textParams a'
  | DBlendType => blendType a = blendType a'
  | DGlobal => globalParams a = globalParams a'
  | DFacing => facingMode a = facingMode a'
  | DImageSrc => imageSrc u = imageSrc u'
  | DVibration => vibration (globalParams a) = vibration (globalParams a')
  end.

(** Strings and numbers compare by value; the parameter objects by
    identity, and every setter of the component makes a new object. *)
Definition by_value (d : Dep) : bool :=
  match d with
  | DActiveLayers | DGlitch | DAscii | DHalftone | DBlend | DText | DGlobal => false
  | _ => true
  end.

(** [fresh d]: [Object.is] finds dependency [d] new at this commit.  A
    dependency that is not new holds the same value; a value compared by
    value is new only when it changed.  (Primitive floats are equal exactly when
    [Object.is] says so: [-0] and [0] differ, NaN equals NaN.) *)
Definition fresh_ok (u u' : UiState) (fresh : Dep -> bool) : Prop :=
  forall d, (fresh d = false -> dep_same u u' d) /\
            (by_value d = true -> fresh d = true -> ~ dep_same u u' d).

(** The dependency list of [renderCanvas] (line 379). *)
Definition renderCanvas_deps : list Dep :=
  [DAppMode; DSourceType; DActiveTab; DActiveLayers; DGlitch; DAscii; DHalftone; DBlend; DText;
   DBlendType; DGlobal; DFacing].

(** [useCallback] returns a new [renderCanvas] when a dependency is new. *)
Definition renderCanvas_fresh (fresh : Dep -> bool) : bool := existsb fresh renderCanvas_deps.

(** Which effects re-run (lines 234, 403, 411). *)
Definition camera_effect_runs (fresh : Dep -> bool) : bool := fresh DAppMode || fresh DFacing.

Definition loop_effect_runs (fresh : Dep -> bool) : bool :=
  existsb fresh [DAppMode; DSourceType; DActiveTab; DActiveLayers; DBlendType; DVibration] ||
  renderCanvas_fresh fresh.

Definition static_effect_runs (fresh : Dep -> bool) : bool :=
  fresh DAppMode || renderCanvas_fresh fresh ||
  existsb fresh [DImageSrc; DActiveTab; DActiveLayers; DBlendType; DSourceType; DGlobal].

(** [shouldLoop] (lines 383-387) and [isLooping] (line 407). *)
Definition shouldLoop (st : AppState) : bool :=
  match appMode st with CAMERA => true | _ => false end ||
  match appMode st, sourceType st with IMAGE, KVideo => true | _, _ => false end ||
  (layer_blend (activeLayers st) && match blendType st with Some KVideo => true | _ => false end) ||
  jslt (zf 0) (vibration (globalParams st)).

Definition isLooping (st : AppState) : bool :=
  match appMode st with CAMERA => true | _ => false end ||
  match appMode st, sourceType st with IMAGE, KVideo => true | _, _ => false end ||
  (layer_blend (activeLayers st) && match blendType st with Some KVideo => true | _ => false end) ||
  jslt (zf 0) (vibration (globalParams st)).

Definition is_image (m : AppMode) : bool := match m with IMAGE => true | _ => false end.

(** ** The animation-frame queue *)

(** A queued callback: the [loop] closure of the loop effect, with the
    [shouldLoop] it captured, or [renderCanvas] itself (the static
    trigger); both carry the state their [renderCanvas] reads. *)
Inductive Cb := LoopCb (should : bool) (view : AppState) | StaticCb (view : AppState).

Record Sched := mk_sched {
  ui : UiState;
  queue : list (nat * Cb);
  next_id : nat;
  frame_ref : nat;
  renders : list AppState
}.

Definition set_ui (u : UiState) (s : Sched) : Sched :=
  mk_sched u (queue s) (next_id s) (frame_ref s) (renders s).
Definition set_queue (q : list (nat * Cb)) (s : Sched) : Sched :=
  mk_sched (ui s) q (next_id s) (frame_ref s) (renders s).
Definition set_frame_ref (i : nat) (s : Sched) : Sched :=
  mk_sched (ui s) (queue s) (next_id s) i (renders s).

(** [requestAnimationFrame(c)]: a fresh id, the callback at the end. *)
Definition request (c : Cb) (s : Sched) : nat * Sched :=
  (next_id s, mk_sched (ui s) (queue s ++ [(next_id s, c)]) (S (next_id s)) (frame_ref s) (renders s)).

(** [cancelAnimationFrame(i)]. *)
Definition cancel (i : nat) (s : Sched) : Sched :=
  set_queue (List.filter (fun e => negb (Nat.eqb (fst e) i)) (queue s)) s.

(** A call of [renderCanvas] reading [v]. *)
Definition render (v : AppState) (s : Sched) : Sched :=
  mk_sched (ui s) (queue s) (next_id s) (frame_ref s) (v :: renders s).

(** [loop] (lines 389-394). *)
Definition loop (should : bool) (v : AppState) (s : Sched) : Sched :=
  if should then
    let s := render v s in
    let '(i, s) := request (LoopCb should v) s in
    set_frame_ref i s
  else s.

(** ** A commit and a frame *)

(** The cleanups of the effects that re-run, in the order of the
    component: the camera effect's (line 232), the loop effect's (line
    401). *)
Definition cleanups (fresh : Dep -> bool) (s : Sched) : Sched :=
  let s := if camera_effect_runs fresh then cancel (frame_ref s) s else s in
  if loop_effect_runs fresh then cancel (frame_ref s) s else s.

(** Then their bodies: the loop effect's (lines 383-398), the static
    trigger's (lines 407-410).  The camera body starts the stream, which
    is not modelled. *)
Definition setups (fresh : Dep -> bool) (s : Sched) : Sched :=
  let st := app (ui s) in
  let s := if loop_effect_runs fresh && shouldLoop st then loop (shouldLoop st) st s else s in
  if static_effect_runs fresh && is_image (appMode st) && negb (isLooping st)
  then snd (request (StaticCb st) s) else s.

Definition commit (u' : UiState) (fresh : Dep -> bool) (s : Sched) : Sched :=
  setups fresh (set_ui u' (cleanups fresh s)).

Definition run_cb (s : Sched) (e : nat * Cb) : Sched :=
  match snd e with
  | LoopCb should v => loop should v s
  | StaticCb v => render v s
  end.

(** A frame runs the callbacks queued before it; those they request
    wait for the next frame. *)
Definition frame (s : Sched) : Sched := fold_left run_cb (queue s) (set_queue [] s).

(** The first render: every effect runs its body, no cleanup. *)
Definition initial_ui : UiState := mk_ui initial_state None.

Definition mount : Sched := setups (fun _ => true) (mk_sched initial_ui [] 1 0 []).

Inductive reachable : Sched -> Prop :=
  | reach_mount : reachable mount
  | reach_commit s u' fresh : reachable s -> fresh_ok (ui s) u' fresh -> reachable (commit u' fresh s)
  | reach_frame s : reachable s -> reachable (frame s).

(** ** The AI request *)

(** A commit where no dependency is new: no effect runs. *)
Definition no_dep : Dep -> bool := fun _ => false.

(** [handleAIGenerate] (lines 745-757), up to its [await]: outside the
    AI tab, without a canvas or without an API key it returns; otherwise
    it cancels [animationFrameIdRef.current], and its [setProcessingState]
    and [setAiImage(null)] re-render a state no effect depends on. *)
Definition handleAIGenerate (has_canvas has_key : bool) (s : Sched) : Sched :=
  if match activeTab (app (ui s)) with AI => true | _ => false end && has_canvas && has_key
  then commit (ui s) no_dep (cancel (frame_ref s) s)
  else s.

(** Its end (lines 758-769): on failure in camera mode one
    [renderCanvas()] of the current state (line 765); [setAiImage(result)] and the
    [finally]'s [setProcessingState] again re-render a state no effect
    depends on. *)
Definition handleAIGenerate_done (ok : bool) (s : Sched) : Sched :=
  let s := if negb ok && match appMode (app (ui s)) with CAMERA => true | _ => false end
           then render (app (ui s)) s else s in
  commit (ui s) no_dep s.

(** ** The invariant of the queue *)

Definition static_entry (e : nat * AppState) : nat * Cb := (fst e, StaticCb (snd e)).

(** The loop callback the queue holds: one, capturing the current state,
    exactly when that state loops. *)
Definition loop_entry (s : Sched) : list (nat * Cb) :=
  if shouldLoop (app (ui s)) then [(frame_ref s, LoopCb true (app (ui s)))] else [].

(** The queue is some static-trigger callbacks, then the loop callback;
    ids are fresh and no static callback has the id the ref holds. *)
Definition sched_inv (s : Sched) : Prop :=
  exists sts, queue s = map static_entry sts ++ loop_entry s /\
    Forall (fun e => fst e <> frame_ref s /\ fst e < next_id s) sts /\ frame_ref s < next_id s.

Lemma isLooping_shouldLoop st : isLooping st = shouldLoop st.
Proof. reflexivity. Qed.

Lemma filter_statics i sts :
  Forall (fun e => fst e <> i) sts ->
  List.filter (fun e : nat * Cb => negb (Nat.eqb (fst e) i)) (map static_entry sts) = map static_entry sts.
Proof.
  induction 1 as [|[j v] sts He _ IH]; [reflexivity|]. simpl in *.
  rewrite (proj2 (Nat.eqb_neq _ _) He). simpl. by rewrite IH.
Qed.

(** Cancelling the ref's id drops the loop callback and nothing else. *)
Lemma cancel_frame_ref s sts :
  queue s = map static_entry sts ++ loop_entry s -> Forall (fun e => fst e <> frame_ref s) sts ->
  cancel (frame_ref s) s = set_queue (map static_entry sts) s.
Proof.
  intros Hq Hs. unfold cancel. rewrite Hq, List.filter_app, filter_statics by exact Hs.
  unfold loop_entry. destruct (shouldLoop _); simpl; [rewrite Nat.eqb_refl|]; by rewrite app_nil_r.
Qed.

(** The static callbacks of a frame each draw their state. *)
Lemma run_statics sts s :
  fold_left run_cb (map static_entry sts) s =
  mk_sched (ui s) (queue s) (next_id s) (frame_ref s) (rev (map snd sts) ++ renders s).
Proof.
  revert s. induction sts as [|e sts IH]; intros s; [by destruct s|].
  simpl. rewrite IH. simpl. by rewrite <- app_assoc.
Qed.

(** A frame: the static callbacks draw their states, then the loop, if
    any, draws the current state and queues itself again. *)
Lemma frame_eq s sts :
  queue s = map static_entry sts ++ loop_entry s ->
  frame s =
  if shouldLoop (app (ui s)) then
    mk_sched (ui s) [(next_id s, LoopCb true (app (ui s)))] (S (next_id s)) (next_id s)
             (app (ui s) :: rev (map snd sts) ++ renders s)
  else mk_sched (ui s) [] (next_id s) (frame_ref s) (rev (map snd sts) ++ renders s).
Proof.
  intros Hq. unfold frame. rewrite Hq, fold_left_app, run_statics.
  unfold loop_entry. destruct (shouldLoop _); reflexivity.
Qed.

Lemma frame_inv s : sched_inv s -> sched_inv (frame s).
Proof.
  intros (sts & Hq & Hs & Hf). rewrite (frame_eq s sts Hq).
  destruct (shouldLoop (app (ui s))) eqn:E; exists []; unfold loop_entry; simpl; rewrite ?E; simpl; auto.
Qed.

(** A commit whose effects do not re-run leaves [renderCanvas]'s state
    as it was: every field of it is a dependency. *)
Lemma app_unchanged u u' fresh :
  fresh_ok u u' fresh -> renderCanvas_fresh fresh = false -> app u = app u'.
Proof.
  intros Hok Hrc. unfold renderCanvas_fresh in Hrc.
  assert (Hd : forall d, In d renderCanvas_deps -> dep_same u u' d).
  { intros d Hin. apply (proj1 (Hok d)). destruct (fresh d) eqn:Hf; [|done].
    assert (existsb fresh renderCanvas_deps = true) by (apply existsb_exists; eauto). congruence. }
  destruct u as [[] ?], u' as [[] ?]; simpl in *.
  f_equal; [apply (Hd DAppMode) | apply (Hd DSourceType) | apply (Hd DActiveTab) | apply (Hd DActiveLayers)
          | apply (Hd DGlitch) | apply (Hd DAscii) | apply (Hd DHalftone) | apply (Hd DBlend)
          | apply (Hd DText) | apply (Hd DBlendType) | apply (Hd DGlobal) | apply (Hd DFacing)]; simpl; tauto.
Qed.

Lemma camera_loop fresh : camera_effect_runs fresh = true -> loop_effect_runs fresh = true.
Proof.
  unfold camera_effect_runs, loop_effect_runs, renderCanvas_fresh.
  intros [H|H]%orb_true_iff; apply orb_true_iff; [left | right];
    apply existsb_exists; eexists; (split; [|exact H]); simpl; tauto.
Qed.

(** The ids of the queued static callbacks stay fresh and apart from the
    ref when the next id grows. *)
Lemma Forall_ids_S (sts : list (nat * AppState)) f n :
  Forall (fun e => fst e <> f /\ fst e < n) sts -> Forall (fun e => fst e <> f /\ fst e < S n) sts.
Proof. intros H. eapply Forall_impl; [exact H|]. simpl. lia. Qed.

Lemma Forall_ids_new (sts : list (nat * AppState)) n :
  Forall (fun e => fst e < n) sts -> Forall (fun e => fst e <> n /\ fst e < S n) sts.
Proof. intros H. eapply Forall_impl; [exact H|]. simpl. lia. Qed.

(** The static trigger of a commit appends its callback after the
    queue; the invariant survives when the state does not loop. *)
Lemma static_request_inv s sts v :
  queue s = map static_entry sts -> shouldLoop (app (ui s)) = false ->
  Forall (fun e => fst e <> frame_ref s /\ fst e < next_id s) sts -> frame_ref s < next_id s ->
  sched_inv (snd (request (StaticCb v) s)).
Proof.
  intros Hq Hl Hs Hf. exists (sts ++ [(next_id s, v)]). unfold loop_entry. simpl. rewrite Hl, Hq, map_app.
  split; [by rewrite app_nil_r|]. split; [|lia].
  apply Forall_app. split; [by apply Forall_ids_S|]. constructor; [simpl; lia | constructor].
Qed.

Lemma cleanups_loop s sts fresh :
  queue s = map static_entry sts ++ loop_entry s -> Forall (fun e => fst e <> frame_ref s) sts ->
  loop_effect_runs fresh = true -> cleanups fresh s = set_queue (map static_entry sts) s.
Proof.
  intros Hq Hs Hl. unfold cleanups. cbv zeta. rewrite Hl.
  destruct (camera_effect_runs fresh); rewrite (cancel_frame_ref s sts Hq Hs); [|reflexivity].
  unfold cancel. simpl. by rewrite filter_statics.
Qed.

Lemma cleanups_none s fresh : loop_effect_runs fresh = false -> cleanups fresh s = s.
Proof.
  intros Hl. unfold cleanups. rewrite Hl.
  destruct (camera_effect_runs fresh) eqn:C; [by rewrite (camera_loop _ C) in Hl | reflexivity].
Qed.

(** The bodies of a commit, from a queue of static callbacks: the loop
    callback when the new state loops, else perhaps one more static
    callback. *)
Lemma setups_inv fresh s sts :
  queue s = map static_entry sts ->
  Forall (fun e => fst e <> frame_ref s /\ fst e < next_id s) sts -> frame_ref s < next_id s ->
  (loop_effect_runs fresh = false -> shouldLoop (app (ui s)) = false \/ queue s = map static_entry sts ++ loop_entry s) ->
  sched_inv (setups fresh s).
Proof.
  intros Hq Hs Hf Hnl. unfold setups. cbv zeta. rewrite isLooping_shouldLoop.
  destruct (shouldLoop (app (ui s))) eqn:E.
  - rewrite andb_false_r. destruct (loop_effect_runs fresh); simpl.
    + exists sts. unfold loop_entry. simpl. rewrite E, Hq. split; [reflexivity|].
      split; [|lia]. apply Forall_ids_new. eapply Forall_impl; [exact Hs|]. simpl. lia.
    + destruct (Hnl eq_refl) as [Hc|Hq']; [congruence|]. exists sts. auto.
  - rewrite andb_false_r. simpl. rewrite andb_true_r.
    destruct (static_effect_runs fresh && is_image (appMode (app (ui s)))).
    + by apply (static_request_inv _ sts).
    + exists sts. unfold loop_entry. rewrite E, app_nil_r. auto.
Qed.

Lemma commit_inv s u' fresh : sched_inv s -> fresh_ok (ui s) u' fresh -> sched_inv (commit u' fresh s).
Proof.
  intros (sts & Hq & Hs & Hf) Hok. unfold commit.
  assert (Hs' : Forall (fun e => fst e <> frame_ref s) sts) by (eapply Forall_impl; [exact Hs|]; simpl; tauto).
  destruct (loop_effect_runs fresh) eqn:Hl.
  - rewrite (cleanups_loop s sts fresh Hq Hs' Hl). apply (setups_inv _ _ sts); simpl; auto. congruence.
  - rewrite (cleanups_none s fresh Hl).
    assert (Ha : app (ui s) = app u')
      by (apply (app_unchanged _ _ fresh Hok); unfold loop_effect_runs in Hl; by apply orb_false_iff in Hl as [_ ->]).
    unfold loop_entry in Hq. rewrite Ha in Hq.
    destruct (shouldLoop (app u')) eqn:E.
    + unfold setups. cbv zeta. simpl. rewrite Hl, isLooping_shouldLoop, E, !andb_false_r. simpl.
      exists sts. unfold loop_entry. simpl. rewrite E. auto.
    + rewrite app_nil_r in Hq. apply (setups_inv _ _ sts); simpl; auto.
Qed.

Lemma mount_inv : sched_inv mount.
Proof. exists []. vm_compute. auto. Qed.

Lemma reachable_inv s : reachable s -> sched_inv s.
Proof.
  induction 1 as [| s u' fresh _ IH Hok | s _ IH].
  - exact mount_inv.
  - exact (commit_inv s u' fresh IH Hok).
  - exact (frame_inv s IH).
Qed.

(** ** Theorems *)

Definition is_loop_cb (e : nat * Cb) : bool := match snd e with LoopCb _ _ => true | _ => false end.

Lemma filter_loop_statics sts : List.filter is_loop_cb (map static_entry sts) = [].
Proof. induction sts as [|e sts IH]; [reflexivity|]. exact IH. Qed.

(** C11: in every state the scheduler reaches, the animation-frame queue
    holds one loop callback when the committed state loops and none
    otherwise, and that callback has the id [animationFrameIdRef] holds
    (so the next cleanup cancels it) and draws the committed state: no
    two loops run at once and the loop never draws a stale state. *)
Theorem reachable_one_loop s :
  reachable s ->
  List.filter is_loop_cb (queue s) =
  if shouldLoop (app (ui s)) then [(frame_ref s, LoopCb true (app (ui s)))] else [].
Proof.
  intros Hr. destruct (reachable_inv s Hr) as (sts & Hq & _ & _).
  rewrite Hq, List.filter_app.
  rewrite filter_loop_statics.
  unfold loop_entry. by destruct (shouldLoop _).
Qed.

(** A looping scheduler with only its loop callback queued stays so
    frame after frame, drawing the committed state once per frame. *)
Lemma frames_looping s n :
  queue s = loop_entry s -> shouldLoop (app (ui s)) = true ->
  queue (Nat.iter n frame s) = loop_entry (Nat.iter n frame s) /\ ui (Nat.iter n frame s) = ui s /\
  renders (Nat.iter n frame s) = repeat (app (ui s)) n ++ renders s.
Proof.
  intros Hq0 Hl. induction n as [|n (Hq & Hu & Hr)]; [done|].
  simpl Nat.iter. rewrite (frame_eq _ [] Hq), Hu, Hl. unfold loop_entry. simpl. rewrite Hl, Hr. auto.
Qed.

(** C12: continuous re-invocation: from every reachable state whose
    committed state loops, and with no commit in between, the next frame
    ends with a draw of the committed state, and each of the [n] frames
    after it draws that state exactly once. *)
Theorem loop_draws_every_frame s n :
  reachable s -> shouldLoop (app (ui s)) = true ->
  hd_error (renders (frame s)) = Some (app (ui s)) /\
  renders (Nat.iter n frame (frame s)) = repeat (app (ui s)) n ++ renders (frame s).
Proof.
  intros Hr Hl. destruct (reachable_inv s Hr) as (sts & Hq & _ & _).
  pose proof (frame_eq s sts Hq) as E. rewrite Hl in E.
  split; [by rewrite E|].
  assert (Hu1 : ui (frame s) = ui s) by (by rewrite E).
  assert (Hq1 : queue (frame s) = loop_entry (frame s)) by (rewrite E; unfold loop_entry; simpl; by rewrite Hl).
  destruct (frames_looping (frame s) n Hq1 ltac:(by rewrite Hu1)) as (_ & _ & ->). by rewrite Hu1.
Qed.

(** on-demand re-invocation: from every reachable state whose
    committed state does not loop, one frame runs what is queued and
    leaves the queue empty, so later frames draw nothing until the next
    commit. *)
Theorem static_drawn_once s :
  reachable s -> shouldLoop (app (ui s)) = false ->
  queue (frame s) = [] /\ frame (frame s) = frame s.
Proof.
  intros Hr Hl. destruct (reachable_inv s Hr) as (sts & Hq & _ & _).
  rewrite (frame_eq s sts Hq), Hl. split; reflexivity.
Qed.

(** The queue after a commit whose loop effect re-runs: the static
    callbacks, then the new state's callback, if it has one. *)
Lemma commit_queue s sts u' fresh :
  queue s = map static_entry sts ++ loop_entry s -> Forall (fun e => fst e <> frame_ref s) sts ->
  renderCanvas_fresh fresh = true ->
  queue (commit u' fresh s) =
  map static_entry sts ++
  (if shouldLoop (app u') then [(next_id s, LoopCb true (app u'))]
   else if is_image (appMode (app u')) then [(next_id s, StaticCb (app u'))] else []).
Proof.
  intros Hq Hs Hrc.
  assert (Hl : loop_effect_runs fresh = true) by (unfold loop_effect_runs; by rewrite Hrc, orb_true_r).
  assert (Hst : static_effect_runs fresh = true) by (unfold static_effect_runs; by rewrite Hrc, orb_true_r).
  unfold commit. rewrite (cleanups_loop s sts fresh Hq Hs Hl). unfold setups. cbv zeta. simpl.
  rewrite Hl, Hst, isLooping_shouldLoop. destruct (shouldLoop (app u')); simpl; [by rewrite andb_false_r|].
  destruct (is_image _); simpl; by rewrite ?app_nil_r.
Qed.

(** every change is drawn at the next frame: when a commit gives
    [renderCanvas] a new dependency (every change of the state it reads
    does), in image mode or in a looping state, the last draw of the
    next frame reads the new state. *)
Theorem change_drawn_next_frame s u' fresh :
  reachable s -> fresh_ok (ui s) u' fresh -> renderCanvas_fresh fresh = true ->
  is_image (appMode (app u')) = true \/ shouldLoop (app u') = true ->
  hd_error (renders (frame (commit u' fresh s))) = Some (app u').
Proof.
  intros Hr Hok Hrc Hm. destruct (reachable_inv s Hr) as (sts & Hq & Hs & _).
  assert (Hs' : Forall (fun e => fst e <> frame_ref s) sts) by (eapply Forall_impl; [exact Hs|]; simpl; tauto).
  unfold frame. rewrite (commit_queue s sts u' fresh Hq Hs' Hrc), fold_left_app, run_statics.
  assert (Hu : ui (commit u' fresh s) = u')
    by (unfold commit, setups, loop, request; cbv zeta; repeat case_match; reflexivity).
  destruct (shouldLoop (app u')) eqn:E; [|destruct Hm as [-> | ?]; [|discriminate]]; reflexivity.
Qed.


(** [renderCanvas] and [requestAnimationFrame] leave the committed state
    as it is. *)
Lemma run_cbs_ui l s : ui (fold_left run_cb l s) = ui s.
Proof.
  revert s. induction l as [|[i c] l IH]; intros s; simpl; [done|].
  rewrite IH. destruct c as [[] v|v]; reflexivity.
Qed.

Lemma iter_frame_ui s n : ui (Nat.iter n frame s) = ui s.
Proof. induction n as [|n IH]; [done|]. simpl Nat.iter. unfold frame at 1. by rewrite run_cbs_ui. Qed.

(** A commit where nothing is new keeps the scheduler as it was. *)
Lemma commit_no_dep u s : ui s = u -> commit u no_dep s = s.
Proof. intros <-. by destruct s. Qed.

(** A frame with nothing queued does nothing. *)
Lemma frame_empty s : queue s = [] -> frame s = s.
Proof. intros Hq. unfold frame. rewrite Hq. destruct s; simpl in *; by subst. Qed.

(** With static callbacks only, frames leave static callbacks only (none
    after the first frame). *)
Lemma frames_statics s sts n :
  queue s = map static_entry sts -> exists sts', queue (Nat.iter n frame s) = map static_entry sts'.
Proof.
  intros Hq. destruct n as [|n]; [eauto|]. exists [].
  induction n as [|n IH]; simpl Nat.iter in *.
  - unfold frame. rewrite Hq, run_statics. reflexivity.
  - rewrite frame_empty; exact IH.
Qed.

(** C13: the AI request stops the animation loop for good: from every
    reachable state in the AI tab, [handleAIGenerate] cancels the loop
    callback and nothing restarts it, whether the request succeeds or
    fails and however many frames pass during it.  The committed state
    is unchanged, so it still loops when it did (camera, video source,
    blend video, vibration), yet one frame later the queue is empty and
    no frame ever draws again until a commit changes a loop dependency. *)
Theorem ai_generate_stops_loop s ok n :
  reachable s -> activeTab (app (ui s)) = AI ->
  let s' := handleAIGenerate_done ok (Nat.iter n frame (handleAIGenerate true true s)) in
  ui s' = ui s /\ queue (frame s') = [] /\ forall m, Nat.iter m frame (frame s') = frame s'.
Proof.
  intros Hr Ht. cbv zeta. destruct (reachable_inv s Hr) as (sts & Hq & Hs & _).
  assert (Hs' : Forall (fun e => fst e <> frame_ref s) sts) by (eapply Forall_impl; [exact Hs|]; simpl; tauto).
  set (x := Nat.iter n frame (handleAIGenerate true true s)).
  assert (Hx : ui x = ui s /\ exists sts', queue x = map static_entry sts').
  { subst x. unfold handleAIGenerate. rewrite Ht. simpl andb. cbv iota.
    rewrite (cancel_frame_ref s sts Hq Hs'), commit_no_dep by reflexivity.
    split; [by rewrite iter_frame_ui | exact (frames_statics (set_queue (map static_entry sts) s) sts n eq_refl)]. }
  destruct Hx as [Hux [sts' Hqx]].
  set (s' := handleAIGenerate_done ok x).
  assert (Hs2 : ui s' = ui s /\ queue s' = map static_entry sts').
  { subst s'. unfold handleAIGenerate_done. cbv zeta. case_match; rewrite commit_no_dep by reflexivity; simpl; auto. }
  destruct Hs2 as [Hu2 Hq2].
  assert (Hf : queue (frame s') = []) by (unfold frame; rewrite Hq2, run_statics; reflexivity).
  split_and!; [exact Hu2 | exact Hf |].
  intros m. induction m as [|m IH]; [reflexivity|]. simpl Nat.iter. rewrite IH. by apply frame_empty.
Qed.

End RenderLoop.

(** ** Witnesses *)

Module LoopWitness.
Import RenderLoop.

(** The only new dependency is [d]. *)
Definition only (d : Dep) : Dep -> bool :=
  fun d' => match d, d' with
            | DAppMode, DAppMode | DText, DText | DActiveTab, DActiveTab => true
            | _, _ => false
            end.

Ltac fresh_ok_tac := intros []; split; simpl; intros; first [reflexivity | discriminate | congruence].

Definition with_mode (m : AppMode) : UiState :=
  mk_ui (mk_app_state m KImage MANUAL DEFAULT_ACTIVE_LAYERS DEFAULT_GLITCH DEFAULT_ASCII DEFAULT_HALFTONE
           DEFAULT_BLEND DEFAULT_TEXT None DEFAULT_GLOBAL FUser) None.

(** The camera opened after the mount. *)
Definition camera_sched : Sched := commit (with_mode CAMERA) (only DAppMode) mount.

Lemma camera_reachable : reachable camera_sched.
Proof. apply reach_commit; [exact reach_mount | fresh_ok_tac]. Qed.

(** An image opened after the mount. *)
Definition image_sched : Sched := commit (with_mode IMAGE) (only DAppMode) mount.

Lemma image_reachable : reachable image_sched.
Proof. apply reach_commit; [exact reach_mount | fresh_ok_tac]. Qed.

(** The image state with another text. *)
Definition edited : UiState :=
  mk_ui (mk_app_state IMAGE KImage MANUAL DEFAULT_ACTIVE_LAYERS DEFAULT_GLITCH DEFAULT_ASCII DEFAULT_HALFTONE
           DEFAULT_BLEND (TextStage.mk_text_params "GLITCH" "Arial" (zf 40) (zf 50) (zf 50) "#ffffff" false)
           None DEFAULT_GLOBAL FUser) None.

Lemma reachable_one_loop_witness :
  reachable camera_sched /\
  List.filter is_loop_cb (queue camera_sched) = [(frame_ref camera_sched, LoopCb true (app (ui camera_sched)))].
Proof. split; [exact camera_reachable|]. rewrite (reachable_one_loop camera_sched camera_reachable). reflexivity. Defined.

Lemma loop_draws_every_frame_witness :
  shouldLoop (app (ui camera_sched)) = true /\
  hd_error (renders (frame camera_sched)) = Some (app (ui camera_sched)) /\
  renders (Nat.iter 3 frame (frame camera_sched)) = repeat (app (ui camera_sched)) 3 ++ renders (frame camera_sched).
Proof.
  assert (H : shouldLoop (app (ui camera_sched)) = true) by reflexivity.
  split; [exact H | exact (loop_draws_every_frame camera_sched 3 camera_reachable H)].
Defined.

Lemma static_drawn_once_witness :
  shouldLoop (app (ui image_sched)) = false /\
  queue (frame image_sched) = [] /\ frame (frame image_sched) = frame image_sched.
Proof.
  assert (H : shouldLoop (app (ui image_sched)) = false) by reflexivity.
  split; [exact H | exact (static_drawn_once image_sched image_reachable H)].
Defined.

Lemma change_drawn_next_frame_witness :
  fresh_ok (ui image_sched) edited (only DText) /\
  hd_error (renders (frame (commit edited (only DText) image_sched))) = Some (app edited).
Proof.
  assert (H : fresh_ok (ui image_sched) edited (only DText)) by fresh_ok_tac.
  split; [exact H|]. apply (change_drawn_next_frame _ _ _ image_reachable H); [reflexivity | left; reflexivity].
Defined.


(** The camera, switched to the AI tab. *)
Definition camera_ai : UiState :=
  mk_ui (mk_app_state CAMERA KImage AI DEFAULT_ACTIVE_LAYERS DEFAULT_GLITCH DEFAULT_ASCII DEFAULT_HALFTONE
           DEFAULT_BLEND DEFAULT_TEXT None DEFAULT_GLOBAL FUser) None.

Definition ai_sched : Sched := commit camera_ai (only DActiveTab) camera_sched.

Lemma ai_reachable : reachable ai_sched.
Proof. apply reach_commit; [exact camera_reachable | fresh_ok_tac]. Qed.

Lemma ai_generate_stops_loop_witness :
  shouldLoop (app (ui ai_sched)) = true /\
  let s' := handleAIGenerate_done false (Nat.iter 2 frame (handleAIGenerate true true ai_sched)) in
  ui s' = ui ai_sched /\ queue (frame s') = [] /\ forall m, Nat.iter m frame (frame s') = frame s'.
Proof.
  split; [reflexivity|]. exact (ai_generate_stops_loop ai_sched false 2 ai_reachable eq_refl).
Defined.

End LoopWitness.
