(* ===== verification/Params.v ===== *)
(** * The parameter store: what the control surface writes

    src/components/Timeline.tsx, lines 80-104 and 146-459 (the [Slider]
    component and the [Controls] panel, concatenated after [Timeline] in
    that file), with the other writers of the parameter records in
    src/App.tsx: the layer toggle (line 1023) and the glitch reset of
    [handlePrintLayer] (lines 33-36, 604).  A range input delivers
    [Number(e.target.value)], a value the browser has clamped into the
    input's [min, max]; a button writes its own constant; a text or
    colour input writes any string.  Each control is an event
    ([Event]) with the condition under which the panel shows it and
    the value it may deliver ([event_ok]); [apply_event] is the
    [update*] function it calls.  [reachable] closes the initial state
    of the component under these events and under the navigation that
    writes no parameter.  [handleRandomize] (lines 522-566) is not an
    event of this surface: it is modelled in Randomize.v, which shows
    that it leaves the specification's range (saturation up to 3.5).

    The theorem: every parameter set the control surface reaches lies in
    the ranges of the specification (sections 4.1-4.6), with one
    exception: the Color Matrix slider reaches 360, which the
    specification's [0, 360) excludes. *)

From Stdlib Require Import String.
From stdpp Require Import strings.
From S2P Require Import Prelude Blend Pipeline Draw Render.
Import Orchestrator.

Open Scope Z_scope.
#[local] Set Warnings "-inexact-float".

Module ParamStore.

(** ** The controls *)

(** What a range input delivers (lines 94-100). *)
Definition in_slider (lo hi v : float) : bool := jsle lo v && jsle v hi.
Definition in_sliderZ (lo hi v : Z) : bool := (lo <=? v) && (v <=? hi).

(** The Global Signal sliders (lines 184-195). *)
Inductive GlobalKey := KBrightness | KThreshold | KBlur | KScaleX | KScaleY | KColormatrix | KSaturation | KVibration.

Definition global_slider (k : GlobalKey) : float * float :=
  match k with
  | KBrightness => (zf 0, zf 2)
  | KThreshold => (zf 0, zf 255)
  | KBlur => (zf 0, zf 20)
  | KScaleX | KScaleY => (0.5%float, 3.0%float)
  | KColormatrix => (zf 0, zf 360)
  | KSaturation => (zf 0, zf 3)
  | KVibration => (zf 0, zf 100)
  end.

(** [updateGlobal] (lines 162-164): [{ ...globalParams, [key]: value }]. *)
Definition updateGlobal (g : GlobalParams) (k : GlobalKey) (v : float) : GlobalParams :=
  let '(mk_global_params br bl cm vib sat sx sy th) := g in
  match k with
  | KBrightness => mk_global_params v bl cm vib sat sx sy th
  | KThreshold => mk_global_params br bl cm vib sat sx sy v
  | KBlur => mk_global_params br v cm vib sat sx sy th
  | KScaleX => mk_global_params br bl cm vib sat v sy th
  | KScaleY => mk_global_params br bl cm vib sat sx v th
  | KColormatrix => mk_global_params br bl v vib sat sx sy th
  | KSaturation => mk_global_params br bl cm vib v sx sy th
  | KVibration => mk_global_params br bl cm v sat sx sy th
  end.

(** The Text section (lines 199-254): the content and colour inputs,
    the three font buttons, three sliders and the bold checkbox. *)
Inductive TextKey := TSize | TPosX | TPosY.
Inductive TextUpdate :=
  | TContent (s : string) | TFont (f : string) | TNum (k : TextKey) (v : float)
  | TColor (c : string) | TBold (b : bool).

Definition text_slider (k : TextKey) : float * float :=
  match k with TSize => (zf 5, zf 100) | TPosX | TPosY => (zf 0, zf 100) end.

Definition fonts : list string := ["Helvetica"; "Arial"; "Comic Sans MS"].

(** [updateText] (lines 166-168). *)
Definition updateText (p : TextStage.TextParams) (u : TextUpdate) : TextStage.TextParams :=
  let '(TextStage.mk_text_params c f sz px py col b) := p in
  match u with
  | TContent s => TextStage.mk_text_params s f sz px py col b
  | TFont f' => TextStage.mk_text_params c f' sz px py col b
  | TNum TSize v => TextStage.mk_text_params c f v px py col b
  | TNum TPosX v => TextStage.mk_text_params c f sz v py col b
  | TNum TPosY v => TextStage.mk_text_params c f sz px v col b
  | TColor col' => TextStage.mk_text_params c f sz px py col' b
  | TBold b' => TextStage.mk_text_params c f sz px py col b'
  end.

(** The Blend section (lines 258-336): four mode buttons, the mix
    slider, and the slider of the current mode. *)
Inductive BlendKey := BMix | BScale | BThreshold.
Inductive BlendUpdate := BModeSet (m : BlendMode) | BNum (k : BlendKey) (v : Z).

(** The slider of [k] in mode [m], if the panel shows one. *)
Definition blend_slider (m : BlendMode) (k : BlendKey) : option (Z * Z) :=
  match k, m with
  | BMix, _ => Some (0, 100)
  | BScale, Displacement => Some (0, 100)
  | BScale, Interlace => Some (2, 100)
  | BThreshold, HardMix => Some (0, 255)
  | _, _ => None
  end.

(** [updateBlend] (lines 158-160). *)
Definition updateBlend (p : BlendParams) (u : BlendUpdate) : BlendParams :=
  let '(mk_blend_params md mx th sc) := p in
  match u with
  | BModeSet m => mk_blend_params m mx th sc
  | BNum BMix v => mk_blend_params md v th sc
  | BNum BScale v => mk_blend_params md mx th v
  | BNum BThreshold v => mk_blend_params md mx v sc
  end.

(** The ASCII section (lines 339-393). *)
Inductive AsciiKey := AScale | AContrast.
Inductive AsciiUpdate :=
  | ANum (k : AsciiKey) (v : float) | AColorMode (b : bool) | AInverted (b : bool)
  | ABackground (c : string) | ATextColor (c : string) | AChars (s : string).

Definition ascii_slider (k : AsciiKey) : float * float :=
  match k with AScale => (zf 4, zf 24) | AContrast => (0.5%float, zf 3) end.

Definition char_sets : list string := ["simple"; "complex"; "blocks"].

(** [updateAscii] (lines 150-152). *)
Definition updateAscii (p : AsciiStage.AsciiParams) (u : AsciiUpdate) : AsciiStage.AsciiParams :=
  let '(AsciiStage.mk_ascii_params sc ct cm inv ch bg tc) := p in
  match u with
  | ANum AScale v => AsciiStage.mk_ascii_params v ct cm inv ch bg tc
  | ANum AContrast v => AsciiStage.mk_ascii_params sc v cm inv ch bg tc
  | AColorMode b => AsciiStage.mk_ascii_params sc ct b inv ch bg tc
  | AInverted b => AsciiStage.mk_ascii_params sc ct cm b ch bg tc
  | ABackground c => AsciiStage.mk_ascii_params sc ct cm inv ch c tc
  | ATextColor c => AsciiStage.mk_ascii_params sc ct cm inv ch bg c
  | AChars s => AsciiStage.mk_ascii_params sc ct cm inv s bg tc
  end.

(** The Halftone section (lines 396-444). *)
Inductive HalftoneKey := HRadius | HAngle | HContrast.
Inductive HalftoneUpdate :=
  | HNum (k : HalftoneKey) (v : float) | HShape (s : string) | HColorMode (b : bool)
  | HBackground (c : string) | HColor (c : string).

Definition halftone_slider (k : HalftoneKey) : float * float :=
  match k with HRadius => (zf 2, zf 30) | HAngle => (zf 0, zf 90) | HContrast => (0.5%float, 3.0%float) end.

Definition shapes : list string := ["circle"; "diamond"; "line"].

(** [updateHalftone] (lines 154-156). *)
Definition updateHalftone (p : HalftoneStage.HalftoneParams) (u : HalftoneUpdate) : HalftoneStage.HalftoneParams :=
  let '(HalftoneStage.mk_halftone_params r a ct sh cm bg col) := p in
  match u with
  | HNum HRadius v => HalftoneStage.mk_halftone_params v a ct sh cm bg col
  | HNum HAngle v => HalftoneStage.mk_halftone_params r v ct sh cm bg col
  | HNum HContrast v => HalftoneStage.mk_halftone_params r a v sh cm bg col
  | HShape s => HalftoneStage.mk_halftone_params r a ct s cm bg col
  | HColorMode b => HalftoneStage.mk_halftone_params r a ct sh b bg col
  | HBackground c => HalftoneStage.mk_halftone_params r a ct sh cm c col
  | HColor c => HalftoneStage.mk_halftone_params r a ct sh cm bg c
  end.

(** The Manual Glitch sliders (lines 447-459). *)
Inductive GlitchKey := GBlockShift | GPixelSort | GRgbShift | GScanlines.

Definition glitch_slider (k : GlitchKey) : Z * Z :=
  match k with GBlockShift => (0, 100) | GPixelSort => (0, 50) | GRgbShift => (0, 50) | GScanlines => (0, 10) end.

(** [updateGlitch] (lines 146-148). *)
Definition updateGlitch (p : GlitchParams) (k : GlitchKey) (v : Z) : GlitchParams :=
  let '(mk_glitch_params am sd it q rgb blk scn ps) := p in
  match k with
  | GBlockShift => mk_glitch_params am sd it q rgb v scn ps
  | GPixelSort => mk_glitch_params am sd it q rgb blk scn v
  | GRgbShift => mk_glitch_params am sd it q v blk scn ps
  | GScanlines => mk_glitch_params am sd it q rgb blk v ps
  end.

(** [NEUTRAL_GLITCH] (App.tsx, lines 33-36). *)
Definition NEUTRAL_GLITCH : GlitchParams := mk_glitch_params 0 (zf 0) 1 100 0 0 0 0.

(** The layer toggle (App.tsx, line 1023): [{...prev, [tab]: !prev[tab]}]. *)
Definition toggle_layer (L : ActiveLayers) (t : Tab) : ActiveLayers :=
  let '(mk_layers m tx b a h) := L in
  match t with
  | MANUAL => mk_layers (negb m) tx b a h
  | TEXT => mk_layers m (negb tx) b a h
  | BLEND => mk_layers m tx (negb b) a h
  | ASCII => mk_layers m tx b (negb a) h
  | HALFTONE => mk_layers m tx b a (negb h)
  | AI => L
  end.

(** ** Events *)

Inductive Event :=
  | EGlobal (k : GlobalKey) (v : float)
  | EText (u : TextUpdate)
  | EBlend (u : BlendUpdate)
  | EAscii (u : AsciiUpdate)
  | EHalftone (u : HalftoneUpdate)
  | EGlitch (k : GlitchKey) (v : Z)
  | EToggle (t : Tab)
  | EPrintLayer
  (** Navigation (mode, tab, uploads, camera switch) writes no parameter. *)
  | ENav (m : AppMode) (t : Tab) (st : MediaKind) (bt : option MediaKind) (f : Facing).

Definition tab_is (t t' : Tab) : bool :=
  match t, t' with
  | MANUAL, MANUAL | TEXT, TEXT | BLEND, BLEND | ASCII, ASCII | HALFTONE, HALFTONE | AI, AI => true
  | _, _ => false
  end.

Definition str_in (s : string) (l : list string) : bool := existsb (fun s' => bool_decide (s = s')) l.

(** The panel shows the control and the control may deliver the value. *)
Definition event_ok (st : AppState) (e : Event) : bool :=
  match e with
  | EGlobal k v => let '(lo, hi) := global_slider k in in_slider lo hi v
  | EText u =>
      tab_is (activeTab st) TEXT &&
      match u with
      | TFont f => str_in f fonts
      | TNum k v => let '(lo, hi) := text_slider k in in_slider lo hi v
      | _ => true
      end
  | EBlend u =>
      tab_is (activeTab st) BLEND &&
      match u with
      | BModeSet _ => true
      | BNum k v =>
          match blend_slider (mode (blendParams st)) k with
          | Some (lo, hi) => in_sliderZ lo hi v
          | None => false
          end
      end
  | EAscii u =>
      tab_is (activeTab st) ASCII &&
      match u with
      | ANum k v => let '(lo, hi) := ascii_slider k in in_slider lo hi v
      | AChars s => str_in s char_sets
      | _ => true
      end
  | EHalftone u =>
      tab_is (activeTab st) HALFTONE &&
      match u with
      | HNum k v => let '(lo, hi) := halftone_slider k in in_slider lo hi v
      | HShape s => str_in s shapes
      | _ => true
      end
  | EGlitch k v => tab_is (activeTab st) MANUAL && (let '(lo, hi) := glitch_slider k in in_sliderZ lo hi v)
  | EToggle t => negb (tab_is t AI)
  | EPrintLayer | ENav _ _ _ _ _ => true
  end.

Definition apply_event (st : AppState) (e : Event) : AppState :=
  let '(mk_app_state md stype tab L gl asc ht bl tx bt g f) := st in
  match e with
  | EGlobal k v => mk_app_state md stype tab L gl asc ht bl tx bt (updateGlobal g k v) f
  | EText u => mk_app_state md stype tab L gl asc ht bl (updateText tx u) bt g f
  | EBlend u => mk_app_state md stype tab L gl asc ht (updateBlend bl u) tx bt g f
  | EAscii u => mk_app_state md stype tab L gl (updateAscii asc u) ht bl tx bt g f
  | EHalftone u => mk_app_state md stype tab L gl asc (updateHalftone ht u) bl tx bt g f
  | EGlitch k v => mk_app_state md stype tab L (updateGlitch gl k v) asc ht bl tx bt g f
  | EToggle t => mk_app_state md stype tab (toggle_layer L t) gl asc ht bl tx bt g f
  | EPrintLayer => mk_app_state md stype tab L (if tab_is tab MANUAL then NEUTRAL_GLITCH else gl) asc ht bl tx bt g f
  | ENav m t s b fc => mk_app_state m s t L gl asc ht bl tx b g fc
  end.

Inductive reachable : AppState -> Prop :=
  | reach_init : reachable initial_state
  | reach_event st e : reachable st -> event_ok st e = true -> reachable (apply_event st e).

(** ** The ranges of the specification *)

Definition in_range (lo hi v : float) : bool := jsle lo v && jsle v hi.

(** Section 4.1 ([colormatrix] in [[0, 360)], [blur] and [vibration]
    non-negative). *)
Definition global_in_spec (g : GlobalParams) : bool :=
  in_range (zf 0) (zf 2) (brightness g) && jsle (zf 0) (blur g) &&
  jsle (zf 0) (colormatrix g) && jslt (colormatrix g) (zf 360) &&
  in_range (zf 0) (zf 3) (saturation g) && jsle (zf 0) (vibration g) &&
  in_range 0.5%float 3.0%float (scaleX g) && in_range 0.5%float 3.0%float (scaleY g) && in_range (zf 0) (zf 255) (threshold g).

(** Sections 4.2-4.6. *)
Definition blend_in_spec (p : BlendParams) : bool :=
  in_sliderZ 0 100 (mix p) && in_sliderZ 0 255 (Blend.threshold p) && (0 <=? Blend.scale p).

Definition text_in_spec (p : TextStage.TextParams) : bool :=
  str_in (TextStage.font p) fonts && in_range (zf 5) (zf 100) (TextStage.size p) &&
  in_range (zf 0) (zf 100) (TextStage.x p) && in_range (zf 0) (zf 100) (TextStage.y p).

Definition glitch_in_spec (p : GlitchParams) : bool :=
  in_sliderZ 0 50 (pixelSort p) && in_sliderZ 0 100 (blockShift p) &&
  in_sliderZ 0 50 (rgbShift p) && in_sliderZ 0 10 (scanlines p).

Definition halftone_in_spec (p : HalftoneStage.HalftoneParams) : bool :=
  in_range (zf 2) (zf 30) (HalftoneStage.radius p) && in_range (zf 0) (zf 90) (HalftoneStage.angle p) &&
  in_range 0.5%float 3.0%float (HalftoneStage.contrast p) && str_in (HalftoneStage.shape p) shapes.

Definition ascii_in_spec (p : AsciiStage.AsciiParams) : bool :=
  in_range (zf 4) (zf 24) (AsciiStage.scale p) && in_range 0.5%float 3.0%float (AsciiStage.contrast p) &&
  str_in (AsciiStage.chars p) char_sets.

Definition params_in_spec (st : AppState) : bool :=
  global_in_spec (globalParams st) && blend_in_spec (blendParams st) && text_in_spec (textParams st) &&
  glitch_in_spec (glitchParams st) && halftone_in_spec (halftoneParams st) && ascii_in_spec (asciiParams st).

(** ** The invariant: the specification's ranges, the hue up to 360 *)

Definition global_ok (g : GlobalParams) : bool :=
  in_range (zf 0) (zf 2) (brightness g) && jsle (zf 0) (blur g) &&
  jsle (zf 0) (colormatrix g) && jsle (colormatrix g) (zf 360) &&
  in_range (zf 0) (zf 3) (saturation g) && jsle (zf 0) (vibration g) &&
  in_range 0.5%float 3.0%float (scaleX g) && in_range 0.5%float 3.0%float (scaleY g) &&
  in_range (zf 0) (zf 255) (threshold g).

Definition params_ok (st : AppState) : bool :=
  global_ok (globalParams st) && blend_in_spec (blendParams st) && text_in_spec (textParams st) &&
  glitch_in_spec (glitchParams st) && halftone_in_spec (halftoneParams st) && ascii_in_spec (asciiParams st).

(** Splits boolean conjunctions in the goal and the hypotheses. *)
Ltac band :=
  repeat match goal with
         | H : _ && _ = true |- _ => apply andb_true_iff in H as [? ?]
         | |- _ && _ = true => apply andb_true_iff; split
         end; try assumption.

Lemma global_ok_update g k v :
  global_ok g = true -> in_slider (fst (global_slider k)) (snd (global_slider k)) v = true ->
  global_ok (updateGlobal g k v) = true.
Proof. destruct g, k; unfold global_ok, in_range, in_slider; simpl; intros; band. Qed.

Lemma text_ok_update p u :
  text_in_spec p = true ->
  match u with
  | TFont f => str_in f fonts
  | TNum k v => in_slider (fst (text_slider k)) (snd (text_slider k)) v
  | _ => true
  end = true ->
  text_in_spec (updateText p u) = true.
Proof. destruct p, u as [| |[]| |]; unfold text_in_spec, in_range, in_slider; simpl; intros; band. Qed.

Lemma blend_ok_update p u :
  blend_in_spec p = true ->
  match u with
  | BModeSet _ => true
  | BNum k v => match blend_slider (mode p) k with Some (lo, hi) => in_sliderZ lo hi v | None => false end
  end = true ->
  blend_in_spec (updateBlend p u) = true.
Proof.
  destruct p as [md mx th sc], u as [m|[] v]; unfold blend_in_spec, in_sliderZ; simpl; intros H1 H2; [exact H1|..];
    destruct md; try discriminate; band; rewrite ?Z.leb_le in *; rewrite ?Z.leb_le; lia.
Qed.

Lemma glitch_ok_update p k v :
  glitch_in_spec p = true -> in_sliderZ (fst (glitch_slider k)) (snd (glitch_slider k)) v = true ->
  glitch_in_spec (updateGlitch p k v) = true.
Proof. destruct p, k; unfold glitch_in_spec; simpl; intros; band. Qed.

Lemma halftone_ok_update p u :
  halftone_in_spec p = true ->
  match u with
  | HNum k v => in_slider (fst (halftone_slider k)) (snd (halftone_slider k)) v
  | HShape s => str_in s shapes
  | _ => true
  end = true ->
  halftone_in_spec (updateHalftone p u) = true.
Proof. destruct p, u as [[]| | | |]; unfold halftone_in_spec, in_range, in_slider; simpl; intros; band. Qed.

Lemma ascii_ok_update p u :
  ascii_in_spec p = true ->
  match u with
  | ANum k v => in_slider (fst (ascii_slider k)) (snd (ascii_slider k)) v
  | AChars s => str_in s char_sets
  | _ => true
  end = true ->
  ascii_in_spec (updateAscii p u) = true.
Proof. destruct p, u as [[]| | | | |]; unfold ascii_in_spec, in_range, in_slider; simpl; intros; band. Qed.

Lemma params_ok_event st e : params_ok st = true -> event_ok st e = true -> params_ok (apply_event st e) = true.
Proof.
  destruct st as [md stype tab L gl asc ht bl tx bt g f]. unfold params_ok. simpl. intros H He.
  destruct e; simpl in *; band;
    first [ apply global_ok_update; [assumption | by destruct (global_slider k)]
          | apply text_ok_update; [assumption | destruct u as [| |[]| |]; simpl in *; auto]
          | by apply blend_ok_update
          | apply ascii_ok_update; [assumption | destruct u as [[]| | | | |]; simpl in *; auto]
          | apply halftone_ok_update; [assumption | destruct u as [[]| | | |]; simpl in *; auto]
          | apply glitch_ok_update; [assumption | by destruct (glitch_slider k)]
          | destruct (tab_is tab MANUAL); [reflexivity | assumption] ].
Qed.

Lemma reachable_params_ok st : reachable st -> params_ok st = true.
Proof.
  induction 1 as [| st e _ IH He].
  - vm_compute. reflexivity.
  - exact (params_ok_event st e IH He).
Qed.

(** A double that is not NaN and not below 360 is at least 360. *)
Lemma not_lt_360 (h : float) : jsle (zf 0) h = true -> jslt h (zf 360) = false -> jsle (zf 360) h = true.
Proof.
  unfold jsle, jslt. destruct (zf_exact 360) as (t & -> & _); [lia|].
  destruct (xv h) as [q| [] |]; simpl; try discriminate; auto.
  intros _ H. apply negb_false_iff in H. exact H.
Qed.

(** ** Theorem *)

(** Every parameter set the control surface can reach from the initial
    state by its sliders, buttons, text and colour inputs, layer toggles,
    the print-layer reset and navigation (every control but the Random
    button, which Randomize.v adds) lies in the ranges the specification
    gives (global signal, blend, text, glitch, halftone, ASCII), except
    that the hue rotation can be exactly 360: the Color Matrix slider's
    maximum, outside the specification's [0, 360). *)
Theorem reachable_params_in_spec st :
  reachable st ->
  params_in_spec st = true \/
  (jsle (zf 360) (colormatrix (globalParams st)) && jsle (colormatrix (globalParams st)) (zf 360)) = true.
Proof.
  intros Hr. pose proof (reachable_params_ok st Hr) as H.
  unfold params_ok, params_in_spec, global_ok, global_in_spec in *. band.
  destruct (jslt (colormatrix (globalParams st)) (zf 360)) eqn:E.
  - left. band. all: reflexivity.
  - right. rewrite not_lt_360 by assumption. assumption.
Qed.

End ParamStore.

(** ** Witness *)

Module ParamWitness.
Import ParamStore.

(** One move of the Color Matrix slider to its maximum. *)
Definition hue360 : AppState := apply_event initial_state (EGlobal KColormatrix (zf 360)).

Lemma hue360_reachable : reachable hue360.
Proof. apply reach_event; [exact reach_init | vm_compute; reflexivity]. Qed.

Lemma reachable_params_in_spec_witness :
  params_in_spec hue360 = false /\
  (params_in_spec hue360 = true \/
   (jsle (zf 360) (colormatrix (globalParams hue360)) && jsle (colormatrix (globalParams hue360)) (zf 360)) = true).
Proof. split; [vm_compute; reflexivity | exact (reachable_params_in_spec hue360 hue360_reachable)]. Defined.

End ParamWitness.
