(* ===== verification/Auth.v ===== *)
(** * The sign-in screen and the App's session

    src/components/Profile.tsx, component [Auth] (lines 307-390): its form
    state ([isLogin], [username], [error]), [handleSubmit] (lines 312-332)
    and the mode toggle (line 375), composed with the storage service of
    Storage.v ([loginUser], [registerUser], [logoutUser], [createPost]).
    The App side is src/App.tsx: [currentUser], initialised from
    [getCurrentUser()] (line 83), the [onSuccess] of the sign-in screen
    (lines 777-780), [onCancel] (line 781), the landing page's Login and
    user buttons (lines 810-822), the profile's [onLogout], [onBack],
    [onCreate] (lines 793-800) and [handlePostToProfile] (lines 623-707,
    the [createPost] path).  A session is the App's [appMode],
    [currentUser] and the sign-in form; a step is one of these user
    actions, run against [localStorage] in the monad [M] of Storage.v.

    The theorems: the form always ends with a user and no error, or with
    no user and a message; registering then signing in again under any
    case of the name restores the same user; a registration whose session
    write is refused by the quota has still stored the user; and in every
    reachable session the App's [currentUser] is the user a reload would
    restore from [localStorage]. *)

From Stdlib Require Import Ascii String.
From stdpp Require Import strings gmap.
From S2P Require Import Prelude Storage Render.

Module AuthScreen.

(** ** The form *)

(** [useState] of [isLogin], [username] and [error] (lines 308-310); the
    field [username] is [uname] here, [username] being the projection of
    [User]. *)
Record AuthForm := mk_form { isLogin : bool; uname : string; error : string }.

Definition initial_form : AuthForm := mk_form true "" "".

Definition setError (e : string) (f : AuthForm) : AuthForm := mk_form (isLogin f) (uname f) e.

(** [onChange] of the input (line 352). *)
Definition setUsername (v : string) (f : AuthForm) : AuthForm := mk_form (isLogin f) v (error f).

(** The toggle (line 375): [setIsLogin(!isLogin); setError('')]. *)
Definition toggle (f : AuthForm) : AuthForm := mk_form (negb (isLogin f)) (uname f) "".

(** [String.prototype.trim] on one-byte characters: tab to carriage
    return, space and the no-break space are white space. *)
Definition is_ws (c : ascii) : bool :=
  let n := nat_of_ascii c in (((9 <=? n) && (n <=? 13)) || (n =? 32) || (n =? 160))%nat.

Fixpoint trimStart (s : string) : string :=
  match s with
  | EmptyString => EmptyString
  | String c s' => if is_ws c then trimStart s' else s
  end.

Definition trim (s : string) : string := String.rev (trimStart (String.rev (trimStart s))).

Section Screen.

Variable fits : store -> bool.

(** [handleSubmit] (lines 312-332): a blank name is refused before the
    service is called; otherwise the untrimmed name goes to [loginUser]
    or [registerUser], and a thrown error's message, or [ACCESS_DENIED]
    when it is empty, is shown. *)
Definition handleSubmit (now : string) (f : AuthForm) : M (AuthForm * option User) :=
  let f := setError "" f in
  if bool_decide (trim (uname f) = EmptyString) then mret (setError "IDENTITY_REQUIRED" f, None)
  else catch (u ← (if isLogin f then loginUser fits (uname f) else registerUser fits (uname f) now) ;
              mret (f, Some u))
             (fun msg => mret (setError (if bool_decide (msg = EmptyString) then "ACCESS_DENIED" else msg) f,
                               None)).

(** ** The App's session *)

Record Session := mk_session {
  appMode : Orchestrator.AppMode;
  currentUser : option User;
  authForm : AuthForm
}.

(** The user actions that reach the sign-in screen, the profile and the
    store. *)
Inductive Action :=
  | AOpenAuth                 (* landing page, Login (line 819) *)
  | AOpenProfile              (* landing page, user button (line 812) *)
  | AType (v : string)        (* the name input (line 352) *)
  | AToggle                   (* line 375 *)
  | ASubmit (now : string)    (* the form (line 344) *)
  | ACancel                   (* Cancel (line 381) *)
  | ALogout                   (* profile, onLogout (lines 793-797) *)
  | ABack                     (* profile, onBack and onCreate (lines 798-799) *)
  | APost (t : PostType) (media caption : string) (now : Z) (pid : string).  (* handlePostToProfile *)

Definition set_mode (m : Orchestrator.AppMode) (ss : Session) : Session :=
  mk_session m (currentUser ss) (authForm ss).

Definition set_form (f : AuthForm) (ss : Session) : Session :=
  mk_session (appMode ss) (currentUser ss) f.

Definition is_mode (m : Orchestrator.AppMode) (ss : Session) : bool :=
  match appMode ss, m with
  | Orchestrator.LANDING, Orchestrator.LANDING | Orchestrator.IMAGE, Orchestrator.IMAGE
  | Orchestrator.CAMERA, Orchestrator.CAMERA | Orchestrator.AUTH, Orchestrator.AUTH
  | Orchestrator.PROFILE, Orchestrator.PROFILE => true
  | _, _ => false
  end.

(** [<Auth>] mounts with a fresh form each time the App enters [AUTH]. *)
Definition enter_auth (ss : Session) : Session :=
  mk_session Orchestrator.AUTH (currentUser ss) initial_form.

(** [onSuccess] (lines 777-780). *)
Definition onSuccess (u : User) (ss : Session) : Session :=
  mk_session Orchestrator.PROFILE (Some u) (authForm ss).

(** [handlePostToProfile] (lines 623-707) with its [createPost] calls:
    no user opens the sign-in screen; an image whose media (the AI image
    or [toDataURL('image/png')]) is empty does nothing; an empty caption
    is [UNTITLED SIGNAL]; success opens the profile, an error is an
    alert.  For a video, [media] is the data URL of the three-second
    recording ([MediaRecorder], [blobToBase64]: browser I/O). *)
Definition handlePostToProfile (t : PostType) (media caption : string) (now : Z) (pid : string)
  (ss : Session) (s : store) : Session * store :=
  match currentUser ss with
  | None => (enter_auth ss, s)
  | Some u =>
      if (if t is PImage then true else false) && bool_decide (media = EmptyString) then (ss, s)
      else
        let cap := if bool_decide (caption = EmptyString) then "UNTITLED SIGNAL" else caption in
        match createPost fits u media cap t now pid s with
        | (Ok _, s') => (set_mode Orchestrator.PROFILE ss, s')
        | (Throw _, s') => (ss, s')
        end
  end.

Definition step (a : Action) (ss : Session) (s : store) : Session * store :=
  match a with
  | AOpenAuth => if is_mode Orchestrator.LANDING ss && bool_decide (currentUser ss = None)
                 then (enter_auth ss, s) else (ss, s)
  | AOpenProfile => if is_mode Orchestrator.LANDING ss && bool_decide (currentUser ss <> None)
                    then (set_mode Orchestrator.PROFILE ss, s) else (ss, s)
  | AType v => if is_mode Orchestrator.AUTH ss then (set_form (setUsername v (authForm ss)) ss, s) else (ss, s)
  | AToggle => if is_mode Orchestrator.AUTH ss then (set_form (toggle (authForm ss)) ss, s) else (ss, s)
  | ASubmit now =>
      if is_mode Orchestrator.AUTH ss then
        match handleSubmit now (authForm ss) s with
        | (Ok (f', Some u), s') => (onSuccess u (set_form f' ss), s')
        | (Ok (f', None), s') => (set_form f' ss, s')
        | (Throw _, s') => (ss, s')
        end
      else (ss, s)
  | ACancel => if is_mode Orchestrator.AUTH ss then (set_mode Orchestrator.LANDING ss, s) else (ss, s)
  | ALogout =>
      if is_mode Orchestrator.PROFILE ss && bool_decide (currentUser ss <> None) then
        (mk_session Orchestrator.LANDING None (authForm ss), snd (logoutUser s))
      else (ss, s)
  | ABack => if is_mode Orchestrator.PROFILE ss && bool_decide (currentUser ss <> None)
             then (set_mode Orchestrator.LANDING ss, s) else (ss, s)
  | APost t media caption now pid => handlePostToProfile t media caption now pid ss s
  end.

(** The App loads on a store left by earlier visits, with [currentUser]
    read from it (line 83). *)
Definition load (s : store) : Session * store :=
  (mk_session Orchestrator.LANDING (getCurrentUser s) initial_form, s).

(** The sessions the App can be in: it loads on any store the service can
    leave (Storage.v's [reachable]), and then runs the user's actions. *)
Inductive reachable : Session * store -> Prop :=
  | reach_load s : Storage.reachable fits s -> reachable (load s)
  | reach_step a st : reachable st -> reachable (step a (fst st) (snd st)).

End Screen.

(** ** The invariant *)

(** A non-empty session name names a stored user, up to case. *)
Definition session_ok (s : store) : Prop :=
  match s !! CURRENT_USER with
  | Some (SRaw n) => n = EmptyString \/ is_Some (find (same_name n) (getStorage USERS [] s))
  | _ => True
  end.

Definition auth_inv (st : Session * store) : Prop :=
  store_ok (snd st) /\ session_ok (snd st) /\ currentUser (fst st) = getCurrentUser (snd st).


(** ** Lemmas *)

Lemma find_app_some {A} (f : A -> bool) l x : is_Some (find f l) -> find f (l ++ x) = find f l.
Proof. induction l as [|y l IH]; simpl; [by intros []|]. destruct (f y); auto. Qed.

Lemma find_in_some {A} (f : A -> bool) l u : In u l -> f u = true -> is_Some (find f l).
Proof.
  induction l as [|y l IH]; simpl; [done|]. intros [->|Hu] Hf; [by rewrite Hf|].
  destruct (f y); [done | auto].
Qed.

Lemma same_name_refl u : same_name (username u) u = true.
Proof. by apply bool_decide_eq_true_2. Qed.

Lemma trim_nonempty n : trim n <> EmptyString -> n <> EmptyString.
Proof. by intros H ->. Qed.

Lemma users_insert l (s : store) : getStorage USERS [] (<[USERS := SUsers l]> s) = l.
Proof. unfold getStorage. by rewrite lookup_insert_eq. Qed.

Lemma session_ok_insert n (s : store) :
  is_Some (find (same_name n) (getStorage USERS [] s)) -> session_ok (<[CURRENT_USER := SRaw n]> s).
Proof. intros H. unfold session_ok. rewrite lookup_insert_eq, getStorage_insert_ne by keys. auto. Qed.

(** Two stores with the same session key and users restore the same user. *)
Lemma session_view_eq (s s' : store) :
  s' !! CURRENT_USER = s !! CURRENT_USER -> getStorage USERS ([] : list User) s' = getStorage USERS [] s ->
  getCurrentUser s' = getCurrentUser s /\ (session_ok s -> session_ok s').
Proof. intros Hc Hu. unfold getCurrentUser, session_ok. rewrite Hc, Hu. auto. Qed.

(** Appending a user keeps the session's user and the invariant. *)
Lemma session_add_user x (s : store) :
  session_ok s ->
  let s' := <[USERS := SUsers (getStorage USERS [] s ++ [x])]> s in
  getCurrentUser s' = getCurrentUser s /\ session_ok s'.
Proof.
  unfold session_ok, getCurrentUser. rewrite lookup_insert_ne by keys. rewrite users_insert.
  destruct (s !! CURRENT_USER) as [[n| |]|]; auto. intros [->|H]; [auto|].
  rewrite (find_app_some _ _ _ H). auto.
Qed.

Lemma session_ok_logout (s : store) : session_ok (delete CURRENT_USER s).
Proof. unfold session_ok. by rewrite lookup_delete_eq. Qed.

Lemma session_ok_post fits u m c t now pid (s : store) :
  session_ok s ->
  getCurrentUser (snd (createPost fits u m c t now pid s)) = getCurrentUser s /\
  session_ok (snd (createPost fits u m c t now pid s)).
Proof.
  intros H. destruct (createPost_store fits u m c t now pid s) as [->|[l ->]]; [auto|].
  destruct (session_view_eq s (<[POSTS := SPosts l]> s)) as [-> Hs];
    [by rewrite lookup_insert_ne by keys | by rewrite getStorage_insert_ne by keys | auto].
Qed.

(** After a login the session holds the user it returned, and, in a store
    of the invariant, restores it. *)
Lemma login_current fits n (s s' : store) u :
  loginUser fits n s = (Ok u, s') ->
  session_ok s' /\ (store_ok s -> n <> EmptyString -> getCurrentUser s' = Some u).
Proof.
  intros E. apply loginUser_success in E as [F ->].
  apply find_some in F as [Hin Hk]. unfold same_name in Hk. apply bool_decide_eq_true_1 in Hk.
  split; [exact (session_ok_insert _ _ (find_in_some _ _ u Hin (same_name_refl u)))|].
  intros [Hnd _] Hn. rewrite getCurrentUser_insert;
    [exact (find_unique (fun v => toLowerCase (username v)) _ u _ Hnd Hin eq_refl)|].
  intros E. apply Hn. rewrite E in Hk. destruct n; [done | discriminate].
Qed.

(** After a registration the session holds the new user, and restores it
    when its name is not empty. *)
Lemma register_current fits n now (s s' : store) u :
  registerUser fits n now s = (Ok u, s') ->
  session_ok s' /\ (n <> EmptyString -> getCurrentUser s' = Some u).
Proof.
  intros E. destruct (registerUser_success fits n now s s' u E) as (F & -> & ->).
  assert (Hf : find (same_name n) (getStorage USERS [] (<[USERS := SUsers (getStorage USERS [] s ++
           [mk_user n now (Some ("https://api.dicebear.com/7.x/shapes/svg?seed=" +:+ n))])]> s)) =
           Some (mk_user n now (Some ("https://api.dicebear.com/7.x/shapes/svg?seed=" +:+ n)))).
  { rewrite users_insert. apply find_app_none; [exact F | apply same_name_refl]. }
  split; [apply session_ok_insert; by rewrite Hf | intros Hn; by rewrite getCurrentUser_insert].
Qed.

(** A registration that throws keeps the session's user and the invariant. *)
Lemma register_fail_inv fits n now (s s' : store) e :
  session_ok s -> registerUser fits n now s = (Throw e, s') ->
  getCurrentUser s' = getCurrentUser s /\ session_ok s'.
Proof. intros H E. apply registerUser_fail in E as [_ [->|[_ ->]]]; [auto | by apply session_add_user]. Qed.

(** [handleSubmit] unfolded: the blank check, then the service call. *)
Lemma handleSubmit_spec fits now f (s : store) :
  handleSubmit fits now f s =
    if bool_decide (trim (uname f) = EmptyString) then (Ok (setError "IDENTITY_REQUIRED" f, None), s)
    else match (if isLogin f then loginUser fits (uname f) else registerUser fits (uname f) now) s with
         | (Ok u, s') => (Ok (setError "" f, Some u), s')
         | (Throw e, s') =>
             (Ok (setError (if bool_decide (e = EmptyString) then "ACCESS_DENIED" else e) f, None), s')
         end.
Proof.
  unfold handleSubmit. simpl. case_bool_decide; [reflexivity|]. mrun.
  by destruct (if isLogin f then _ else _) as [[u|e] s'].
Qed.


Lemma run_op_session fits o (s : store) : session_ok s -> session_ok (snd (run_op fits o s)).
Proof.
  intros H. destruct o as [n|n now| |u m c t now pid]; simpl run_op; rewrite ?bind_unit_store.
  - destruct (loginUser fits n s) as [[u|e] s'] eqn:E; simpl; [exact (proj1 (login_current _ _ _ _ _ E))|].
    by apply loginUser_fail in E as [_ ->].
  - destruct (registerUser fits n now s) as [[u|e] s'] eqn:E; simpl;
      [exact (proj1 (register_current _ _ _ _ _ _ E)) | exact (proj2 (register_fail_inv _ _ _ _ _ _ H E))].
  - apply session_ok_logout.
  - exact (proj2 (session_ok_post fits u m c t now pid s H)).
Qed.

Lemma storage_reachable_ok fits (s : store) : Storage.reachable fits s -> store_ok s /\ session_ok s.
Proof.
  induction 1 as [|s o _ [Hs Hss]]; [|split; [by apply run_op_ok | by apply run_op_session]].
  split; [|exact I]. unfold store_ok, getStorage. rewrite !lookup_empty. split; [constructor | simpl; lia].
Qed.

(** A submission keeps the invariant, the user it returns being the one the
    store restores. *)
Lemma submit_inv fits now f (ss : Session) (s : store) :
  auth_inv (ss, s) ->
  match handleSubmit fits now f s with
  | (Ok (_, Some u), s') => store_ok s' /\ session_ok s' /\ Some u = getCurrentUser s'
  | (_, s') => auth_inv (ss, s')
  end.
Proof.
  intros H. destruct H as (Hs & Hss & Hc). simpl in Hs, Hss, Hc. rewrite handleSubmit_spec.
  case_bool_decide as Hb; [by split_and!|]. apply trim_nonempty in Hb.
  destruct (isLogin f).
  - pose proof (loginUser_ok fits (uname f) s Hs) as Hs'.
    destruct (loginUser fits (uname f) s) as [[u|e] s'] eqn:E; simpl in Hs' |- *.
    + destruct (login_current _ _ _ _ _ E) as [Hss' Hc']. split_and!; auto. symmetry. auto.
    + apply loginUser_fail in E as [_ ->]. by split_and!.
  - pose proof (registerUser_ok fits (uname f) now s Hs) as Hs'.
    destruct (registerUser fits (uname f) now s) as [[u|e] s'] eqn:E; simpl in Hs' |- *.
    + destruct (register_current _ _ _ _ _ _ E) as [Hss' Hc']. split_and!; auto. symmetry. auto.
    + destruct (register_fail_inv _ _ _ _ _ _ Hss E) as [Hc' Hss']. split_and!; auto. simpl; congruence.
Qed.

Lemma post_inv fits t media cap now pid (ss : Session) (s : store) :
  auth_inv (ss, s) -> auth_inv (handlePostToProfile fits t media cap now pid ss s).
Proof.
  intros (Hs & Hss & Hc). unfold handlePostToProfile.
  destruct (currentUser ss) as [u|] eqn:Hu; [|by split_and!]. case_match; [by split_and!|].
  match goal with |- context [createPost fits u media ?c t now pid s] =>
    pose proof (createPost_ok fits u media c t now pid s Hs) as Hs';
    pose proof (session_ok_post fits u media c t now pid s Hss) as [Hc' Hss'];
    destruct (createPost fits u media c t now pid s) as [[p|e] s'] end;
  simpl in *; split_and!; simpl; congruence.
Qed.


(** ** Theorems *)

(** C36: in every session the App can reach, after loading on any store the
    storage service can leave and running any sequence of sign-in, sign-up,
    toggle, cancel, logout, profile and post actions (whichever of them the
    quota refuses), the App's [currentUser] is the user [getCurrentUser]
    restores from [localStorage]: a reload shows the same signed-in user. *)
Theorem reachable_current_user fits (st : Session * store) :
  reachable fits st -> currentUser (fst st) = getCurrentUser (snd st).
Proof.
  intros Hr. enough (H : auth_inv st) by apply H.
  induction Hr as [s Hs|a [ss s] _ H]; [destruct (storage_reachable_ok fits s Hs); by split_and!|].
  pose proof H as (Hs & Hss & Hc). destruct a as [| |v| |now| | | |t media cap now pid]; simpl.
  9: { by apply post_inv. }
  7: { destruct (_ && _); [|exact H]. split_and!; [by apply store_ok_delete | apply session_ok_logout |].
       simpl. unfold getCurrentUser. by rewrite lookup_delete_eq. }
  5: { destruct (is_mode Orchestrator.AUTH ss); [|exact H].
       pose proof (submit_inv fits now (authForm ss) ss s H) as Hsub.
       destruct (handleSubmit fits now (authForm ss) s) as [[[f' [u|]]|e] s']; simpl in *; exact Hsub. }
  all: repeat case_match; unfold auth_inv in *; simpl in *; tauto.
Qed.

(** a submission never throws out of [handleSubmit]: it ends with a
    user, the form's mode and name kept and no error shown, or with no user
    and a non-empty error message ([IDENTITY_REQUIRED], the service's
    message, or [ACCESS_DENIED]). *)
Theorem handleSubmit_reports fits now f (s : store) :
  match handleSubmit fits now f s with
  | (Ok (f', Some _), _) => error f' = EmptyString /\ isLogin f' = isLogin f /\ uname f' = uname f
  | (Ok (f', None), _) => error f' <> EmptyString
  | (Throw _, _) => False
  end.
Proof.
  rewrite handleSubmit_spec. case_bool_decide; [discriminate|].
  destruct (if isLogin f then _ else _) as [[u|e] s']; [done|]. simpl. by case_bool_decide.
Qed.

(** C37: registering through the form and signing in again after a logout,
    under the same name in any case, gives back the user that was created
    and opens its session under the registered spelling (when the session
    write fits the quota). *)
Theorem register_then_login fits now now' n n' (s s1 : store) f1 u :
  handleSubmit fits now (mk_form false n "") s = (Ok (f1, Some u), s1) ->
  toLowerCase n' = toLowerCase n -> trim n' <> EmptyString ->
  fits (<[CURRENT_USER := SRaw n]> (delete CURRENT_USER s1)) = true ->
  handleSubmit fits now' (mk_form true n' "") (snd (logoutUser s1)) =
    (Ok (mk_form true n' "", Some u), <[CURRENT_USER := SRaw n]> (delete CURRENT_USER s1)).
Proof.
  rewrite handleSubmit_spec. simpl. case_bool_decide; [discriminate|].
  destruct (registerUser fits n now s) as [[v|e] s'] eqn:E; [intros [= <- <- <-]|discriminate].
  intros Hl Hb Hf. apply registerUser_success in E as (F & -> & ->).
  rewrite handleSubmit_spec. simpl. rewrite bool_decide_eq_false_2 by exact Hb.
  unfold loginUser. mrun. rewrite getStorage_delete_ne, getStorage_insert_ne, users_insert by keys.
  replace (same_name n') with (same_name n) by (unfold same_name; by rewrite Hl).
  rewrite find_app_none by (exact F || apply same_name_refl). simpl.
  unfold setItem. by rewrite Hf.
Qed.

(** a registration whose users write fits the quota but whose session
    write does not has stored the new user and still reports the quota
    error; submitting the same form again then reports [Username taken],
    while no session is open. *)
Theorem register_session_refused fits now now' n (s : store) :
  trim n <> EmptyString -> find (same_name n) (getStorage USERS [] s) = None ->
  let u := mk_user n now (Some ("https://api.dicebear.com/7.x/shapes/svg?seed=" +:+ n)) in
  let s1 := <[USERS := SUsers (getStorage USERS [] s ++ [u])]> s in
  fits s1 = true -> fits (<[CURRENT_USER := SRaw n]> s1) = false ->
  handleSubmit fits now (mk_form false n "") s = (Ok (mk_form false n "QuotaExceededError", None), s1) /\
  handleSubmit fits now' (mk_form false n "") s1 = (Ok (mk_form false n "Username taken", None), s1).
Proof.
  intros Hb F u s1 H1 H2. rewrite !handleSubmit_spec. simpl. rewrite bool_decide_eq_false_2 by exact Hb.
  unfold registerUser. mrun. rewrite F. unfold setStorage, catch, setItem. simpl. fold u s1.
  rewrite H1, H2. simpl. subst s1. rewrite users_insert, find_app_none by (exact F || apply same_name_refl).
  done.
Qed.

End AuthScreen.

(** ** Witnesses *)

Module AuthWitness.
Import AuthScreen.

Definition fits_all : store -> bool := fun _ => true.

(** A quota that holds the users but not an open session. *)
Definition fits_no_session (s : store) : bool :=
  match s !! CURRENT_USER with None => true | Some _ => false end.

Definition T0 : string := "2026-01-01T00:00:00.000Z".

(** Load on an empty store, open the sign-in screen, type [Alice], switch
    to sign-up and submit. *)
Definition signed_up : Session * store :=
  let st0 := load ∅ in
  let st1 := step fits_all AOpenAuth (fst st0) (snd st0) in
  let st2 := step fits_all (AType "Alice") (fst st1) (snd st1) in
  let st3 := step fits_all AToggle (fst st2) (snd st2) in
  step fits_all (ASubmit T0) (fst st3) (snd st3).

Lemma signed_up_reachable : reachable fits_all signed_up.
Proof. unfold signed_up. cbv zeta. repeat apply reach_step. apply (reach_load fits_all), (Storage.reach_empty fits_all). Qed.

Lemma reachable_current_user_witness :
  currentUser (fst signed_up) = Some alice /\ currentUser (fst signed_up) = getCurrentUser (snd signed_up).
Proof. split; [vm_compute; reflexivity | exact (reachable_current_user fits_all signed_up signed_up_reachable)]. Defined.

Lemma register_then_login_witness :
  handleSubmit fits_all T0 (mk_form true "ALICE" "")
    (snd (logoutUser (snd (handleSubmit fits_all T0 (mk_form false "Alice" "") ∅)))) =
  (Ok (mk_form true "ALICE" "", Some alice),
   <[CURRENT_USER := SRaw "Alice"]> (delete CURRENT_USER (snd (handleSubmit fits_all T0 (mk_form false "Alice" "") ∅)))).
Proof.
  apply (register_then_login fits_all T0 T0 "Alice" "ALICE" ∅
           (snd (handleSubmit fits_all T0 (mk_form false "Alice" "") ∅)) (mk_form false "Alice" "") alice);
    [vm_compute; reflexivity | vm_compute; reflexivity | vm_compute; discriminate | reflexivity].
Defined.

Lemma register_session_refused_witness :
  let s1 := <[USERS := SUsers [alice]]> ∅ in
  handleSubmit fits_no_session T0 (mk_form false "Alice" "") ∅ =
    (Ok (mk_form false "Alice" "QuotaExceededError", None), s1) /\
  handleSubmit fits_no_session T0 (mk_form false "Alice" "") s1 =
    (Ok (mk_form false "Alice" "Username taken", None), s1).
Proof.
  refine (register_session_refused fits_no_session T0 T0 "Alice" ∅ _ _ _ _);
    [vm_compute; discriminate | vm_compute; reflexivity | vm_compute; reflexivity | vm_compute; reflexivity].
Defined.

(** The blank check trims the name, the service does not: [alice ] and
    [alice] are two accounts, and after signing up as [alice ] a sign-in as
    [alice] reports [User not found]. *)
Example whitespace_names_split_accounts :
  let s1 := snd (logoutUser (snd (handleSubmit fits_all T0 (mk_form false "alice " "") ∅))) in
  handleSubmit fits_all T0 (mk_form true "alice" "") s1 = (Ok (mk_form true "alice" "User not found", None), s1) /\
  fst (handleSubmit fits_all T0 (mk_form false "alice" "") s1) =
    Ok (mk_form false "alice" "", Some (mk_user "alice" T0 (Some ("https://api.dicebear.com/7.x/shapes/svg?seed=" +:+ "alice")))).
Proof. cbv zeta. split; vm_compute; reflexivity. Qed.

End AuthWitness.
