(* ===== verification/Profile.v ===== *)
(** * The profile page

    src/components/Profile.tsx, component [Profile] (lines 12-227): its
    state ([view], [posts], [selectedPost]), the effect that loads the
    posts of the view (lines 17-23), the tab buttons, the lightbox, the
    "Screens" counter (line 72) and the file name of "Download Original"
    with [getExtension] (lines 26-32 and 211).  The App shows the page
    when [appMode] is [PROFILE] and a user is signed in (App.tsx, line
    788), with the session of Auth.v; the page mounts with its initial
    state and runs its effect on the store.

    The theorems: a post made from a signed-in session opens the profile
    with the new post first in the user's archive, or, refused by the
    quota, leaves the session and the store as they were; and the
    extension of a download is read from anywhere in the data URL, so a
    PNG whose payload spells [video/mp4] downloads as [.mp4]. *)

From Stdlib Require Import Ascii String.
From stdpp Require Import strings gmap.
From S2P Require Import Prelude Storage Render Auth.

Module ProfilePage.
Import AuthScreen.

Inductive View := MINE | FEED.

Record ProfileState := mk_profile { view : View; posts : list Post; selectedPost : option Post }.

(** [useState] initial values (lines 13-15). *)
Definition initial_profile : ProfileState := mk_profile MINE [] None.

(** The effect of lines 17-23: the user's posts in [MINE], every post in
    [FEED]. *)
Definition load_posts (user : User) (s : store) (pv : ProfileState) : ProfileState :=
  mk_profile (view pv)
    (match view pv with MINE => getUserPosts (username user) s | FEED => getPosts s end)
    (selectedPost pv).

(** The page as mounted: the initial state, then its effect. *)
Definition mount (user : User) (s : store) : ProfileState := load_posts user s initial_profile.

(** The tab buttons (lines 89 and 99): a new [view] runs the effect
    again (its dependencies are [user.username] and [view]). *)
Definition setView (user : User) (s : store) (v : View) (pv : ProfileState) : ProfileState :=
  let changed := match view pv, v with MINE, MINE | FEED, FEED => false | _, _ => true end in
  let pv' := mk_profile v (posts pv) (selectedPost pv) in
  if changed then load_posts user s pv' else pv'.

(** A grid item opens the lightbox (line 122); the backdrop and [X]
    close it (lines 166 and 176). *)
Definition setSelectedPost (p : option Post) (pv : ProfileState) : ProfileState :=
  mk_profile (view pv) (posts pv) p.

(** The counter of line 72, read from the store at render time. *)
Definition screens_count (user : User) (s : store) : nat := length (getUserPosts (username user) s).

(** [String.prototype.includes]. *)
Definition includes (src sub : string) : bool :=
  match String.index 0 sub src with Some _ => true | None => false end.

(** [getExtension] (lines 26-32). *)
Definition getExtension (src : string) (t : PostType) : string :=
  if includes src "video/mp4" then "mp4"
  else if includes src "video/webm" then "webm"
  else if includes src "image/jpeg" then "jpg"
  else if includes src "image/png" then "png"
  else match t with PVideo => "webm" | PImage => "png" end.

(** The [download] attribute of "Download Original" (line 211). *)
Definition download_name (p : Post) : string :=
  "screen_export_" +:+ id p +:+ "." +:+ getExtension (image p) (type p).

(** The profile the App shows (App.tsx, line 788), as mounted on the
    store. *)
Definition profile_of (ss : Session) (s : store) : option ProfileState :=
  if is_mode Orchestrator.PROFILE ss then
    match currentUser ss with Some u => Some (mount u s) | None => None end
  else None.

(** ** Lemmas *)

Lemma getUserPosts_cons name p (s s' : store) n :
  author p = name -> getPosts s' = take (S n) (p :: getPosts s) ->
  head (getUserPosts name s') = Some p.
Proof.
  intros Ha E. unfold getUserPosts. fold (getPosts s'). rewrite E. simpl.
  by rewrite filter_cons_True.
Qed.

(** ** Theorems *)

(** A post made from a signed-in session either opens the profile
    with the new post (the user's name as author, [UNTITLED SIGNAL] for
    an empty caption) first in the user's archive, or, refused by the
    quota, leaves the session and the store as they were. *)
Theorem post_shown_first fits t media cap now pid (ss : Session) (s : store) u :
  currentUser ss = Some u -> (t = PVideo \/ media <> EmptyString) ->
  let p := mk_post pid (username u) media t
             (if bool_decide (cap = EmptyString) then "UNTITLED SIGNAL" else cap) now 0 in
  let r := step fits (APost t media cap now pid) ss s in
  option_map (fun pv => head (posts pv)) (profile_of (fst r) (snd r)) = Some (Some p) \/ r = (ss, s).
Proof.
  intros Hu Hm p r. subst r. simpl. unfold handlePostToProfile. rewrite Hu.
  assert (Hg : (if t is PImage then true else false) && bool_decide (media = EmptyString) = false)
    by (destruct Hm as [->|Hm]; [done | destruct t; [by rewrite bool_decide_eq_false_2|done]]).
  rewrite Hg.
  match goal with |- context [createPost fits u media ?c t now pid s] =>
    destruct (createPost fits u media c t now pid s) as [[q|e] s'] eqn:E end.
  - left. apply createPost_newest_first in E as [-> (n & Hn & Hp)].
    unfold profile_of. simpl. rewrite Hu. simpl. f_equal.
    destruct Hn as [-> | ->]; eapply getUserPosts_cons; done.
  - right. by apply createPost_fail in E as ->.
Qed.

End ProfilePage.

(** ** Witnesses *)

Module ProfileWitness.
Import AuthScreen ProfilePage AuthWitness.

Definition png : string := "data:image/png;base64,AAAA".

Lemma post_shown_first_witness :
  let p := mk_post "p1" (username alice) png PImage
             (if bool_decide ("" = EmptyString) then "UNTITLED SIGNAL" else "") 1700000000000 0 in
  let r := step fits_all (APost PImage png "" 1700000000000 "p1")
             (mk_session Orchestrator.IMAGE (Some alice) initial_form) alice_store in
  option_map (fun pv => head (posts pv)) (profile_of (fst r) (snd r)) = Some (Some p) \/
  r = (mk_session Orchestrator.IMAGE (Some alice) initial_form, alice_store).
Proof.
  assert (Hm : PImage = PVideo \/ png <> EmptyString) by (right; discriminate).
  exact (post_shown_first fits_all PImage png "" 1700000000000 "p1"
           (mk_session Orchestrator.IMAGE (Some alice) initial_form) alice_store alice eq_refl Hm).
Defined.

(** [getExtension] searches the whole data URL, payload included: a PNG
    whose base64 payload spells [video/mp4] downloads as [.mp4]. *)
Example png_payload_downloads_as_mp4 :
  download_name (mk_post "p1" "Alice" "data:image/png;base64,AAAvideo/mp4AAAA" PImage "UNTITLED SIGNAL" 0 0)
  = "screen_export_p1.mp4".
Proof. reflexivity. Qed.

End ProfileWitness.
