(* ===== verification/Editor.v ===== *)
(** * The editor: media sources, snapshots, capture, recording, export

    src/App.tsx: the handlers of the editor and of the landing page
    ([handleFileUpload], [handleFileUpload2], [handleCaptureLoop],
    [handlePrintLayer], [handleDownload], [toggleRecording], lines
    412-622 and 708-743), the placeholder-image effect (lines 163-175),
    [registerUrl] (lines 142-145) and the buttons of the header, the
    viewport footer, the Controls callbacks and the export modal (lines
    823-1102).

    The browser runs the callbacks these handlers install ([FileReader]
    and [Image] [onload], [MediaRecorder] events, the 3-second timer of
    the loop capture) later, in an order the program does not choose.
    A callback waiting to run is a [Task] of the state's [tasks]; the
    action [ARun i] runs the [i]-th one.  This makes every interleaving a
    sequence of steps.  A [URL.createObjectURL] is a fresh [Blob] id; a
    data URL is [DataUrl].  The element refs rendered by the editor
    ([uploadedVideoRef], [blendVideoRef]) exist only while the editor is
    shown: on the landing page they are [null], and the editor mounts new
    elements without a source.

    The theorems: every object URL the editor creates is registered for
    the unmount cleanup, and none is revoked before it; at most one loop
    capture runs at a time; a finished capture leaves an editor that
    loops on the captured video; and three orderings the code does not
    handle: the placeholder image can replace an image uploaded from the
    landing page, an image read that finishes after a later video upload
    replaces the video, a video uploaded from the landing page never
    reaches the video element, and a recording started before the
    previous one's events ran downloads that recording's chunks too (the
    recorders share [chunksRef]).  The module [EditorWitness] applies
    each theorem to concrete editors. *)

From Stdlib Require Import Ascii String.
From stdpp Require Import strings list pretty.
From S2P Require Import Prelude Pipeline Draw Render Params Loop.
Import Orchestrator.

Module Editor.

(** ** Media and pending callbacks *)

(** A media URL: [URL.createObjectURL] of a file or blob (a fresh id), or
    a data URL. *)
Inductive Src := Blob (n : nat) | DataUrl (d : string).

#[export] Instance Src_eq_dec : EqDecision Src.
Proof. solve_decision. Defined.

(** [e.target.files[0]]: its MIME type and the data URL [readAsDataURL]
    yields. *)
Record File := mk_file { ftype : string; fdata : string }.

(** [file.type.startsWith('video/')]. *)
Definition is_video_file (f : File) : bool := String.prefix "video/" (ftype f).

(** The placeholder of line 167. *)
Definition PLACEHOLDER : string := "https://picsum.photos/800/600?grayscale".

(** A callback the browser has yet to run.  [TReadBlend], [TImgBlend]
    and [TPrintLoad] carry the [appMode] and [activeTab] of the render
    whose handler installed them (their closures read those). *)
Inductive Task :=
  | TPlaceholder                                  (* img.onload, lines 169-174 *)
  | TReadMain (d : string)                        (* reader.onload, lines 425-434 *)
  | TImgMain (d : string)                         (* img.onload, lines 430-433 *)
  | TReadBlend (d : string) (m : AppMode)         (* reader.onload, lines 450-459 *)
  | TImgBlend (d : string) (m : AppMode)          (* img.onload, lines 455-458 *)
  | TCaptureStop (mime : string)                  (* timer, then recorder.onstop, lines 484-500 *)
  | TRecData (rid : nat)                          (* ondataavailable, line 725 *)
  | TRecStop (rid : nat) (mime : string)          (* onstop, lines 726-733 *)
  | TPrintLoad (d : string) (fromAI : bool) (m : AppMode) (t : Tab).  (* lines 573-601 *)

(** A link the code clicks: its [download] name, its [href], and for a
    recording the recorders whose chunks the blob holds. *)
Record Download := mk_download { dname : string; dhref : Src; dchunks : list nat }.

(** ** The state *)

(** The element refs and the media state: [imageSrc], [imageSrc2],
    [aiImage] (lines 87-107) and the [src] of [originalImgRef],
    [uploadedVideoRef], [blendImgRef], [blendVideoRef]. *)
Record Media := mk_media {
  imageSrc : option Src;
  imageSrc2 : option Src;
  aiImage : option string;
  originalImg : option Src;
  uploadedVideo : option Src;
  blendImg : option Src;
  blendVideo : option Src
}.

(** [isRecording] (line 111), [mediaRecorderRef], [chunksRef] (lines
    134-135), with the id the next recorder gets. *)
Record Rec := mk_rec { isRecording : bool; recorder : option nat; chunks : list nat; next_rec : nat }.

Record Editor := mk_editor {
  app : AppState;
  media : Media;
  rec : Rec;
  darkMode : bool;  (* line 86 *)
  isCapturingLoop : bool;  (* line 112 *)
  showExportModal : bool;  (* line 116 *)
  exportCaption : string;  (* line 117 *)
  processing : bool;  (* processingState.isProcessing (line 109) *)
  prompt : string;  (* AIPanel's [prompt] (Profile.tsx, line 236) *)
  objectUrls : list Src;  (* objectUrlsRef.current *)
  next_blob : nat;
  downloads : list Download;
  renders : nat;  (* direct renderCanvas() calls *)
  tasks : list Task  (* callbacks the browser has yet to run *)
}.

(** ** Updates *)

Definition set_app (x : AppState) (e : Editor) : Editor :=
  mk_editor x (media e) (rec e) (darkMode e) (isCapturingLoop e) (showExportModal e) (exportCaption e) (processing e) (prompt e) (objectUrls e) (next_blob e) (downloads e) (renders e) (tasks e).
Definition set_media (x : Media) (e : Editor) : Editor :=
  mk_editor (app e) x (rec e) (darkMode e) (isCapturingLoop e) (showExportModal e) (exportCaption e) (processing e) (prompt e) (objectUrls e) (next_blob e) (downloads e) (renders e) (tasks e).
Definition set_rec (x : Rec) (e : Editor) : Editor :=
  mk_editor (app e) (media e) x (darkMode e) (isCapturingLoop e) (showExportModal e) (exportCaption e) (processing e) (prompt e) (objectUrls e) (next_blob e) (downloads e) (renders e) (tasks e).
Definition set_dark (x : bool) (e : Editor) : Editor :=
  mk_editor (app e) (media e) (rec e) x (isCapturingLoop e) (showExportModal e) (exportCaption e) (processing e) (prompt e) (objectUrls e) (next_blob e) (downloads e) (renders e) (tasks e).
Definition set_capturing (x : bool) (e : Editor) : Editor :=
  mk_editor (app e) (media e) (rec e) (darkMode e) x (showExportModal e) (exportCaption e) (processing e) (prompt e) (objectUrls e) (next_blob e) (downloads e) (renders e) (tasks e).
Definition set_modal (x : bool) (e : Editor) : Editor :=
  mk_editor (app e) (media e) (rec e) (darkMode e) (isCapturingLoop e) x (exportCaption e) (processing e) (prompt e) (objectUrls e) (next_blob e) (downloads e) (renders e) (tasks e).
Definition set_caption (x : string) (e : Editor) : Editor :=
  mk_editor (app e) (media e) (rec e) (darkMode e) (isCapturingLoop e) (showExportModal e) x (processing e) (prompt e) (objectUrls e) (next_blob e) (downloads e) (renders e) (tasks e).
Definition set_processing (x : bool) (e : Editor) : Editor :=
  mk_editor (app e) (media e) (rec e) (darkMode e) (isCapturingLoop e) (showExportModal e) (exportCaption e) x (prompt e) (objectUrls e) (next_blob e) (downloads e) (renders e) (tasks e).
Definition set_prompt (x : string) (e : Editor) : Editor :=
  mk_editor (app e) (media e) (rec e) (darkMode e) (isCapturingLoop e) (showExportModal e) (exportCaption e) (processing e) x (objectUrls e) (next_blob e) (downloads e) (renders e) (tasks e).
Definition set_urls (x : list Src) (e : Editor) : Editor :=
  mk_editor (app e) (media e) (rec e) (darkMode e) (isCapturingLoop e) (showExportModal e) (exportCaption e) (processing e) (prompt e) x (next_blob e) (downloads e) (renders e) (tasks e).
Definition set_next_blob (x : nat) (e : Editor) : Editor :=
  mk_editor (app e) (media e) (rec e) (darkMode e) (isCapturingLoop e) (showExportModal e) (exportCaption e) (processing e) (prompt e) (objectUrls e) x (downloads e) (renders e) (tasks e).
Definition set_downloads (x : list Download) (e : Editor) : Editor :=
  mk_editor (app e) (media e) (rec e) (darkMode e) (isCapturingLoop e) (showExportModal e) (exportCaption e) (processing e) (prompt e) (objectUrls e) (next_blob e) x (renders e) (tasks e).
Definition set_renders (x : nat) (e : Editor) : Editor :=
  mk_editor (app e) (media e) (rec e) (darkMode e) (isCapturingLoop e) (showExportModal e) (exportCaption e) (processing e) (prompt e) (objectUrls e) (next_blob e) (downloads e) x (tasks e).
Definition set_tasks (x : list Task) (e : Editor) : Editor :=
  mk_editor (app e) (media e) (rec e) (darkMode e) (isCapturingLoop e) (showExportModal e) (exportCaption e) (processing e) (prompt e) (objectUrls e) (next_blob e) (downloads e) (renders e) x.

(** [registerUrl] (lines 142-145). *)
Definition registerUrl (u : Src) (e : Editor) : Editor := set_urls (objectUrls e ++ [u]) e.

(** [URL.createObjectURL]: a fresh blob URL. *)
Definition createObjectURL (e : Editor) : Src * Editor := (Blob (next_blob e), set_next_blob (S (next_blob e)) e).

(** [link.click()] of a download link. *)
Definition click (d : Download) (e : Editor) : Editor := set_downloads (downloads e ++ [d]) e.

(** A direct [renderCanvas()] call. *)
Definition renderCanvas_call (e : Editor) : Editor := set_renders (S (renders e)) e.

Definition add_task (t : Task) (e : Editor) : Editor := set_tasks (tasks e ++ [t]) e.

(** The fields of [AppState] the handlers set. *)
Definition with_mode (m : AppMode) (a : AppState) : AppState :=
  mk_app_state m (sourceType a) (activeTab a) (activeLayers a) (glitchParams a) (asciiParams a)
    (halftoneParams a) (blendParams a) (textParams a) (blendType a) (globalParams a) (facingMode a).
Definition with_source (k : MediaKind) (a : AppState) : AppState :=
  mk_app_state (appMode a) k (activeTab a) (activeLayers a) (glitchParams a) (asciiParams a)
    (halftoneParams a) (blendParams a) (textParams a) (blendType a) (globalParams a) (facingMode a).
Definition with_tab (t : Tab) (a : AppState) : AppState :=
  mk_app_state (appMode a) (sourceType a) t (activeLayers a) (glitchParams a) (asciiParams a)
    (halftoneParams a) (blendParams a) (textParams a) (blendType a) (globalParams a) (facingMode a).
Definition with_glitch (g : GlitchParams) (a : AppState) : AppState :=
  mk_app_state (appMode a) (sourceType a) (activeTab a) (activeLayers a) g (asciiParams a)
    (halftoneParams a) (blendParams a) (textParams a) (blendType a) (globalParams a) (facingMode a).
Definition with_blendType (k : option MediaKind) (a : AppState) : AppState :=
  mk_app_state (appMode a) (sourceType a) (activeTab a) (activeLayers a) (glitchParams a) (asciiParams a)
    (halftoneParams a) (blendParams a) (textParams a) k (globalParams a) (facingMode a).
Definition with_facing (f : Facing) (a : AppState) : AppState :=
  mk_app_state (appMode a) (sourceType a) (activeTab a) (activeLayers a) (glitchParams a) (asciiParams a)
    (halftoneParams a) (blendParams a) (textParams a) (blendType a) (globalParams a) f.

Definition set_imageSrc (u : option Src) (m : Media) : Media :=
  mk_media u (imageSrc2 m) (aiImage m) (originalImg m) (uploadedVideo m) (blendImg m) (blendVideo m).
Definition set_imageSrc2 (u : option Src) (m : Media) : Media :=
  mk_media (imageSrc m) u (aiImage m) (originalImg m) (uploadedVideo m) (blendImg m) (blendVideo m).
Definition set_aiImage (a : option string) (m : Media) : Media :=
  mk_media (imageSrc m) (imageSrc2 m) a (originalImg m) (uploadedVideo m) (blendImg m) (blendVideo m).
Definition set_originalImg (u : option Src) (m : Media) : Media :=
  mk_media (imageSrc m) (imageSrc2 m) (aiImage m) u (uploadedVideo m) (blendImg m) (blendVideo m).
Definition set_uploadedVideo (u : option Src) (m : Media) : Media :=
  mk_media (imageSrc m) (imageSrc2 m) (aiImage m) (originalImg m) u (blendImg m) (blendVideo m).
Definition set_blendImg (u : option Src) (m : Media) : Media :=
  mk_media (imageSrc m) (imageSrc2 m) (aiImage m) (originalImg m) (uploadedVideo m) u (blendVideo m).
Definition set_blendVideo (u : option Src) (m : Media) : Media :=
  mk_media (imageSrc m) (imageSrc2 m) (aiImage m) (originalImg m) (uploadedVideo m) (blendImg m) u.

Definition upd_app (f : AppState -> AppState) (e : Editor) : Editor := set_app (f (app e)) e.
Definition upd_media (f : Media -> Media) (e : Editor) : Editor := set_media (f (media e)) e.


(** [appMode] equality, and the modes whose render is the editor (lines
    875-1102): the landing page, the sign-in screen and the profile
    return before it. *)
Definition mode_eqb (a b : AppMode) : bool :=
  match a, b with
  | LANDING, LANDING | IMAGE, IMAGE | CAMERA, CAMERA | AUTH, AUTH | PROFILE, PROFILE => true
  | _, _ => false
  end.

Definition tab_eqb (a b : Tab) : bool :=
  match a, b with
  | MANUAL, MANUAL | TEXT, TEXT | BLEND, BLEND | ASCII, ASCII | HALFTONE, HALFTONE | AI, AI => true
  | _, _ => false
  end.

Definition is_none {A} (o : option A) : bool := match o with None => true | Some _ => false end.

Definition editor_view (m : AppMode) : bool := match m with IMAGE | CAMERA => true | _ => false end.

(** [setAppMode]: leaving the editor unmounts its [<video>] elements, so
    their refs and sources are gone. *)
Definition setAppMode (m : AppMode) (e : Editor) : Editor :=
  let e := upd_app (with_mode m) e in
  if editor_view m then e else upd_media (fun md => set_uploadedVideo None (set_blendVideo None md)) e.

(** ** The handlers *)

Section Handlers.

(** [MediaRecorder.isTypeSupported('video/mp4')]. *)
Variable supports_mp4 : bool.

(** [getSupportedMimeType] (lines 71-76). *)
Definition getSupportedMimeType : string := if supports_mp4 then "video/mp4" else "video/webm".

(** The placeholder effect (lines 163-175): it runs when [appMode] or
    [imageSrc] changed at a commit, and starts loading the placeholder
    when the editor shows an image mode without source.  Its cleanup
    does not cancel the load. *)
Definition placeholder_effect (before e : Editor) : Editor :=
  if (negb (mode_eqb (appMode (app before)) (appMode (app e))) ||
      bool_decide (imageSrc (media before) <> imageSrc (media e))) &&
     mode_eqb (appMode (app e)) IMAGE && is_none (imageSrc (media e))
  then add_task TPlaceholder e else e.

(** [handleFileUpload] (lines 413-438).  A video gets an object URL,
    registered, and plays in [uploadedVideoRef] when that element exists;
    an image is read by a [FileReader]. *)
Definition handleFileUpload (f : option File) (e : Editor) : Editor :=
  match f with
  | None => e
  | Some f =>
      if is_video_file f then
        let '(u, e) := createObjectURL e in
        let e := registerUrl u e in
        let e := upd_media (set_imageSrc (Some u)) e in
        let e := upd_app (with_source KVideo) e in
        if editor_view (appMode (app e)) then upd_media (set_uploadedVideo (Some u)) e else e
      else add_task (TReadMain (fdata f)) e
  end.

(** [handleFileUpload2] (lines 440-463), the same for the second source. *)
Definition handleFileUpload2 (f : option File) (e : Editor) : Editor :=
  match f with
  | None => e
  | Some f =>
      if is_video_file f then
        let '(u, e) := createObjectURL e in
        let e := registerUrl u e in
        let e := upd_media (set_imageSrc2 (Some u)) e in
        let e := upd_app (with_blendType (Some KVideo)) e in
        if editor_view (appMode (app e)) then upd_media (set_blendVideo (Some u)) e else e
      else add_task (TReadBlend (fdata f) (appMode (app e))) e
  end.

(** [handleCaptureLoop] (lines 465-513): nothing while a capture runs;
    otherwise a recorder of the canvas whose [onstop] comes after the
    3-second timer, or, when [captureStream] or [MediaRecorder] throws
    ([ok] false), the flag is reset. *)
Definition handleCaptureLoop (ok : bool) (e : Editor) : Editor :=
  if isCapturingLoop e then e
  else if ok then add_task (TCaptureStop getSupportedMimeType) (set_capturing true e)
  else set_capturing false e.

(** [handlePrintLayer] (lines 568-602): the AI result, in the AI tab,
    or the canvas as a PNG data URL, loaded into a new image. *)
Definition handlePrintLayer (canvas_data : string) (e : Editor) : Editor :=
  let m := appMode (app e) in
  let t := activeTab (app e) in
  match t, aiImage (media e) with
  | AI, Some a => add_task (TPrintLoad a true m t) e
  | _, _ => add_task (TPrintLoad canvas_data false m t) e
  end.

(** [handleDownload] (lines 604-616). *)
Definition handleDownload (now : Z) (canvas_data : string) (e : Editor) : Editor :=
  let d := match activeTab (app e), aiImage (media e) with
           | AI, Some a => mk_download ("screen_ai_" +:+ pretty now +:+ ".png") (DataUrl a) []
           | _, _ => mk_download ("screen_" +:+ pretty now +:+ ".png") (DataUrl canvas_data) []
           end in
  set_modal false (click d e).

(** [toggleRecording] (lines 708-743): a stop asks the recorder for its
    data and its [onstop]; a start makes a new recorder and a new chunks
    array ([ok] false: [captureStream] or [MediaRecorder] threw). *)
Definition toggleRecording (ok : bool) (e : Editor) : Editor :=
  let r := rec e in
  if isRecording r then
    let e := match recorder r with
             | Some i => add_task (TRecStop i getSupportedMimeType) (add_task (TRecData i) e)
             | None => e
             end in
    set_rec (mk_rec false (recorder r) (chunks r) (next_rec r)) e
  else if ok then set_rec (mk_rec true (Some (next_rec r)) [] (S (next_rec r))) e
  else e.

(** The extension of a recording (line 731). *)
Definition rec_ext (mime : string) : string := if bool_decide (mime = "video/mp4") then "mp4" else "webm".

(** [handleAIGenerate]'s state (lines 745-769): outside the AI tab or
    without an API key nothing; otherwise [processingState] and [aiImage]
    before the request ([AIStart]) and after it ([AIDone]). *)
Definition ai_start (has_key : bool) (e : Editor) : Editor :=
  if tab_eqb (activeTab (app e)) AI && has_key
  then upd_media (set_aiImage None) (set_processing true e) else e.

Definition ai_done (result : option string) (e : Editor) : Editor :=
  let e := match result with Some r => upd_media (set_aiImage (Some r)) e | None => e end in
  set_processing false e.

(** A callback run by the browser; [now] is [Date.now()]. *)
Definition run_task (now : Z) (t : Task) (e : Editor) : Editor :=
  match t with
  | TPlaceholder =>
      renderCanvas_call (upd_media (set_originalImg (Some (DataUrl PLACEHOLDER)))
        (upd_app (with_source KImage) (upd_media (set_imageSrc (Some (DataUrl PLACEHOLDER))) e)))
  | TReadMain d =>
      add_task (TImgMain d) (upd_app (with_source KImage) (upd_media (set_imageSrc (Some (DataUrl d))) e))
  | TImgMain d => renderCanvas_call (upd_media (set_originalImg (Some (DataUrl d))) e)
  | TReadBlend d m =>
      add_task (TImgBlend d m) (upd_app (with_blendType (Some KImage)) (upd_media (set_imageSrc2 (Some (DataUrl d))) e))
  | TImgBlend d m =>
      let e := upd_media (set_blendImg (Some (DataUrl d))) e in
      if mode_eqb m IMAGE then renderCanvas_call e else e
  | TCaptureStop mime =>
      let '(u, e) := createObjectURL e in
      let e := registerUrl u e in
      let e := upd_media (set_imageSrc (Some u)) (upd_app (with_source KVideo) e) in
      let e := if editor_view (appMode (app e)) then upd_media (set_uploadedVideo (Some u)) e else e in
      setAppMode IMAGE (upd_app (with_tab MANUAL) (set_capturing false e))
  | TRecData i => set_rec (mk_rec (isRecording (rec e)) (recorder (rec e)) (chunks (rec e) ++ [i]) (next_rec (rec e))) e
  | TRecStop i mime =>
      let '(u, e) := createObjectURL e in
      let e := registerUrl u e in
      click (mk_download ("screen_rec_" +:+ pretty now +:+ "." +:+ rec_ext mime) u (chunks (rec e))) e
  | TPrintLoad d true m t =>
      let e := upd_media (set_originalImg (Some (DataUrl d))) e in
      let e := registerUrl (DataUrl d) e in
      let e := upd_media (set_imageSrc (Some (DataUrl d))) e in
      let e := upd_app (with_source KImage) e in
      renderCanvas_call (upd_app (with_tab MANUAL) (upd_media (set_aiImage None) e))
  | TPrintLoad d false m t =>
      let e := upd_media (set_originalImg (Some (DataUrl d))) e in
      let e := upd_app (with_source KImage) (upd_media (set_imageSrc (Some (DataUrl d))) e) in
      let e := if mode_eqb m CAMERA then setAppMode IMAGE e else e in
      let e := if tab_eqb t MANUAL then upd_app (with_glitch ParamStore.NEUTRAL_GLITCH) e else e in
      renderCanvas_call e
  end.

End Handlers.


(** ** The user's actions and the browser's callbacks *)

(** The suggestions of the AI panel (Profile.tsx, lines 238-244). *)
Definition suggestions : list string :=
  ["Digital Decay"; "VHS Tracking Error"; "Broken LCD Screen"; "Melting Pixels"; "Data Compression Artifacts"].

Inductive Action :=
  | ALandingUpload (f : option File)          (* landing page, lines 845-850 *)
  | ALandingCamera                            (* landing page, line 858 *)
  | ALogo                                     (* editor header, line 886 *)
  | ATab (t : Tab)                            (* tab buttons, lines 896-903 *)
  | ADark                                     (* lines 827 and 910 *)
  | AUpload (f : option File)                 (* + Change Image / Video, line 978 *)
  | AFacing                                   (* Switch Cam, line 990 *)
  | AUpload2 (f : option File)                (* Controls, onUploadSecondImage, line 1025 *)
  | ACapture (ok : bool)                      (* Controls, onCaptureLoop, line 1027 *)
  | APrintLayer (canvas_data : string)        (* Layer / Snapshot, lines 916 and 922 *)
  | ARec (ok : bool)                          (* Rec / Stop, line 929 *)
  | AExportOpen                               (* Export Signal, line 936 *)
  | AExportClose                              (* the modal's close button, line 1091 *)
  | ACaption (c : string)                     (* the caption input, line 1045 *)
  | ADownload (now : Z) (canvas_data : string)  (* Download, line 1053 *)
  | APrompt (p : string)                      (* AI panel: textarea and suggestions *)
  | AGenerate (has_key : bool)                (* AI panel: EXECUTE *)
  | AGenerated (result : option string)       (* the AI request settles *)
  | ARun (i : nat) (now : Z).                 (* the browser runs the i-th callback *)

Section Steps.

Variable supports_mp4 : bool.

Definition in_editor (e : Editor) : bool := editor_view (appMode (app e)).

Definition tab_is (t : Tab) (e : Editor) : bool := tab_eqb (activeTab (app e)) t.

(** An action, where the control that triggers it is on screen. *)
Definition act (a : Action) (e : Editor) : Editor :=
  match a with
  | ALandingUpload f =>
      if mode_eqb (appMode (app e)) LANDING then setAppMode IMAGE (handleFileUpload f e) else e
  | ALandingCamera => if mode_eqb (appMode (app e)) LANDING then setAppMode CAMERA e else e
  | ALogo => if in_editor e then setAppMode LANDING e else e
  | ATab t => if in_editor e then upd_app (with_tab t) e else e
  | ADark =>
      if in_editor e || mode_eqb (appMode (app e)) LANDING then set_dark (negb (darkMode e)) e else e
  | AUpload f => if mode_eqb (appMode (app e)) IMAGE then handleFileUpload f e else e
  | AFacing =>
      if mode_eqb (appMode (app e)) CAMERA
      then upd_app (with_facing (match facingMode (app e) with FUser => FEnvironment | FEnvironment => FUser end)) e
      else e
  | AUpload2 f => if in_editor e && negb (tab_is AI e) then handleFileUpload2 f e else e
  | ACapture ok => if in_editor e && negb (tab_is AI e) then handleCaptureLoop supports_mp4 ok e else e
  | APrintLayer d =>
      if in_editor e && (negb (tab_is AI e) || negb (is_none (aiImage (media e))))
      then handlePrintLayer d e else e
  | ARec ok => if in_editor e && negb (tab_is AI e) then toggleRecording supports_mp4 ok e else e
  | AExportOpen => if in_editor e then set_modal true e else e
  | AExportClose => if in_editor e && showExportModal e then set_modal false e else e
  | ACaption c => if in_editor e && showExportModal e then set_caption c e else e
  | ADownload now d => if in_editor e && showExportModal e then handleDownload now d e else e
  | APrompt p => if in_editor e && tab_is AI e then set_prompt p e else e
  | AGenerate k => if in_editor e && tab_is AI e && negb (processing e) then ai_start k e else e
  | AGenerated r => if processing e then ai_done r e else e
  | ARun i now =>
      match tasks e !! i with
      | Some t => run_task now t (set_tasks (delete i (tasks e)) e)
      | None => e
      end
  end.

(** The commit after it: the placeholder effect, and the AI panel's
    state, lost when the panel unmounts (it is shown in the editor's AI
    tab only). *)
Definition commit (before e : Editor) : Editor :=
  let e := placeholder_effect before e in
  if in_editor e && tab_is AI e then e else set_prompt "" e.

Definition step (a : Action) (e : Editor) : Editor := commit e (act a e).

(** The App's first render: the landing page, nothing loaded. *)
Definition initial_editor : Editor :=
  mk_editor initial_state (mk_media None None None None None None None) (mk_rec false None [] 0)
    false false false "" false "" [] 0 [] 0 [].

Inductive reachable : Editor -> Prop :=
  | reach_init : reachable initial_editor
  | reach_step a e : reachable e -> reachable (step a e).

End Steps.


(** ** Invariants *)

Local Open Scope nat_scope.

(** Every object URL created so far is in [objectUrlsRef], so the
    unmount cleanup (lines 156-162) revokes it. *)
Definition urls_ok (e : Editor) : Prop := forall n, n < next_blob e -> In (Blob n) (objectUrls e).

(** [e'] keeps the URLs [e] registered, in order, and has registered
    every URL created since. *)
Definition urls_ext (e e' : Editor) : Prop :=
  objectUrls e `prefix_of` objectUrls e' /\ next_blob e <= next_blob e' /\
  forall n, next_blob e <= n < next_blob e' -> In (Blob n) (objectUrls e').

Definition is_capture (t : Task) : bool := match t with TCaptureStop _ => true | _ => false end.

Definition captures (l : list Task) : nat := length (List.filter is_capture l).
Arguments captures : simpl never.

(** One capture callback pending while [isCapturingLoop], none
    otherwise. *)
Definition cap_ok (e : Editor) : Prop := captures (tasks e) = Nat.b2n (isCapturingLoop e).

(** Off the editor its [<video>] elements do not exist. *)
Definition refs_ok (e : Editor) : Prop :=
  in_editor e = false -> uploadedVideo (media e) = None /\ blendVideo (media e) = None.

Definition editor_inv (e : Editor) : Prop := urls_ok e /\ cap_ok e /\ refs_ok e.

(** What the ordering theorems follow: the mode, the source kind, the
    source, the image element's source, the pending callbacks and the
    next object URL. *)
Definition view (e : Editor) : AppMode * MediaKind * option Src * option Src * list Task * nat :=
  (appMode (app e), sourceType (app e), imageSrc (media e), originalImg (media e), tasks e, next_blob e).

(** What the recording theorem follows: whether the Rec button is shown,
    the recorder state, the pending callbacks and the recorders whose
    data each downloaded file holds. *)
Definition recv (e : Editor) : bool * Rec * list Task * list (list nat) :=
  (in_editor e && negb (tab_is AI e), rec e, tasks e, map dchunks (downloads e)).

(** ** Lemmas *)

Lemma urls_ext_trans e1 e2 e3 : urls_ext e1 e2 -> urls_ext e2 e3 -> urls_ext e1 e3.
Proof.
  intros (P1 & L1 & H1) (P2 & L2 & H2). split_and!; [by etrans | lia |].
  intros n Hn. destruct (decide (n < next_blob e2)) as [Hlt|Hge]; [|apply H2; lia].
  destruct P2 as [l0 ->]. apply in_or_app. left. apply H1. lia.
Qed.

Lemma urls_ext_app e e' l :
  objectUrls e' = objectUrls e ++ l -> next_blob e' = next_blob e -> urls_ext e e'.
Proof. intros Hu Hn. split_and!; [rewrite Hu; by eexists | lia | lia]. Qed.

Lemma urls_ext_same e e' : objectUrls e' = objectUrls e -> next_blob e' = next_blob e -> urls_ext e e'.
Proof. intros Hu. apply (urls_ext_app e e' []). by rewrite app_nil_r. Qed.

(** A fresh object URL registered at once. *)
Lemma urls_ext_blob e e' l :
  objectUrls e' = objectUrls e ++ Blob (next_blob e) :: l -> next_blob e' = S (next_blob e) -> urls_ext e e'.
Proof.
  intros Hu Hn. split_and!; [rewrite Hu; by eexists | lia |].
  intros n Hr. assert (n = next_blob e) as -> by lia. rewrite Hu. apply in_or_app. by right; left.
Qed.

Lemma urls_ok_ext e e' : urls_ok e -> urls_ext e e' -> urls_ok e'.
Proof.
  intros H (P & _ & H'). intros n Hn. destruct (decide (n < next_blob e)); [|apply H'; lia].
  destruct P as [l0 ->]. apply in_or_app. left. by apply H.
Qed.

Ltac urls_tac :=
  first [ apply urls_ext_same; reflexivity
        | eapply urls_ext_app; reflexivity
        | eapply urls_ext_blob; reflexivity ].

Lemma commit_urls b e : objectUrls (commit b e) = objectUrls e /\ next_blob (commit b e) = next_blob e.
Proof. unfold commit, placeholder_effect. repeat case_match; split; reflexivity. Qed.

Lemma run_task_urls now t e : urls_ext e (run_task now t e).
Proof. destruct t as [| | | | | | | |d [] m t]; cbn; repeat case_match; urls_tac. Qed.

Lemma act_urls mp4 a e : urls_ext e (act mp4 a e).
Proof.
  destruct a; cbn [act]; repeat case_match; try urls_tac;
    try match goal with |- urls_ext ?e0 (run_task ?n ?t ?e1) =>
      apply (urls_ext_trans e0 e1); [apply urls_ext_same; reflexivity | apply run_task_urls] end;
    unfold setAppMode, handleFileUpload, handleFileUpload2, handleCaptureLoop, handlePrintLayer,
      handleDownload, toggleRecording, ai_start, ai_done in *; cbn; repeat case_match; urls_tac.
Qed.

Lemma step_urls mp4 a e : urls_ext e (step mp4 a e).
Proof.
  eapply urls_ext_trans; [apply (act_urls mp4 a e)|].
  destruct (commit_urls e (act mp4 a e)) as [Hu Hn]. by apply urls_ext_same.
Qed.


Lemma captures_app l l' : captures (l ++ l') = captures l + captures l'.
Proof. unfold captures. by rewrite List.filter_app, length_app. Qed.

Lemma captures_delete l i t :
  l !! i = Some t -> captures l = captures (delete i l) + (if is_capture t then 1 else 0).
Proof.
  unfold captures. revert i. induction l as [|x l IH]; intros [|i] H; simplify_eq/=.
  - destruct (is_capture t); simpl; lia.
  - specialize (IH i H). destruct (is_capture x); simpl; lia.
Qed.

Lemma captures_one t : captures [t] = if is_capture t then 1 else 0.
Proof. unfold captures. simpl. by destruct (is_capture t). Qed.

Ltac cap_tac :=
  cbn in *; rewrite ?captures_app, ?captures_one in *; cbn in *;
  repeat match goal with E : isCapturingLoop _ = _ |- _ => rewrite E in *; clear E end; cbn in *; lia.

Lemma run_task_cap now t e :
  captures (tasks (run_task now t e)) = captures (tasks e) /\
  isCapturingLoop (run_task now t e) = if is_capture t then false else isCapturingLoop e.
Proof. destruct t as [| | | | | | | |d [] m t]; cbn; repeat case_match; split; cap_tac || reflexivity. Qed.

Lemma commit_cap b e : cap_ok e -> cap_ok (commit b e).
Proof. unfold cap_ok. intros H. unfold commit, placeholder_effect. repeat case_match; cap_tac. Qed.

Lemma act_cap mp4 a e : cap_ok e -> cap_ok (act mp4 a e).
Proof.
  unfold cap_ok. intros H. destruct a; cbn [act]; repeat case_match; try exact H.
  all: try match goal with E : tasks ?e0 !! _ = Some ?t |- context [run_task ?n ?t ?e1] =>
         destruct (run_task_cap n t e1) as [-> ->]; cbn; rewrite (captures_delete _ _ _ E) in H;
         destruct t; cbn in *; destruct (isCapturingLoop e0); cbn in *; lia end.
  all: unfold setAppMode, handleFileUpload, handleFileUpload2, handleCaptureLoop, handlePrintLayer,
      handleDownload, toggleRecording, ai_start, ai_done in *; cbn; repeat case_match; cap_tac.
Qed.


Ltac refs_tac :=
  match goal with e : Editor |- _ => let md := fresh "md" in destruct e as [[md]]; destruct md end;
  unfold refs_ok, in_editor, editor_view; cbn; repeat case_match; cbn;
  intros Ha Hb; first [discriminate | split; reflexivity | apply Ha; reflexivity].

Lemma run_task_refs now t e : refs_ok e -> refs_ok (run_task now t e).
Proof. destruct t as [| | | | | | | |d [] m t]; unfold setAppMode; refs_tac. Qed.

Lemma commit_refs b e : refs_ok e -> refs_ok (commit b e).
Proof. unfold commit, placeholder_effect. refs_tac. Qed.

Lemma act_refs mp4 a e : refs_ok e -> refs_ok (act mp4 a e).
Proof.
  destruct a; cbn [act].
  19: { intros Hr. case_match; [|exact Hr]. apply run_task_refs. revert Hr. refs_tac. }
  all: unfold setAppMode, handleFileUpload, handleFileUpload2, handleCaptureLoop, handlePrintLayer,
      handleDownload, toggleRecording, ai_start, ai_done; refs_tac.
Qed.


(** A commit after which neither [appMode] nor [imageSrc] changed, or
    with a source loaded, runs no placeholder load. *)
Lemma commit_keeps b e :
  (appMode (app b) = appMode (app e) /\ imageSrc (media b) = imageSrc (media e)) \/ imageSrc (media e) <> None ->
  view (commit b e) = view e.
Proof.
  intros H. unfold commit, placeholder_effect.
  assert (Hf : ((negb (mode_eqb (appMode (app b)) (appMode (app e))) ||
                 bool_decide (imageSrc (media b) <> imageSrc (media e))) &&
                mode_eqb (appMode (app e)) IMAGE && is_none (imageSrc (media e))) = false).
  { destruct H as [[-> ->] | H].
    - rewrite bool_decide_eq_false_2 by tauto. by destruct (appMode (app e)).
    - destruct (imageSrc (media e)); [apply andb_false_r | congruence]. }
  rewrite Hf. by case_match.
Qed.

Lemma step_run mp4 e i now t :
  tasks e !! i = Some t -> step mp4 (ARun i now) e = commit e (run_task now t (set_tasks (delete i (tasks e)) e)).
Proof. intros H. unfold step, act. by rewrite H. Qed.

Lemma view_run_read mp4 e i now d m k s o ts n :
  view e = (m, k, s, o, ts, n) -> ts !! i = Some (TReadMain d) ->
  view (step mp4 (ARun i now) e) = (m, KImage, Some (DataUrl d), o, delete i ts ++ [TImgMain d], n).
Proof.
  intros Hv Ht. unfold view in Hv. injection Hv as <- <- <- <- <- <-.
  rewrite (step_run _ _ _ _ _ Ht), commit_keeps by (right; discriminate). reflexivity.
Qed.

Lemma view_run_img mp4 e i now d m k s o ts n :
  view e = (m, k, s, o, ts, n) -> ts !! i = Some (TImgMain d) ->
  view (step mp4 (ARun i now) e) = (m, k, s, Some (DataUrl d), delete i ts, n).
Proof.
  intros Hv Ht. unfold view in Hv. injection Hv as <- <- <- <- <- <-.
  rewrite (step_run _ _ _ _ _ Ht), commit_keeps by (left; split; reflexivity). reflexivity.
Qed.

Lemma view_run_placeholder mp4 e i now m k s o ts n :
  view e = (m, k, s, o, ts, n) -> ts !! i = Some TPlaceholder ->
  view (step mp4 (ARun i now) e) = (m, KImage, Some (DataUrl PLACEHOLDER), Some (DataUrl PLACEHOLDER), delete i ts, n).
Proof.
  intros Hv Ht. unfold view in Hv. injection Hv as <- <- <- <- <- <-.
  rewrite (step_run _ _ _ _ _ Ht), commit_keeps by (right; discriminate). reflexivity.
Qed.

Lemma view_landing_image mp4 e f :
  appMode (app e) = LANDING -> imageSrc (media e) = None -> is_video_file f = false ->
  view (step mp4 (ALandingUpload (Some f)) e) =
  (IMAGE, sourceType (app e), None, originalImg (media e), tasks e ++ [TReadMain (fdata f); TPlaceholder], next_blob e).
Proof.
  intros Hm Hs Hv. unfold step, act. rewrite Hm. cbn. unfold handleFileUpload. rewrite Hv.
  unfold commit, placeholder_effect. cbn. rewrite Hm, Hs. cbn. unfold view. case_match; cbn; by rewrite <- app_assoc, Hs.
Qed.

Lemma view_upload_image mp4 e f :
  appMode (app e) = IMAGE -> is_video_file f = false ->
  view (step mp4 (AUpload (Some f)) e) =
  (IMAGE, sourceType (app e), imageSrc (media e), originalImg (media e), tasks e ++ [TReadMain (fdata f)], next_blob e).
Proof.
  intros Hm Hv. unfold step, act. rewrite Hm. cbn. unfold handleFileUpload. rewrite Hv.
  rewrite commit_keeps by (left; split; reflexivity). unfold view. cbn. by rewrite Hm.
Qed.

Lemma view_upload_video mp4 e f :
  appMode (app e) = IMAGE -> is_video_file f = true ->
  view (step mp4 (AUpload (Some f)) e) =
  (IMAGE, KVideo, Some (Blob (next_blob e)), originalImg (media e), tasks e, S (next_blob e)).
Proof.
  intros Hm Hv. unfold step, act. rewrite Hm. cbn. unfold handleFileUpload. rewrite Hv. cbn.
  rewrite Hm. cbn. rewrite commit_keeps by (right; cbn; discriminate). unfold view. cbn. by rewrite Hm.
Qed.

(** A commit leaves the recorder, the downloads and the component state
    as they are. *)
Lemma commit_rec b e : rec (commit b e) = rec e /\ downloads (commit b e) = downloads e /\ app (commit b e) = app e.
Proof. unfold commit, placeholder_effect. repeat case_match; auto. Qed.

Lemma recv_commit b e :
  appMode (app b) = appMode (app e) -> imageSrc (media b) = imageSrc (media e) -> recv (commit b e) = recv e.
Proof.
  intros Hm Hs. pose proof (commit_keeps b e (or_introl (conj Hm Hs))) as V. unfold view in V.
  injection V as _ _ _ _ Ht _. destruct (commit_rec b e) as (Hr & Hd & Ha).
  unfold recv, in_editor, tab_is. by rewrite Hr, Hd, Ha, Ht.
Qed.

Lemma recv_start mp4 e r cs n ts ds :
  recv e = (true, mk_rec false r cs n, ts, ds) ->
  recv (step mp4 (ARec true) e) = (true, mk_rec true (Some n) [] (S n), ts, ds).
Proof.
  intros Hv. unfold recv in Hv. injection Hv as Hg Hr Ht Hd. unfold step. cbn [act]. rewrite Hg.
  unfold toggleRecording. rewrite Hr. cbn. rewrite recv_commit by reflexivity. unfold recv, in_editor, tab_is in *. cbn in *. by rewrite Hg, Ht, Hd.
Qed.

Lemma recv_stop mp4 e b i cs n ts ds :
  recv e = (true, mk_rec true (Some i) cs n, ts, ds) ->
  recv (step mp4 (ARec b) e) =
  (true, mk_rec false (Some i) cs n, ts ++ [TRecData i; TRecStop i (getSupportedMimeType mp4)], ds).
Proof.
  intros Hv. unfold recv in Hv. injection Hv as Hg Hr Ht Hd. unfold step. cbn [act]. rewrite Hg.
  unfold toggleRecording. rewrite Hr. cbn. rewrite recv_commit by reflexivity. unfold recv, in_editor, tab_is in *. cbn in *.
  by rewrite Hg, Ht, Hd, <- app_assoc.
Qed.

Lemma recv_data mp4 e k now i g r ts ds :
  recv e = (g, r, ts, ds) -> ts !! k = Some (TRecData i) ->
  recv (step mp4 (ARun k now) e) = (g, mk_rec (isRecording r) (recorder r) (chunks r ++ [i]) (next_rec r), delete k ts, ds).
Proof.
  intros Hv Hk. unfold recv in Hv. injection Hv as Hg Hr Ht Hd. subst. rewrite (step_run _ _ _ _ _ Hk).
  rewrite recv_commit by reflexivity. unfold recv, in_editor, tab_is in *. cbn in *. reflexivity.
Qed.

Lemma recv_stop_event mp4 e k now i m g r ts ds :
  recv e = (g, r, ts, ds) -> ts !! k = Some (TRecStop i m) ->
  recv (step mp4 (ARun k now) e) = (g, r, delete k ts, ds ++ [chunks r]).
Proof.
  intros Hv Hk. unfold recv in Hv. injection Hv as Hg Hr Ht Hd. subst. rewrite (step_run _ _ _ _ _ Hk).
  rewrite recv_commit by reflexivity. unfold recv, in_editor, tab_is in *. cbn in *. by rewrite map_app.
Qed.

Lemma recv_downloads e v : recv e = v -> map dchunks (downloads e) = v.2.
Proof. by intros <-. Qed.

Lemma reachable_editor_inv mp4 e : reachable mp4 e -> editor_inv e.
Proof.
  induction 1 as [|a e _ (Hu & Hc & Hr)].
  - split_and!; [intros n Hn; cbn in Hn; lia | reflexivity | intros _; split; reflexivity].
  - split_and!; [eapply urls_ok_ext; [exact Hu | apply step_urls] | apply commit_cap, act_cap, Hc |
                 apply commit_refs, act_refs, Hr].
Qed.

(** ** Theorems *)

(** C14: every object URL the editor creates ([handleFileUpload],
    [handleFileUpload2], the loop capture, the recordings) is in
    [objectUrlsRef] in every reachable state, so the unmount cleanup
    revokes it; and no step ever removes a registered URL: a blob that
    is replaced stays allocated until the App unmounts. *)
Theorem reachable_urls_registered mp4 e :
  reachable mp4 e ->
  (forall n, n < next_blob e -> In (Blob n) (objectUrls e)) /\
  forall a, objectUrls e `prefix_of` objectUrls (step mp4 a e).
Proof.
  intros Hr. split; [exact (proj1 (reachable_editor_inv mp4 e Hr))|].
  intros a. exact (proj1 (step_urls mp4 a e)).
Qed.

(** C15: at most one loop capture runs at a time: in every reachable
    state the capture's pending [onstop] is queued once while
    [isCapturingLoop] holds and not at all otherwise, and a click on the
    capture button during a capture changes nothing. *)
Theorem reachable_one_capture mp4 e :
  reachable mp4 e ->
  captures (tasks e) = Nat.b2n (isCapturingLoop e) /\
  (isCapturingLoop e = true -> forall ok, act mp4 (ACapture ok) e = e).
Proof.
  intros Hr. split; [exact (proj1 (proj2 (reachable_editor_inv mp4 e Hr)))|].
  intros Hc ok. cbn [act]. unfold handleCaptureLoop. rewrite Hc. by case_match.
Qed.

(** C16: a finished capture shows the captured loop: when the capture's
    [onstop] runs, the editor is in image mode with the new blob as its
    video source, in the manual tab, no capture pending, and in a state
    that loops (Loop.v's [shouldLoop]); the blob reaches the video
    element only when the editor was still shown: after leaving it
    during the 3 seconds the captured loop never plays. *)
Theorem capture_done mp4 e i now m :
  reachable mp4 e -> tasks e !! i = Some (TCaptureStop m) ->
  let e' := step mp4 (ARun i now) e in
  appMode (app e') = IMAGE /\ sourceType (app e') = KVideo /\ activeTab (app e') = MANUAL /\
  imageSrc (media e') = Some (Blob (next_blob e)) /\ isCapturingLoop e' = false /\
  captures (tasks e') = 0 /\ RenderLoop.shouldLoop (app e') = true /\
  uploadedVideo (media e') = if in_editor e then Some (Blob (next_blob e)) else None.
Proof.
  intros Hr Ht. destruct (reachable_editor_inv mp4 e Hr) as (_ & Hc & Hrf).
  unfold cap_ok in Hc. rewrite (captures_delete _ _ _ Ht) in Hc. cbn in Hc.
  unfold step, act. rewrite Ht. unfold refs_ok, in_editor in *.
  destruct (editor_view (appMode (app e))) eqn:Ev; [|destruct (Hrf eq_refl) as [Hv _]];
    cbn; rewrite Ev; unfold commit, placeholder_effect, in_editor; cbn;
    repeat case_match; cbn; split_and!; try reflexivity; try congruence;
    destruct (isCapturingLoop e); cbn in Hc; lia.
Qed.





(** C17: the placeholder can replace an image uploaded from the landing
    page.  Uploading an image there (nothing loaded yet) starts the file
    read, and the editor, in image mode without a source, starts the
    placeholder load.  The editor ends on the user's image only when the
    placeholder finishes first; when the file is read first, the
    placeholder's [onload] replaces it. *)
Theorem landing_image_upload_race mp4 e f now :
  appMode (app e) = LANDING -> imageSrc (media e) = None -> tasks e = [] -> is_video_file f = false ->
  let e1 := step mp4 (ALandingUpload (Some f)) e in
  let file_first := step mp4 (ARun 0 now) (step mp4 (ARun 1 now) (step mp4 (ARun 0 now) e1)) in
  let placeholder_first := step mp4 (ARun 0 now) (step mp4 (ARun 0 now) (step mp4 (ARun 1 now) e1)) in
  tasks e1 = [TReadMain (fdata f); TPlaceholder] /\
  view file_first = (IMAGE, KImage, Some (DataUrl PLACEHOLDER), Some (DataUrl PLACEHOLDER), [], next_blob e) /\
  view placeholder_first = (IMAGE, KImage, Some (DataUrl (fdata f)), Some (DataUrl (fdata f)), [], next_blob e).
Proof.
  intros Hm Hs Ht Hv e1 ff pf.
  pose proof (view_landing_image mp4 e f Hm Hs Hv) as V1. rewrite Ht in V1. fold e1 in V1.
  split; [exact (f_equal (fun v => v.1.2) V1)|]. split.
  - pose proof (view_run_read mp4 _ 0 now _ _ _ _ _ _ _ V1 eq_refl) as V2.
    pose proof (view_run_img mp4 _ 1 now _ _ _ _ _ _ _ V2 eq_refl) as V3.
    exact (view_run_placeholder mp4 _ 0 now _ _ _ _ _ _ V3 eq_refl).
  - pose proof (view_run_placeholder mp4 _ 1 now _ _ _ _ _ _ V1 eq_refl) as V2.
    pose proof (view_run_read mp4 _ 0 now _ _ _ _ _ _ _ V2 eq_refl) as V3.
    exact (view_run_img mp4 _ 0 now _ _ _ _ _ _ _ V3 eq_refl).
Qed.

(** C18: a file read that finishes after a later upload wins.  In image
    mode, choosing an image and then a video shows the video at once
    (its object URL is synchronous); when the image's [FileReader]
    completes afterwards, the editor switches back to that image, and the
    video the user chose last is no longer shown, its URL still
    allocated. *)
Theorem stale_image_read mp4 e fi fv now :
  appMode (app e) = IMAGE -> tasks e = [] -> is_video_file fi = false -> is_video_file fv = true ->
  let e2 := step mp4 (AUpload (Some fv)) (step mp4 (AUpload (Some fi)) e) in
  let e3 := step mp4 (ARun 0 now) e2 in
  view e2 = (IMAGE, KVideo, Some (Blob (next_blob e)), originalImg (media e), [TReadMain (fdata fi)], S (next_blob e)) /\
  view e3 = (IMAGE, KImage, Some (DataUrl (fdata fi)), originalImg (media e), [TImgMain (fdata fi)], S (next_blob e)) /\
  In (Blob (next_blob e)) (objectUrls e3).
Proof.
  intros Hm Ht Hi Hv e2 e3.
  pose proof (view_upload_image mp4 e fi Hm Hi) as V1. rewrite Ht in V1. unfold view in V1.
  injection V1 as Hm1 _ _ Ho Hq Hn.
  pose proof (view_upload_video mp4 _ fv Hm1 Hv) as V2. rewrite Ho, Hq, Hn in V2. fold e2 in V2.
  pose proof (view_run_read mp4 _ 0 now _ _ _ _ _ _ _ V2 eq_refl) as V3. fold e3 in V3.
  split_and!; [exact V2 | exact V3 |].
  destruct (urls_ext_trans _ _ _ (urls_ext_trans _ _ _ (step_urls mp4 (AUpload (Some fi)) e)
              (step_urls mp4 (AUpload (Some fv)) _)) (step_urls mp4 (ARun 0 now) e2)) as (_ & _ & H).
  pose proof (f_equal (fun v => v.2) V3) as Hn3. cbn in Hn3. unfold e3 in Hn3. apply H. lia.
Qed.

(** C19: an upload on the landing page of a video never plays it.  The
    upload creates and registers the object URL and the editor opens in
    image mode with the video as its source, but the [<video>] element
    that [handleFileUpload] hands the URL to is not mounted on the
    landing page, and the element the editor mounts has no source: the
    video source stays unset. *)
Theorem landing_video_never_plays mp4 e f :
  reachable mp4 e -> appMode (app e) = LANDING -> is_video_file f = true ->
  let e' := step mp4 (ALandingUpload (Some f)) e in
  appMode (app e') = IMAGE /\ sourceType (app e') = KVideo /\
  imageSrc (media e') = Some (Blob (next_blob e)) /\ In (Blob (next_blob e)) (objectUrls e') /\
  uploadedVideo (media e') = None /\ tasks e' = tasks e.
Proof.
  intros Hr Hm Hv e'. destruct (reachable_editor_inv mp4 e Hr) as (_ & _ & Hrf).
  unfold refs_ok, in_editor in Hrf. rewrite Hm in Hrf. destruct (Hrf eq_refl) as [Hu _].
  unfold e', step, act. rewrite Hm. cbn. unfold handleFileUpload. rewrite Hv. cbn. rewrite Hm. cbn.
  unfold commit, placeholder_effect. cbn.
  repeat case_match; cbn in *; rewrite ?andb_false_r in *; try discriminate;
    split_and!; try reflexivity; auto using in_or_app, in_eq.
Qed.

(** C20: the recorders share one chunk buffer.  A recording whose events
    run before the next one starts downloads its own chunk; when the
    next recording starts before the first one's [ondataavailable] and
    [onstop] ran, the first download is right but the buffer is not
    cleared, so the second download carries the first recording's chunk
    before its own. *)
Theorem recording_chunks_shared mp4 e now :
  in_editor e = true -> tab_is AI e = false -> isRecording (rec e) = false -> tasks e = [] ->
  let n := next_rec (rec e) in
  let stop1 := step mp4 (ARec true) (step mp4 (ARec true) e) in
  let run2 s := step mp4 (ARun 0 now) (step mp4 (ARun 0 now) s) in
  map dchunks (downloads (run2 stop1)) = map dchunks (downloads e) ++ [[n]] /\
  map dchunks (downloads (run2 (step mp4 (ARec true) (run2 (step mp4 (ARec true) stop1))))) =
    map dchunks (downloads e) ++ [[n]; [n; S n]].
Proof.
  intros Hg Ha Hi Ht n stop1 run2.
  assert (V0 : recv e = (true, mk_rec false (recorder (rec e)) (chunks (rec e)) n, [], map dchunks (downloads e)))
    by (unfold recv; rewrite Hg, Ha, <- Ht; by destruct (rec e) as [? ? ? ?]; cbn in *; subst).
  pose proof (recv_start mp4 _ _ _ _ _ _ V0) as V1.
  pose proof (recv_stop mp4 _ true _ _ _ _ _ V1) as V2. fold stop1 in V2.
  pose proof (recv_stop_event mp4 _ 0 now _ _ _ _ _ _
    (recv_data mp4 _ 0 now _ _ _ _ _ V2 eq_refl) eq_refl) as V3.
  pose proof (recv_start mp4 _ _ _ _ _ _ V2) as W3.
  pose proof (recv_stop_event mp4 _ 0 now _ _ _ _ _ _
    (recv_data mp4 _ 0 now _ _ _ _ _ W3 eq_refl) eq_refl) as W4.
  pose proof (recv_stop mp4 _ true _ _ _ _ _ W4) as W5.
  pose proof (recv_stop_event mp4 _ 0 now _ _ _ _ _ _
    (recv_data mp4 _ 0 now _ _ _ _ _ W5 eq_refl) eq_refl) as W6.
  apply recv_downloads in V3, W6. unfold run2. cbv beta.
  split; [rewrite V3 | rewrite W6]; cbn; [reflexivity | by rewrite <- app_assoc].
Qed.

End Editor.

(** ** Witnesses *)

Module EditorWitness.
Import Editor.
Local Open Scope nat_scope.

Definition png_file : File := mk_file "image/png" "data:image/png;base64,AAAA".
Definition mp4_file : File := mk_file "video/mp4" "blob-data".

(** The editor in image mode with nothing loaded and nothing pending. *)
Definition image_editor : Editor := upd_app (with_mode IMAGE) initial_editor.

(** A loop capture started from the camera view. *)
Definition capturing : Editor := step false (ACapture true) (step false ALandingCamera initial_editor).

Lemma capturing_reachable : reachable false capturing.
Proof. apply reach_step, reach_step, reach_init. Qed.

Lemma reachable_urls_registered_witness :
  (forall n, n < next_blob capturing -> In (Blob n) (objectUrls capturing)) /\
  forall a, objectUrls capturing `prefix_of` objectUrls (step false a capturing).
Proof. exact (reachable_urls_registered false capturing capturing_reachable). Defined.

Lemma reachable_one_capture_witness :
  captures (tasks capturing) = Nat.b2n (isCapturingLoop capturing) /\
  (isCapturingLoop capturing = true -> forall ok, act false (ACapture ok) capturing = capturing).
Proof. exact (reachable_one_capture false capturing capturing_reachable). Defined.

Lemma capture_done_witness :
  let e' := step false (ARun 0 7) capturing in
  appMode (app e') = IMAGE /\ sourceType (app e') = KVideo /\ activeTab (app e') = MANUAL /\
  imageSrc (media e') = Some (Blob (next_blob capturing)) /\ isCapturingLoop e' = false /\
  captures (tasks e') = 0 /\ RenderLoop.shouldLoop (app e') = true /\
  uploadedVideo (media e') = if in_editor capturing then Some (Blob (next_blob capturing)) else None.
Proof.
  assert (Ht : tasks capturing !! 0 = Some (TCaptureStop (getSupportedMimeType false))) by reflexivity.
  exact (capture_done false capturing 0 7 _ capturing_reachable Ht).
Defined.

Lemma landing_image_upload_race_witness :
  let e1 := step false (ALandingUpload (Some png_file)) initial_editor in
  let file_first := step false (ARun 0 7) (step false (ARun 1 7) (step false (ARun 0 7) e1)) in
  let placeholder_first := step false (ARun 0 7) (step false (ARun 0 7) (step false (ARun 1 7) e1)) in
  tasks e1 = [TReadMain (fdata png_file); TPlaceholder] /\
  view file_first = (IMAGE, KImage, Some (DataUrl PLACEHOLDER), Some (DataUrl PLACEHOLDER), [], next_blob initial_editor) /\
  view placeholder_first = (IMAGE, KImage, Some (DataUrl (fdata png_file)), Some (DataUrl (fdata png_file)), [],
                            next_blob initial_editor).
Proof. exact (landing_image_upload_race false initial_editor png_file 7 eq_refl eq_refl eq_refl eq_refl). Defined.

Lemma stale_image_read_witness :
  let e2 := step false (AUpload (Some mp4_file)) (step false (AUpload (Some png_file)) image_editor) in
  let e3 := step false (ARun 0 7) e2 in
  view e2 = (IMAGE, KVideo, Some (Blob (next_blob image_editor)), originalImg (media image_editor),
             [TReadMain (fdata png_file)], S (next_blob image_editor)) /\
  view e3 = (IMAGE, KImage, Some (DataUrl (fdata png_file)), originalImg (media image_editor),
             [TImgMain (fdata png_file)], S (next_blob image_editor)) /\
  In (Blob (next_blob image_editor)) (objectUrls e3).
Proof. exact (stale_image_read false image_editor png_file mp4_file 7 eq_refl eq_refl eq_refl eq_refl). Defined.

Lemma landing_video_never_plays_witness :
  let e' := step false (ALandingUpload (Some mp4_file)) initial_editor in
  appMode (app e') = IMAGE /\ sourceType (app e') = KVideo /\
  imageSrc (media e') = Some (Blob (next_blob initial_editor)) /\ In (Blob (next_blob initial_editor)) (objectUrls e') /\
  uploadedVideo (media e') = None /\ tasks e' = tasks initial_editor.
Proof. exact (landing_video_never_plays false initial_editor mp4_file (reach_init false) eq_refl eq_refl). Defined.

Lemma recording_chunks_shared_witness :
  let n := next_rec (rec image_editor) in
  let stop1 := step false (ARec true) (step false (ARec true) image_editor) in
  let run2 s := step false (ARun 0 7) (step false (ARun 0 7) s) in
  map dchunks (downloads (run2 stop1)) = map dchunks (downloads image_editor) ++ [[n]] /\
  map dchunks (downloads (run2 (step false (ARec true) (run2 (step false (ARec true) stop1))))) =
    map dchunks (downloads image_editor) ++ [[n]; [n; S n]].
Proof. exact (recording_chunks_shared false image_editor 7 eq_refl eq_refl eq_refl eq_refl). Defined.

End EditorWitness.
