(* ===== verification/Camera.v ===== *)
(** * The camera stream effect

    src/App.tsx, the effect "Camera Setup" (lines 187-234): each time
    [appMode] or [facingMode] changes, React runs the cleanup of the
    previous effect instance and then the new body.  In [CAMERA] mode
    the body stops the tracks of the video element's stream and calls
    [getUserMedia]; the promise settles later, and its continuation
    stores the stream in the instance's local [stream] and, when the
    element is mounted, in [videoRef.current.srcObject].  A rejection
    alerts and returns to the landing page.  The cleanup stops the
    instance's [stream] and the element's [srcObject].

    Module [CameraEffect] keeps what the effect touches: the instance
    now mounted, each instance's [stream], the streams obtained with
    the camera each one opened, the streams whose tracks still run, the
    element's [srcObject] and the [getUserMedia] calls not settled.  It
    runs beside the editor of Editor.v: a step of the system is an
    editor step followed by the commit of its new state ([cam_commit]),
    or the settling of a pending [getUserMedia] ([SGum]).

    The theorems: a camera that is entered and left with every request
    settled in between leaves no track running, and a refused camera
    returns to the landing page with none; but a request that settles
    after the user left the camera leaves a stream running that no later
    step ever stops, and two requests settling out of order (a quick
    "Switch Cam") show the camera the user switched away from. *)

From Stdlib Require Import String.
From stdpp Require Import gmap sets list strings.
From S2P Require Import Prelude Render Editor.
Import Orchestrator.

Module CameraEffect.
Import Editor.Editor.

Record Cam := mk_cam {
  inst : nat;                     (* the effect instance of the last run *)
  inst_stream : gmap nat nat;     (* the local [stream] of each instance, once assigned *)
  streams : gmap nat Facing;      (* every stream obtained, with the camera it opened *)
  live : gset nat;                (* the streams whose tracks run *)
  srcObject : option nat;         (* [videoRef.current.srcObject] *)
  pending : list (nat * Facing);  (* unsettled [getUserMedia]: the instance, the camera asked *)
  next_stream : nat
}.

Definition set_live (l : gset nat) (c : Cam) : Cam :=
  mk_cam (inst c) (inst_stream c) (streams c) l (srcObject c) (pending c) (next_stream c).
Definition set_src (o : option nat) (c : Cam) : Cam :=
  mk_cam (inst c) (inst_stream c) (streams c) (live c) o (pending c) (next_stream c).
Definition set_pending (p : list (nat * Facing)) (c : Cam) : Cam :=
  mk_cam (inst c) (inst_stream c) (streams c) (live c) (srcObject c) p (next_stream c).
Definition set_inst (k : nat) (c : Cam) : Cam :=
  mk_cam k (inst_stream c) (streams c) (live c) (srcObject c) (pending c) (next_stream c).

Definition facing_eqb (a b : Facing) : bool :=
  match a, b with FUser, FUser | FEnvironment, FEnvironment => true | _, _ => false end.

(** [stream.getTracks().forEach(track => track.stop())]. *)
Definition stop_tracks (s : nat) (c : Cam) : Cam := set_live (live c ∖ {[s]}) c.

(** The cleanup (lines 223-233), with the refs of the new render: the
    instance's [stream], then the element's [srcObject] when the element
    is mounted. *)
Definition cleanup (mounted : bool) (c : Cam) : Cam :=
  let c := match inst_stream c !! inst c with Some s => stop_tracks s c | None => c end in
  if mounted then match srcObject c with Some s => set_src None (stop_tracks s c) | None => c end
  else c.

(** The body (lines 188-220) up to the [await] of [startCamera]: a new
    instance; in [CAMERA] mode it stops the tracks of the element's
    stream (without clearing [srcObject]) and calls [getUserMedia]. *)
Definition body (mounted : bool) (m : AppMode) (f : Facing) (c : Cam) : Cam :=
  let c := set_inst (S (inst c)) c in
  if mode_eqb m CAMERA then
    let c := if mounted then match srcObject c with Some s => stop_tracks s c | None => c end else c in
    set_pending (pending c ++ [(inst c, f)]) c
  else c.

(** A commit of the App: the [<video>] element goes with the editor
    view (line 879), then the effect reruns when one of its
    dependencies, [appMode] and [facingMode], changed. *)
Definition cam_commit (before after : AppState) (c : Cam) : Cam :=
  let mounted := editor_view (appMode after) in
  let c := if mounted then c else set_src None c in
  if mode_eqb (appMode before) (appMode after) && facing_eqb (facingMode before) (facingMode after)
  then c
  else body mounted (appMode after) (facingMode after) (cleanup mounted c).

(** The continuation of a fulfilled [getUserMedia] of instance [k]
    (lines 200-212): a fresh stream in the instance's [stream], and in
    [srcObject] when the element is mounted. *)
Definition resolve (mounted : bool) (k : nat) (f : Facing) (c : Cam) : Cam :=
  let s := next_stream c in
  mk_cam (inst c) (<[k:=s]> (inst_stream c)) (<[s:=f]> (streams c)) ({[s]} ∪ live c)
    (if mounted then Some s else srcObject c) (pending c) (S s).

(** The system: an action of the editor, or the [i]-th pending
    [getUserMedia] settling, fulfilled or rejected. *)
Inductive SAction := SEd (a : Action) | SGum (i : nat) (ok : bool).

Section System.

Variable supports_mp4 : bool.

Definition sys_step (a : SAction) (x : Editor * Cam) : Editor * Cam :=
  let '(e, c) := x in
  match a with
  | SEd a => let e' := step supports_mp4 a e in (e', cam_commit (app e) (app e') c)
  | SGum i ok =>
      match pending c !! i with
      | None => (e, c)
      | Some (k, f) =>
          let c := set_pending (delete i (pending c)) c in
          if ok then (e, resolve (in_editor e) k f c)
          else let e' := commit e (setAppMode LANDING e) in (e', cam_commit (app e) (app e') c)
      end
  end.

Definition run_all (l : list SAction) (x : Editor * Cam) : Editor * Cam :=
  fold_left (fun x a => sys_step a x) l x.

(** The mount: the effect's first run on the landing page asks for
    nothing. *)
Definition initial_cam : Cam := mk_cam 0 ∅ ∅ ∅ None [] 0.

Inductive sys_reachable : Editor * Cam -> Prop :=
  | sys_init : sys_reachable (initial_editor, initial_cam)
  | sys_next a x : sys_reachable x -> sys_reachable (sys_step a x).

End System.

(** ** Invariants *)

Local Open Scope nat_scope.

(** A stream nobody will stop: its tracks run, it is not the element's
    source, and only instances whose cleanup already ran hold it. *)
Definition orphan (s : nat) (c : Cam) : Prop :=
  s ∈ live c /\ srcObject c <> Some s /\ (forall k, inst_stream c !! k = Some s -> k < inst c) /\
  s < next_stream c.

(** Every stream an instance holds was obtained. *)
Definition cam_wf (c : Cam) : Prop := forall k s, inst_stream c !! k = Some s -> s < next_stream c.

(** ** Lemmas *)

Ltac cam_unfold := unfold orphan, cam_wf, stop_tracks, set_live, set_src, set_pending, set_inst in *; cbn in *.

Lemma stop_tracks_orphan s s' c : s' <> s -> orphan s c -> orphan s (stop_tracks s' c).
Proof. intros Hne (Hl & Hs & Hk & Hn). cam_unfold. split_and!; [set_solver | done | done | done]. Qed.

Lemma set_src_orphan s c : orphan s c -> orphan s (set_src None c).
Proof. intros (Hl & Hs & Hk & Hn). cam_unfold. by split_and!. Qed.

Lemma set_pending_orphan s p c : orphan s c -> orphan s (set_pending p c).
Proof. done. Qed.

Lemma cleanup_orphan s b c : orphan s c -> orphan s (cleanup b c).
Proof.
  intros Ho. unfold cleanup.
  assert (Ho' : orphan s (match inst_stream c !! inst c with Some s => stop_tracks s c | None => c end)).
  { destruct (inst_stream c !! inst c) as [s'|] eqn:E; [|done].
    apply stop_tracks_orphan; [|done]. intros ->. apply (proj1 (proj2 (proj2 Ho))) in E. lia. }
  destruct b; [|done]. destruct (srcObject _) as [s'|] eqn:E; [|done].
  apply set_src_orphan, stop_tracks_orphan, Ho'. intros ->. by destruct Ho' as (_ & ? & _).
Qed.

Lemma body_orphan s b m f c : orphan s c -> orphan s (body b m f c).
Proof.
  intros Ho. unfold body.
  assert (Hi : orphan s (set_inst (S (inst c)) c)).
  { destruct Ho as (Hl & Hs & Hk & Hn). cam_unfold. split_and!; auto. intros k Hk'. apply Hk in Hk'. lia. }
  destruct (mode_eqb m CAMERA); [|done]. apply set_pending_orphan.
  destruct b; [|done]. destruct (srcObject _) as [s'|] eqn:E; [|done].
  apply stop_tracks_orphan, Hi. intros ->. by destruct Hi as (_ & ? & _).
Qed.

Lemma cam_commit_orphan s a a' c : orphan s c -> orphan s (cam_commit a a' c).
Proof.
  intros Ho. unfold cam_commit. cbv zeta.
  destruct (editor_view _); [|apply set_src_orphan in Ho]; case_match; auto using body_orphan, cleanup_orphan.
Qed.

Lemma resolve_orphan s b k f c : orphan s c -> orphan s (resolve b k f c).
Proof.
  intros (Hl & Hs & Hk & Hn). unfold resolve, orphan; cbn. split_and!.
  - set_solver.
  - destruct b; [intros [=]; lia | done].
  - intros k'. rewrite lookup_insert_Some. intros [[_ <-]|[_ H]]; [lia | by apply Hk].
  - lia.
Qed.

(** The cleanup only stops tracks, and clears [srcObject] when the
    element is mounted. *)
Lemma cleanup_fields b c :
  inst (cleanup b c) = inst c /\ inst_stream (cleanup b c) = inst_stream c /\
  streams (cleanup b c) = streams c /\ pending (cleanup b c) = pending c /\
  next_stream (cleanup b c) = next_stream c /\ (b = false -> srcObject (cleanup b c) = srcObject c).
Proof. unfold cleanup. repeat case_match; cam_unfold; by split_and!. Qed.

(** Leaving the camera for the landing page: a new instance that asks
    for nothing, no element. *)
Lemma leave_camera_commit a a' c :
  appMode a = CAMERA -> appMode a' = LANDING ->
  let c' := cam_commit a a' c in
  inst c' = S (inst c) /\ inst_stream c' = inst_stream c /\ streams c' = streams c /\
  pending c' = pending c /\ next_stream c' = next_stream c /\ srcObject c' = None /\
  forall s, inst_stream c !! inst c = Some s -> live c' ⊆ live c ∖ {[s]}.
Proof.
  intros Hm Hm' c'. unfold c', cam_commit. rewrite Hm, Hm'. cbn -[cleanup].
  destruct (cleanup_fields false (set_src None c)) as (H1 & H2 & H3 & H4 & H5 & H6).
  rewrite H1, H2, H3, H4, H5, H6 by done. split_and!; try done.
  intros s Hs. unfold cleanup. cam_unfold. rewrite Hs. cbn. set_solver.
Qed.

(** Entering the camera from the landing page: a new instance that asks
    for the camera of [facingMode]. *)
Lemma enter_camera_commit a a' c :
  appMode a = LANDING -> appMode a' = CAMERA -> srcObject c = None ->
  let c' := cam_commit a a' c in
  inst c' = S (inst c) /\ inst_stream c' = inst_stream c /\ streams c' = streams c /\
  pending c' = pending c ++ [(S (inst c), facingMode a')] /\ next_stream c' = next_stream c /\
  srcObject c' = None /\ live c' ⊆ live c.
Proof.
  intros Hm Hm' Hs c'. unfold c', cam_commit. rewrite Hm, Hm'. cbn.
  destruct c as [i ist st lv so pd ns]. cbn in Hs. subst so.
  cam_unfold. destruct (ist !! i); cbn; split_and!; set_solver.
Qed.

(** Switching the camera: a new instance that asks for the other
    camera, the element's stream stopped and cleared. *)
Lemma switch_camera_commit a a' c :
  appMode a = CAMERA -> appMode a' = CAMERA -> facing_eqb (facingMode a) (facingMode a') = false ->
  let c' := cam_commit a a' c in
  inst c' = S (inst c) /\ streams c' = streams c /\ next_stream c' = next_stream c /\
  pending c' = pending c ++ [(S (inst c), facingMode a')] /\ srcObject c' = None.
Proof.
  intros Hm Hm' Hf c'. unfold c', cam_commit. rewrite Hm, Hm', Hf. cbn.
  destruct c as [i ist st lv so pd ns]. cam_unfold. destruct (ist !! i), so; cbn; by split_and!.
Qed.

Lemma app_facing_eqb a :
  facing_eqb (facingMode a) (match facingMode a with FUser => FEnvironment | FEnvironment => FUser end) = false.
Proof. by destruct (facingMode a). Qed.

Lemma cleanup_live b c : live (cleanup b c) ⊆ live c.
Proof. unfold cleanup. repeat case_match; cam_unfold; set_solver. Qed.

(** A commit to a mode other than [CAMERA] asks for nothing and starts
    no stream. *)
Lemma cam_commit_noncam a a' c :
  mode_eqb (appMode a') CAMERA = false ->
  let c' := cam_commit a a' c in
  pending c' = pending c /\ next_stream c' = next_stream c /\ streams c' = streams c /\ live c' ⊆ live c.
Proof.
  intros Hm c'. unfold c', cam_commit, body. rewrite Hm. destruct c as [i ist st lv so pd ns].
  unfold cleanup. repeat case_match; cam_unfold; simplify_eq; split_and!; try reflexivity; set_solver.
Qed.

(** Off the editor view the element is unmounted: no [srcObject]. *)
Lemma cam_commit_unmounted a a' c :
  editor_view (appMode a') = false -> srcObject (cam_commit a a' c) = None.
Proof.
  intros Hv. unfold cam_commit, body. rewrite Hv.
  destruct (mode_eqb (appMode a') CAMERA) eqn:Hc; [by destruct (appMode a') |].
  case_match; [done|]. cbn -[cleanup]. by destruct (cleanup_fields false (set_src None c)) as (_ & _ & _ & _ & _ & ->).
Qed.


Create HintDb camera.
#[local] Hint Resolve cam_commit_orphan resolve_orphan set_pending_orphan : camera.

Lemma sys_step_orphan mp4 s a x : orphan s x.2 -> orphan s (sys_step mp4 a x).2.
Proof.
  destruct x as [e c]. intros Ho. destruct a as [a|i ok]; cbn; [auto with camera|].
  destruct (pending c !! i) as [[k f]|]; [|done]. destruct ok; cbn; auto with camera.
Qed.

Lemma run_all_orphan mp4 s l x : orphan s x.2 -> orphan s (run_all mp4 l x).2.
Proof. revert x. induction l as [|a l IH]; intros x Ho; [done|]. apply IH, sys_step_orphan, Ho. Qed.

Lemma cam_commit_wf a a' c : cam_wf c -> cam_wf (cam_commit a a' c).
Proof. unfold cam_commit, body, cleanup. intros H. repeat case_match; cam_unfold; done. Qed.

Lemma resolve_wf b k f c : cam_wf c -> cam_wf (resolve b k f c).
Proof.
  intros H k' s. unfold resolve; cbn. rewrite lookup_insert_Some.
  intros [[_ <-]|[_ Hs]]; [lia | apply H in Hs; lia].
Qed.

Lemma sys_reachable_wf mp4 x : sys_reachable mp4 x -> cam_wf x.2.
Proof.
  induction 1 as [|a [e c] _ IH]; [intros k s; cbn; by rewrite lookup_empty|].
  destruct a as [a|i ok]; cbn; [by apply cam_commit_wf|].
  destruct (pending c !! i) as [[k f]|]; [|done]. destruct ok; cbn; [by apply resolve_wf | by apply cam_commit_wf].
Qed.

(** The editor's steps that change [appMode] here. *)
Lemma step_app mp4 a e : app (step mp4 a e) = app (act mp4 a e).
Proof. unfold step. apply commit_rec. Qed.

Lemma app_logo mp4 e : in_editor e = true -> app (step mp4 ALogo e) = with_mode LANDING (app e).
Proof. intros H. rewrite step_app. cbn [act]. by rewrite H. Qed.

Lemma app_landing_camera mp4 e :
  appMode (app e) = LANDING -> app (step mp4 ALandingCamera e) = with_mode CAMERA (app e).
Proof. intros H. rewrite step_app. cbn [act]. by rewrite H. Qed.

Lemma app_facing mp4 e :
  appMode (app e) = CAMERA ->
  app (step mp4 AFacing e) =
  with_facing (match facingMode (app e) with FUser => FEnvironment | FEnvironment => FUser end) (app e).
Proof. intros H. rewrite step_app. cbn [act]. by rewrite H. Qed.

Lemma app_landing_upload mp4 e fo :
  appMode (app e) = LANDING -> appMode (app (step mp4 (ALandingUpload fo) e)) = IMAGE.
Proof.
  intros H. rewrite step_app. cbn [act]. rewrite H. cbn.
  unfold handleFileUpload. repeat case_match; reflexivity.
Qed.

Lemma app_denied e : app (commit e (setAppMode LANDING e)) = with_mode LANDING (app e).
Proof. apply commit_rec. Qed.

Lemma sys_reachable_src mp4 x : sys_reachable mp4 x -> in_editor x.1 = false -> srcObject x.2 = None.
Proof.
  induction 1 as [|a [e c] _ IH]; [done|]. cbn -[editor_view cam_commit step commit] in *.
  destruct a as [a|i ok]; [apply cam_commit_unmounted|].
  destruct (pending c !! i) as [[k f]|]; [|apply IH]. destruct ok.
  - intros Hv. cbn [fst] in Hv. unfold resolve. cbn -[in_editor]. rewrite Hv. by apply IH.
  - intros _. apply cam_commit_unmounted. by rewrite app_denied.
Qed.

(** ** Theorems *)

(** C21: a camera request that settles after the user left the camera
    leaves the camera on for good.  From a reachable state in [CAMERA]
    mode whose request is pending, the logo click returns to the landing
    page and runs the cleanup while the instance's [stream] is still
    [null]; when [getUserMedia] then fulfils, the stream goes into that
    dead instance's variable and into no element, and no sequence of
    later steps ever stops its tracks. *)
Theorem camera_left_on mp4 e c f :
  sys_reachable mp4 (e, c) -> appMode (app e) = CAMERA -> pending c !! 0 = Some (inst c, f) ->
  let x := sys_step mp4 (SGum 0 true) (sys_step mp4 (SEd ALogo) (e, c)) in
  appMode (app x.1) = LANDING /\ streams x.2 !! next_stream c = Some f /\
  forall l, next_stream c ∈ live (run_all mp4 l x).2.
Proof.
  intros Hr Hm Hp x. pose proof (sys_reachable_wf _ _ Hr) as Hw. cbn in Hw.
  assert (He : in_editor e = true) by (unfold in_editor; by rewrite Hm).
  unfold x. clear x. cbn [sys_step].
  remember (step mp4 ALogo e) as e1 eqn:E1.
  assert (Ha : app e1 = with_mode LANDING (app e)) by (subst e1; by apply app_logo).
  rewrite Ha. destruct (leave_camera_commit (app e) (with_mode LANDING (app e)) c Hm eq_refl)
    as (Hi & His & Hst & Hpd & Hns & Hso & _).
  set (c1 := cam_commit _ _ c) in *. rewrite Hpd, Hp.
  assert (He1 : in_editor e1 = false) by (unfold in_editor; by rewrite Ha).
  rewrite He1. cbn. rewrite Ha. split_and!; [done | by rewrite Hns, lookup_insert_eq |].
  intros l. apply run_all_orphan. unfold orphan; cbn. rewrite Hso, Hi, His, Hns. split_and!.
  - set_solver.
  - done.
  - intros k. rewrite lookup_insert_Some. intros [[<- _]|[_ Hk]]; [lia | apply Hw in Hk; lia].
  - lia.
Qed.

(** C22: a quick "Switch Cam" can show the camera the user switched
    away from.  In [CAMERA] mode with the current request pending, the
    switch runs the cleanup (the stream is still [null]) and a new
    request for the other camera.  When the requests settle in order the
    element shows the new camera; when the old one settles last, its
    continuation still writes [srcObject], so the element shows the old
    camera while [facingMode] names the new one, and both streams run. *)
Theorem quick_switch_shows_old_camera mp4 e c :
  appMode (app e) = CAMERA -> pending c = [(inst c, facingMode (app e))] ->
  let f := facingMode (app e) in
  let f' := match f with FUser => FEnvironment | FEnvironment => FUser end in
  let x1 := sys_step mp4 (SEd AFacing) (e, c) in
  let in_order := sys_step mp4 (SGum 0 true) (sys_step mp4 (SGum 0 true) x1) in
  let out_of_order := sys_step mp4 (SGum 0 true) (sys_step mp4 (SGum 1 true) x1) in
  let s := S (next_stream c) in
  facingMode (app in_order.1) = f' /\ srcObject in_order.2 = Some s /\ streams in_order.2 !! s = Some f' /\
  facingMode (app out_of_order.1) = f' /\ srcObject out_of_order.2 = Some s /\
  streams out_of_order.2 !! s = Some f /\ {[next_stream c; s]} ⊆ live out_of_order.2.
Proof.
  intros Hm Hp f f' x1 io oo s. unfold io, oo, x1. clear io oo x1. cbn [sys_step].
  remember (step mp4 AFacing e) as e1 eqn:E1.
  assert (Ha : app e1 = with_facing f' (app e)) by (subst e1; by apply app_facing).
  rewrite Ha. destruct (switch_camera_commit (app e) (with_facing f' (app e)) c Hm Hm (app_facing_eqb _))
    as (Hi & Hst & Hns & Hpd & Hso).
  set (c1 := cam_commit _ _ c) in *. rewrite Hpd, Hp.
  assert (He1 : in_editor e1 = true) by (unfold in_editor; rewrite Ha; cbn; by rewrite Hm).
  cbn. rewrite He1. cbn. rewrite Ha, Hns. unfold s. cbn.
  rewrite !lookup_insert_eq. split_and!; try done. set_solver.
Qed.

(** C23: with every request settled in between, a camera session leaves
    no track running.  From a reachable landing page with no request
    pending, entering the camera asks for the camera of [facingMode];
    the fulfilled request is shown by the element; leaving by the logo
    stops it (the instance's [stream]), so the streams running
    afterwards are among those running before. *)
Theorem camera_session_clean mp4 e c :
  sys_reachable mp4 (e, c) -> appMode (app e) = LANDING -> pending c = [] ->
  let x1 := sys_step mp4 (SEd ALandingCamera) (e, c) in
  let x2 := sys_step mp4 (SGum 0 true) x1 in
  let x3 := sys_step mp4 (SEd ALogo) x2 in
  srcObject x2.2 = Some (next_stream c) /\ streams x2.2 !! next_stream c = Some (facingMode (app e)) /\
  appMode (app x3.1) = LANDING /\ pending x3.2 = [] /\ live x3.2 ⊆ live c.
Proof.
  intros Hr Hm Hp x1 x2 x3.
  assert (Hs : srcObject c = None)
    by (apply (sys_reachable_src mp4 (e, c) Hr); unfold in_editor; cbn; by rewrite Hm).
  unfold x3, x2, x1. clear x1 x2 x3. cbn [sys_step].
  remember (step mp4 ALandingCamera e) as e1 eqn:E1.
  assert (Ha1 : app e1 = with_mode CAMERA (app e)) by (subst e1; by apply app_landing_camera).
  rewrite Ha1. destruct (enter_camera_commit (app e) (with_mode CAMERA (app e)) c Hm eq_refl Hs)
    as (Hi & His & Hst & Hpd & Hns & Hso & Hl).
  set (c1 := cam_commit _ _ c) in *. rewrite Hpd, Hp. cbn [Datatypes.app lookup list_lookup].
  assert (He1 : in_editor e1 = true) by (unfold in_editor; by rewrite Ha1).
  rewrite He1. cbn [sys_step].
  remember (step mp4 ALogo e1) as e2 eqn:E2.
  assert (Ha2 : app e2 = with_mode LANDING (app e1)) by (subst e2; by apply app_logo).
  rewrite Ha2. set (c2 := resolve true _ _ _).
  destruct (leave_camera_commit (app e1) (with_mode LANDING (app e1)) c2) as (_ & _ & _ & Hpd2 & _ & _ & Hl2);
    [by rewrite Ha1 | done |].
  cbn [fst snd]. rewrite Ha2, Hpd2. cbn. rewrite Hns, Hst, lookup_insert_eq. split_and!; try done.
  rewrite Hl2; [|cbn; by rewrite Hi, Hns, lookup_insert_eq]. cbn. rewrite Hns. clear - Hl. set_solver.
Qed.

(** C24: a refused camera returns to the landing page with nothing
    running.  From a reachable landing page with no request pending,
    entering the camera asks for the camera of [facingMode]; when the
    request is rejected the App alerts and returns to [LANDING], no
    request is left and no stream was started. *)
Theorem camera_denied mp4 e c :
  sys_reachable mp4 (e, c) -> appMode (app e) = LANDING -> pending c = [] ->
  let x1 := sys_step mp4 (SEd ALandingCamera) (e, c) in
  let x2 := sys_step mp4 (SGum 0 false) x1 in
  appMode (app x1.1) = CAMERA /\ pending x1.2 = [(S (inst c), facingMode (app e))] /\
  appMode (app x2.1) = LANDING /\ pending x2.2 = [] /\ live x2.2 ⊆ live c.
Proof.
  intros Hr Hm Hp x1 x2.
  assert (Hs : srcObject c = None)
    by (apply (sys_reachable_src mp4 (e, c) Hr); unfold in_editor; cbn; by rewrite Hm).
  unfold x2, x1. clear x1 x2. cbn [sys_step].
  remember (step mp4 ALandingCamera e) as e1 eqn:E1.
  assert (Ha1 : app e1 = with_mode CAMERA (app e)) by (subst e1; by apply app_landing_camera).
  rewrite Ha1. destruct (enter_camera_commit (app e) (with_mode CAMERA (app e)) c Hm eq_refl Hs)
    as (_ & _ & _ & Hpd & _ & _ & Hl).
  set (c1 := cam_commit _ _ c) in *. rewrite Hpd, Hp. cbn [Datatypes.app lookup list_lookup fst snd].
  set (c2 := set_pending _ c1).
  destruct (cam_commit_noncam (app e1) (app (commit e1 (setAppMode LANDING e1))) c2)
    as (Hpd2 & _ & _ & Hl2); [by rewrite app_denied, Ha1|].
  rewrite app_denied, Ha1 in Hl2, Hpd2 |- *. rewrite Hpd2.
  split_and!; [done | by rewrite Hpd, Hp | done | done | etransitivity; [apply Hl2 | apply Hl]].
Qed.

(** C25: a refusal that settles after the user moved on still sends the
    App to the landing page.  A camera request pending when the user
    left the camera and opened an image from the landing page is
    rejected: its [catch] calls [setAppMode('LANDING')], and the editor
    the user is working in is replaced by the landing page. *)
Theorem stale_denial_leaves_editor mp4 e c f fo :
  appMode (app e) = CAMERA -> pending c !! 0 = Some (inst c, f) ->
  let x2 := sys_step mp4 (SEd (ALandingUpload fo)) (sys_step mp4 (SEd ALogo) (e, c)) in
  let x3 := sys_step mp4 (SGum 0 false) x2 in
  appMode (app x2.1) = IMAGE /\ appMode (app x3.1) = LANDING.
Proof.
  intros Hm Hp x2 x3. unfold x3, x2. clear x2 x3. cbn [sys_step].
  assert (He : in_editor e = true) by (unfold in_editor; by rewrite Hm).
  remember (step mp4 ALogo e) as e1 eqn:E1.
  assert (Ha1 : app e1 = with_mode LANDING (app e)) by (subst e1; by apply app_logo).
  destruct (leave_camera_commit (app e) (app e1) c Hm) as (_ & _ & _ & Hpd & _); [by rewrite Ha1|].
  set (c1 := cam_commit _ _ c) in *. cbn [sys_step].
  remember (step mp4 (ALandingUpload fo) e1) as e2 eqn:E2.
  assert (Hm2 : appMode (app e2) = IMAGE) by (subst e2; apply app_landing_upload; by rewrite Ha1).
  destruct (cam_commit_noncam (app e1) (app e2) c1) as (Hpd2 & _); [by rewrite Hm2|].
  set (c2 := cam_commit _ _ c1) in *. cbn [sys_step]. rewrite Hpd2, Hpd, Hp. cbn.
  by rewrite app_denied, Hm2.
Qed.

End CameraEffect.

(** ** Witnesses *)

Module CameraWitness.
Import Editor.Editor CameraEffect.
Local Open Scope string_scope.

(** The camera entered from the App's first render, its request
    pending. *)
Definition cam_on : Editor * Cam := sys_step false (SEd ALandingCamera) (initial_editor, initial_cam).

Lemma cam_on_reachable : sys_reachable false (cam_on.1, cam_on.2).
Proof. change (sys_reachable false cam_on). apply sys_next, sys_init. Qed.

Lemma camera_left_on_witness :
  let x := sys_step false (SGum 0 true) (sys_step false (SEd ALogo) (cam_on.1, cam_on.2)) in
  appMode (app x.1) = LANDING /\ streams x.2 !! next_stream cam_on.2 = Some FUser /\
  forall l, next_stream cam_on.2 ∈ live (run_all false l x).2.
Proof. exact (camera_left_on false cam_on.1 cam_on.2 FUser cam_on_reachable eq_refl eq_refl). Defined.

Lemma quick_switch_shows_old_camera_witness :
  let f := facingMode (app cam_on.1) in
  let f' := match f with FUser => FEnvironment | FEnvironment => FUser end in
  let x1 := sys_step false (SEd AFacing) (cam_on.1, cam_on.2) in
  let in_order := sys_step false (SGum 0 true) (sys_step false (SGum 0 true) x1) in
  let out_of_order := sys_step false (SGum 0 true) (sys_step false (SGum 1 true) x1) in
  let s := S (next_stream cam_on.2) in
  facingMode (app in_order.1) = f' /\ srcObject in_order.2 = Some s /\ streams in_order.2 !! s = Some f' /\
  facingMode (app out_of_order.1) = f' /\ srcObject out_of_order.2 = Some s /\
  streams out_of_order.2 !! s = Some f /\ {[next_stream cam_on.2; s]} ⊆ live out_of_order.2.
Proof. exact (quick_switch_shows_old_camera false cam_on.1 cam_on.2 eq_refl eq_refl). Defined.

Lemma camera_session_clean_witness :
  let x1 := sys_step false (SEd ALandingCamera) (initial_editor, initial_cam) in
  let x2 := sys_step false (SGum 0 true) x1 in
  let x3 := sys_step false (SEd ALogo) x2 in
  srcObject x2.2 = Some (next_stream initial_cam) /\
  streams x2.2 !! next_stream initial_cam = Some (facingMode (app initial_editor)) /\
  appMode (app x3.1) = LANDING /\ pending x3.2 = [] /\ live x3.2 ⊆ live initial_cam.
Proof. exact (camera_session_clean false initial_editor initial_cam (sys_init false) eq_refl eq_refl). Defined.

Lemma camera_denied_witness :
  let x1 := sys_step false (SEd ALandingCamera) (initial_editor, initial_cam) in
  let x2 := sys_step false (SGum 0 false) x1 in
  appMode (app x1.1) = CAMERA /\ pending x1.2 = [(S (inst initial_cam), facingMode (app initial_editor))] /\
  appMode (app x2.1) = LANDING /\ pending x2.2 = [] /\ live x2.2 ⊆ live initial_cam.
Proof. exact (camera_denied false initial_editor initial_cam (sys_init false) eq_refl eq_refl). Defined.

Lemma stale_denial_leaves_editor_witness :
  let fo := Some (mk_file "image/png" "data:image/png;base64,AAAA") in
  let x2 := sys_step false (SEd (ALandingUpload fo)) (sys_step false (SEd ALogo) (cam_on.1, cam_on.2)) in
  let x3 := sys_step false (SGum 0 false) x2 in
  appMode (app x2.1) = IMAGE /\ appMode (app x3.1) = LANDING.
Proof.
  exact (stale_denial_leaves_editor false cam_on.1 cam_on.2 FUser
           (Some (mk_file "image/png" "data:image/png;base64,AAAA")) eq_refl eq_refl).
Defined.

End CameraWitness.
