(* ===== verification/Timeline.v ===== *)
(** * The Timeline player

    src/components/Timeline.tsx, lines 1-54: [formatTime] (lines 11-16)
    and the [Timeline] component (lines 18-52): a play/pause button, a
    range input over [0, duration || 100] and the two time labels.  The
    App does not render it; its callbacks are the parent's.

    [formatTime] is modelled on the double it receives: [Math.floor] and
    the comparisons act on the exact value ([xv]); [seconds / 60] and
    [(seconds % 1) * 100] are rounded; [%] is exact (ECMA-262's
    [Number::remainder]), so its result is a dyadic rational, turned back
    into a double by the Prelude's [of_dyadic] without rounding.
    [Number.prototype.toString] of an integer is its decimal form below
    10^21 and the exponent form above; the exponent form is not modelled,
    so the label is [None] there.

    The theorems: the seconds field of every finite non-negative time is
    [floor(t) mod 60]; every whole second of the first hour is shown as
    [mm:ss.00]; a time given in hundredths is shown with that many
    hundredths or one less (checked by evaluation on the first half
    minute, 3000 times); and two display faults: 0.29 s reads
    [00:00.28], and a [NaN] duration, the value of [video.duration]
    before its metadata is loaded, reads [NaN:NaN.NaN]. *)

From Stdlib Require Import String ZArith QArith Qround Lia Floats.
From stdpp Require Import strings pretty.
From S2P Require Import Prelude.

Module TimelinePlayer.

Local Open Scope Z_scope.

(** ** The numbers of [formatTime] *)

(** [Math.trunc] of an exact value. *)
Definition qtrunc (q : Q) : Z := if Qle_bool 0 q then Qfloor q else - Qfloor (- q).

(** [Math.floor] on an exact value. *)
Definition floor_x (v : xval) : xval :=
  match v with XFin q => XFin (inject_Z (Qfloor q)) | v => v end.

(** [Number::remainder] (ECMA-262, 6.1.6.1.6): exact, with the sign of
    the dividend, [NaN] for an infinite dividend or a zero divisor. *)
Definition rem_x (a b : xval) : xval :=
  match a, b with
  | XFin x, XFin y => if Qeq_bool y 0 then XNaN else XFin (x - y * inject_Z (qtrunc (x / y)))
  | XFin x, XInf _ => XFin x
  | _, _ => XNaN
  end.

(** [a % b] on doubles. *)
Definition js_mod (a b : float) : float := xval_float (rem_x (xv a) (xv b)).

(** [n.toString()] of a value [Math.floor] returned; [None] for the
    exponent form of 10^21 and above. *)
Definition num_str (v : xval) : option string :=
  match v with
  | XFin q => let n := Qfloor q in if (Z.abs n <? 10 ^ 21) then Some (pretty n) else None
  | XInf false => Some "Infinity"
  | XInf true => Some "-Infinity"
  | XNaN => Some "NaN"
  end.

(** [s.padStart(2, '0')]. *)
Definition padStart2 (s : string) : string :=
  match String.length s with
  | O => "00"
  | 1%nat => "0" +:+ s
  | _ => s
  end.

(** The three fields of [formatTime] (lines 12-14). *)
Definition minutes_of (seconds : float) : xval := floor_x (xv (seconds / zf 60)%float).
Definition seconds_of (seconds : float) : xval := floor_x (rem_x (xv seconds) (xv (zf 60))).
Definition centis_of (seconds : float) : xval := floor_x (xv (js_mod seconds (zf 1) * zf 100)%float).

(** [formatTime] (lines 11-16). *)
Definition formatTime (seconds : float) : option string :=
  match num_str (minutes_of seconds), num_str (seconds_of seconds), num_str (centis_of seconds) with
  | Some m, Some s, Some ms => Some (padStart2 m +:+ ":" +:+ padStart2 s +:+ "." +:+ padStart2 ms)
  | _, _, _ => None
  end.

(** ** The component *)

(** [max={duration || 100}] (line 39): [0] and [NaN] are falsy. *)
Definition range_max (duration : float) : float :=
  match xv duration with
  | XFin q => if Qeq_bool q 0 then zf 100 else duration
  | XNaN => zf 100
  | XInf _ => duration
  end.

(** What the player shows: the button's icon (lines 25-32: two bars
    while playing, a triangle otherwise), the range's bounds and value,
    and the two labels. *)
Inductive Icon := Pause | Play.

Record View := mk_view {
  icon : Icon;
  range_lo : float;
  range_hi : float;
  range_value : float;
  label_current : option string;
  label_duration : option string
}.

Definition Timeline (isPlaying : bool) (currentTime duration : float) : View :=
  mk_view (if isPlaying then Pause else Play) (zf 0) (range_max duration) currentTime
    (formatTime currentTime) (formatTime duration).

(** The callbacks (lines 22 and 42): the button calls [onPlayPause], the
    range calls [onSeek] with [Number(e.target.value)]. *)
Inductive Callback := OnPlayPause | OnSeek (t : float).

Definition onChange_range (value : float) : Callback := OnSeek value.

(** ** Lemmas *)

(** The label of [k] hundredths of a second, in the format of
    [formatTime]. *)
Definition clock_cs (k : Z) : option string :=
  Some (padStart2 (pretty (k / 6000)) +:+ ":" +:+ padStart2 (pretty ((k / 100) mod 60)) +:+ "." +:+
        padStart2 (pretty (k mod 100))).

Local Open Scope Q_scope.

Lemma Qfloor_unique (z : Z) (x : Q) : (inject_Z z <= x)%Q -> (x < inject_Z (z + 1))%Q -> Qfloor x = z.
Proof.
  intros H1 H2. pose proof (Qfloor_le x) as F1. pose proof (Qlt_floor x) as F2.
  assert (z <= Qfloor x)%Z by (apply Qfloor_resp_le in H1; by rewrite Qfloor_Z in H1).
  assert (Qfloor x < z + 1)%Z.
  { apply Z.nle_gt. intros Hc. apply (Qlt_not_le x (inject_Z (z + 1))); [exact H2|].
    apply Qle_trans with (inject_Z (Qfloor x)); [by apply inject_Z_le_iff | exact F1]. }
  lia.
Qed.

(** [Math.floor(x / 60)] of an exact non-negative value. *)
Lemma Qfloor_div60 (x q : Q) : (0 <= x)%Q -> q == 60 -> Qfloor (x / q) = (Qfloor x / 60)%Z.
Proof.
  intros Hx Hq. rewrite Hq. apply Qfloor_unique.
  - pose proof (Qfloor_le x) as F. pose proof (Z.mul_div_le (Qfloor x) 60 ltac:(lia)) as D.
    apply inject_Z_le_iff in D. rewrite inject_Z_mult in D.
    apply Qle_shift_div_l; [reflexivity|]. change (inject_Z 60) with (60 # 1) in D. lra.
  - pose proof (Qlt_floor x) as F. pose proof (Z.mod_pos_bound (Qfloor x) 60 ltac:(lia)) as M.
    pose proof (Z.div_mod (Qfloor x) 60 ltac:(lia)) as D.
    assert (Hz : (Qfloor x + 1 <= 60 * (Qfloor x / 60 + 1))%Z) by lia.
    apply inject_Z_le_iff in Hz. rewrite !inject_Z_plus, !inject_Z_mult, !inject_Z_plus in Hz.
    apply Qlt_shift_div_r; [reflexivity|]. rewrite inject_Z_plus in F |- *.
    change (inject_Z 60) with (60 # 1) in Hz. change (inject_Z 1) with (1 # 1) in *. lra.
Qed.

(** [x - 60 * Math.trunc(x / 60)] on an exact non-negative value. *)
Lemma Qfloor_rem60 (x : Q) : 0 <= x -> Qfloor (x - 60 * inject_Z (Qfloor x / 60)) = (Qfloor x mod 60)%Z.
Proof.
  intros Hx. pose proof (Qfloor_le x) as F1. pose proof (Qlt_floor x) as F2.
  pose proof (Z.div_mod (Qfloor x) 60 ltac:(lia)) as D. apply (f_equal inject_Z) in D.
  rewrite inject_Z_plus, inject_Z_mult in D. change (inject_Z 60) with (60 # 1) in D.
  assert (D' : inject_Z (Qfloor x) == 60 * inject_Z (Qfloor x / 60) + inject_Z (Qfloor x mod 60)) by (rewrite D; reflexivity).
  clear D. rewrite inject_Z_plus in F2. change (inject_Z 1) with (1 # 1) in F2.
  apply Qfloor_unique; rewrite ?inject_Z_plus; change (inject_Z 1) with (1 # 1); lra.
Qed.

Local Open Scope Z_scope.

Definition label_eqb (a b : option string) : bool :=
  match a, b with Some a, Some b => String.eqb a b | None, None => true | _, _ => false end.

Definition whole_seconds_ok (n : Z) : bool := label_eqb (formatTime (zf n)) (clock_cs (100 * n)).

Definition hundredths_ok (k : Z) : bool :=
  let l := formatTime (zf k / zf 100)%float in label_eqb l (clock_cs k) || label_eqb l (clock_cs (k - 1)).

Lemma label_eqb_eq a b : label_eqb a b = true -> a = b.
Proof. destruct a, b; cbn; try discriminate; [|done]. by intros ->%String.eqb_eq. Qed.

Lemma whole_seconds_check : all_range whole_seconds_ok 0 (Z.to_nat 3600) = true.
Proof. vm_compute. reflexivity. Qed.

Lemma hundredths_check : all_range hundredths_ok 0 (Z.to_nat 3000) = true.
Proof. vm_compute. reflexivity. Qed.

(** ** Theorems *)

(** C39: the seconds field of [formatTime] (line 13) is, for every
    finite non-negative time, the whole seconds modulo 60: the exact
    remainder never leaves [0, 60) and [Math.floor] of it is
    [floor(t) mod 60]. *)
Theorem seconds_of_field (t : float) (x : Q) :
  xv t = XFin x -> (0 <= x)%Q ->
  seconds_of t = XFin (inject_Z (Qfloor x mod 60)) /\ 0 <= Qfloor x mod 60 < 60.
Proof.
  intros Ht Hx. destruct (zf_exact 60 ltac:(lia)) as (q & Hq & Hq60).
  split; [|apply Z.mod_pos_bound; lia].
  unfold seconds_of. rewrite Ht, Hq. cbn [rem_x].
  destruct (Qeq_bool q 0) eqn:E; [apply Qeq_bool_eq in E; rewrite Hq60 in E; discriminate|].
  unfold qtrunc. rewrite (Qfloor_div60 x q Hx Hq60).
  assert (Hp : Qle_bool 0 (x / q) = true).
  { apply Qle_bool_iff. rewrite Hq60. apply Qle_shift_div_l; [reflexivity | lra]. }
  rewrite Hp. cbn [floor_x]. by rewrite Hq60, Qfloor_rem60.
Qed.

(** Every whole second of the first hour is shown as [mm:ss.00]. *)
Theorem formatTime_whole_seconds (n : Z) : 0 <= n < 3600 -> formatTime (zf n) = clock_cs (100 * n).
Proof. intros Hn. apply label_eqb_eq, (all_range_Z _ 0 3600 whole_seconds_check). lia. Qed.

(** C40: a time given in hundredths of a second ([k / 100], the double
    nearest it) is shown with [k] hundredths or one less: the rounded
    product [(t % 1) * 100] can fall just below the integer, and
    [Math.floor] then drops a hundredth.  Checked on the first half
    minute. *)
Theorem formatTime_hundredths (k : Z) :
  0 <= k < 3000 ->
  formatTime (zf k / zf 100)%float = clock_cs k \/ formatTime (zf k / zf 100)%float = clock_cs (k - 1).
Proof.
  intros Hk. pose proof (all_range_Z _ 0 3000 hundredths_check k ltac:(lia)) as H.
  unfold hundredths_ok in H. apply orb_prop in H as [H|H]; [left|right]; by apply label_eqb_eq.
Qed.

(** What the player shows for 0.29 s of a video whose duration is
    still [NaN]: the current time reads [00:00.28], the duration
    [NaN:NaN.NaN], and the range falls back to [0, 100]. *)
Example timeline_lag_and_nan :
  let v := Timeline false (zf 29 / zf 100)%float PrimFloat.nan in
  icon v = Play /\ label_current v = Some "00:00.28" /\ label_duration v = Some "NaN:NaN.NaN" /\
  range_hi v = zf 100.
Proof. vm_compute. split_and!; reflexivity. Qed.

End TimelinePlayer.

(** ** Witnesses *)

Module TimelineWitness.
Import TimelinePlayer.

Lemma seconds_of_field_witness :
  seconds_of (zf 125) = XFin (inject_Z (Qfloor (8796093022208000 # 70368744177664) mod 60)) /\
  (0 <= Qfloor (8796093022208000 # 70368744177664) mod 60 < 60)%Z.
Proof.
  assert (Hx : xv (zf 125) = XFin (8796093022208000 # 70368744177664)) by (vm_compute; reflexivity).
  assert (H0 : (0 <= 8796093022208000 # 70368744177664)%Q) by (vm_compute; discriminate).
  exact (seconds_of_field (zf 125) _ Hx H0).
Defined.

Lemma formatTime_whole_seconds_witness : formatTime (zf 125) = clock_cs (100 * 125).
Proof. exact (formatTime_whole_seconds 125 ltac:(lia)). Defined.

Lemma formatTime_hundredths_witness :
  formatTime (zf 29 / zf 100)%float = clock_cs 29 \/ formatTime (zf 29 / zf 100)%float = clock_cs (29 - 1).
Proof. exact (formatTime_hundredths 29 ltac:(lia)). Defined.

End TimelineWitness.
