(* ===== verification/Publish.v ===== *)
(** * Publishing from the export modal

    src/App.tsx, [handlePostToProfile] (lines 623-707) as the code runs
    it, with the export modal (lines 1035-1100) and [blobToBase64]
    (lines 147-154).  An image is posted at once.  A video starts a
    [MediaRecorder] and returns; three seconds later the timer stops the
    recorder, whose [onstop] awaits [blobToBase64] and then calls
    [createPost] with the user and the caption its closure captured at
    the click.  Between the click and these continuations the user can
    type, close the modal, leave the editor, open the profile or log
    out: every interleaving is a sequence of steps.

    Module [PublishFlow] runs on the session and the store of Auth.v and
    Storage.v (the sign-in screen, the profile and the landing page are
    Auth.v's [step]) with the export modal's state: its visibility,
    [exportCaption], [isPostingVideo], the source kind that shows the
    video button, and the continuations waiting for the browser.  The
    App renders the editor, and so the modal, whenever the mode is not
    [LANDING] or [AUTH] and not [PROFILE] with a user (lines 771-875).

    The theorems: at most one video post is in flight, in every
    reachable state; a failed encoding leaves the store and the session
    as they were; the caption typed while the loop records is not the
    one posted; and a video post that completes after a logout is
    published under the logged-out user and leaves the App in [PROFILE]
    mode without a user, which renders the editor. *)

From Stdlib Require Import String.
From stdpp Require Import strings gmap list.
From S2P Require Import Prelude Storage Render Auth.
Import Orchestrator.

Module PublishFlow.
Import AuthScreen.

(** ** The state *)

(** A video post waiting for the browser: the timer and [onstop] up to
    its [await] ([VStop]), then the rest of [onstop] ([VEncoded]), with
    the user and the caption the click captured. *)
Inductive VTask := VStop (u : User) (cap : string) | VEncoded (u : User) (cap : string).

Record Export := mk_export {
  showExportModal : bool;
  exportCaption : string;
  isPostingVideo : bool;
  sourceVideo : bool;       (* [sourceType === 'video'], set by the editor's uploads *)
  vtasks : list VTask
}.

Record St := mk_st { sess : Session; exp : Export; db : store }.

Definition set_exp (x : Export) (st : St) : St := mk_st (sess st) x (db st).
Definition set_sess (ss : Session) (st : St) : St := mk_st ss (exp st) (db st).
Definition set_db (s : store) (st : St) : St := mk_st (sess st) (exp st) s.

Definition with_modal (b : bool) (x : Export) : Export :=
  mk_export b (exportCaption x) (isPostingVideo x) (sourceVideo x) (vtasks x).
Definition with_caption (c : string) (x : Export) : Export :=
  mk_export (showExportModal x) c (isPostingVideo x) (sourceVideo x) (vtasks x).
Definition with_posting (b : bool) (x : Export) : Export :=
  mk_export (showExportModal x) (exportCaption x) b (sourceVideo x) (vtasks x).
Definition with_source (b : bool) (x : Export) : Export :=
  mk_export (showExportModal x) (exportCaption x) (isPostingVideo x) b (vtasks x).
Definition with_vtasks (l : list VTask) (x : Export) : Export :=
  mk_export (showExportModal x) (exportCaption x) (isPostingVideo x) (sourceVideo x) l.

Definition upd_exp (f : Export -> Export) (st : St) : St := set_exp (f (exp st)) st.

(** What the App renders (lines 771, 786, 806 and 875). *)
Inductive Screen := SAuth | SProfile | SLanding | SEditor.

Definition screen (ss : Session) : Screen :=
  match appMode ss with
  | AUTH => SAuth
  | PROFILE => match currentUser ss with Some _ => SProfile | None => SEditor end
  | LANDING => SLanding
  | IMAGE | CAMERA => SEditor
  end.

Definition in_editor (st : St) : bool := if screen (sess st) is SEditor then true else false.

(** [exportCaption || 'UNTITLED SIGNAL']. *)
Definition caption_or_untitled (c : string) : string :=
  if bool_decide (c = EmptyString) then "UNTITLED SIGNAL" else c.

Section Flow.

Variable fits : store -> bool.

(** No user (lines 624-628): the modal closes and the sign-in screen
    opens. *)
Definition no_user (st : St) : St :=
  mk_st (enter_auth (sess st)) (with_modal false (exp st)) (db st).

(** A successful [createPost] (lines 662-663 and 700-701): the modal
    closes and the profile opens. *)
Definition posted (s' : store) (st : St) : St :=
  mk_st (set_mode PROFILE (sess st)) (with_modal false (exp st)) s'.

(** The image branch (lines 688-706): [media] is the AI image in the AI
    tab or [canvas.toDataURL('image/png')]; an empty one posts nothing;
    an error is an alert. *)
Definition postImage (media : string) (now : Z) (pid : string) (st : St) : St :=
  match currentUser (sess st) with
  | None => no_user st
  | Some u =>
      if bool_decide (media = EmptyString) then st
      else match createPost fits u media (caption_or_untitled (exportCaption (exp st))) PImage now pid (db st) with
           | (Ok _, s') => posted s' st
           | (Throw _, s') => set_db s' st
           end
  end.

(** The video branch up to its [return] (lines 632-686): without a
    canvas nothing happens; when the recorder cannot start
    ([ok = false]) [isPostingVideo] is set and reset at once; otherwise
    it is set and the timer is pending. *)
Definition postVideo (ok : bool) (st : St) : St :=
  match currentUser (sess st) with
  | None => no_user st
  | Some u =>
      if ok then upd_exp (fun x => with_vtasks (vtasks x ++ [VStop u (exportCaption x)]) (with_posting true x)) st
      else st
  end.

(** A continuation the browser runs: the timer's [recorder.stop()] and
    [onstop] up to [await blobToBase64] (lines 655-657), then the rest
    of [onstop] with the encoding's outcome ([None]: rejected, lines
    667-668) and the [finally] (line 670). *)
Definition run_vtask (t : VTask) (enc : option string) (now : Z) (pid : string) (st : St) : St :=
  match t with
  | VStop u c => upd_exp (fun x => with_vtasks (vtasks x ++ [VEncoded u c]) x) st
  | VEncoded u c =>
      let st := upd_exp (with_posting false) st in
      match enc with
      | None => st
      | Some data =>
          match createPost fits u data (caption_or_untitled c) PVideo now pid (db st) with
          | (Ok _, s') => posted s' st
          | (Throw _, s') => set_db s' st
          end
      end
  end.

(** The user's actions and the browser's continuations. *)
Inductive PAction :=
  | PAuth (a : Action)                            (* the sign-in screen, profile and landing buttons of Auth.v *)
  | PEnter (m : AppMode)                          (* landing page: Upload and Camera (lines 849 and 858) *)
  | PLogo                                         (* the editor's logo (line 886) *)
  | PSource (video : bool)                        (* the editor's source becomes a video or an image *)
  | POpen                                         (* Export Signal (line 936) *)
  | PCaption (c : string)                         (* the caption input (line 1045) *)
  | PCancel                                       (* Cancel (line 1091) *)
  | PPostImage (media : string) (now : Z) (pid : string)  (* Publish PNG (line 1061) *)
  | PPostVideo (ok : bool)                        (* Publish 3s Loop (line 1070) *)
  | PRun (i : nat) (enc : option string) (now : Z) (pid : string).

Definition modal_open (st : St) : bool := in_editor st && showExportModal (exp st).

Definition step (a : PAction) (st : St) : St :=
  match a with
  | PAuth (APost _ _ _ _ _) => st
  | PAuth a => let '(ss, s) := AuthScreen.step fits a (sess st) (db st) in mk_st ss (exp st) s
  | PEnter m =>
      if (if screen (sess st) is SLanding then true else false) &&
         (match m with IMAGE | CAMERA => true | _ => false end)
      then set_sess (set_mode m (sess st)) st else st
  | PLogo => if in_editor st then set_sess (set_mode LANDING (sess st)) st else st
  | PSource b => if in_editor st then upd_exp (with_source b) st else st
  | POpen => if in_editor st then upd_exp (with_modal true) st else st
  | PCaption c => if modal_open st then upd_exp (with_caption c) st else st
  | PCancel => if modal_open st then upd_exp (with_modal false) st else st
  | PPostImage media now pid => if modal_open st then postImage media now pid st else st
  | PPostVideo ok =>
      if modal_open st && (is_mode CAMERA (sess st) || sourceVideo (exp st)) && negb (isPostingVideo (exp st))
      then postVideo ok st else st
  | PRun i enc now pid =>
      match vtasks (exp st) !! i with
      | Some t => run_vtask t enc now pid (upd_exp (fun x => with_vtasks (delete i (vtasks x)) x) st)
      | None => st
      end
  end.

(** The App loads (Auth.v's [load]) with the modal closed and nothing
    recording. *)
Definition initial_export : Export := mk_export false "" false false [].

Inductive reachable : St -> Prop :=
  | reach_load s : Storage.reachable fits s -> reachable (mk_st (fst (load s)) initial_export s)
  | reach_step a st : reachable st -> reachable (step a st).

End Flow.

(** ** Invariant *)

(** One video post in flight exactly while [isPostingVideo] holds. *)
Definition posting_ok (st : St) : Prop := length (vtasks (exp st)) = Nat.b2n (isPostingVideo (exp st)).

(** ** Lemmas *)

Section Lemmas.

Variable fits : store -> bool.

Lemma postImage_exp media now pid st :
  vtasks (exp (postImage fits media now pid st)) = vtasks (exp st) /\
  isPostingVideo (exp (postImage fits media now pid st)) = isPostingVideo (exp st).
Proof. unfold postImage. repeat case_match; by split. Qed.

Lemma run_vtask_exp t enc now pid st :
  vtasks (exp (run_vtask fits t enc now pid st)) =
    vtasks (exp st) ++ (match t with VStop u c => [VEncoded u c] | VEncoded _ _ => [] end) /\
  isPostingVideo (exp (run_vtask fits t enc now pid st)) =
    (match t with VStop _ _ => isPostingVideo (exp st) | VEncoded _ _ => false end).
Proof. unfold run_vtask. repeat case_match; cbn; rewrite ?app_nil_r; by split. Qed.

Lemma step_posting_ok a st : posting_ok st -> posting_ok (step fits a st).
Proof.
  unfold posting_ok. intros H. destruct a as [a| | | | | | | | |i enc now pid]; cbn [step].
  - destruct a; try done; cbn; by repeat case_match.
  - by case_match.
  - by case_match.
  - by case_match.
  - by case_match.
  - by case_match.
  - by case_match.
  - case_match; [|done]. by destruct (postImage_exp media now pid st) as [-> ->].
  - destruct (_ && _ && _) eqn:G; [|done]. apply andb_prop in G as [_ G].
    apply negb_true_iff in G. unfold postVideo. case_match; [|done]. destruct ok; [|done].
    cbn. rewrite length_app, H, G. reflexivity.
  - destruct (vtasks (exp st) !! i) as [t|] eqn:E; [|done].
    destruct (run_vtask_exp t enc now pid (upd_exp (fun x => with_vtasks (delete i (vtasks x)) x) st)) as [-> ->].
    cbn. rewrite length_app, length_delete by (by eexists).
    destruct (isPostingVideo (exp st)); cbn in H |- *; destruct t; cbn;
      apply lookup_lt_Some in E; lia.
Qed.

End Lemmas.

(** ** Theorems *)

(** C26: at most one video post is in flight: in every reachable state
    the pending continuation of a video post exists exactly while
    [isPostingVideo] holds, the flag that disables the button. *)
Theorem reachable_one_video_post fits st :
  reachable fits st -> length (vtasks (exp st)) = Nat.b2n (isPostingVideo (exp st)).
Proof. induction 1; [done|]. by apply step_posting_ok. Qed.

(** The state a video post starts from: the editor in camera mode with
    the modal open, a user signed in, nothing recording. *)
Definition ready (st : St) (u : User) : Prop :=
  appMode (sess st) = CAMERA /\ currentUser (sess st) = Some u /\ showExportModal (exp st) = true /\
  isPostingVideo (exp st) = false /\ vtasks (exp st) = [].

Ltac ready_tac H :=
  let m := fresh "m" in let f := fresh "f" in let c := fresh "c" in let sv := fresh "sv" in
  destruct H as (Hm & Hu & Hs & Hp & Hv);
  match goal with st : St |- _ =>
    destruct st as [[m ? f] [? c ? sv ?] ?]; cbn in Hm, Hu, Hs, Hp, Hv; subst end.

(** C29: a video post whose encoding fails changes nothing: the button
    sets [isPostingVideo], and once the timer and [onstop] have run with
    [blobToBase64] rejected, the session, the modal, the caption and the
    store are exactly as before the click. *)
Theorem video_encoding_failed fits st u now pid :
  ready st u ->
  isPostingVideo (exp (step fits (PPostVideo true) st)) = true /\
  step fits (PRun 0 None now pid) (step fits (PRun 0 None now pid) (step fits (PPostVideo true) st)) = st.
Proof. intros H. ready_tac H. by split. Qed.

(** C28: the caption typed while the loop records is not the one posted.
    The click captures [exportCaption]; a caption typed during the three
    seconds stays in the input, but when the post succeeds the new post,
    first in the store, carries the caption of the click ([UNTITLED
    SIGNAL] when it was empty); when the quota refuses it the store is
    unchanged. *)
Theorem video_caption_captured fits st u c1 d now pid :
  ready st u ->
  let st' := step fits (PRun 0 (Some d) now pid)
               (step fits (PRun 0 None now pid) (step fits (PCaption c1) (step fits (PPostVideo true) st))) in
  exportCaption (exp st') = c1 /\ isPostingVideo (exp st') = false /\
  ((head (getPosts (db st')) =
      Some (mk_post pid (username u) d PVideo (caption_or_untitled (exportCaption (exp st))) now 0) /\
    appMode (sess st') = PROFILE) \/ db st' = db st).
Proof.
  intros H st'. unfold st'. clear st'. ready_tac H. cbn.
  match goal with |- context [createPost fits ?u ?m ?c ?t ?n ?p ?s] =>
    destruct (createPost fits u m c t n p s) as [[q|e] s'] eqn:E end; cbn; split_and!; try done.
  - left. apply createPost_newest_first in E as [-> (n & Hn5 & Hn)]. rewrite Hn. by destruct Hn5 as [-> | ->].
  - right. by apply createPost_fail in E.
Qed.

(** C27: a video post outlives the session that made it.  The user clicks
    Publish, cancels the modal, leaves the editor, opens the profile and
    logs out within the three seconds; when [onstop] runs, [createPost]
    still publishes under the captured user and the App switches to
    [PROFILE] with no user signed in, a mode the App renders as the
    editor.  When the quota refuses the post, the store is the one the
    logout left. *)
Theorem video_post_after_logout fits st u d now pid :
  ready st u ->
  let st5 := fold_left (fun st a => step fits a st)
               [PPostVideo true; PCancel; PLogo; PAuth AOpenProfile; PAuth ALogout] st in
  let st' := step fits (PRun 0 (Some d) now pid) (step fits (PRun 0 None now pid) st5) in
  currentUser (sess st5) = None /\ currentUser (sess st') = None /\
  ((appMode (sess st') = PROFILE /\ screen (sess st') = SEditor /\
    head (getPosts (db st')) =
      Some (mk_post pid (username u) d PVideo (caption_or_untitled (exportCaption (exp st))) now 0)) \/
   db st' = db st5).
Proof.
  intros H st5 st'. unfold st', st5. clear st' st5. ready_tac H. cbn.
  match goal with |- context [createPost fits ?u ?m ?c ?t ?n ?p ?s] =>
    destruct (createPost fits u m c t n p s) as [[q|e] s'] eqn:E end; cbn; split_and!; try done.
  - left. apply createPost_newest_first in E as [-> (n & Hn5 & Hn)]. split_and!; try done.
    rewrite Hn. by destruct Hn5 as [-> | ->].
  - right. by apply createPost_fail in E.
Qed.

End PublishFlow.

(** ** Witnesses *)

Module PublishWitness.
Import AuthScreen PublishFlow.

Definition fits_all : store -> bool := fun _ => true.

(** Alice in the camera editor with the export modal open. *)
Definition alice_ready : St :=
  mk_st (mk_session CAMERA (Some alice) initial_form) (mk_export true "first take" false false []) alice_store.

Lemma alice_ready_ready : ready alice_ready alice.
Proof. by split_and!. Qed.

Lemma reachable_one_video_post_witness :
  let st := step fits_all (PPostVideo true) (step fits_all POpen (step fits_all (PEnter CAMERA)
              (mk_st (fst (load ∅)) initial_export ∅))) in
  length (vtasks (exp st)) = Nat.b2n (isPostingVideo (exp st)).
Proof.
  exact (reachable_one_video_post fits_all _
           (reach_step _ _ _ (reach_step _ _ _ (reach_step _ _ _ (reach_load fits_all ∅ (reach_empty fits_all)))))).
Defined.

Lemma video_encoding_failed_witness :
  isPostingVideo (exp (step fits_all (PPostVideo true) alice_ready)) = true /\
  step fits_all (PRun 0 None 1700000000000 "v1")
    (step fits_all (PRun 0 None 1700000000000 "v1") (step fits_all (PPostVideo true) alice_ready)) = alice_ready.
Proof. exact (video_encoding_failed fits_all alice_ready alice 1700000000000 "v1" alice_ready_ready). Defined.

Lemma video_caption_captured_witness :
  let st' := step fits_all (PRun 0 (Some "data:video/webm;base64,AAAA") 1700000000000 "v1")
               (step fits_all (PRun 0 None 1700000000000 "v1")
                  (step fits_all (PCaption "second take") (step fits_all (PPostVideo true) alice_ready))) in
  exportCaption (exp st') = "second take" /\ isPostingVideo (exp st') = false /\
  ((head (getPosts (db st')) =
      Some (mk_post "v1" (username alice) "data:video/webm;base64,AAAA" PVideo
              (caption_or_untitled (exportCaption (exp alice_ready))) 1700000000000 0) /\
    appMode (sess st') = PROFILE) \/ db st' = db alice_ready).
Proof.
  exact (video_caption_captured fits_all alice_ready alice "second take" "data:video/webm;base64,AAAA"
           1700000000000 "v1" alice_ready_ready).
Defined.

Lemma video_post_after_logout_witness :
  let st5 := fold_left (fun st a => step fits_all a st)
               [PPostVideo true; PCancel; PLogo; PAuth AOpenProfile; PAuth ALogout] alice_ready in
  let st' := step fits_all (PRun 0 (Some "data:video/webm;base64,AAAA") 1700000000000 "v1")
               (step fits_all (PRun 0 None 1700000000000 "v1") st5) in
  currentUser (sess st5) = None /\ currentUser (sess st') = None /\
  ((appMode (sess st') = PROFILE /\ screen (sess st') = SEditor /\
    head (getPosts (db st')) =
      Some (mk_post "v1" (username alice) "data:video/webm;base64,AAAA" PVideo
              (caption_or_untitled (exportCaption (exp alice_ready))) 1700000000000 0)) \/
   db st' = db st5).
Proof.
  exact (video_post_after_logout fits_all alice_ready alice "data:video/webm;base64,AAAA"
           1700000000000 "v1" alice_ready_ready).
Defined.

End PublishWitness.
