(* ===== verification/Randomize.v ===== *)
(** * The Random button

    src/App.tsx, [handleRandomize] (lines 522-566), the Controls panel's
    Random button: new global parameters, a new position, size and
    colour of the text, and new values for the record of the active tab
    (the glitch record outside the ASCII, halftone and blend tabs).

    [Math.random()] is the Prelude's tape; a draw is a double of
    [0, 1), a dyadic rational that [of_dyadic] turns into that double.
    The products and sums are rounded double arithmetic, [Math.floor]
    acts on the exact value, and a comparison [Math.random() > 0.8] is
    [jslt].  The draws are taken in the order of the source (the object
    literal of [setGlobalParams], then the [setTextParams] updater, then
    the tab's updater); a conditional draw is taken only when its
    condition holds.  React runs the two updaters when it renders, which
    may change which draw feeds which updater; the global parameters
    are drawn first in any case, and the theorems hold for every tape
    or for a constant one, so that order does not affect them.

    [panel_reachable] adds the Random button to the events of the
    Controls panel ([ParamStore]).  The theorems: the button changes
    only the global parameters, the text's position, size and colour,
    and the active tab's record; and it is the only control of the
    panel that leaves the ranges of the specification: the other
    controls keep them, and from every state the panel reaches a press
    of Random can leave them (a draw of 15/16 gives a saturation of
    3.3125, above the [0, 3] of section 4.1). *)

From Stdlib Require Import String.
From stdpp Require Import strings list.
From S2P Require Import Prelude Blend Pipeline Draw Render Params.
Import Orchestrator.

#[local] Set Warnings "-inexact-float".

Module RandomButton.
Import ParamStore.

Local Open Scope rand_scope.

(** [Math.random()] as the double it returns: the draw taken down to a
    multiple of 2^-53, a double of [0, 1) (ECMA-262 leaves the choice of
    the double to the engine; V8 returns multiples of 2^-52 or 2^-53). *)
Definition random_f : RandM float :=
  fun r => let '(q, r') := random r in (of_dyadic (Qfloor (q * inject_Z (2 ^ 53)) # (2 ^ 53)), r').

(** [Math.floor] of a double, as a double. *)
Definition jfloor (f : float) : float := match js_floor f with Some z => zf z | None => f end.

(** [Math.floor] of a double stored in an integer field of the model;
    the product of a draw and a small integer is finite, so the [None]
    branch is not taken. *)
Definition zfloor (f : float) : Z := match js_floor f with Some z => z | None => 0%Z end.

(** [Math.random() > c ? k : e] draws again only when the first draw
    is above [c]. *)
Definition draw_if (c : float) (k : RandM float) (e : float) : RandM float :=
  t <- random_f ;; if jslt c t then k else rret e.

(** [setGlobalParams({ ... })] (lines 523-532). *)
Definition randomGlobal : RandM GlobalParams :=
  r1 <- random_f ;; r2 <- random_f ;; r3 <- random_f ;;
  vib <- draw_if 0.8 (r <- random_f ;; rret (r * 20)%float) (zf 0) ;;
  r5 <- random_f ;; r6 <- random_f ;; r7 <- random_f ;;
  th <- draw_if 0.7 (r <- random_f ;; rret (jfloor (r * 200)%float)) (zf 0) ;;
  rret (mk_global_params (0.8 + r1 * 0.4)%float (r2 * 2)%float (jfloor (r3 * 360)%float) vib
          (0.5 + r5 * 3)%float (0.5 + r6 * 1.5)%float (0.5 + r7 * 1.5)%float th).

Definition text_colors : list string := ["#ff0000"; "#00ff00"; "#0000ff"; "#ffffff"; "#ffff00"].

(** The [setTextParams] updater (lines 535-541): content, font and
    weight kept. *)
Definition randomText (p : TextStage.TextParams) : RandM TextStage.TextParams :=
  rx <- random_f ;; ry <- random_f ;; rs <- random_f ;; rc <- random_f ;;
  rret (TextStage.mk_text_params (TextStage.content p) (TextStage.font p)
          (jfloor (rs * 50)%float + zf 10)%float (jfloor (rx * 80)%float + zf 10)%float
          (jfloor (ry * 80)%float + zf 10)%float
          (nth (Z.to_nat (zfloor (rc * 5)%float)) text_colors EmptyString) (TextStage.isBold p)).

(** The ASCII updater (lines 544-551). *)
Definition randomAscii (p : AsciiStage.AsciiParams) : RandM AsciiStage.AsciiParams :=
  rs <- random_f ;; rc <- random_f ;; ri <- random_f ;;
  rret (AsciiStage.mk_ascii_params (jfloor (rs * 12)%float + zf 4)%float (0.8 + rc)%float
          (AsciiStage.colorMode p) (jslt 0.5 ri) (AsciiStage.chars p) "#ffffff" "#000000").

(** The halftone updater (lines 553-560): the shape draws a second time
    only when the first draw is not above 0.6. *)
Definition randomHalftone (p : HalftoneStage.HalftoneParams) : RandM HalftoneStage.HalftoneParams :=
  rr <- random_f ;; ra <- random_f ;; s1 <- random_f ;;
  shape <- (if jslt 0.6 s1 then rret "circle"
            else s2 <- random_f ;; rret (if jslt 0.5 s2 then "line" else "diamond")) ;;
  rret (HalftoneStage.mk_halftone_params (jfloor (rr * 10)%float + zf 2)%float (jfloor (ra * 90)%float)
          (HalftoneStage.contrast p) shape (HalftoneStage.colorMode p) "#ffffff" "#000000").

Definition blend_modes : list BlendMode := [Displacement; Difference; HardMix; Interlace].

(** The blend updater (line 562). *)
Definition randomBlend (p : BlendParams) : RandM BlendParams :=
  rm <- random_f ;; rs <- random_f ;; rt <- random_f ;; ro <- random_f ;;
  rret (mk_blend_params (nth (Z.to_nat (zfloor (ro * 4)%float)) blend_modes (Blend.mode p))
          (zfloor (rm * 100)%float) (zfloor (rt * 255)%float) (zfloor (rs * 100)%float)).

(** The glitch updater (line 564); [seed] is a fractional double. *)
Definition randomGlitch (p : GlitchParams) : RandM GlitchParams :=
  rs <- random_f ;; rr <- random_f ;; rb <- random_f ;; rl <- random_f ;;
  ps <- draw_if 0.7 (r <- random_f ;; rret (jfloor (r * 20)%float)) (zf 0) ;;
  rret (mk_glitch_params (amount p) (rs * 1000)%float (iterations p) (quality p)
          (zfloor (rr * 20)%float) (zfloor (rb * 50)%float) (zfloor (rl * 5)%float) (zfloor ps)).

Definition with_params (g : GlobalParams) (t : TextStage.TextParams) (a : AsciiStage.AsciiParams)
  (h : HalftoneStage.HalftoneParams) (b : BlendParams) (gl : GlitchParams) (st : AppState) : AppState :=
  mk_app_state (appMode st) (sourceType st) (activeTab st) (activeLayers st) gl a h b t
    (blendType st) g (facingMode st).

(** [handleRandomize] (lines 522-566). *)
Definition handleRandomize (st : AppState) : RandM AppState :=
  g <- randomGlobal ;; t <- randomText (textParams st) ;;
  match activeTab st with
  | ASCII => a <- randomAscii (asciiParams st) ;;
      rret (with_params g t a (halftoneParams st) (blendParams st) (glitchParams st) st)
  | HALFTONE => h <- randomHalftone (halftoneParams st) ;;
      rret (with_params g t (asciiParams st) h (blendParams st) (glitchParams st) st)
  | BLEND => b <- randomBlend (blendParams st) ;;
      rret (with_params g t (asciiParams st) (halftoneParams st) b (glitchParams st) st)
  | _ => gl <- randomGlitch (glitchParams st) ;;
      rret (with_params g t (asciiParams st) (halftoneParams st) (blendParams st) gl st)
  end.

(** ** Lemmas *)

Lemma randomize_global st r : globalParams (fst (handleRandomize st r)) = fst (randomGlobal r).
Proof.
  unfold handleRandomize, rbind. destruct (randomGlobal r) as [g r1].
  destruct (randomText _ r1) as [t r2]. by destruct (activeTab st); repeat case_match.
Qed.

Lemma randomText_keeps p r :
  TextStage.content (fst (randomText p r)) = TextStage.content p /\
  TextStage.font (fst (randomText p r)) = TextStage.font p /\
  TextStage.isBold (fst (randomText p r)) = TextStage.isBold p.
Proof. unfold randomText, rbind. by repeat case_match. Qed.

(** A tape that always draws 15/16. *)
Definition tape_15_16 : rng := mk_rng (fun _ => 15 # 16) 0.

Lemma tape_15_16_valid : rng_valid tape_15_16.
Proof. intros n. cbn. split; [intros H; discriminate H | reflexivity]. Qed.

(** The Controls panel with its Random button: the events of
    [ParamStore] and a press of Random on a valid tape.  The button is
    shown whenever the panel is (Timeline.tsx, lines 174-179). *)
Inductive panel_reachable : AppState -> Prop :=
  | panel_init : panel_reachable initial_state
  | panel_event st e : panel_reachable st -> event_ok st e = true -> panel_reachable (apply_event st e)
  | panel_random st r : panel_reachable st -> rng_valid r -> panel_reachable (fst (handleRandomize st r)).

#[local] Hint Constructors panel_reachable : core.

Lemma reachable_panel st : reachable st -> panel_reachable st.
Proof. induction 1; eauto. Qed.

(** On the tape of 15/16s the saturation becomes [0.5 + 0.9375 * 3 =
    3.3125], whatever the state, and the parameters leave the ranges. *)
Lemma randomize_leaves_spec st :
  saturation (globalParams (fst (handleRandomize st tape_15_16))) = 3.3125%float /\
  params_in_spec (fst (handleRandomize st tape_15_16)) = false.
Proof.
  unfold params_in_spec. rewrite randomize_global.
  split; [vm_compute; reflexivity|].
  assert (H : global_in_spec (fst (randomGlobal tape_15_16)) = false) by (vm_compute; reflexivity).
  by rewrite H.
Qed.

(** ** Theorems *)

(** C30: the Random button is the only control of the Controls panel
    that leaves the ranges of the specification: every parameter set the
    other controls reach is in range (but for a hue rotation of exactly
    360, the Color Matrix slider's maximum), and from every state the
    whole panel reaches, Random included, one press of Random on a valid
    tape leads to a state out of range (a saturation of 3.3125, above
    the [[0, 3]] of section 4.1). *)
Theorem panel_random_only_leaves_spec :
  (forall st, reachable st ->
     params_in_spec st = true \/
     (jsle (zf 360) (colormatrix (globalParams st)) && jsle (colormatrix (globalParams st)) (zf 360)) = true) /\
  (forall st, panel_reachable st ->
     exists r, rng_valid r /\ panel_reachable (fst (handleRandomize st r)) /\
       params_in_spec (fst (handleRandomize st r)) = false).
Proof.
  split; [exact reachable_params_in_spec|].
  intros st Hst. exists tape_15_16.
  split_and!; [exact tape_15_16_valid | eauto using tape_15_16_valid | apply randomize_leaves_spec].
Qed.

(** C31: the button changes only the global parameters, the text's
    position, size and colour, and the record of the active tab (the
    glitch record outside the ASCII, halftone and blend tabs): for every
    tape, the mode, the source, the tab, the layers, the blend source,
    the camera, the text's content, font and weight, and the records of
    the other tabs are kept. *)
Theorem randomize_frame st r :
  let st' := fst (handleRandomize st r) in
  appMode st' = appMode st /\ sourceType st' = sourceType st /\ activeTab st' = activeTab st /\
  activeLayers st' = activeLayers st /\ blendType st' = blendType st /\ facingMode st' = facingMode st /\
  TextStage.content (textParams st') = TextStage.content (textParams st) /\
  TextStage.font (textParams st') = TextStage.font (textParams st) /\
  TextStage.isBold (textParams st') = TextStage.isBold (textParams st) /\
  (activeTab st <> ASCII -> asciiParams st' = asciiParams st) /\
  (activeTab st <> HALFTONE -> halftoneParams st' = halftoneParams st) /\
  (activeTab st <> BLEND -> blendParams st' = blendParams st) /\
  (activeTab st = ASCII \/ activeTab st = HALFTONE \/ activeTab st = BLEND -> glitchParams st' = glitchParams st).
Proof.
  cbv zeta. unfold handleRandomize, rbind. destruct (randomGlobal r) as [g r1].
  pose proof (randomText_keeps (textParams st) r1) as Ht.
  destruct (randomText _ r1) as [t r2]; cbn in Ht.
  destruct (activeTab st) eqn:Htab; repeat case_match; cbn; split_and!; intros;
    repeat match goal with H : _ \/ _ |- _ => destruct H end; naive_solver.
Qed.

End RandomButton.

(** ** Witness *)

Module RandomWitness.
Import ParamStore RandomButton.

Lemma panel_random_only_leaves_spec_witness :
  (params_in_spec initial_state = true \/
   (jsle (zf 360) (colormatrix (globalParams initial_state))
    && jsle (colormatrix (globalParams initial_state)) (zf 360)) = true) /\
  exists r, rng_valid r /\ panel_reachable (fst (handleRandomize initial_state r)) /\
    params_in_spec (fst (handleRandomize initial_state r)) = false.
Proof.
  split.
  - exact (proj1 panel_random_only_leaves_spec initial_state reach_init).
  - exact (proj2 panel_random_only_leaves_spec initial_state panel_init).
Defined.

End RandomWitness.
